(* ===== verification/_CoqProject ===== *)
-Q . S2P
Prelude.v
GoLib.v
Netip.v
Schema.v
Store.v
Slicex.v
HostNames.v
Http.v
Compare.v
Joins.v
GroupBy.v
Timebucket.v
Like.v
Filterx.v
Geoip.v
PolicyCache.v
NetipText.v
Crypto.v
PolicyService.v
PolicySpec.v
PolicyVerify.v
PolicyView.v
AccessLog.v
AccessLogSpec.v
DecisionLog.v
Rollup.v
RollupSpec.v
RollupJobSpec.v
HostSuggestions.v
AccessLogView.v
AccessLogViewSpec.v
Device.v
DeviceInv.v
DeviceSpec.v
DeviceHttp.v
AddressHistory.v
AddressHistorySpec.v
Interfaces.v
Rule.v
Lease.v
LeaseSpec.v
MaxAddr.v
Hosts.v
HostsSpec.v
UserAccess.v
HostViews.v
NetworkPolicies.v
NetworkPoliciesSpec.v
Pairing.v
PairingSpec.v
Queries.v
QueriesSpec.v
Posture.v
PostureSpec.v
Auth.v
AuthInv.v
AuthSpec.v
Web.v
HttpServer.v
HttpServerSpec.v
WorldInv.v
App.v
AppOps.v
Freshness.v
AuthSafety.v
TablesInv.v
AppSpec.v
EndToEnd.v
Heartbeat.v
Scheduler.v
Counted.v
Config.v
Startup.v
Examples.v
