(* ===== verification/Prelude.v ===== *)
(** * PulseWeaver: a verification library of the Go service

    PulseWeaver is a forward-auth service.  A reverse proxy asks it, for
    every request, whether the client's IP address may reach the requested
    host.  Devices report the addresses they use (heartbeats); an address is
    enabled until it is disabled by an administrator, by the expiry of its
    lease, by the limit on a device's active addresses, or with its device.
    Users own devices and are granted groups of hosts; network policies let
    whole CIDR ranges through.  All this is kept in SQLite; decisions are
    made from an in-memory cache that is rebuilt when an observer signals a
    change, and periodically.  Decisions are logged, the log is rolled up by
    the hour, and administrators read both through a web interface.

    The library is a shallow embedding of the packages under [src/internal]
    that carry this logic.  Every operation is an executable definition, and
    the theorems are about those definitions.  A file [X] models a component,
    [XInv] and [XSpec] hold the theorems that need more than a few lemmas.

    ** Layers and files

    - Prelude (this file): generic lemmas on tables ([gmap]s read as lists of
      rows), ordered lists and filters; the hint database [pw].  Compare,
      Joins, GroupBy: what the queries use of SQL ([ORDER BY] of several
      keys, outer joins collapsed to lists, groups and their aggregates).
    - GoLib, Netip, NetipText, Crypto, Http: what the program uses of Go's
      standard library ([strings], [net/netip] with the inverse of printing
      and parsing, SHA-256, base64url) and the generated responses.  They
      have no code of their own under [src].
    - Schema: the rows of the tables, the domain events and the sentinel
      errors, with the Go names.  Store: [database/db.go],
      [database/errors.go], the monad [M] (below).
    - Slicex: [slicex/slicex.go], [collate/collate.go].  HostNames:
      [hosts/params.go].  Timebucket: [timebucket].  Like, Filterx:
      [database/like.go], [filterx].  Geoip: [geoip], [httpapi/geo.go].
    - PolicyCache: [policy/cache.go].  PolicyService: the rest of [policy]
      ([Decide], [VerifyAccess], the forward-auth and simulation handlers,
      decision events, the refresh).  PolicySpec, PolicyVerify.  PolicyView:
      the audit by user ([policy/policy_user_view.go]).
    - AccessLog, AccessLogSpec: the log's writer and sink ([accesslog]).
      DecisionLog: the handler, the sink and the log together.
      AccessLogView, AccessLogViewSpec: the list, its filters, cursors and
      histogram.  Rollup, RollupSpec, RollupJobSpec: [rollup].
    - Device, DeviceInv, DeviceSpec: [device] (service, repositories,
      observers).  DeviceHttp: its handlers and lists.  AddressHistory,
      AddressHistorySpec: the history of addresses and the tuning of leases.
    - Interfaces: the Go interfaces [lease] and [maxaddr] are written
      against, as classes with the laws their clients rely on.
    - Rule: [rule].  Lease, LeaseSpec: [lease].  MaxAddr: [maxaddr].
    - Hosts, HostsSpec, HostViews: [hosts].  UserAccess: [useraccess].
      NetworkPolicies, NetworkPoliciesSpec: [networkpolicies].
    - Pairing, PairingSpec: [devicepairing].
    - Queries, QueriesSpec (users' pages, fleet), HostSuggestions, Posture,
      PostureSpec: [queries].
    - Auth, AuthInv, AuthSpec: [auth].  Web: headers, limits and error
      answers ([httpserver], [ui], [health]).  HttpServer, HttpServerSpec:
      the client's address and the chain of the API ([httpserver]).
    - App: the observers and interfaces as [app/app.go] wires them.  AppOps:
      the operations of the program as one type.  WorldInv: invariants of
      the queues.  TablesInv: the tables any operations leave behind.
      Freshness, AppSpec, EndToEnd, AuthSafety, Heartbeat: theorems on the
      program as a whole.  Scheduler: [scheduler] with the jobs registered.
      Counted: the sink, the rollup and the retention over whole runs.
      Config: [config].  Startup: the start of the program ([app]).
      Examples: one concrete database, at which theorems are applied.

    ** How code is modelled

    - A service call is a computation of [M A]: it reads whether its context
      carries a transaction, threads the [world] (database, clock, random
      source, event queues, refresh signal) and returns a value or an error.
      A Go function that mutates rows is a function on the world; a Go
      function without effects is a Rocq function.
    - A SQL statement is one atomic [query] or [exec] on the tables; its
      text (joins, unique indexes, foreign keys, cascades, defaults, sort
      orders) is written out as a function of the tables.  Any statement,
      [BEGIN] and [COMMIT] included, may fail: [w_faults] is an arbitrary
      oracle, and a theorem that needs success says so by [no_faults].
      [withinTx] rolls back on an error and is transparent when nested.
    - Conditions the code assembles with its query builder are trees
      ([Filterx.Sqlizer]) with a three-valued meaning on rows; [NULL] that is
      scanned into a Go value that cannot hold it is an error.  [strftime] of
      an hour is the floor of the instant, and SQLite's division of reals is
      compared by cross-multiplication, so it is exact.  A read made of
      several statements sees one state of the tables.
    - A channel is a list with the capacity of the Go channel (500 or 100);
      a send that would block is dropped as the [select] of the code drops
      it.  The refresh signal is a channel of capacity 1, a [bool].
    - The code's goroutines are the operations of [app_op], interleaved in
      any order.  One operation, with its notifications, is one step: SQLite
      has one writer, the services notify after their transaction, and
      observers only enqueue.  The exception is [auth], whose observers run
      inside its transaction, and are modelled there.  The three reads of
      [refreshCache] are made at one state; a change that commits between
      them raises the refresh signal after that, so another refresh follows.
      (Again except for the deletion of a user, whose signal comes before
      its commit; the first read, which is not in a transaction, may then
      see the addresses of before, and the second waits for the commit.)
    - The clock is constant within an operation and arbitrary between two.
      Times are nanoseconds since the epoch; the columns that SQLite fills
      are cut to its precision.  Rows of a table are read in the order of
      their ids where the statement gives no order, and a sort of the code
      that is not stable is modelled by the stable one; no theorem depends
      on that choice.  Where Go iterates over a map, the order is an argument
      (the attribution kinds of the rollup) or the result is sorted.
    - Integers: [time.Duration] wraps at 64 bits ([wrap64]); ids and JSON
      integers are [Z] with the range checks of the code.  Strings are byte
      strings; [ToLower] and [TrimSpace] are exact on ASCII and, for other
      strings, the functions of the class [GoUnicode], of which the only law
      is that a lower-cased string has no ASCII upper-case letter.
    - Parameters, each a class or an argument with the documented laws that
      are used: bcrypt ([Bcrypt]), the text of a cursor ([TokenCodec]), the
      request validator ([RequestValidator]), the rate limiter, the calendar
      of the local time ([LocalTime]), SQLite's [julianday] ([JulianDay]),
      the MMDB readers, the environment library and the file system
      ([FileSystem]).  Each has an instance at which the theorems are used.
    - [json] models the encoded rule configuration; log records, metrics and
      error texts are not modelled.

    Recursion is structural, with a counter in these places: the eight groups
    of an IPv6 text ([parse_fields6]), the words of a padded message
    ([blocks], [schedule]), the bits of a root ([cube_root]), the days of a
    catch-up ([chunks]: one per day and one to stop, [chunks_enough]), the
    buckets of a window ([bucket_loop], as many as [bucket_count] says and
    one), the pages of a list ([walk], whose theorem takes the number of
    rows), the events of a queue ([lease_drain], whose theorem takes the
    queue's length).

    ** What the theorems show

    - Decisions.  With fresh caches the verdict is what the tables say (C1);
      the caches are never silently stale, failed rebuilds included (C2); the
      cascade a change sets off comes to rest (C3); a device whose heartbeat is accepted
      gets in from the address it came from (C4), over HTTP from the first
      request to the second, and one that is disabled or deleted stays out
      (C5).  The
      forward-auth handler fails closed (C9).  PolicySpec has the refinement
      of [Decide] to a policy over the cached rows.
    - Records.  The access log tells only of answers that were given (C16),
      and of every request that was judged as long as the queue has room and
      no flush fails (C17), without credentials (C36).
      Following the cursors lists every entry (C6), no query is answered 500
      for what it asks (C12), the histogram shows the list (C13), filters
      select what they say (C39).
    - Aggregates and retention.  The rollup job ends and covers every hour
      (C7); aggregates answer like the log (C8); nothing that is stored
      in time is pruned before it is counted (C14), and under an accepted configuration the aggregates
      outlive the log (C15).
    - Accounts.  The root administrator survives (C11), there is one once the
      program has started, and it lets in no expired address (C20); a login
      authenticates (C18), a dead session stays dead (C19), removal locks out
      (C21).  The client's address cannot be spoofed (C22), and no handler
      runs without the credentials it requires (C23).
    - Devices, pairing, leases.  The invariant of the devices' tables under
      their operations (C10) and of all the tables under any operations and
      failures (C40); what a report does on each branch (C29); the
      outcome of a claim, all or nothing, and the life of a code (C24, C25); the limit is
      enforced, oldest first (C26); the expiry job disables exactly the
      expired (C27).
    - Hosts and policies.  Reconcile converges (C28); breadth limits of CIDR
      policies (C37); host names (C38).
    - Views that must agree.  Histogram and tuning of addresses measure what
      they say (C30, C31); posture, audit and decision (C32, C34); suggested
      hosts are the unknown traffic, once it is rolled up (C33); users' page and fleet (C35).
    - Divergences between code and documents are lemmas and examples next to
      the definitions they are about.

    ** Not modelled

    The generated API types, their JSON and the dispatch of the router
    ([httpapi/*.gen.go], [chi]): a handler's answer is its status and the
    value it would encode; the conversion of a view to its generated type is
    left out where it only copies fields.  Opening the database, its PRAGMAs
    and the migrations: the model starts from migrated tables, and instants
    are read from them as instants ([database/dbtime.go] parses their text).  Log records
    and build metadata ([logging], [buildmeta]), which decide nothing.  The
    life cycle of goroutines and of the server ([RunBackground], [Run],
    [StartAndWait]): the loops' bodies are modelled, their cancellation is
    only what the services do with it.  Profiling, test utilities, the front
    end and deployment. *)

From stdpp Require Export base gmap strings list fin_maps sorting sets relations.
From Stdlib Require Export ZArith Lia Ascii.

#[global] Open Scope Z_scope.

(** ** Notation scope of the development *)

Declare Scope go_scope.
Delimit Scope go_scope with go.

(** [len]: Go's [len] of a string or slice, as an integer. *)
Notation "'len' l" := (Z.of_nat (length l)) (at level 9, l at level 9) : go_scope.

(** ** Automation

    [pw] collects the lemmas that automate the common cases: preservation
    of an invariant by the monad's combinators, and lookups in tables. *)
Create HintDb pw.
Create Rewrite HintDb pw.

(** Split every conjunction and existential in the context. *)
Ltac split_hyps :=
  repeat match goal with
  | H : _ ∧ _ |- _ => destruct H
  | H : ∃ _, _ |- _ => destruct H
  end.

(** Case split on the innermost [match]/[if] scrutinee of a hypothesis or
    of the goal, discarding impossible branches. *)
Ltac case_step :=
  match goal with
  | H : context [match ?x with _ => _ end] |- _ =>
      lazymatch x with context [match _ with _ => _ end] => fail | _ => destruct x eqn:? end
  | |- context [match ?x with _ => _ end] =>
      lazymatch x with context [match _ with _ => _ end] => fail | _ => destruct x eqn:? end
  end; simplify_eq/=.

Ltac cases := repeat case_step.

(** Turn boolean tests into propositions. *)
Ltac bool_prop :=
  repeat match goal with
  | H : bool_decide _ = true |- _ => apply bool_decide_eq_true_1 in H
  | H : bool_decide _ = false |- _ => apply bool_decide_eq_false_1 in H
  | H : (_ && _)%bool = true |- _ => apply andb_prop in H; destruct H
  | H : (_ || _)%bool = false |- _ => apply orb_false_elim in H; destruct H
  | H : negb _ = true |- _ => apply negb_true_iff in H
  | H : negb _ = false |- _ => apply negb_false_iff in H
  | H : (_ =? _) = true |- _ => apply Z.eqb_eq in H
  | H : (_ =? _) = false |- _ => apply Z.eqb_neq in H
  | H : (_ <? _) = true |- _ => apply Z.ltb_lt in H
  | H : (_ <? _) = false |- _ => apply Z.ltb_ge in H
  | H : (_ <=? _) = true |- _ => apply Z.leb_le in H
  | H : (_ <=? _) = false |- _ => apply Z.leb_gt in H
  end.

(** Resolve lookups in updated maps. *)
Ltac lookups :=
  repeat match goal with
  | H : <[_ := _]> _ !! _ = Some _ |- _ => apply lookup_insert_Some in H as [[? ?]|[? H]]; simplify_eq/=
  | H : alter _ _ _ !! _ = Some _ |- _ => apply lookup_alter_Some in H as [(? & ? & ? & ?)|[? H]]; simplify_eq/=
  | H : delete _ _ !! _ = Some _ |- _ => apply lookup_delete_Some in H as [? H]; simplify_eq/=
  end.

(** ** Tables

    A SQL table with an [INTEGER PRIMARY KEY] is a [gmap Z row].  SQLite
    gives a new row the id one above the largest id in use (1 in an empty
    table): without [AUTOINCREMENT] the id of a deleted last row is reused. *)
Definition max_id {V} (m : gmap Z V) : Z := map_fold (λ k _ acc, Z.max k acc) 0 m.

Definition fresh_id {V} (m : gmap Z V) : Z := 1 + max_id m.

(** The rows of a table in rowid order: what a scan returns when no
    [ORDER BY] is given. *)
Definition by_id {V} (p q : Z * V) : Prop := p.1 ≤ q.1.

#[export] Instance by_id_dec {V} (p q : Z * V) : Decision (by_id p q).
Proof. unfold by_id. apply _. Defined.

Definition scan {V} (m : gmap Z V) : list (Z * V) := merge_sort by_id (map_to_list m).

Definition rows {V} (m : gmap Z V) : list V := (scan m).*2.

Lemma max_id_ge {V} (m : gmap Z V) k v : m !! k = Some v → k ≤ max_id m.
Proof.
  unfold max_id. revert k v.
  apply (map_fold_weak_ind (λ acc m, ∀ k v, m !! k = Some v → k ≤ acc)).
  - intros k v H. by rewrite lookup_empty in H.
  - intros i x m' r _ IH k v H. destruct (decide (i = k)) as [->|Hne]; [lia|].
    rewrite lookup_insert_ne in H by done. specialize (IH _ _ H). lia.
Qed.

Lemma fresh_id_None {V} (m : gmap Z V) : m !! fresh_id m = None.
Proof.
  destruct (m !! fresh_id m) eqn:H; [|done].
  apply max_id_ge in H. unfold fresh_id in H. lia.
Qed.

Lemma fresh_id_ne {V} (m : gmap Z V) k v : m !! k = Some v → k ≠ fresh_id m.
Proof. intros H ->. by rewrite fresh_id_None in H. Qed.

Lemma scan_Permutation {V} (m : gmap Z V) : scan m ≡ₚ map_to_list m.
Proof. apply merge_sort_Permutation. Qed.

Lemma elem_of_scan {V} (m : gmap Z V) k v : (k, v) ∈ scan m ↔ m !! k = Some v.
Proof. rewrite scan_Permutation. apply elem_of_map_to_list. Qed.

Lemma elem_of_rows {V} (m : gmap Z V) v : v ∈ rows m ↔ ∃ k, m !! k = Some v.
Proof.
  unfold rows. rewrite list_elem_of_fmap. split.
  - intros ([k v'] & -> & H). exists k. by apply elem_of_scan.
  - intros (k & H). exists (k, v). by rewrite elem_of_scan.
Qed.

Lemma NoDup_scan_fst {V} (m : gmap Z V) : NoDup (scan m).*1.
Proof. rewrite scan_Permutation. apply NoDup_fst_map_to_list. Qed.

#[export] Hint Resolve fresh_id_None fresh_id_ne max_id_ge : pw.

(** ** Statements over a table

    [WHERE P] on a table: is there such a row, which is the first one in key
    order of the map, how many are there, [UPDATE], [DELETE]. *)
Definition table_list {K V} `{Countable K} (P : V → bool) (m : gmap K V) : list (K * V) :=
  filter (λ kv, P kv.2 = true) (map_to_list m).

Definition table_exists {K V} `{Countable K} (P : V → bool) (m : gmap K V) : bool :=
  existsb (λ kv, P kv.2) (map_to_list m).

Definition table_find {K V} `{Countable K} (P : V → bool) (m : gmap K V) : option V :=
  snd <$> head (table_list P m).

Definition update_where {K V} `{Countable K} (P : V → bool) (f : V → V) (m : gmap K V) : gmap K V :=
  (λ v, if P v then f v else v) <$> m.

Definition delete_where {K V} `{Countable K} (P : V → bool) (m : gmap K V) : gmap K V :=
  filter (λ kv, P kv.2 = false) m.

Section tables.
Context {K V : Type} `{Countable K}.
Implicit Types (m : gmap K V) (P : V → bool).

Lemma elem_of_table_list P m k v : (k, v) ∈ table_list P m ↔ m !! k = Some v ∧ P v = true.
Proof. unfold table_list. rewrite list_elem_of_filter, elem_of_map_to_list. tauto. Qed.

Lemma table_exists_true P m : table_exists P m = true ↔ ∃ k v, m !! k = Some v ∧ P v = true.
Proof.
  unfold table_exists. rewrite existsb_exists. split.
  - intros ([k v] & Hin & HP). exists k, v. by rewrite <-elem_of_map_to_list, list_elem_of_In.
  - intros (k & v & Hk & HP). exists (k, v). by rewrite <-list_elem_of_In, elem_of_map_to_list.
Qed.

Lemma table_exists_false P m : table_exists P m = false ↔ ∀ k v, m !! k = Some v → P v = false.
Proof.
  rewrite <-not_true_iff_false, table_exists_true. split.
  - intros Hn k v Hk. apply not_true_iff_false. intros HP. apply Hn. eauto.
  - intros Hf (k & v & Hk & HP). by rewrite (Hf _ _ Hk) in HP.
Qed.

Lemma table_find_Some P m v : table_find P m = Some v → ∃ k, m !! k = Some v ∧ P v = true.
Proof.
  unfold table_find. destruct (table_list P m) as [|[k v'] l] eqn:E; [done|]. intros [= ->].
  exists k. apply elem_of_table_list. rewrite E. by left.
Qed.

Lemma table_find_None P m : table_find P m = None ↔ ∀ k v, m !! k = Some v → P v = false.
Proof.
  unfold table_find. destruct (table_list P m) as [|[k v] l] eqn:E; cbn.
  - split; [|done]. intros _ k v Hk. apply not_true_iff_false. intros HP.
    assert ((k, v) ∈ table_list P m) as Hin by (by apply elem_of_table_list). rewrite E in Hin. by apply elem_of_nil in Hin.
  - split; [done|]. intros Hn. assert ((k, v) ∈ table_list P m) as Hin by (rewrite E; by left).
    apply elem_of_table_list in Hin as [Hk HP]. by rewrite (Hn _ _ Hk) in HP.
Qed.

Lemma lookup_update_where P f m k : update_where P f m !! k = (λ v, if P v then f v else v) <$> m !! k.
Proof. apply lookup_fmap. Qed.

Lemma lookup_delete_where P m k v : delete_where P m !! k = Some v ↔ m !! k = Some v ∧ P v = false.
Proof. unfold delete_where. by rewrite map_lookup_filter_Some. Qed.
End tables.

#[export] Hint Rewrite @lookup_update_where : pw.

Lemma alter_as_insert {K V} `{Countable K} (f : V → V) (m : gmap K V) i x :
  m !! i = Some x → alter f i m = <[i := f x]> m.
Proof.
  intros Hx. apply map_eq. intros j. destruct (decide (i = j)) as [->|Hne].
  - by rewrite lookup_alter_eq, lookup_insert_eq, Hx.
  - by rewrite lookup_alter_ne, lookup_insert_ne.
Qed.

(** ** Stable sorts given by a key

    [ORDER BY key DESC]: rows with equal keys stay in scan order. *)
Definition desc_on {A} (key : A → Z) (x y : A) : Prop := key y ≤ key x.

#[export] Instance desc_on_dec {A} (key : A → Z) x y : Decision (desc_on key x y).
Proof. unfold desc_on. apply _. Defined.

#[export] Instance desc_on_total {A} (key : A → Z) : Total (desc_on key).
Proof. intros x y. unfold desc_on. lia. Qed.

#[export] Instance desc_on_trans {A} (key : A → Z) : Transitive (desc_on key).
Proof. intros x y z. unfold desc_on. lia. Qed.

Definition order_desc {A} (key : A → Z) (l : list A) : list A := merge_sort (desc_on key) l.

Lemma order_desc_Permutation {A} (key : A → Z) l : order_desc key l ≡ₚ l.
Proof. apply merge_sort_Permutation. Qed.

Lemma order_desc_sorted {A} (key : A → Z) l : StronglySorted (desc_on key) (order_desc key l).
Proof. apply StronglySorted_merge_sort; apply _. Qed.

Lemma elem_of_order_desc {A} (key : A → Z) l x : x ∈ order_desc key l ↔ x ∈ l.
Proof. by rewrite order_desc_Permutation. Qed.

(** ** Lists *)

(** Splitting a list at a point keeps a sorted list's order across it. *)
Lemma StronglySorted_app_order {A} (R : A → A → Prop) l1 l2 x y :
  StronglySorted R (l1 ++ l2) → x ∈ l1 → y ∈ l2 → R x y.
Proof.
  induction l1 as [|a l1 IH]; cbn; [by intros _ []%elem_of_nil|].
  intros [Hs Ha]%StronglySorted_inv Hx Hy. apply elem_of_cons in Hx as [->|Hx]; [|by apply IH].
  rewrite Forall_forall in Ha. apply Ha, elem_of_app. by right.
Qed.

Lemma StronglySorted_filter {A} (R : A → A → Prop) (P : A → Prop) `{∀ x, Decision (P x)} l :
  StronglySorted R l → StronglySorted R (filter P l).
Proof.
  induction 1 as [|x l Hs IH Hx]; [constructor|]. rewrite filter_cons. case_decide; [|done]. constructor; [done|].
  rewrite Forall_forall in *. intros y Hy%list_elem_of_filter. apply Hx, Hy.
Qed.

Lemma StronglySorted_reverse {A} (R S : A → A → Prop) l :
  (∀ x y, R x y → S y x) → StronglySorted R l → StronglySorted S (reverse l).
Proof.
  intros HRS. induction 1 as [|x l Hs IH Hx]; [constructor|]. rewrite reverse_cons. apply StronglySorted_app.
  split; [|split; [done|by repeat constructor]]. intros y z Hy Hz. apply list_elem_of_singleton in Hz as ->.
  rewrite elem_of_reverse in Hy. rewrite Forall_forall in Hx. by apply HRS, Hx.
Qed.

(** Removing the elements of some keys removes that many. *)
Lemma length_filter_notin {A K} `{EqDecision K} (f : A → K) (l : list A) (ks : list K) :
  NoDup (f <$> l) → NoDup ks → (∀ k, k ∈ ks → k ∈ f <$> l) →
  (length (filter (λ x, f x ∉ ks) l) + length ks = length l)%nat.
Proof.
  intros Hl Hks Hin. assert (f <$> filter (λ x, f x ∈ ks) l ≡ₚ ks) as Hp.
  { apply NoDup_Permutation; [|done|].
    - clear -Hl. induction l as [|x l IH]; [constructor|]. apply NoDup_cons in Hl as [Hx Hl]. rewrite filter_cons.
      case_decide; [|by apply IH]. cbn. constructor; [|by apply IH]. intros (y & Ey & Hy%list_elem_of_filter)%list_elem_of_fmap.
      apply Hx, list_elem_of_fmap. exists y. tauto.
    - intros k. rewrite list_elem_of_fmap. setoid_rewrite list_elem_of_filter. split.
      + by intros (x & -> & ? & _).
      + intros Hk. apply Hin in Hk as Hk'. apply list_elem_of_fmap in Hk' as (x & -> & Hx). eauto. }
  rewrite <-Hp, length_fmap. clear. induction l as [|x l IH]; [done|]. rewrite !filter_cons.
  destruct (decide (f x ∈ ks)) as [Hx|Hx].
  - rewrite (decide_False (P := f x ∉ ks)) by tauto. cbn. lia.
  - rewrite (decide_True (P := f x ∉ ks)) by tauto. cbn. lia.
Qed.

Lemma NoDup_rows_on {V} (f : V → Z) (m : gmap Z V) : (∀ k v, m !! k = Some v → f v = k) → NoDup (f <$> rows m).
Proof.
  intros Hf. unfold rows. replace (f <$> (scan m).*2) with ((scan m).*1); [apply NoDup_scan_fst|].
  rewrite <-list_fmap_compose. apply list_fmap_ext. intros i [k v] Hi. apply list_elem_of_lookup_2, elem_of_scan in Hi.
  cbn. by rewrite (Hf k v Hi).
Qed.

(** A duplicate-free list included in another is no longer than it. *)
Lemma NoDup_incl_length {A} (l k : list A) :
  NoDup l → (∀ x, x ∈ l → x ∈ k) → (length l ≤ length k)%nat.
Proof. intros Hl Hin. apply submseteq_length, NoDup_submseteq; done. Qed.

Lemma filter_none {A} (P : A → Prop) `{∀ x, Decision (P x)} (l : list A) :
  (∀ x, x ∈ l → ¬ P x) → filter P l = [].
Proof.
  induction l as [|x l IH]; intros Hn; [done|].
  rewrite filter_cons_False by (apply Hn; by left). apply IH. intros y Hy. apply Hn. by right.
Qed.

(** Elements of a filtered map: the shape of a SELECT with a WHERE. *)
Lemma elem_of_filter_rows {V} (P : V → Prop) `{∀ x, Decision (P x)} (m : gmap Z V) v :
  v ∈ filter P (rows m) ↔ P v ∧ ∃ k, m !! k = Some v.
Proof. by rewrite list_elem_of_filter, elem_of_rows. Qed.

#[export] Hint Rewrite @elem_of_filter_rows @elem_of_rows @elem_of_order_desc : pw.
