(* ===== verification/GoLib.v ===== *)
(** * GoLib: the Go standard library functions the program uses

    Strings are byte strings.  Functions that Go defines through Unicode
    tables ([strings.ToLower], [strings.TrimSpace]) have an ASCII fast path,
    modelled here, and a table-driven path for strings with a byte above
    0x7F, which is the class [GoUnicode].  [net.SplitHostPort] and
    [strings.Split] are transcribed.  Integers of type [int64] and
    [time.Duration] wrap around at 64 bits. *)

From S2P Require Import Prelude.

Local Open Scope string_scope.
Local Open Scope Z_scope.

(** ** Machine integers *)

Definition wrap64 (x : Z) : Z := (x + 2 ^ 63) mod 2 ^ 64 - 2 ^ 63.

Definition in_int64 (x : Z) : Prop := - 2 ^ 63 ≤ x < 2 ^ 63.

Lemma wrap64_id x : in_int64 x → wrap64 x = x.
Proof. unfold in_int64, wrap64. intros H. rewrite Z.mod_small; lia. Qed.

Lemma wrap64_range x : in_int64 (wrap64 x).
Proof.
  unfold in_int64, wrap64.
  pose proof (Z.mod_pos_bound (x + 2 ^ 63) (2 ^ 64) ltac:(lia)). lia.
Qed.

(** ** Time

    A [time.Time] is its instant in nanoseconds since the Unix epoch (UTC);
    a [time.Duration] is an [int64] count of nanoseconds. *)
Abbreviation time := Z (only parsing).

Definition Nanosecond : Z := 1.
Definition Second : Z := 1000000000.
Definition Minute : Z := 60 * Second.
Definition Hour : Z := 60 * Minute.

(** [time.Time.IsZero]: 1 January of the year 1. *)
Definition zero_time : time := - 62135596800 * Second.
Definition IsZero (t : time) : bool := t =? zero_time.

(** The whole second an instant falls in. *)
Definition unix_seconds (t : time) : Z := t / Second.

(** SQLite's [CURRENT_TIMESTAMP] has a resolution of one second. *)
Definition current_timestamp (now : time) : time := unix_seconds now * Second.

(** ** Bytes *)

Definition byte_val (c : ascii) : Z := Z.of_nat (nat_of_ascii c).

Definition is_digit (c : ascii) : bool := (48 <=? byte_val c) && (byte_val c <=? 57).
Definition is_lower (c : ascii) : bool := (97 <=? byte_val c) && (byte_val c <=? 122).
Definition is_upper (c : ascii) : bool := (65 <=? byte_val c) && (byte_val c <=? 90).
Definition is_ascii_byte (c : ascii) : bool := byte_val c <? 128.

(** The six ASCII white space bytes of [strings.asciiSpace]. *)
Definition is_ascii_space (c : ascii) : bool :=
  let b := byte_val c in ((9 <=? b) && (b <=? 13)) || (b =? 32).

Definition lower_byte (c : ascii) : ascii :=
  if is_upper c then ascii_of_nat (nat_of_ascii c + 32) else c.

Definition ascii_eqb (a b : ascii) : bool := bool_decide (a = b).

(** ** Strings *)

Fixpoint str_all (f : ascii → bool) (s : string) : bool :=
  match s with
  | "" => true
  | String c r => f c && str_all f r
  end.

Definition str_exists (f : ascii → bool) (s : string) : bool := negb (str_all (λ c, negb (f c)) s).

Fixpoint str_map (f : ascii → ascii) (s : string) : string :=
  match s with
  | "" => ""
  | String c r => String (f c) (str_map f r)
  end.

(** [s[:n]] and [s[n:]], for [n] within the string. *)
Fixpoint str_take (n : nat) (s : string) : string :=
  match n, s with
  | S n, String c r => String c (str_take n r)
  | _, _ => ""
  end.

Fixpoint str_drop (n : nat) (s : string) : string :=
  match n, s with
  | S n, String _ r => str_drop n r
  | _, _ => s
  end.

(** [strings.IndexByte] and [strings.LastIndexByte]; [None] for Go's [-1]. *)
Fixpoint index_byte (c : ascii) (s : string) : option nat :=
  match s with
  | "" => None
  | String a r => if ascii_eqb a c then Some 0%nat else S <$> index_byte c r
  end.

Fixpoint last_index_byte (c : ascii) (s : string) : option nat :=
  match s with
  | "" => None
  | String a r =>
      match last_index_byte c r with
      | Some i => Some (S i)
      | None => if ascii_eqb a c then Some 0%nat else None
      end
  end.

Definition contains_byte (c : ascii) (s : string) : bool := str_exists (λ a, ascii_eqb a c) s.

Fixpoint nth_byte (n : nat) (s : string) : option ascii :=
  match n, s with
  | _, "" => None
  | O, String c _ => Some c
  | S n, String _ r => nth_byte n r
  end.

(** [strings.TrimSuffix s suf] for a one-byte suffix. *)
Fixpoint trim_suffix_byte (suf : ascii) (s : string) : string :=
  match s with
  | "" => ""
  | String a r =>
      match r with
      | "" => if ascii_eqb a suf then "" else s
      | _ => String a (trim_suffix_byte suf r)
      end
  end.

(** [strings.CutPrefix]. *)
Fixpoint cut_prefix (p s : string) : option string :=
  match p, s with
  | "", _ => Some s
  | String a p', String b s' => if ascii_eqb a b then cut_prefix p' s' else None
  | _, _ => None
  end.

(** [strings.Split s sep] for a one-byte separator. *)
Fixpoint split_byte (sep : ascii) (s : string) : list string :=
  match s with
  | "" => [""]
  | String a r =>
      if ascii_eqb a sep then "" :: split_byte sep r
      else match split_byte sep r with
           | [] => [String a ""]
           | w :: ws => String a w :: ws
           end
  end.

Fixpoint trim_left_ascii (s : string) : string :=
  match s with
  | "" => ""
  | String c r => if is_ascii_space c then trim_left_ascii r else s
  end.

Fixpoint trim_right_ascii (s : string) : string :=
  match s with
  | "" => ""
  | String c r =>
      match trim_right_ascii r with
      | "" => if is_ascii_space c then "" else String c ""
      | r' => String c r'
      end
  end.

Definition is_ascii (s : string) : bool := str_all is_ascii_byte s.

(** The table-driven halves of [strings.TrimSpace] and [strings.ToLower],
    reached only when the argument has a non-ASCII byte.  The one law the
    program's normal forms rely on: lower-casing leaves no ASCII capital. *)
Class GoUnicode := {
  unicode_trim_space : string → string;
  unicode_to_lower : string → string;
  unicode_to_lower_no_upper s : str_exists is_upper (unicode_to_lower s) = false;
}.

Section strings.
Context `{GoUnicode}.

Definition TrimSpace (s : string) : string :=
  if is_ascii s then trim_right_ascii (trim_left_ascii s) else unicode_trim_space s.

Definition ToLower (s : string) : string :=
  if is_ascii s then str_map lower_byte s else unicode_to_lower s.

Definition TrimSuffixDot (s : string) : string := trim_suffix_byte "." s.
End strings.

(** ** [net.SplitHostPort]

    [None] for any of its errors. *)
Definition SplitHostPort (hostport : string) : option (string * string) :=
  match last_index_byte ":" hostport with
  | None => None
  | Some i =>
      let finish (host : string) (j k : nat) :=
        if contains_byte "[" (str_drop j hostport) then None
        else if contains_byte "]" (str_drop k hostport) then None
        else Some (host, str_drop (S i) hostport) in
      if bool_decide (nth_byte 0 hostport = Some "["%char) then
        match index_byte "]" hostport with
        | None => None
        | Some e =>
            if Nat.eqb (S e) (String.length hostport) then None
            else if Nat.eqb (S e) i then finish (str_take (e - 1) (str_drop 1 hostport)) 1%nat (S e)
            else None
        end
      else
        let host := str_take i hostport in
        if contains_byte ":" host then None else finish host 0%nat 0%nat
  end.

Example SplitHostPort_name : SplitHostPort "app.example.org:8443" = Some ("app.example.org", "8443").
Proof. reflexivity. Qed.
Example SplitHostPort_v6 : SplitHostPort "[2001:db8::1]:443" = Some ("2001:db8::1", "443").
Proof. reflexivity. Qed.
Example SplitHostPort_bare_v6 : SplitHostPort "2001:db8::1" = None.
Proof. reflexivity. Qed.

(** ** Lemmas *)

Lemma ascii_eqb_true a b : ascii_eqb a b = true ↔ a = b.
Proof. unfold ascii_eqb. by rewrite bool_decide_eq_true. Qed.

Lemma ascii_eqb_refl a : ascii_eqb a a = true.
Proof. by apply ascii_eqb_true. Qed.

Lemma ascii_eqb_false a b : a ≠ b → ascii_eqb a b = false.
Proof. intros H. unfold ascii_eqb. by apply bool_decide_eq_false. Qed.

Lemma append_cons c (s t : string) : String.append (String c s) t = String c (String.append s t).
Proof. reflexivity. Qed.

Lemma str_all_app f s t : str_all f (String.append s t) = str_all f s && str_all f t.
Proof.
  induction s as [|c s IH]; [done|]. rewrite append_cons. cbn. by rewrite IH, andb_assoc.
Qed.

Lemma str_all_impl (f g : ascii → bool) s :
  (∀ c, f c = true → g c = true) → str_all f s = true → str_all g s = true.
Proof.
  intros Hfg. induction s as [|c s IH]; cbn; [done|]. intros [Hc Hs]%andb_prop.
  by rewrite Hfg, IH.
Qed.

Lemma str_all_trim_suffix f c s : str_all f s = true → str_all f (trim_suffix_byte c s) = true.
Proof.
  induction s as [|a s IH]; [done|]. cbn [trim_suffix_byte str_all]. intros [Ha Hs]%andb_prop.
  destruct s as [|b s'].
  - destruct (ascii_eqb a c); cbn; [done|]. by rewrite Ha.
  - cbn [str_all]. rewrite Ha. cbn. by apply IH.
Qed.

Lemma str_all_split f sep s :
  (∀ w, w ∈ split_byte sep s → str_all f w = true) → f sep = true → str_all f s = true.
Proof.
  intros Hw Hsep. induction s as [|a s IH]; [done|]. cbn in Hw |- *.
  destruct (ascii_eqb a sep) eqn:E.
  - apply ascii_eqb_true in E as ->. rewrite Hsep. apply IH. intros w Hin. apply Hw. by right.
  - destruct (split_byte sep s) as [|w0 ws] eqn:Es.
    + exfalso. clear -Es. destruct s as [|x s]; cbn in Es; [done|].
      destruct (ascii_eqb x sep); [done|]. by destruct (split_byte sep s).
    + assert (str_all f (String a w0) = true) as Ha by (apply Hw; by left).
      cbn in Ha. apply andb_prop in Ha as [-> Hw0]. cbn. apply IH. intros w [->|Hin]%elem_of_cons; [done|].
      apply Hw. by right.
Qed.

Lemma contains_byte_false c s : contains_byte c s = false ↔ str_all (λ a, negb (ascii_eqb a c)) s = true.
Proof. unfold contains_byte, str_exists. by rewrite negb_false_iff. Qed.

Lemma last_index_byte_None c s : contains_byte c s = false → last_index_byte c s = None.
Proof.
  rewrite contains_byte_false. induction s as [|a s IH]; cbn; [done|].
  intros [Ha Hs]%andb_prop. rewrite IH by done. by rewrite (proj1 (negb_true_iff _) Ha).
Qed.

Lemma SplitHostPort_no_colon s : contains_byte ":" s = false → SplitHostPort s = None.
Proof. intros Hc. unfold SplitHostPort. by rewrite last_index_byte_None. Qed.

Lemma trim_left_ascii_id s : str_all (λ c, negb (is_ascii_space c)) s = true → trim_left_ascii s = s.
Proof. destruct s as [|c s]; cbn; [done|]. intros [->%negb_true_iff _]%andb_prop. done. Qed.

Lemma trim_right_ascii_id s : str_all (λ c, negb (is_ascii_space c)) s = true → trim_right_ascii s = s.
Proof.
  induction s as [|c s IH]; cbn; [done|]. intros [->%negb_true_iff Hs]%andb_prop.
  rewrite IH by done. by destruct s.
Qed.

Lemma str_map_id f s : str_all (λ c, ascii_eqb (f c) c) s = true → str_map f s = s.
Proof. induction s as [|c s IH]; cbn; [done|]. intros [->%ascii_eqb_true Hs]%andb_prop. by rewrite IH. Qed.

Section normal_forms.
Context `{GoUnicode}.

Lemma ToLower_no_upper s : str_all (λ c, negb (is_upper c)) (ToLower s) = true.
Proof.
  unfold ToLower. destruct (is_ascii s) eqn:E.
  - clear E. induction s as [|c s IH]; [done|]. cbn. rewrite IH, andb_true_r.
    destruct c as [[] [] [] [] [] [] [] []]; reflexivity.
  - apply negb_false_iff, unicode_to_lower_no_upper.
Qed.

Lemma TrimSpace_id s :
  is_ascii s = true → str_all (λ c, negb (is_ascii_space c)) s = true → TrimSpace s = s.
Proof.
  intros Ha Hs. unfold TrimSpace. rewrite Ha.
  rewrite trim_left_ascii_id by done. by apply trim_right_ascii_id.
Qed.

Lemma ToLower_id s :
  is_ascii s = true → str_all (λ c, negb (is_upper c)) s = true → ToLower s = s.
Proof.
  intros Ha Hs. unfold ToLower. rewrite Ha. apply str_map_id. revert Hs.
  apply str_all_impl. intros c Hc%negb_true_iff. unfold lower_byte. rewrite Hc. apply ascii_eqb_refl.
Qed.
End normal_forms.

(** An instance of the class: lower-case the ASCII letters, trim nothing. *)
#[export] Program Instance ascii_only_unicode : GoUnicode := {|
  unicode_trim_space s := s;
  unicode_to_lower s := str_map lower_byte s;
|}.
Next Obligation.
  intros s. apply negb_false_iff. induction s as [|c s IH]; [done|]. cbn. rewrite IH, andb_true_r.
  destruct c as [[] [] [] [] [] [] [] []]; reflexivity.
Qed.

(** ** Concatenation *)

Lemma append_nil_l (s : string) : "" +:+ s = s.
Proof. reflexivity. Qed.

Lemma append_nil_r (s : string) : s +:+ "" = s.
Proof. induction s as [|c s IH]; [done|]. by rewrite append_cons, IH. Qed.

Lemma append_assoc (r s t : string) : (r +:+ s) +:+ t = r +:+ (s +:+ t).
Proof. induction r as [|c r IH]; [done|]. by rewrite !append_cons, IH. Qed.
