(* ===== verification/Netip.v ===== *)
(** * Netip: Go's [net/netip], as far as the program uses it

    Addresses ([netip.Addr]), prefixes ([netip.Prefix]) and their text forms.
    An IPv4 address is a 32-bit integer, an IPv6 address a 128-bit integer
    with a zone ([""] for none), and [AddrZero] is the zero [Addr], the only
    invalid one.  [Addr] has decidable equality and is countable, so it is a
    map key, as in the policy cache. *)

From S2P Require Import Prelude GoLib.

Local Open Scope string_scope.
Local Open Scope Z_scope.

(** ** Addresses *)

Inductive Addr :=
  | AddrZero
  | Addr4 (a : Z)
  | Addr6 (a : Z) (zone : string).

#[export] Instance Addr_eq_dec : EqDecision Addr.
Proof. solve_decision. Defined.

#[export] Instance Addr_countable : Countable Addr.
Proof.
  refine (inj_countable'
    (λ ip, match ip with
           | AddrZero => inl tt
           | Addr4 a => inr (inl a)
           | Addr6 a z => inr (inr (a, z))
           end)
    (λ x, match x with
          | inl _ => AddrZero
          | inr (inl a) => Addr4 a
          | inr (inr (a, z)) => Addr6 a z
          end) _).
  by intros [].
Defined.

(** The addresses Go can build: integers within their width. *)
Definition Addr_wf (ip : Addr) : bool :=
  match ip with
  | AddrZero => true
  | Addr4 a => (0 <=? a) && (a <? 2 ^ 32)
  | Addr6 a _ => (0 <=? a) && (a <? 2 ^ 128)
  end.

Definition IsValid (ip : Addr) : bool := match ip with AddrZero => false | _ => true end.
Definition Is4 (ip : Addr) : bool := match ip with Addr4 _ => true | _ => false end.
Definition Is6 (ip : Addr) : bool := match ip with Addr6 _ _ => true | _ => false end.
Definition BitLen (ip : Addr) : Z := match ip with AddrZero => 0 | Addr4 _ => 32 | Addr6 _ _ => 128 end.
Definition hasZone (ip : Addr) : bool := match ip with Addr6 _ z => negb (bool_decide (z = "")) | _ => false end.

(** [::ffff:0:0/96]. *)
Definition Is4In6 (ip : Addr) : bool :=
  match ip with Addr6 a _ => Z.shiftr a 32 =? 65535 | _ => false end.

(** [Unmap] drops the zone of a 4-in-6 address with the prefix. *)
Definition Unmap (ip : Addr) : Addr :=
  match ip with
  | Addr6 a _ => if Is4In6 ip then Addr4 (Z.land a (Z.ones 32)) else ip
  | _ => ip
  end.

(** [Compare] is a total order: it is 0 exactly on equal addresses. *)
Definition Compare_eq0 (a b : Addr) : bool := bool_decide (a = b).

Definition IsLoopback (ip : Addr) : bool :=
  match Unmap ip with
  | Addr4 a => Z.shiftr a 24 =? 127
  | Addr6 a _ => a =? 1
  | AddrZero => false
  end.

Definition IsMulticast (ip : Addr) : bool :=
  match Unmap ip with
  | Addr4 a => Z.shiftr a 28 =? 14
  | Addr6 a _ => Z.shiftr a 120 =? 255
  | AddrZero => false
  end.

Definition IsLinkLocalUnicast (ip : Addr) : bool :=
  match Unmap ip with
  | Addr4 a => Z.shiftr a 16 =? 43518 (* 169.254 *)
  | Addr6 a _ => Z.shiftr a 118 =? 1018 (* fe80::/10 *)
  | AddrZero => false
  end.

Definition IsUnspecified (ip : Addr) : bool :=
  bool_decide (ip = Addr4 0) || bool_decide (ip = Addr6 0 "").

(** ** Prefixes

    [Prefix_bits] is [-1] in an invalid prefix, as [Prefix.Bits] reports. *)
Record Prefix := mkPrefix { Prefix_ip : Addr; Prefix_bits : Z }.

#[export] Instance Prefix_eq_dec : EqDecision Prefix.
Proof. solve_decision. Defined.

Definition ZeroPrefix : Prefix := mkPrefix AddrZero (-1).

Definition withoutZone (ip : Addr) : Addr := match ip with Addr6 a _ => Addr6 a "" | _ => ip end.

Definition PrefixFrom (ip : Addr) (bits : Z) : Prefix :=
  mkPrefix (withoutZone ip)
    (if IsValid ip && (0 <=? bits) && (bits <=? BitLen ip) then bits else -1).

Definition Prefix_IsValid (p : Prefix) : bool := 0 <=? Prefix_bits p.

(** Clear the bits below the top [bits] ones of a [w]-bit integer. *)
Definition mask (w bits a : Z) : Z := Z.shiftl (Z.shiftr a (w - bits)) (w - bits).

Definition Masked (p : Prefix) : Prefix :=
  if Prefix_IsValid p then
    match Prefix_ip p with
    | AddrZero => ZeroPrefix
    | Addr4 a => mkPrefix (Addr4 (mask 32 (Prefix_bits p) a)) (Prefix_bits p)
    | Addr6 a _ => mkPrefix (Addr6 (mask 128 (Prefix_bits p) a) "") (Prefix_bits p)
    end
  else ZeroPrefix.

Definition Contains (p : Prefix) (ip : Addr) : bool :=
  if negb (Prefix_IsValid p) || hasZone ip then false
  else match Prefix_ip p, ip with
       | Addr4 a, Addr4 b => Z.shiftr (Z.lxor b a) (32 - Prefix_bits p) =? 0
       | Addr6 a _, Addr6 b _ => Z.shiftr (Z.lxor b a) (128 - Prefix_bits p) =? 0
       | _, _ => false
       end.

(** ** Text forms: digits *)

Definition digit_char (d : Z) : ascii := ascii_of_nat (Z.to_nat (48 + d)).
Definition hex_char (d : Z) : ascii :=
  if d <? 10 then digit_char d else ascii_of_nat (Z.to_nat (87 + d)).

Definition digit_val (c : ascii) : Z := byte_val c - 48.

Definition hex_val (c : ascii) : option Z :=
  let b := byte_val c in
  if is_digit c then Some (b - 48)
  else if (97 <=? b) && (b <=? 102) then Some (b - 97 + 10)
  else if (65 <=? b) && (b <=? 70) then Some (b - 65 + 10)
  else None.

(** Decimal text of a number below 1000: enough for octets and prefix lengths. *)
Definition itoa (n : Z) : string :=
  if n <? 10 then String (digit_char n) ""
  else if n <? 100 then String (digit_char (n / 10)) (String (digit_char (n mod 10)) "")
  else String (digit_char (n / 100))
         (String (digit_char (n / 10 mod 10)) (String (digit_char (n mod 10)) "")).

(** [appendHex]: a 16-bit field without leading zeros. *)
Definition hex16 (x : Z) : string :=
  let last := String (hex_char (x mod 16)) "" in
  let d1 := String (hex_char (x / 16 mod 16)) last in
  let d2 := String (hex_char (x / 256 mod 16)) d1 in
  if x <? 16 then last
  else if x <? 256 then d1
  else if x <? 4096 then d2
  else String (hex_char (x / 4096 mod 16)) d2.

(** ** Text forms: printing *)

Definition octet (a : Z) (i : Z) : Z := Z.land (Z.shiftr a (8 * (3 - i))) 255.

Definition string4 (a : Z) : string :=
  itoa (octet a 0) +:+ "." +:+ itoa (octet a 1) +:+ "." +:+ itoa (octet a 2) +:+ "." +:+ itoa (octet a 3).

(** [v6u16]: the eight 16-bit fields, most significant first. *)
Definition field (a : Z) (i : Z) : Z := Z.land (Z.shiftr a (16 * (7 - i))) 65535.

Definition fields (a : Z) : list Z := field a <$> [0; 1; 2; 3; 4; 5; 6; 7].

Fixpoint zero_run (gs : list Z) : nat :=
  match gs with
  | g :: gs => if g =? 0 then S (zero_run gs) else 0%nat
  | [] => 0%nat
  end.

(** The first longest run of at least two zero fields, as (start, length);
    [i] is the index of the head of [gs]. *)
Fixpoint longest_zeros (gs : list Z) (i : nat) (best : nat * nat) : nat * nat :=
  match gs with
  | [] => best
  | _ :: gs' =>
      let l := zero_run gs in
      longest_zeros gs' (S i)
        (if (Nat.leb 2 l && Nat.ltb (snd best) l)%bool then (i, l) else best)
  end.

Fixpoint join_hex (gs : list Z) : string :=
  match gs with
  | [] => ""
  | [g] => hex16 g
  | g :: gs => hex16 g +:+ ":" +:+ join_hex gs
  end.

Definition string6 (gs : list Z) : string :=
  match longest_zeros gs 0 (0%nat, 0%nat) with
  | (_, O) => join_hex gs
  | (z, l) => join_hex (take z gs) +:+ "::" +:+ join_hex (drop (z + l) gs)
  end.

Definition zone_suffix (zone : string) : string := if bool_decide (zone = "") then "" else "%" +:+ zone.

Definition Addr_String (ip : Addr) : string :=
  match ip with
  | AddrZero => "invalid IP"
  | Addr4 a => string4 a
  | Addr6 a z =>
      (if Is4In6 ip then "::ffff:" +:+ string4 (Z.land a (Z.ones 32)) else string6 (fields a)) +:+ zone_suffix z
  end.

Definition Prefix_String (p : Prefix) : string :=
  if Prefix_IsValid p then Addr_String (Prefix_ip p) +:+ "/" +:+ itoa (Prefix_bits p)
  else "invalid Prefix".

(** ** Text forms: parsing *)

(** [parseIPv4Fields]: [digLen] counts the digits of the current octet. *)
Fixpoint parseIPv4Fields (s : string) (fs : list Z) (val : Z) (digLen : nat) : option (list Z) :=
  match s with
  | "" => if Nat.eqb (length fs) 3 then Some (app fs [val]) else None
  | String c r =>
      if is_digit c then
        if Nat.eqb digLen 1 && (val =? 0) then None
        else let v := val * 10 + digit_val c in
             if 255 <? v then None else parseIPv4Fields r fs v (S digLen)
      else if ascii_eqb c "." then
        if Nat.eqb digLen 0 || bool_decide (r = "") then None
        else if Nat.eqb (length fs) 3 then None
        else parseIPv4Fields r (app fs [val]) 0 0
      else None
  end.

Definition of_digits (base : Z) (ds : list Z) : Z := foldl (λ acc d, acc * base + d) 0 ds.

Definition parseIPv4 (s : string) : option Addr := Addr4 ∘ of_digits 256 <$> parseIPv4Fields s [] 0 0.

(** Scan one hexadecimal field; [None] when it has more than four digits. *)
Fixpoint scan_hex (s : string) (acc : Z) (off : nat) : option (Z * nat * string) :=
  match s with
  | "" => Some (acc, off, "")
  | String c r =>
      match hex_val c with
      | Some d => if Nat.ltb 3 off then None else scan_hex r (acc * 16 + d) (S off)
      | None => Some (acc, off, s)
      end
  end.

(** The main loop of [parseIPv6]; [fuel] is the number of fields that still
    fit, so [fuel + length gs = 8] in every call. *)
Fixpoint parse_fields6 (fuel : nat) (s : string) (gs : list Z) (ellipsis : option nat)
    : option (list Z * option nat * string) :=
  match fuel with
  | O => Some (gs, ellipsis, s)
  | S fuel =>
      match scan_hex s 0 0 with
      | None => None
      | Some (acc, off, rest) =>
          if Nat.eqb off 0 then None
          else match rest with
               | "" => Some (app gs [acc], ellipsis, "")
               | String c rest' =>
                   if ascii_eqb c "." then
                     if bool_decide (ellipsis = None) && negb (Nat.eqb (length gs) 6) then None
                     else if Nat.ltb 6 (length gs) then None
                     else match parseIPv4Fields s [] 0 0 with
                          | Some [a; b; c; d] => Some (app gs [a * 256 + b; c * 256 + d], ellipsis, "")
                          | _ => None
                          end
                   else if negb (ascii_eqb c ":") then None
                   else match rest' with
                        | "" => None
                        | String c' rest'' =>
                            if ascii_eqb c' ":" then
                              match ellipsis with
                              | Some _ => None
                              | None =>
                                  let gs' := app gs [acc] in
                                  if bool_decide (rest'' = "") then Some (gs', Some (length gs'), "")
                                  else parse_fields6 fuel rest'' gs' (Some (length gs'))
                              end
                            else parse_fields6 fuel rest' (app gs [acc]) ellipsis
                        end
               end
      end
  end.

(** The part of [parseIPv6] before the zone. *)
Definition parse_groups6 (s : string) : option Z :=
  let '(start, ell) :=
    match cut_prefix "::" s with Some r => (r, Some 0%nat) | None => (s, None) end in
  if bool_decide (ell = Some 0%nat ∧ start = "") then Some 0
  else match parse_fields6 8 start [] ell with
       | Some (gs, ell', "") =>
           match ell' with
           | None => if Nat.eqb (length gs) 8 then Some (of_digits 65536 gs) else None
           | Some e =>
               if Nat.ltb (length gs) 8
               then Some (of_digits 65536 (app (take e gs) (app (replicate (8 - length gs) 0) (drop e gs))))
               else None
           end
       | _ => None
       end.

Definition parseIPv6 (s : string) : option Addr :=
  match index_byte "%" s with
  | None => (λ a, Addr6 a "") <$> parse_groups6 s
  | Some i =>
      let zone := str_drop (S i) s in
      if bool_decide (zone = "") then None
      else (λ a, Addr6 a zone) <$> parse_groups6 (str_take i s)
  end.

(** The first of ['.'], [':'] and ['%'] decides the family. *)
Fixpoint addr_kind (s : string) : option ascii :=
  match s with
  | "" => None
  | String c r =>
      if ascii_eqb c "." || ascii_eqb c ":" || ascii_eqb c "%" then Some c else addr_kind r
  end.

Definition ParseAddr (s : string) : option Addr :=
  match addr_kind s with
  | Some c => if ascii_eqb c "." then parseIPv4 s else if ascii_eqb c ":" then parseIPv6 s else None
  | None => None
  end.

(** An unsigned decimal number; [None] on the empty string or a non-digit. *)
Definition parse_uint (s : string) : option Z :=
  if bool_decide (s = "") || negb (str_all is_digit s) then None
  else Some (of_digits 10 (digit_val <$> String.list_ascii_of_string s)).

Definition ParsePrefix (s : string) : option Prefix :=
  match last_index_byte "/" s with
  | None => None
  | Some i =>
      match ParseAddr (str_take i s) with
      | None => None
      | Some ip =>
          let bitsStr := str_drop (S i) s in
          if hasZone ip then None
          else if Nat.ltb 1 (String.length bitsStr) && bool_decide (nth_byte 0 bitsStr = Some "0"%char) then None
          else match parse_uint bitsStr with
               | None => None
               | Some bits => if BitLen ip <? bits then None else Some (PrefixFrom ip bits)
               end
      end
  end.

Definition ParseAddrPort (s : string) : option Addr :=
  match last_index_byte ":" s with
  | None => None
  | Some i =>
      let ip := str_take i s in
      let port := str_drop (S i) s in
      if bool_decide (ip = "") then None
      else
        let bracket := bool_decide (nth_byte 0 ip = Some "["%char) in
        let n := String.length ip in
        if bracket && (Nat.ltb n 2 || negb (bool_decide (nth_byte (n - 1) ip = Some "]"%char))) then None
        else
          let inner := if bracket then str_take (n - 2) (str_drop 1 ip) else ip in
          match parse_uint port with
          | None => None
          | Some p =>
              if 65535 <? p then None
              else match ParseAddr inner with
                   | None => None
                   | Some a => if bracket && Is4 a then None
                               else if negb bracket && Is6 a then None
                               else Some a
                   end
          end
  end.

Example ParseAddr_v4 : ParseAddr "192.168.1.20" = Some (Addr4 3232235796).
Proof. reflexivity. Qed.
Example ParseAddr_v4_leading_zero : ParseAddr "192.168.01.20" = None.
Proof. reflexivity. Qed.
Example ParseAddr_mapped : Unmap <$> ParseAddr "::ffff:10.0.0.1" = Some (Addr4 167772161).
Proof. reflexivity. Qed.
Example ParseAddr_v6 : Addr_String <$> ParseAddr "2001:DB8:0:0:1::1" = Some "2001:db8::1:0:0:1".
Proof. vm_compute. reflexivity. Qed.
Example ParseAddr_zone : ParseAddr "fe80::1%eth0" = Some (Addr6 (2 ^ 127 + 2^126 + 2^125 + 2^124 + 2^123 + 2^122 + 2^121 + 2^119 + 1) "eth0").
Proof. vm_compute. reflexivity. Qed.
Example ParsePrefix_v4 : Prefix_String ∘ Masked <$> ParsePrefix "192.168.1.77/24" = Some "192.168.1.0/24".
Proof. vm_compute. reflexivity. Qed.
Example ParsePrefix_mapped : Prefix_String ∘ Masked <$> ParsePrefix "::ffff:10.9.8.7/104" = Some "::ffff:10.0.0.0/104".
Proof. vm_compute. reflexivity. Qed.
Example ParseAddrPort_v6 : Addr_String <$> ParseAddrPort "[2001:db8::7]:443" = Some "2001:db8::7".
Proof. vm_compute. reflexivity. Qed.
