(* ===== verification/Schema.v ===== *)
(** * Schema: the rows of the database, the domain events, the errors

    One record per table row, with the Go struct's field names prefixed by
    the struct's; one inductive type per Go enum.  A table is a [gmap] from
    its [INTEGER PRIMARY KEY] to its rows; a table whose rows the program
    only reaches through another unique column ([device_api_keys],
    [address_leases], [device_rules], [user_host_settings]) is keyed by that
    column; an m:n table is a set of pairs.  [db] is the whole database. *)

From S2P Require Import Prelude GoLib.

(** ** Identifiers ([internal/ids]) *)

Abbreviation UserID := Z (only parsing).
Abbreviation DeviceID := Z (only parsing).
Abbreviation AddressID := Z (only parsing).
Abbreviation AddressLeaseID := Z (only parsing).
Abbreviation HostID := Z (only parsing).
Abbreviation HostGroupID := Z (only parsing).
Abbreviation NetworkPolicyID := Z (only parsing).
Abbreviation RuleID := Z (only parsing).
Abbreviation DevicePairingID := Z (only parsing).
Abbreviation SessionID := Z (only parsing).

(** ** Errors

    The sentinels of every package in one type; [errors.Is] is equality, and
    the text a wrapping [fmt.Errorf] adds is not kept.  [ErrSQL busy] is a
    driver error ([busy] when it is SQLite lock contention), [ErrUnique] and
    [ErrForeignKey] are constraint violations before a repository maps them,
    with the columns SQLite names in its message. *)
Inductive error :=
  | ErrSQL (busy : bool)
  | ErrUnique (columns : string)
  | ErrForeignKey
  | ErrNoRows
  | ErrContended
  | ErrRandom
  (* device *)
  | ErrDeviceNotFound | ErrDeviceDisabled | ErrOwnerNotFound | ErrNoAPIKey | ErrDuplicateDeviceName
  | ErrAddressNotFound | ErrInvalidIPFormat | ErrInvalidDeviceIP | ErrTrustedProxyIPRejected
  | ErrAddressNotOwnedByDevice | ErrInvalidAPIKey | ErrInvalidDeviceName | ErrDescriptionTooLong
  | ErrIconTooLong
  (* rule, lease *)
  | ErrRuleNotFound | ErrInvalidRuleConfig | ErrInvalidTTL | ErrInvalidMaxAddresses
  (* hosts, useraccess *)
  | ErrBadRequest | ErrHostNotFound | ErrHostConflict | ErrHostFQDNImmutable | ErrDuplicateHostID
  | ErrDuplicateHostFQDN | ErrHostGroupNotFound | ErrHostGroupConflict | ErrGroupNameRequired
  | ErrInvalidGroupColor | ErrDuplicateGroupID | ErrSuggestionNotFound | ErrSuggestionConflict
  | ErrReferenceNotFound
  (* networkpolicies *)
  | ErrPolicyNotFound | ErrCIDRConflict | ErrInvalidCIDR | ErrCIDRTooBroad
  (* devicepairing *)
  | ErrPairingNotFound | ErrPairingNotPending | ErrPairingNotClaimable | ErrPairingExpired
  (* policy *)
  | ErrSecretNotConfigured | ErrInvalidBearerToken | ErrIPNotEnabled | ErrHostNotAllowed
  (* auth *)
  | ErrInvalidCredentials | ErrAdminCredentialsRequired | ErrSuperAdminCredentialsRequired
  | ErrUsernameTaken | ErrEmailTaken | ErrUserNotFound | ErrInvalidUsername | ErrInvalidDisplayName
  | ErrInvalidPassword | ErrSelfDeleteForbidden | ErrSelfRoleChangeForbidden | ErrPromoteAlreadyAdmin
  | ErrNoUpdateFields
  (* timebucket, filterx, accesslog, rollup *)
  | ErrInvalidGranularity | ErrInvalidFilter | ErrEntryNotFound | ErrUnknownKind
  (* geoip *)
  | ErrGeoIPOpen.

#[export] Instance error_eq_dec : EqDecision error.
Proof. solve_decision. Defined.

(** ** auth *)

Inductive Role := SuperAdminRole | AdminRole | UserRole.

#[export] Instance Role_eq_dec : EqDecision Role.
Proof. solve_decision. Defined.

Record User := mkUser {
  User_ID : UserID;
  User_Username : string;
  User_DisplayName : string;
  User_Email : option string;
  User_PasswordHash : option string;
  User_Role : Role;
  User_MustChangePassword : bool;
  User_CreatedBy : option UserID;
  User_CreatedAt : time;
  User_DeletedAt : option time;
}.

Inductive UserEventType := EventTypeUserCreated | EventTypeUserDeleted.

#[export] Instance UserEventType_eq_dec : EqDecision UserEventType.
Proof. solve_decision. Defined.

Record UserEvent := mkUserEvent { UserEvent_Type : UserEventType; UserEvent_UserID : UserID }.

Record Session := mkSession {
  Session_ID : SessionID;
  Session_UserID : UserID;
  Session_TokenHash : string;
  Session_CreatedAt : time;
  Session_ExpiresAt : time;
  Session_LastUsedAt : option time;
  Session_RevokedAt : option time;
}.

(** ** device *)

(** [device.Device]: [Device_KeyPrefix] is joined from [device_api_keys] by
    the queries that read a device, and is [None] in a stored row. *)
Record Device := mkDevice {
  Device_ID : DeviceID;
  Device_Name : string;
  Device_Description : option string;
  Device_Icon : option string;
  Device_CreatedAt : time;
  Device_UpdatedAt : time;
  Device_DeletedAt : option time;
  Device_DisabledAt : option time;
  Device_KeyPrefix : option string;
  Device_OwnerID : UserID;
}.

#[export] Instance Device_eq_dec : EqDecision Device.
Proof. solve_decision. Defined.

Record ApiKey := mkApiKey { ApiKey_KeyPrefix : string; ApiKey_KeyHash : string; ApiKey_CreatedAt : time }.

Inductive EventSource :=
  EventSourceHeartbeat | EventSourceWebUI | EventSourceExpiry | EventSourceLimitExceeded.

Inductive EventTrigger :=
  EventTriggerUser | EventTriggerSchedule | EventTriggerNetworkChange | EventTriggerSystem.

#[export] Instance EventSource_eq_dec : EqDecision EventSource.
Proof. solve_decision. Defined.
#[export] Instance EventTrigger_eq_dec : EqDecision EventTrigger.
Proof. solve_decision. Defined.

Record Address := mkAddress {
  Address_ID : AddressID;
  Address_DeviceID : DeviceID;
  Address_IP : string;
  Address_IsEnabled : bool;
  Address_Source : EventSource;
  Address_CreatedAt : time;
  Address_UpdatedAt : time;
}.

#[export] Instance Address_eq_dec : EqDecision Address.
Proof. solve_decision. Defined.

(** A row of [address_events], the append-only audit trail, without its id. *)
Record AddressEventRow := mkAddressEventRow {
  aer_AddressID : AddressID;
  aer_IsEnabled : bool;
  aer_Source : EventSource;
  aer_Trigger : EventTrigger;
  aer_CreatedAt : time;
}.

Inductive AddressEventType :=
  EventTypeAddressCreated | EventTypeAddressEnabled | EventTypeAddressRefreshed | EventTypeAddressDisabled.

#[export] Instance AddressEventType_eq_dec : EqDecision AddressEventType.
Proof. solve_decision. Defined.

Record AddressEvent := mkAddressEvent {
  AddressEvent_Type : AddressEventType;
  AddressEvent_AddressID : AddressID;
  AddressEvent_DeviceID : DeviceID;
  AddressEvent_OccurredAt : time;
}.

Inductive DeviceEventType := DeviceEventTypeOwnershipChanged.

Record DeviceEvent := mkDeviceEvent {
  DeviceEvent_Type : DeviceEventType;
  DeviceEvent_DeviceID : DeviceID;
  DeviceEvent_OccurredAt : time;
}.

(** [device.IPEntry]: what the policy cache is built from. *)
Record IPEntry := mkIPEntry {
  IPEntry_IP : string;
  IPEntry_DeviceID : DeviceID;
  IPEntry_AddressID : AddressID;
  IPEntry_UserID : UserID;
}.

(** ** rule and lease *)

Inductive RuleType := RuleTypeDeviceAddressLease | RuleTypeMaxActiveAddresses.

#[export] Instance RuleType_eq_dec : EqDecision RuleType.
Proof. solve_decision. Defined.
#[export] Instance RuleType_countable : Countable RuleType.
Proof.
  refine (inj_countable' (λ t, match t with RuleTypeDeviceAddressLease => true | _ => false end)
            (λ b : bool, if b then RuleTypeDeviceAddressLease else RuleTypeMaxActiveAddresses) _).
  by intros [].
Defined.

(** A parsed JSON document, as far as a rule's [config] column can hold one:
    numbers are the integers [encoding/json] accepts for an [int] field, and
    [JOther] stands for a value of any other kind. *)
Inductive json :=
  | JNull
  | JNum (n : Z)
  | JObj (fields : list (string * json))
  | JOther.

(** [device_rules]: [Rule_Config] is [None] for a text that is empty or not
    valid JSON. *)
Record Rule := mkRule {
  Rule_ID : RuleID;
  Rule_DeviceID : DeviceID;
  Rule_RuleType : RuleType;
  Rule_Enabled : bool;
  Rule_Config : option json;
  Rule_CreatedAt : time;
  Rule_UpdatedAt : time;
}.

Inductive RuleEventType := RuleEventTypeEnabled | RuleEventTypeDisabled.

#[export] Instance RuleEventType_eq_dec : EqDecision RuleEventType.
Proof. solve_decision. Defined.

Record RuleEvent := mkRuleEvent {
  RuleEvent_Type : RuleEventType;
  RuleEvent_DeviceID : DeviceID;
  RuleEvent_RuleType : RuleType;
  RuleEvent_TTLSeconds : option Z;
  RuleEvent_OccurredAt : time;
}.

Record AddressLease := mkAddressLease {
  AddressLease_ID : AddressLeaseID;
  AddressLease_DeviceID : DeviceID;
  AddressLease_AddressID : AddressID;
  AddressLease_ExpiresAt : option time;
  AddressLease_UpdatedAt : time;
  AddressLease_CreatedAt : time;
}.

(** ** hosts and useraccess *)

Record Host := mkHost { Host_ID : HostID; Host_FQDN : string; Host_UpdatedAt : time; Host_CreatedAt : time }.

(** [HostGroup_HostIDs] is loaded from [host_group_members] and is [[]] in a
    stored row. *)
Record HostGroup := mkHostGroup {
  HostGroup_ID : HostGroupID;
  HostGroup_Name : string;
  HostGroup_Color : string;
  HostGroup_Icon : string;
  HostGroup_Description : option string;
  HostGroup_UpdatedAt : time;
  HostGroup_CreatedAt : time;
  HostGroup_HostIDs : list HostID;
}.

Record IgnoredHostSuggestion := mkSuggestion { Suggestion_ID : Z; Suggestion_FQDN : string; Suggestion_CreatedAt : time }.

Record UserHostSetting := mkUserHostSetting { UserHostSetting_UserID : UserID; UserHostSetting_BypassHostCheck : bool }.

Record UserHostGrant := mkUserHostGrant { UserHostGrant_UserID : UserID; UserHostGrant_FQDN : string }.

(** [policy.UserHostAccess]. *)
Record UserHostAccess := mkUserHostAccess {
  UserHostAccess_UserID : UserID;
  UserHostAccess_BypassAllowlist : bool;
  UserHostAccess_AllowedHosts : list string;
}.

(** ** networkpolicies *)

Record NetworkPolicy := mkNetworkPolicy {
  NetworkPolicy_ID : NetworkPolicyID;
  NetworkPolicy_Name : string;
  NetworkPolicy_CIDR : string;
  NetworkPolicy_Description : option string;
  NetworkPolicy_Enabled : bool;
  NetworkPolicy_BypassHostCheck : bool;
  NetworkPolicy_CreatedAt : time;
  NetworkPolicy_UpdatedAt : time;
}.

Record CacheEntry := mkCacheEntry {
  CacheEntry_PolicyID : NetworkPolicyID;
  CacheEntry_PolicyName : string;
  CacheEntry_CIDR : string;
  CacheEntry_BypassHostCheck : bool;
  CacheEntry_AllowedHostFQDNs : list string;
}.

(** ** devicepairing *)

Inductive storedPairingStatus := storedPending | storedUsed | storedInvalidated | storedReplaced.

#[export] Instance storedPairingStatus_eq_dec : EqDecision storedPairingStatus.
Proof. solve_decision. Defined.

Record pairingRow := mkPairingRow {
  pairingRow_ID : DevicePairingID;
  pairingRow_DeviceID : DeviceID;
  pairingRow_PairingCode : string;
  pairingRow_HeartbeatServerURL : string;
  pairingRow_HeartbeatIntervalSeconds : Z;
  pairingRow_AppBiometricEnabled : bool;
  pairingRow_AppSettingsLocked : bool;
  pairingRow_ExpiresAt : time;
  pairingRow_CreatedAt : time;
  pairingRow_UpdatedAt : time;
  pairingRow_Status : storedPairingStatus;
}.

(** ** accesslog and rollup *)

(** A row of [access_log]; [headers_json] is kept as the map it encodes. *)
Record AccessLogRow := mkAccessLogRow {
  log_ClientIP : string;
  log_Outcome : bool;
  log_DenyReason : option string;
  log_ContributorCount : Z;
  log_CreatedAt : time;
  log_XFFChain : option string;
  log_TargetHost : option string;
  log_TargetURI : option string;
  log_HTTPMethod : option string;
  log_Headers : gmap string (list string);
  log_DurationUs : Z;
}.

Record ContributorRow := mkContributorRow {
  contributor_AccessLogID : Z;
  contributor_DeviceID : DeviceID;
  contributor_AddressID : AddressID;
  contributor_UserID : UserID;
}.

Record PolicyContributorRow := mkPolicyContributorRow {
  policy_contributor_PolicyID : option NetworkPolicyID;
  policy_contributor_PolicyName : string;
}.

Record GeoRow := mkGeoRow {
  geo_CountryCode : string;
  geo_CountryName : string;
  geo_ContinentCode : string;
  geo_ASN : Z;
  geo_ASNOrg : string;
}.

(** [hourly_traffic_aggregates], keyed by its unique index (bucket, client
    address, host, outcome, deny reason). *)
Abbreviation TrafficKey := (time * string * string * bool * string)%type (only parsing).

Record TrafficAggregate := mkTrafficAggregate {
  agg_RequestCount : Z;
  agg_SumDurationUs : Z;
  agg_MaxDurationUs : Z;
  agg_CountryCode : string;
  agg_CountryName : string;
  agg_ContinentCode : string;
}.

Inductive AttributionKind := AttributionKindPolicy | AttributionKindUser | AttributionKindDevice.

#[export] Instance AttributionKind_eq_dec : EqDecision AttributionKind.
Proof. solve_decision. Defined.
#[export] Instance AttributionKind_countable : Countable AttributionKind.
Proof.
  refine (inj_countable' (λ k, match k with AttributionKindPolicy => 0%nat | AttributionKindUser => 1%nat | _ => 2%nat end)
            (λ n, match n with 0%nat => AttributionKindPolicy | 1%nat => AttributionKindUser | _ => AttributionKindDevice end) _).
  by intros [].
Defined.

(** [hourly_attribution_aggregates], keyed by its unique index (bucket,
    kind, entity name, outcome): the entity's id and the count. *)
Abbreviation AttributionKey := (time * AttributionKind * string * bool)%type (only parsing).

Record log_tables := mkLogTables {
  access_log : gmap Z AccessLogRow;
  access_log_contributors : list ContributorRow;
  access_log_policies : gmap Z PolicyContributorRow;
  access_log_geoip : gmap Z GeoRow;
  hourly_traffic : gmap TrafficKey TrafficAggregate;
  hourly_attribution : gmap AttributionKey (option Z * Z);
}.

Definition on_access_log f l := mkLogTables (f (access_log l)) (access_log_contributors l) (access_log_policies l) (access_log_geoip l) (hourly_traffic l) (hourly_attribution l).
Definition on_access_log_contributors f l := mkLogTables (access_log l) (f (access_log_contributors l)) (access_log_policies l) (access_log_geoip l) (hourly_traffic l) (hourly_attribution l).
Definition on_access_log_policies f l := mkLogTables (access_log l) (access_log_contributors l) (f (access_log_policies l)) (access_log_geoip l) (hourly_traffic l) (hourly_attribution l).
Definition on_access_log_geoip f l := mkLogTables (access_log l) (access_log_contributors l) (access_log_policies l) (f (access_log_geoip l)) (hourly_traffic l) (hourly_attribution l).
Definition on_hourly_traffic f l := mkLogTables (access_log l) (access_log_contributors l) (access_log_policies l) (access_log_geoip l) (f (hourly_traffic l)) (hourly_attribution l).
Definition on_hourly_attribution f l := mkLogTables (access_log l) (access_log_contributors l) (access_log_policies l) (access_log_geoip l) (hourly_traffic l) (f (hourly_attribution l)).

(** ** The database *)

Record db := mkDb {
  users : gmap UserID User;
  sessions : gmap SessionID Session;
  devices : gmap DeviceID Device;
  api_keys : gmap DeviceID ApiKey;
  addresses : gmap AddressID Address;
  address_events : gmap Z AddressEventRow;
  leases : gmap AddressID AddressLease;
  rules : gmap (DeviceID * RuleType) Rule;
  hosts : gmap HostID Host;
  host_groups : gmap HostGroupID HostGroup;
  group_members : gset (HostGroupID * HostID);
  user_settings : gmap UserID bool;
  user_groups : gset (UserID * HostGroupID);
  suggestions : gmap Z IgnoredHostSuggestion;
  policies : gmap NetworkPolicyID NetworkPolicy;
  policy_seq : Z;
  policy_groups : gset (NetworkPolicyID * HostGroupID);
  pairings : gmap DevicePairingID pairingRow;
  logs : log_tables;
}.

Definition empty_db : db := mkDb ∅ ∅ ∅ ∅ ∅ ∅ ∅ ∅ ∅ ∅ ∅ ∅ ∅ ∅ ∅ 0 ∅ ∅ (mkLogTables ∅ [] ∅ ∅ ∅ ∅).

(** One-field updates. *)
Definition on_users f d := mkDb (f (users d)) (sessions d) (devices d) (api_keys d) (addresses d) (address_events d) (leases d) (rules d) (hosts d) (host_groups d) (group_members d) (user_settings d) (user_groups d) (suggestions d) (policies d) (policy_seq d) (policy_groups d) (pairings d) (logs d).
Definition on_sessions f d := mkDb (users d) (f (sessions d)) (devices d) (api_keys d) (addresses d) (address_events d) (leases d) (rules d) (hosts d) (host_groups d) (group_members d) (user_settings d) (user_groups d) (suggestions d) (policies d) (policy_seq d) (policy_groups d) (pairings d) (logs d).
Definition on_devices f d := mkDb (users d) (sessions d) (f (devices d)) (api_keys d) (addresses d) (address_events d) (leases d) (rules d) (hosts d) (host_groups d) (group_members d) (user_settings d) (user_groups d) (suggestions d) (policies d) (policy_seq d) (policy_groups d) (pairings d) (logs d).
Definition on_api_keys f d := mkDb (users d) (sessions d) (devices d) (f (api_keys d)) (addresses d) (address_events d) (leases d) (rules d) (hosts d) (host_groups d) (group_members d) (user_settings d) (user_groups d) (suggestions d) (policies d) (policy_seq d) (policy_groups d) (pairings d) (logs d).
Definition on_addresses f d := mkDb (users d) (sessions d) (devices d) (api_keys d) (f (addresses d)) (address_events d) (leases d) (rules d) (hosts d) (host_groups d) (group_members d) (user_settings d) (user_groups d) (suggestions d) (policies d) (policy_seq d) (policy_groups d) (pairings d) (logs d).
Definition on_address_events f d := mkDb (users d) (sessions d) (devices d) (api_keys d) (addresses d) (f (address_events d)) (leases d) (rules d) (hosts d) (host_groups d) (group_members d) (user_settings d) (user_groups d) (suggestions d) (policies d) (policy_seq d) (policy_groups d) (pairings d) (logs d).
Definition on_leases f d := mkDb (users d) (sessions d) (devices d) (api_keys d) (addresses d) (address_events d) (f (leases d)) (rules d) (hosts d) (host_groups d) (group_members d) (user_settings d) (user_groups d) (suggestions d) (policies d) (policy_seq d) (policy_groups d) (pairings d) (logs d).
Definition on_rules f d := mkDb (users d) (sessions d) (devices d) (api_keys d) (addresses d) (address_events d) (leases d) (f (rules d)) (hosts d) (host_groups d) (group_members d) (user_settings d) (user_groups d) (suggestions d) (policies d) (policy_seq d) (policy_groups d) (pairings d) (logs d).
Definition on_hosts f d := mkDb (users d) (sessions d) (devices d) (api_keys d) (addresses d) (address_events d) (leases d) (rules d) (f (hosts d)) (host_groups d) (group_members d) (user_settings d) (user_groups d) (suggestions d) (policies d) (policy_seq d) (policy_groups d) (pairings d) (logs d).
Definition on_host_groups f d := mkDb (users d) (sessions d) (devices d) (api_keys d) (addresses d) (address_events d) (leases d) (rules d) (hosts d) (f (host_groups d)) (group_members d) (user_settings d) (user_groups d) (suggestions d) (policies d) (policy_seq d) (policy_groups d) (pairings d) (logs d).
Definition on_group_members f d := mkDb (users d) (sessions d) (devices d) (api_keys d) (addresses d) (address_events d) (leases d) (rules d) (hosts d) (host_groups d) (f (group_members d)) (user_settings d) (user_groups d) (suggestions d) (policies d) (policy_seq d) (policy_groups d) (pairings d) (logs d).
Definition on_user_settings f d := mkDb (users d) (sessions d) (devices d) (api_keys d) (addresses d) (address_events d) (leases d) (rules d) (hosts d) (host_groups d) (group_members d) (f (user_settings d)) (user_groups d) (suggestions d) (policies d) (policy_seq d) (policy_groups d) (pairings d) (logs d).
Definition on_user_groups f d := mkDb (users d) (sessions d) (devices d) (api_keys d) (addresses d) (address_events d) (leases d) (rules d) (hosts d) (host_groups d) (group_members d) (user_settings d) (f (user_groups d)) (suggestions d) (policies d) (policy_seq d) (policy_groups d) (pairings d) (logs d).
Definition on_suggestions f d := mkDb (users d) (sessions d) (devices d) (api_keys d) (addresses d) (address_events d) (leases d) (rules d) (hosts d) (host_groups d) (group_members d) (user_settings d) (user_groups d) (f (suggestions d)) (policies d) (policy_seq d) (policy_groups d) (pairings d) (logs d).
Definition on_policies f d := mkDb (users d) (sessions d) (devices d) (api_keys d) (addresses d) (address_events d) (leases d) (rules d) (hosts d) (host_groups d) (group_members d) (user_settings d) (user_groups d) (suggestions d) (f (policies d)) (policy_seq d) (policy_groups d) (pairings d) (logs d).
Definition on_policy_seq f d := mkDb (users d) (sessions d) (devices d) (api_keys d) (addresses d) (address_events d) (leases d) (rules d) (hosts d) (host_groups d) (group_members d) (user_settings d) (user_groups d) (suggestions d) (policies d) (f (policy_seq d)) (policy_groups d) (pairings d) (logs d).
Definition on_policy_groups f d := mkDb (users d) (sessions d) (devices d) (api_keys d) (addresses d) (address_events d) (leases d) (rules d) (hosts d) (host_groups d) (group_members d) (user_settings d) (user_groups d) (suggestions d) (policies d) (policy_seq d) (f (policy_groups d)) (pairings d) (logs d).
Definition on_pairings f d := mkDb (users d) (sessions d) (devices d) (api_keys d) (addresses d) (address_events d) (leases d) (rules d) (hosts d) (host_groups d) (group_members d) (user_settings d) (user_groups d) (suggestions d) (policies d) (policy_seq d) (policy_groups d) (f (pairings d)) (logs d).
Definition on_logs f d := mkDb (users d) (sessions d) (devices d) (api_keys d) (addresses d) (address_events d) (leases d) (rules d) (hosts d) (host_groups d) (group_members d) (user_settings d) (user_groups d) (suggestions d) (policies d) (policy_seq d) (policy_groups d) (pairings d) (f (logs d)).
