(* ===== verification/Store.v ===== *)
(** * Store: transactions over the database ([internal/database])

    A program step is a computation of the monad [M]: it reads whether its
    context carries a transaction ([bool]), threads the [world] (database,
    clock, random source, event queues) and returns a value or an error.  A
    SQL statement is atomic: [query] reads, [exec] writes or fails without
    writing.  Any statement may fail with a driver error: [w_faults] is the
    oracle, one entry per statement, [BEGIN] and [COMMIT] included, and [[]]
    means that no further statement fails. *)

From S2P Require Import Prelude GoLib Schema.

(** ** Results *)

Inductive result (A : Type) :=
  | Ok (a : A)
  | Err (e : error).
Arguments Ok {A} a.
Arguments Err {A} e.

(** ** The world *)

Record world := mkWorld {
  w_db : db;
  w_now : time;                        (* time.Now() *)
  w_faults : list (option bool);       (* driver errors to come; [Some true] is lock contention *)
  w_rand : list string;                (* crypto/rand, one 32-byte block per read *)
  w_contended : bool;                  (* the contention flag of the request context *)
  w_cancelled : bool;                  (* a select on the request context takes its Done case *)
  w_lease_events : list AddressEvent;       (* lease.Service.events *)
  w_lease_rule_events : list RuleEvent;     (* lease.Service.ruleEvents *)
  w_maxaddr_events : list AddressEvent;     (* maxaddr.Service.events *)
  w_maxaddr_rule_events : list RuleEvent;   (* maxaddr.Service.ruleEvents *)
  w_refresh : bool;                    (* policy.Service.refreshSignal, capacity 1 *)
}.

Definition set_db d w := mkWorld d (w_now w) (w_faults w) (w_rand w) (w_contended w) (w_cancelled w) (w_lease_events w) (w_lease_rule_events w) (w_maxaddr_events w) (w_maxaddr_rule_events w) (w_refresh w).
Definition set_now t w := mkWorld (w_db w) t (w_faults w) (w_rand w) (w_contended w) (w_cancelled w) (w_lease_events w) (w_lease_rule_events w) (w_maxaddr_events w) (w_maxaddr_rule_events w) (w_refresh w).
Definition set_faults l w := mkWorld (w_db w) (w_now w) l (w_rand w) (w_contended w) (w_cancelled w) (w_lease_events w) (w_lease_rule_events w) (w_maxaddr_events w) (w_maxaddr_rule_events w) (w_refresh w).
Definition set_rand l w := mkWorld (w_db w) (w_now w) (w_faults w) l (w_contended w) (w_cancelled w) (w_lease_events w) (w_lease_rule_events w) (w_maxaddr_events w) (w_maxaddr_rule_events w) (w_refresh w).
Definition set_contended b w := mkWorld (w_db w) (w_now w) (w_faults w) (w_rand w) b (w_cancelled w) (w_lease_events w) (w_lease_rule_events w) (w_maxaddr_events w) (w_maxaddr_rule_events w) (w_refresh w).
Definition set_lease_events l w := mkWorld (w_db w) (w_now w) (w_faults w) (w_rand w) (w_contended w) (w_cancelled w) l (w_lease_rule_events w) (w_maxaddr_events w) (w_maxaddr_rule_events w) (w_refresh w).
Definition set_lease_rule_events l w := mkWorld (w_db w) (w_now w) (w_faults w) (w_rand w) (w_contended w) (w_cancelled w) (w_lease_events w) l (w_maxaddr_events w) (w_maxaddr_rule_events w) (w_refresh w).
Definition set_maxaddr_events l w := mkWorld (w_db w) (w_now w) (w_faults w) (w_rand w) (w_contended w) (w_cancelled w) (w_lease_events w) (w_lease_rule_events w) l (w_maxaddr_rule_events w) (w_refresh w).
Definition set_maxaddr_rule_events l w := mkWorld (w_db w) (w_now w) (w_faults w) (w_rand w) (w_contended w) (w_cancelled w) (w_lease_events w) (w_lease_rule_events w) (w_maxaddr_events w) l (w_refresh w).
Definition set_refresh b w := mkWorld (w_db w) (w_now w) (w_faults w) (w_rand w) (w_contended w) (w_cancelled w) (w_lease_events w) (w_lease_rule_events w) (w_maxaddr_events w) (w_maxaddr_rule_events w) b.

(** A quiet world around a database: no faults, empty queues. *)
Definition world_of (d : db) (now : time) (rand : list string) : world :=
  mkWorld d now [] rand false false [] [] [] [] false.

(** ** The monad *)

Definition M (A : Type) : Type := bool → world → result A * world.

#[export] Instance M_ret : MRet M := λ A a tx w, (Ok a, w).
#[export] Instance M_bind : MBind M := λ A B f m tx w,
  match m tx w with
  | (Ok a, w') => f a tx w'
  | (Err e, w') => (Err e, w')
  end.

#[export] Instance M_fmap : FMap M := λ A B f m, m ≫= λ a, mret (f a).

Definition throw {A} (e : error) : M A := λ tx w, (Err e, w).

(** [if err := m; err != nil { h }]. *)
Definition catch {A} (m : M A) (h : error → M A) : M A := λ tx w,
  match m tx w with
  | (Ok a, w') => (Ok a, w')
  | (Err e, w') => h e tx w'
  end.

(** Map an error on its way out. *)
Definition map_err {A} (f : error → error) (m : M A) : M A := catch m (λ e, throw (f e)).

(** A value or its error, as [v, err := m]. *)
Definition try {A} (m : M A) : M (result A) := λ tx w, let '(r, w') := m tx w in (Ok r, w').

Definition now : M time := λ tx w, (Ok (w_now w), w).

(** A step outside the database: the delivery of an event to a queue. *)
Definition effect (f : world → world) : M unit := λ tx w, (Ok tt, f w).

Fixpoint for_each {A} (l : list A) (body : A → M unit) : M unit :=
  match l with
  | [] => mret tt
  | x :: l => body x ≫= λ _, for_each l body
  end.

Fixpoint map_each {A B} (l : list A) (body : A → M B) : M (list B) :=
  match l with
  | [] => mret []
  | x :: l => y ← body x; ys ← map_each l body; mret (y :: ys)
  end.

(** [io.ReadFull(rand.Reader, b)]. *)
Definition read_rand : M string := λ tx w,
  match w_rand w with
  | [] => (Err ErrRandom, w)
  | b :: l => (Ok b, set_rand l w)
  end.

Definition pop_fault (w : world) : option bool * world :=
  match w_faults w with
  | [] => (None, w)
  | f :: l => (f, set_faults l w)
  end.

(** One statement that reads. *)
Definition query {A} (f : time → db → A) : M A := λ tx w,
  match pop_fault w with
  | (Some busy, w') => (Err (ErrSQL busy), w')
  | (None, w') => (Ok (f (w_now w') (w_db w')), w')
  end.

(** One statement that writes, or fails and writes nothing. *)
Definition exec {A} (f : time → db → result (A * db)) : M A := λ tx w,
  match pop_fault w with
  | (Some busy, w') => (Err (ErrSQL busy), w')
  | (None, w') =>
      match f (w_now w') (w_db w') with
      | Ok (a, d') => (Ok a, set_db d' w')
      | Err e => (Err e, w')
      end
  end.

(** [GetContext]: the first row of a query, or [sql.ErrNoRows]. *)
Definition get_row {A} (f : time → db → option A) : M A :=
  query f ≫= λ o, match o with Some a => mret a | None => throw ErrNoRows end.

(** What an event observer may do: queue, not touch the database. *)
Definition inert (f : world → world) : Prop :=
  ∀ w, w_db (f w) = w_db w ∧ w_faults (f w) = w_faults w ∧ w_now (f w) = w_now w ∧ w_rand (f w) = w_rand w.

Definition notify {E} (observers : list (E → world → world)) (e : E) : M unit :=
  for_each observers (λ o, effect (o e)).

(** A non-blocking send on a buffered channel of capacity [cap]. *)
Definition try_send {E} (cap : nat) (e : E) (q : list E) : list E :=
  if Nat.ltb (length q) cap then (q ++ [e])%list else q.

(** [errors.Is(err, sql.ErrNoRows)] mapped to a domain error. *)
Definition no_rows (domain e : error) : error := match e with ErrNoRows => domain | _ => e end.

(** ** Transactions ([database.withinTx]) *)

Definition mapBusyErr (e : error) : error := match e with ErrSQL true => ErrContended | _ => e end.

Definition markContended (e : error) (w : world) : world :=
  if bool_decide (e = ErrContended) then set_contended true w else w.

(** [execTx] begins, runs [fn] with the transaction in its context, and
    rolls back on an error of [fn] or of the commit. *)
Definition execTx {A} (fn : M A) : M A := λ tx w,
  match pop_fault w with
  | (Some busy, w') => (Err (ErrSQL busy), w')
  | (None, w') =>
      match fn true w' with
      | (Err e, w1) => (Err e, set_db (w_db w) w1)
      | (Ok a, w1) =>
          match pop_fault w1 with
          | (Some busy, w2) => (Err (ErrSQL busy), set_db (w_db w) w2)
          | (None, w2) => (Ok a, w2)
          end
      end
  end.

Definition withinTx {A} (fn : M A) : M A := λ tx w,
  if tx then fn true w
  else match execTx fn tx w with
       | (Ok a, w') => (Ok a, w')
       | (Err e, w') => let e' := mapBusyErr e in (Err e', markContended e' w')
       end.

(** ** Reasoning: running without faults *)

Definition no_faults (w : world) : Prop := w_faults w = [].

Lemma pop_fault_none w : no_faults w → pop_fault w = (None, w).
Proof. unfold no_faults, pop_fault. by intros ->. Qed.

Lemma pop_fault_db w o w' : pop_fault w = (o, w') → w_db w' = w_db w ∧ w_now w' = w_now w ∧ w_rand w' = w_rand w.
Proof. unfold pop_fault. destruct (w_faults w); by intros [= <- <-]. Qed.

Lemma query_run {A} (f : time → db → A) tx w :
  no_faults w → query f tx w = (Ok (f (w_now w) (w_db w)), w).
Proof. intros H. unfold query. by rewrite pop_fault_none. Qed.

Lemma exec_run {A} (f : time → db → result (A * db)) tx w :
  no_faults w →
  exec f tx w = match f (w_now w) (w_db w) with
                | Ok (a, d') => (Ok a, set_db d' w)
                | Err e => (Err e, w)
                end.
Proof. intros H. unfold exec. by rewrite pop_fault_none. Qed.

Lemma get_row_run {A} (f : time → db → option A) tx w :
  no_faults w →
  get_row f tx w = match f (w_now w) (w_db w) with Some a => (Ok a, w) | None => (Err ErrNoRows, w) end.
Proof. intros H. unfold get_row, mbind, M_bind. rewrite query_run by done. by destruct (f _ _). Qed.

Lemma ret_run {A} (a : A) tx w : (mret a : M A) tx w = (Ok a, w).
Proof. reflexivity. Qed.

Lemma throw_run {A} e tx w : (throw e : M A) tx w = (Err e, w).
Proof. reflexivity. Qed.

Lemma now_run tx w : now tx w = (Ok (w_now w), w).
Proof. reflexivity. Qed.

Lemma bind_run {A B} (m : M A) (f : A → M B) tx w :
  (m ≫= f) tx w = match m tx w with (Ok a, w') => f a tx w' | (Err e, w') => (Err e, w') end.
Proof. reflexivity. Qed.

Lemma catch_run {A} (m : M A) h tx w :
  catch m h tx w = match m tx w with (Ok a, w') => (Ok a, w') | (Err e, w') => h e tx w' end.
Proof. reflexivity. Qed.

Lemma withinTx_nested {A} (fn : M A) w : withinTx fn true w = fn true w.
Proof. reflexivity. Qed.

Lemma no_faults_set_db d w : no_faults w → no_faults (set_db d w).
Proof. done. Qed.

(** The outermost transaction of a fault-free world commits or rolls back. *)
Lemma withinTx_run {A} (fn : M A) w :
  no_faults w → no_faults (fn true w).2 →
  withinTx fn false w =
    match fn true w with
    | (Ok a, w') => (Ok a, w')
    | (Err e, w') => (Err (mapBusyErr e), markContended (mapBusyErr e) (set_db (w_db w) w'))
    end.
Proof.
  intros H H'. unfold withinTx, execTx. rewrite pop_fault_none by done.
  destruct (fn true w) as [[a|e] w'] eqn:E; cbn in H'; [|done].
  by rewrite pop_fault_none.
Qed.

#[export] Hint Resolve no_faults_set_db : pw.

(** ** Reasoning: computations keep a fault-free world fault-free *)

Definition quiet {A} (m : M A) : Prop := ∀ tx w, no_faults w → no_faults (m tx w).2.

Lemma quiet_ret {A} (a : A) : quiet (mret a).
Proof. by intros tx w. Qed.

Lemma quiet_throw {A} e : quiet (@throw A e).
Proof. by intros tx w. Qed.

Lemma quiet_bind {A B} (m : M A) (f : A → M B) : quiet m → (∀ a, quiet (f a)) → quiet (m ≫= f).
Proof.
  intros Hm Hf tx w H. rewrite bind_run. specialize (Hm tx w H).
  destruct (m tx w) as [[a|e] w']; [by apply Hf|done].
Qed.

Lemma quiet_catch {A} (m : M A) h : quiet m → (∀ e, quiet (h e)) → quiet (catch m h).
Proof.
  intros Hm Hh tx w H. rewrite catch_run. specialize (Hm tx w H).
  destruct (m tx w) as [[a|e] w']; [done|by apply Hh].
Qed.

Lemma quiet_try {A} (m : M A) : quiet m → quiet (try m).
Proof. intros Hm tx w Hw. unfold try. specialize (Hm tx w Hw). by destruct (m tx w). Qed.

Lemma quiet_query {A} (f : time → db → A) : quiet (query f).
Proof. intros tx w H. by rewrite query_run. Qed.

Lemma quiet_exec {A} (f : time → db → result (A * db)) : quiet (exec f).
Proof. intros tx w H. rewrite exec_run by done. by destruct (f _ _) as [[a d]|e]. Qed.

Lemma quiet_get_row {A} (f : time → db → option A) : quiet (get_row f).
Proof. intros tx w H. rewrite get_row_run by done. by destruct (f _ _). Qed.

Lemma quiet_now : quiet now.
Proof. by intros tx w. Qed.

Lemma quiet_rand : quiet read_rand.
Proof. intros tx w H. unfold read_rand. by destruct (w_rand w). Qed.

Lemma quiet_effect f : (∀ w, w_faults (f w) = w_faults w) → quiet (effect f).
Proof. intros Hf tx w H. unfold no_faults, effect. cbn. by rewrite Hf. Qed.

Lemma quiet_withinTx {A} (fn : M A) : quiet fn → quiet (withinTx fn).
Proof.
  intros Hfn [] w H; [by apply Hfn|]. rewrite withinTx_run by (done || by apply Hfn).
  specialize (Hfn true w H). destruct (fn true w) as [[a|e] w']; [done|].
  unfold markContended. by case_bool_decide.
Qed.

Lemma quiet_for_each {A} (l : list A) body : (∀ x, quiet (body x)) → quiet (for_each l body).
Proof. intros Hb. induction l; cbn; [apply quiet_ret|]. by apply quiet_bind. Qed.

Lemma quiet_map_each {A B} (l : list A) (body : A → M B) : (∀ x, quiet (body x)) → quiet (map_each l body).
Proof.
  intros Hb. induction l; cbn; [apply quiet_ret|]. apply quiet_bind; [done|]. intros y.
  apply quiet_bind; [done|]. intros ys. apply quiet_ret.
Qed.

#[export] Hint Resolve quiet_ret quiet_throw quiet_bind quiet_catch quiet_try quiet_query quiet_exec quiet_get_row
  quiet_now quiet_rand quiet_withinTx quiet_for_each quiet_map_each : pw.

(** ** Reasoning: invariants of the database

    [keeps I m]: whatever faults occur, from a database in [I] the
    computation ends in one in [I], in or out of a transaction.  For an
    outermost transaction it is enough that its successful runs keep [I]
    ([commits]): any other run is rolled back. *)
Section invariant.
Context (I : db → Prop).

Definition keeps {A} (m : M A) : Prop := ∀ tx w, I (w_db w) → I (w_db (m tx w).2).

Definition commits {A} (m : M A) : Prop :=
  ∀ w a w', m true w = (Ok a, w') → I (w_db w) → I (w_db w').

Lemma keeps_commits {A} (m : M A) : keeps m → commits m.
Proof. intros Hk w a w' E H. specialize (Hk true w H). by rewrite E in Hk. Qed.

Lemma keeps_ret {A} (a : A) : keeps (mret a).
Proof. by intros tx w. Qed.

Lemma keeps_throw {A} e : keeps (@throw A e).
Proof. by intros tx w. Qed.

Lemma keeps_bind {A B} (m : M A) (f : A → M B) : keeps m → (∀ a, keeps (f a)) → keeps (m ≫= f).
Proof.
  intros Hm Hf tx w H. rewrite bind_run. specialize (Hm tx w H).
  destruct (m tx w) as [[a|e] w']; [by apply Hf|done].
Qed.

Lemma keeps_catch {A} (m : M A) h : keeps m → (∀ e, keeps (h e)) → keeps (catch m h).
Proof.
  intros Hm Hh tx w H. rewrite catch_run. specialize (Hm tx w H).
  destruct (m tx w) as [[a|e] w']; [done|by apply Hh].
Qed.

Lemma keeps_try {A} (m : M A) : keeps m → keeps (try m).
Proof. intros Hm tx w H. unfold try. specialize (Hm tx w H). by destruct (m tx w). Qed.

Lemma keeps_now : keeps now.
Proof. by intros tx w. Qed.

Lemma keeps_rand : keeps read_rand.
Proof. intros tx w H. unfold read_rand. by destruct (w_rand w). Qed.

Lemma keeps_effect f : (∀ w, w_db (f w) = w_db w) → keeps (effect f).
Proof. intros Hf tx w H. unfold effect. cbn. by rewrite Hf. Qed.

Lemma keeps_query {A} (f : time → db → A) : keeps (query f).
Proof.
  intros tx w H. unfold query. destruct (pop_fault w) as [[b|] w'] eqn:E;
    apply pop_fault_db in E as (E & _); cbn; by rewrite E.
Qed.

Lemma keeps_get_row {A} (f : time → db → option A) : keeps (get_row f).
Proof. apply keeps_bind; [apply keeps_query|]. intros []; [apply keeps_ret|apply keeps_throw]. Qed.

Lemma keeps_exec {A} (f : time → db → result (A * db)) :
  (∀ t d a d', I d → f t d = Ok (a, d') → I d') → keeps (exec f).
Proof.
  intros Hf tx w H. unfold exec. destruct (pop_fault w) as [[b|] w'] eqn:E;
    apply pop_fault_db in E as (E & _); cbn; [by rewrite E|].
  destruct (f _ _) as [[a d']|e] eqn:Ef; cbn; [|by rewrite E].
  eapply Hf; [|done]. by rewrite E.
Qed.

Lemma keeps_for_each {A} (l : list A) body : (∀ x, keeps (body x)) → keeps (for_each l body).
Proof. intros Hb. induction l; cbn; [apply keeps_ret|]. by apply keeps_bind. Qed.

Lemma keeps_map_each {A B} (l : list A) (body : A → M B) : (∀ x, keeps (body x)) → keeps (map_each l body).
Proof.
  intros Hb. induction l; cbn; [apply keeps_ret|]. apply keeps_bind; [done|]. intros y.
  apply keeps_bind; [done|]. intros ys. apply keeps_ret.
Qed.

Lemma markContended_db e w : w_db (markContended e w) = w_db w.
Proof. unfold markContended. by case_bool_decide. Qed.

(** The rule for an outermost transaction. *)
Lemma withinTx_commits {A} (fn : M A) w :
  commits fn → I (w_db w) → I (w_db (withinTx fn false w).2).
Proof.
  intros Hc H. unfold withinTx, execTx. destruct (pop_fault w) as [[b|] w0] eqn:E.
  { cbn. rewrite markContended_db. apply pop_fault_db in E as (-> & _). done. }
  apply pop_fault_db in E as (E & _).
  destruct (fn true w0) as [[a|e] w1] eqn:Ef; [|cbn; rewrite markContended_db; cbn; done].
  destruct (pop_fault w1) as [[b|] w2] eqn:E2; [cbn; rewrite markContended_db; cbn; done|].
  apply pop_fault_db in E2 as (E2 & _). cbn. rewrite E2. eapply Hc; [done|]. by rewrite E.
Qed.

(** [keeps_out]: the same for a computation started out of any transaction. *)
Definition keeps_out {A} (m : M A) : Prop := ∀ w, I (w_db w) → I (w_db (m false w).2).

Lemma keeps_keeps_out {A} (m : M A) : keeps m → keeps_out m.
Proof. intros Hk w. apply Hk. Qed.

Lemma keeps_out_bind {A B} (m : M A) (f : A → M B) : keeps_out m → (∀ a, keeps_out (f a)) → keeps_out (m ≫= f).
Proof.
  intros Hm Hf w H. rewrite bind_run. specialize (Hm w H). destruct (m false w) as [[a|e] w']; [by apply Hf|done].
Qed.

Lemma keeps_out_discard {A} (m : M A) : keeps_out m → keeps_out (_ ← m; mret tt).
Proof. intros Hm. apply keeps_out_bind; [done|]. intros _. apply keeps_keeps_out, keeps_ret. Qed.

Lemma keeps_out_withinTx {A} (fn : M A) : commits fn → keeps_out (withinTx fn).
Proof. intros Hc w H. by apply withinTx_commits. Qed.

Lemma keeps_withinTx {A} (fn : M A) : keeps fn → keeps (withinTx fn).
Proof.
  intros Hk [] w H; [by apply Hk|]. apply withinTx_commits; [|done]. by apply keeps_commits.
Qed.
End invariant.

#[export] Hint Resolve keeps_ret keeps_throw keeps_bind keeps_catch keeps_try keeps_now keeps_rand keeps_query
  keeps_get_row keeps_for_each keeps_map_each keeps_withinTx : pw.

(** ** Transactions are atomic *)

(** A failed outermost transaction leaves the database as it was, whatever
    its body did. *)
Lemma withinTx_rollback {A} (fn : M A) w e w' :
  withinTx fn false w = (Err e, w') → w_db w' = w_db w.
Proof.
  unfold withinTx, execTx. destruct (pop_fault w) as [[b|] w0] eqn:E.
  { intros [= <- <-]. rewrite markContended_db. apply pop_fault_db in E as (-> & _). done. }
  destruct (fn true w0) as [[a|e1] w1] eqn:Ef.
  - destruct (pop_fault w1) as [[b|] w2] eqn:E2; [|done]. intros [= <- <-]. by rewrite markContended_db.
  - intros [= <- <-]. by rewrite markContended_db.
Qed.

(** Its success is a success of its body on the same database. *)
Lemma withinTx_Ok {A} (fn : M A) w a w' :
  withinTx fn false w = (Ok a, w') →
  ∃ w0 w1, w_db w0 = w_db w ∧ w_now w0 = w_now w ∧ w_rand w0 = w_rand w ∧
    fn true w0 = (Ok a, w1) ∧ w_db w' = w_db w1.
Proof.
  unfold withinTx, execTx. destruct (pop_fault w) as [[b|] w0] eqn:E; [done|].
  apply pop_fault_db in E as (? & ? & ?).
  destruct (fn true w0) as [[a1|e1] w1] eqn:Ef; [|done].
  destruct (pop_fault w1) as [[b|] w2] eqn:E2; [done|]. intros [= -> ->].
  apply pop_fault_db in E2 as (? & _). eauto 10.
Qed.

(** With its clock. *)
Lemma withinTx_Ok_now {A} (fn : M A) w a w' :
  withinTx fn false w = (Ok a, w') →
  ∃ w0 w1, w_db w0 = w_db w ∧ fn true w0 = (Ok a, w1) ∧ w_db w' = w_db w1 ∧ w_now w' = w_now w1.
Proof.
  unfold withinTx, execTx. destruct (pop_fault w) as [[b|] w0] eqn:E; [done|]. apply pop_fault_db in E as (? & _ & _).
  destruct (fn true w0) as [[a1|e1] w1] eqn:Ef; [|done]. destruct (pop_fault w1) as [[b|] w2] eqn:E2; [done|]. intros [= -> ->].
  apply pop_fault_db in E2 as (? & ? & _). eauto 10.
Qed.

(** ** Running a computation step by step

    [step] rewrites the head statement of a fault-free run. *)
Lemma bind_Ok {A B} (m : M A) (f : A → M B) tx w b w' :
  (m ≫= f) tx w = (Ok b, w') → ∃ a w1, m tx w = (Ok a, w1) ∧ f a tx w1 = (Ok b, w').
Proof. rewrite bind_run. destruct (m tx w) as [[a|e] w1] eqn:E; [|done]. eauto. Qed.

Lemma query_Ok {A} (f : time → db → A) tx w a w' :
  query f tx w = (Ok a, w') → w_db w' = w_db w ∧ w_now w' = w_now w ∧ w_rand w' = w_rand w ∧ a = f (w_now w) (w_db w).
Proof.
  unfold query. destruct (pop_fault w) as [[b|] w0] eqn:E; [done|]. apply pop_fault_db in E as (E & E' & E'').
  intros [= <- <-]. by rewrite E, E', E''.
Qed.

Lemma exec_Ok {A} (f : time → db → result (A * db)) tx w a w' :
  exec f tx w = (Ok a, w') →
  ∃ d', f (w_now w) (w_db w) = Ok (a, d') ∧ w_db w' = d' ∧ w_now w' = w_now w ∧ w_rand w' = w_rand w.
Proof.
  unfold exec. destruct (pop_fault w) as [[b|] w0] eqn:E; [done|]. apply pop_fault_db in E as (E & E' & E'').
  rewrite <-E, <-E', <-E''. destruct (f (w_now w0) (w_db w0)) as [[a' d']|e] eqn:Ef; [|done].
  intros [= -> <-]. eauto.
Qed.

Lemma get_row_Ok {A} (f : time → db → option A) tx w a w' :
  get_row f tx w = (Ok a, w') → w_db w' = w_db w ∧ w_now w' = w_now w ∧ w_rand w' = w_rand w ∧ f (w_now w) (w_db w) = Some a.
Proof.
  intros (o & w1 & Hq & Hk)%bind_Ok. apply query_Ok in Hq as (Hd & Hn & Hr & ->).
  destruct (f _ _) as [a'|]; [|done]. by injection Hk as -> ->.
Qed.

Lemma catch_Ok {A} (m : M A) h tx w a w' :
  catch m h tx w = (Ok a, w') →
  m tx w = (Ok a, w') ∨ ∃ e w1, m tx w = (Err e, w1) ∧ h e tx w1 = (Ok a, w').
Proof. rewrite catch_run. destruct (m tx w) as [[a'|e] w1] eqn:E; [by left|]. right. eauto. Qed.

Lemma fmap_Ok {A B} (f : A → B) (m : M A) tx w b w' :
  (f <$> m) tx w = (Ok b, w') → ∃ a, m tx w = (Ok a, w') ∧ b = f a.
Proof. intros (a & w1 & Hm & [= <- <-])%bind_Ok. eauto. Qed.

Lemma map_err_Ok {A} g (m : M A) tx w a w' : map_err g m tx w = (Ok a, w') → m tx w = (Ok a, w').
Proof. unfold map_err, catch. by destruct (m tx w) as [[a'|e] w1]. Qed.

Lemma quiet_map_err {A} g (m : M A) : quiet m → quiet (map_err g m).
Proof. intros Hm. apply quiet_catch; [done|]. intros e. apply quiet_throw. Qed.

Lemma keeps_map_err I {A} g (m : M A) : keeps I m → keeps I (map_err g m).
Proof. intros Hm. apply keeps_catch; [done|]. intros e. apply keeps_throw. Qed.

Lemma quiet_fmap {A B} (f : A → B) (m : M A) : quiet m → quiet (f <$> m).
Proof. intros Hm. apply quiet_bind; [done|]. intros a. apply quiet_ret. Qed.

Lemma keeps_fmap I {A B} (f : A → B) (m : M A) : keeps I m → keeps I (f <$> m).
Proof. intros Hm. apply keeps_bind; [done|]. intros a. apply keeps_ret. Qed.

Lemma fmap_run {A B} (f : A → B) (m : M A) tx w :
  (f <$> m) tx w = match m tx w with (Ok a, w') => (Ok (f a), w') | (Err e, w') => (Err e, w') end.
Proof. reflexivity. Qed.

Lemma map_err_run {A} g (m : M A) tx w :
  map_err g m tx w = match m tx w with (Ok a, w') => (Ok a, w') | (Err e, w') => (Err (g e), w') end.
Proof. reflexivity. Qed.

#[export] Hint Resolve quiet_map_err keeps_map_err quiet_fmap keeps_fmap : pw.

(** ** Observers *)

Definition inert_observers {E} (os : list (E → world → world)) : Prop := Forall (λ o, ∀ e, inert (o e)) os.

Lemma notify_run {E} (os : list (E → world → world)) e tx w :
  notify os e tx w = (Ok tt, foldl (λ w o, o e w) w os).
Proof.
  unfold notify. revert w. induction os as [|o os IH]; intros w; [done|]. cbn [for_each]. rewrite bind_run.
  cbn. apply IH.
Qed.

Lemma foldl_inert {E} (os : list (E → world → world)) e : inert_observers os → inert (λ w, foldl (λ w o, o e w) w os).
Proof.
  intros Hos w. revert w. induction Hos as [|o os Ho _ IH]; intros w; [done|]. cbn.
  destruct (Ho e w) as (E1 & E2 & E3 & E4). destruct (IH (o e w)) as (F1 & F2 & F3 & F4).
  by rewrite F1, F2, F3, F4.
Qed.

Lemma quiet_notify {E} (os : list (E → world → world)) e : inert_observers os → quiet (notify os e).
Proof. intros Ho tx w H. rewrite notify_run. cbn. unfold no_faults. by rewrite (proj1 (proj2 (foldl_inert os e Ho w))). Qed.

Lemma keeps_notify I {E} (os : list (E → world → world)) e : inert_observers os → keeps I (notify os e).
Proof. intros Ho tx w H. rewrite notify_run. cbn. by rewrite (proj1 (foldl_inert os e Ho w)). Qed.

Lemma notify_db {E} (os : list (E → world → world)) e tx w : inert_observers os → w_db (notify os e tx w).2 = w_db w.
Proof. intros Ho. rewrite notify_run. by apply (foldl_inert os e Ho w). Qed.

#[export] Hint Resolve quiet_notify keeps_notify : pw.

(** Solve a goal [quiet m] or [keeps I m] by the structure of [m]; what is
    left are the writes. *)
Ltac structural :=
  repeat first
    [ assumption
    | progress intros
    | solve [eauto 2 with pw]
    | apply quiet_bind | apply quiet_catch | apply quiet_withinTx | apply quiet_map_err | apply quiet_for_each | apply quiet_map_each
    | apply keeps_bind | apply keeps_catch | apply keeps_withinTx | apply keeps_map_err | apply keeps_for_each | apply keeps_map_each
    | apply keeps_try | apply quiet_try | apply quiet_fmap | apply keeps_fmap
    | match goal with
      | |- quiet (match ?x with _ => _ end) => destruct x
      | |- keeps _ (match ?x with _ => _ end) => destruct x
      end ].

(** Run the head of a fault-free computation. *)
Ltac run_step :=
  first
    [ rewrite bind_run | rewrite ret_run | rewrite throw_run | rewrite now_run | rewrite fmap_run | rewrite map_err_run
    | rewrite catch_run | rewrite withinTx_nested | rewrite notify_run
    | rewrite query_run by eauto with pw | rewrite exec_run by eauto with pw | rewrite get_row_run by eauto with pw ];
  cbv beta iota zeta.
Ltac run := repeat run_step.

(** The successful outcomes of one write. *)
Ltac write_cases H := cbv beta zeta in H; repeat case_match; simplify_eq.

(** Invert a successful run statement by statement. *)
Ltac inv_run :=
  repeat match goal with
  | H : (_ ≫= _) _ _ = (Ok _, _) |- _ => apply bind_Ok in H as (? & ? & ? & H)
  | H : mret _ _ _ = (Ok _, _) |- _ => injection H as ? ?; subst
  | H : throw _ _ _ = (Ok _, _) |- _ => discriminate H
  | H : query _ _ _ = (Ok _, _) |- _ => apply query_Ok in H as (? & ? & ? & ?)
  | H : exec _ _ _ = (Ok _, _) |- _ => apply exec_Ok in H as (? & ? & ? & ? & ?)
  | H : get_row _ _ _ = (Ok _, _) |- _ => apply get_row_Ok in H as (? & ? & ? & ?)
  | H : map_err _ _ _ _ = (Ok _, _) |- _ => apply map_err_Ok in H
  | H : (_ <$> _) _ _ = (Ok _, _) |- _ => apply fmap_Ok in H as (? & H & ?)
  | H : withinTx _ true _ = _ |- _ => rewrite withinTx_nested in H
  end.
