(* ===== verification/Slicex.v ===== *)
(** * Slicex: generic slice helpers

    [internal/slicex] ([Dedup] and the sorted merges [Intersect] and [Diff])
    and [internal/collate] ([Collapse] and [GroupByMap]), which the read
    models use to fold SQL rows, together with [sortedKeys] of
    [internal/policy].  A Go map used as a set is a [gset]; a Go map from
    keys to slices is a [gmap]. *)

From S2P Require Import Prelude GoLib.

(** ** Ordered types ([cmp.Ordered]) *)

Class Ordered (A : Type) := {
  compare : A → A → comparison;
  compare_eq_iff a b : compare a b = Eq ↔ a = b;
  compare_swap a b : compare b a = CompOpp (compare a b);
  compare_lt_trans a b c : compare a b = Lt → compare b c = Lt → compare a c = Lt;
}.

#[export] Program Instance Z_ordered : Ordered Z := {| compare := Z.compare |}.
Next Obligation. apply Z.compare_eq_iff. Qed.
Next Obligation. intros. apply Z.compare_antisym. Qed.
Next Obligation. intros a b c. rewrite !Z.compare_lt_iff. lia. Qed.

(** Go compares strings bytewise. *)
Lemma ascii_compare_trans c : ∀ a b d : ascii,
  Ascii.compare a b = c → Ascii.compare b d = c → Ascii.compare a d = c.
Proof.
  intros a b d. unfold Ascii.compare. destruct c;
    rewrite ?N.compare_eq_iff, ?N.compare_lt_iff, ?N.compare_gt_iff; lia.
Qed.

Lemma ascii_compare_eq (a b : ascii) : Ascii.compare a b = Eq ↔ a = b.
Proof.
  unfold Ascii.compare. rewrite N.compare_eq_iff. split; [|by intros ->].
  intros H. rewrite <-(ascii_N_embedding a), <-(ascii_N_embedding b). by rewrite H.
Qed.

Lemma string_compare_eq (s t : string) : String.compare s t = Eq ↔ s = t.
Proof.
  revert t. induction s as [|a s IH]; intros [|b t]; cbn; try done.
  destruct (Ascii.compare a b) eqn:E.
  - apply ascii_compare_eq in E as ->. rewrite IH. split; [by intros ->|by intros [= ->]].
  - split; [done|]. intros [= -> ->]. by rewrite (proj2 (ascii_compare_eq b b)) in E.
  - split; [done|]. intros [= -> ->]. by rewrite (proj2 (ascii_compare_eq b b)) in E.
Qed.

Lemma string_compare_lt_trans (s t u : string) :
  String.compare s t = Lt → String.compare t u = Lt → String.compare s u = Lt.
Proof.
  revert t u. induction s as [|a s IH]; intros [|b t] [|c u]; cbn; try done.
  destruct (Ascii.compare a b) eqn:E1, (Ascii.compare b c) eqn:E2; try done.
  - by rewrite (ascii_compare_trans Eq _ _ _ E1 E2); eauto.
  - apply ascii_compare_eq in E1 as ->. by rewrite E2.
  - apply ascii_compare_eq in E2 as ->. by rewrite E1.
  - by rewrite (ascii_compare_trans Lt _ _ _ E1 E2).
Qed.

#[export] Program Instance string_ordered : Ordered string := {| compare := String.compare |}.
Next Obligation. apply string_compare_eq. Qed.
Next Obligation. intros. apply String.compare_antisym. Qed.
Next Obligation. apply string_compare_lt_trans. Qed.

Definition lt_of `{Ordered A} (a b : A) : Prop := compare a b = Lt.

(** Ascending without duplicates: what [sort.Strings] makes of a map's keys. *)
Definition ascending `{Ordered A} (l : list A) : Prop := StronglySorted lt_of l.

(** ** slicex *)

Section dedup.
Context {T : Type} `{Countable T}.

Fixpoint dedup_go (seen : gset T) (s : list T) : list T :=
  match s with
  | [] => []
  | v :: s => if decide (v ∈ seen) then dedup_go seen s else v :: dedup_go ({[v]} ∪ seen) s
  end.

Definition Dedup (s : list T) : list T := dedup_go ∅ s.

Lemma elem_of_dedup_go seen s x : x ∈ dedup_go seen s ↔ x ∈ s ∧ x ∉ seen.
Proof.
  revert seen. induction s as [|v s IH]; intros seen; cbn; [set_solver|].
  destruct (decide (v ∈ seen)); [rewrite IH; set_solver|].
  rewrite !elem_of_cons, IH. destruct (decide (x = v)); set_solver.
Qed.

Lemma NoDup_dedup_go seen s : NoDup (dedup_go seen s).
Proof.
  revert seen. induction s as [|v s IH]; intros seen; cbn; [constructor|].
  destruct (decide (v ∈ seen)); [apply IH|]. constructor; [|apply IH].
  rewrite elem_of_dedup_go. set_solver.
Qed.

Lemma sublist_dedup_go seen s : dedup_go seen s `sublist_of` s.
Proof.
  revert seen. induction s as [|v s IH]; intros seen; cbn; [constructor|].
  destruct (decide (v ∈ seen)); constructor; apply IH.
Qed.

Lemma elem_of_Dedup s x : x ∈ Dedup s ↔ x ∈ s.
Proof. unfold Dedup. rewrite elem_of_dedup_go. set_solver. Qed.

Lemma NoDup_Dedup s : NoDup (Dedup s).
Proof. apply NoDup_dedup_go. Qed.

Lemma dedup_go_id seen s : NoDup s → (∀ x, x ∈ s → x ∉ seen) → dedup_go seen s = s.
Proof.
  intros Hs. revert seen. induction Hs as [|v s Hv Hs IH]; intros seen Hd; [done|].
  cbn. rewrite decide_False by (apply Hd; left). f_equal. apply IH. set_solver.
Qed.

(** Every element is kept once, at its first occurrence. *)
Lemma Dedup_snoc s x : Dedup (s ++ [x]) = if decide (x ∈ s) then Dedup s else Dedup s ++ [x].
Proof.
  unfold Dedup. assert (∀ seen, dedup_go seen (s ++ [x])
    = if decide (x ∈ s ∨ x ∈ seen) then dedup_go seen s else dedup_go seen s ++ [x]) as Hg.
  { induction s as [|v s IH]; intros seen; cbn.
    - repeat case_decide; set_solver.
    - rewrite !IH. repeat case_decide; try done; set_solver. }
  rewrite Hg. repeat case_decide; try done; set_solver.
Qed.
End dedup.

Section merge.
Context `{Ordered T}.
Implicit Types a b : list T.

Fixpoint Intersect a : list T → list T :=
  fix go b :=
    match a, b with
    | x :: a', y :: b' =>
        match compare x y with
        | Eq => x :: Intersect a' b'
        | Lt => Intersect a' b
        | Gt => go b'
        end
    | _, _ => []
    end.

Fixpoint Diff a : list T → list T :=
  fix go b :=
    match a, b with
    | [], _ => []
    | x :: a', [] => x :: Diff a' []
    | x :: a', y :: b' =>
        match compare x y with
        | Lt => x :: Diff a' b
        | Eq => Diff a' b'
        | Gt => go b'
        end
    end.

Lemma Intersect_nil_r a : Intersect a [] = [].
Proof. by destruct a. Qed.

Lemma Diff_nil_r a : Diff a [] = a.
Proof. induction a as [|x a IH]; [done|]. cbn. by rewrite IH. Qed.

Lemma Diff_nil_l b : Diff [] b = [].
Proof. by destruct b. Qed.

Lemma Intersect_cons x a y b :
  Intersect (x :: a) (y :: b) =
  match compare x y with
  | Eq => x :: Intersect a b | Lt => Intersect a (y :: b) | Gt => Intersect (x :: a) b
  end.
Proof. cbn. by destruct (compare x y). Qed.

Lemma Diff_cons x a y b :
  Diff (x :: a) (y :: b) =
  match compare x y with
  | Lt => x :: Diff a (y :: b) | Eq => Diff a b | Gt => Diff (x :: a) b
  end.
Proof. cbn. by destruct (compare x y). Qed.

(** The two merges take the same walk, so they always split [a]. *)
Lemma merge_split a b : Intersect a b ++ Diff a b ≡ₚ a.
Proof.
  revert b. induction a as [|x a IHa]; intros b.
  { by destruct b. }
  induction b as [|y b IHb].
  { by rewrite Intersect_nil_r, Diff_nil_r. }
  rewrite Intersect_cons, Diff_cons. destruct (compare x y).
  - cbn. by rewrite IHa.
  - rewrite <-Permutation_middle. by rewrite IHa.
  - apply IHb.
Qed.

Lemma compare_gt x y : compare x y = Gt → lt_of y x.
Proof. unfold lt_of. rewrite (compare_swap x y). by intros ->. Qed.

Lemma lt_of_irrefl x : ¬ lt_of x x.
Proof. unfold lt_of. by rewrite (proj2 (compare_eq_iff x x)). Qed.

Lemma lt_of_trans x y z : lt_of x y → lt_of y z → lt_of x z.
Proof. apply compare_lt_trans. Qed.

Lemma ascending_cons x a : ascending (x :: a) → ascending a ∧ x ∉ a ∧ ∀ y, y ∈ a → lt_of x y.
Proof.
  intros [Ha Hx]%StronglySorted_inv. rewrite Forall_forall in Hx.
  split; [done|]. split; [|done]. intros Hin%Hx. by apply (lt_of_irrefl x).
Qed.

Lemma ascending_NoDup a : ascending a → NoDup a.
Proof.
  induction a as [|x a IH]; [constructor|]. intros (Ha & Hx & _)%ascending_cons. constructor; auto.
Qed.

Lemma below_ascending x y b : ascending (y :: b) → lt_of x y → x ∉ y :: b.
Proof.
  intros (_ & _ & Hb)%ascending_cons Hlt [->|Hin]%elem_of_cons; [by apply (lt_of_irrefl y)|].
  apply (lt_of_irrefl x). apply lt_of_trans with y; auto.
Qed.

Lemma elem_of_Intersect a b x : ascending a → ascending b → x ∈ Intersect a b ↔ x ∈ a ∧ x ∈ b.
Proof.
  revert b. induction a as [|u a IHa]; intros b Ha Hb.
  { destruct b; set_solver. }
  pose proof (ascending_cons _ _ Ha) as (Ha' & Hu & Hua). revert Hb.
  induction b as [|v b IHb]; intros Hb; [rewrite Intersect_nil_r; set_solver|].
  pose proof (ascending_cons _ _ Hb) as (Hb' & Hv & Hvb). rewrite Intersect_cons.
  destruct (compare u v) eqn:E.
  - apply compare_eq_iff in E as ->. rewrite elem_of_cons, IHa by done.
    pose proof (lt_of_irrefl x). set_solver.
  - rewrite IHa by done. pose proof (below_ascending u v b Hb E). set_solver.
  - rewrite IHb by done. pose proof (below_ascending v u a Ha (compare_gt _ _ E)). set_solver.
Qed.

Lemma elem_of_Diff a b x : ascending a → ascending b → x ∈ Diff a b ↔ x ∈ a ∧ x ∉ b.
Proof.
  intros Ha Hb. pose proof (merge_split a b) as Hp.
  pose proof (ascending_NoDup a Ha) as Hnd. rewrite <-Hp in Hnd. apply NoDup_app in Hnd as (_ & Hd & _).
  assert (x ∈ a ↔ x ∈ Intersect a b ∨ x ∈ Diff a b) as Hin by (by rewrite <-elem_of_app, Hp).
  rewrite Hin. rewrite elem_of_Intersect in Hin |- * by done. split.
  - intros Hx. split; [by right|]. intros Hxb. apply (Hd x); [|done].
    rewrite elem_of_Intersect by done. tauto.
  - tauto.
Qed.
End merge.

(** ** collate *)

Section collate.
Context {Row K Parent Child V : Type} `{Countable K}.

Definition collapse_step (key : Row → K) (newParent : Row → Parent) (child : Row → option Child)
    (attach : Parent → Child → Parent) (st : gmap K nat * list Parent) (r : Row)
    : gmap K nat * list Parent :=
  let '(seen, out) := st in
  let k := key r in
  let '(idx, seen, out) :=
    match seen !! k with
    | Some idx => (idx, seen, out)
    | None => (length out, <[k := length out]> seen, out ++ [newParent r])
    end in
  match child r with
  | Some c => (seen, alter (λ p, attach p c) idx out)
  | None => (seen, out)
  end.

Definition Collapse (rs : list Row) (key : Row → K) (newParent : Row → Parent)
    (child : Row → option Child) (attach : Parent → Child → Parent) : list Parent :=
  (foldl (collapse_step key newParent child attach) (∅, []) rs).2.

Definition GroupByMap (items : list Row) (key : Row → K) (val : Row → V) : gmap K (list V) :=
  foldl (λ out it, <[key it := default [] (out !! key it) ++ [val it]]> out) ∅ items.

(** The specification of [Collapse]: one parent per distinct key, in the
    order of first appearance, with the children of the key attached in
    row order. *)
Definition collapse_parent (rs : list Row) (key : Row → K) (newParent : Row → Parent)
    (child : Row → option Child) (attach : Parent → Child → Parent) (k : K) : option Parent :=
  let mine := filter (λ r, key r = k) rs in
  r0 ← head mine; Some (foldl attach (newParent r0) (omap child mine)).

Section collapse.
Context (key : Row → K) (newParent : Row → Parent) (child : Row → option Child) (attach : Parent → Child → Parent).
Implicit Types rs : list Row.

Notation parent_of rs := (collapse_parent rs key newParent child attach).

Lemma collapse_parent_other rs r k : key r ≠ k → parent_of (rs ++ [r]) k = parent_of rs k.
Proof. intros Hne. unfold collapse_parent. by rewrite filter_app, filter_cons_False, filter_nil, app_nil_r. Qed.

Lemma collapse_parent_more rs r p :
  parent_of rs (key r) = Some p →
  parent_of (rs ++ [r]) (key r) = Some (match child r with Some c => attach p c | None => p end).
Proof.
  unfold collapse_parent. rewrite filter_app, filter_cons_True, filter_nil by done. destruct (filter _ rs) as [|r0 l]; [done|].
  cbn -[omap]. intros [= <-]. change (r0 :: l ++ [r]) with ((r0 :: l) ++ [r]).
  rewrite omap_app, foldl_app. cbn. by destruct (child r).
Qed.

Lemma collapse_parent_first rs r :
  key r ∉ key <$> rs → parent_of (rs ++ [r]) (key r) = Some (match child r with Some c => attach (newParent r) c | None => newParent r end).
Proof.
  intros Hn. unfold collapse_parent. rewrite filter_app, filter_cons_True, filter_nil by done.
  replace (filter (λ x, key x = key r) rs) with (@nil Row).
  - cbn. by destruct (child r).
  - symmetry. apply filter_none. intros x Hx E. apply Hn. rewrite <-E. by apply list_elem_of_fmap_2.
Qed.

Lemma collapse_parent_some rs k : k ∈ key <$> rs → is_Some (parent_of rs k).
Proof.
  intros (x & -> & Hx)%list_elem_of_fmap. unfold collapse_parent. destruct (filter _ rs) as [|y l] eqn:Ef; [|by eexists]. exfalso.
  assert (x ∈ filter (λ y, key y = key x) rs) as Hf by (by apply list_elem_of_filter). rewrite Ef in Hf. by apply elem_of_nil in Hf.
Qed.

(** The loop's state: where each key seen so far sits, and its parent. *)
Definition collapse_ok (st : gmap K nat * list Parent) rs : Prop :=
  (∀ k i, st.1 !! k = Some i ↔ Dedup (key <$> rs) !! i = Some k) ∧
  ∀ i, st.2 !! i = (Dedup (key <$> rs) !! i ≫= λ k, parent_of rs k).

Lemma collapse_length st rs : collapse_ok st rs → length st.2 = length (Dedup (key <$> rs)).
Proof.
  intros [_ Ho]. apply Nat.le_antisymm; apply Nat.le_ngt; intros Hlt; apply lookup_lt_is_Some_2 in Hlt as [x Hx].
  - rewrite Ho, lookup_ge_None_2 in Hx by done. done.
  - specialize (Ho (length st.2)). rewrite Hx, lookup_ge_None_2 in Ho by done. cbn in Ho.
    apply list_elem_of_lookup_2, elem_of_Dedup, collapse_parent_some in Hx as [p Hp]. congruence.
Qed.

Lemma collapse_ok_seen st rs r idx :
  collapse_ok st rs → st.1 !! key r = Some idx → collapse_ok (collapse_step key newParent child attach st r) (rs ++ [r]).
Proof.
  destruct st as [seen out]. intros [Hs Ho] Ek. cbn in Hs, Ho, Ek. pose proof (proj1 (Hs _ _) Ek) as Hidx.
  unfold collapse_ok, collapse_step. rewrite Ek, fmap_app. cbn [fmap list_fmap]. rewrite Dedup_snoc.
  pose proof (list_elem_of_lookup_2 _ _ _ Hidx) as Hin. rewrite elem_of_Dedup in Hin. rewrite decide_True by done.
  assert (∀ i k, Dedup (key <$> rs) !! i = Some k → i ≠ idx → parent_of (rs ++ [r]) k = parent_of rs k) as Hother.
  { intros i k Hi Hne. apply collapse_parent_other. intros <-. apply Hne. exact (NoDup_lookup _ _ _ _ (NoDup_Dedup (key <$> rs)) Hi Hidx). }
  destruct (collapse_parent_some rs (key r) Hin) as [p Hp]. pose proof (collapse_parent_more rs r p Hp) as Hmore.
  destruct (child r) as [c|]; cbn [fst snd]; (split; [exact Hs|]); intros i; destruct (decide (i = idx)) as [->|Hne].
  - rewrite list_lookup_alter, decide_True, Ho, Hidx by done. cbn. by rewrite Hmore, Hp.
  - rewrite list_lookup_alter_ne, Ho by done. destruct (_ !! i) as [k|] eqn:Ei; [|done]. cbn. by rewrite (Hother i k).
  - rewrite Ho, Hidx. cbn. by rewrite Hmore, Hp.
  - rewrite Ho. destruct (_ !! i) as [k|] eqn:Ei; [|done]. cbn. by rewrite (Hother i k).
Qed.

Lemma collapse_ok_new st rs r :
  collapse_ok st rs → st.1 !! key r = None → collapse_ok (collapse_step key newParent child attach st r) (rs ++ [r]).
Proof.
  intros Hok Ek. pose proof (collapse_length st rs Hok) as Hlen. destruct st as [seen out], Hok as [Hs Ho]. cbn in Hs, Ho, Ek, Hlen.
  unfold collapse_ok, collapse_step. rewrite Ek, fmap_app. cbn [fmap list_fmap]. rewrite Dedup_snoc.
  assert (key r ∉ key <$> rs) as Hin.
  { rewrite <-elem_of_Dedup, list_elem_of_lookup. intros [i Hi]. apply Hs in Hi. congruence. }
  rewrite decide_False by done. set (ks := Dedup (key <$> rs)) in *.
  pose proof (collapse_parent_first rs r Hin) as Hfirst.
  assert (∀ k i, <[key r := length out]> seen !! k = Some i ↔ (ks ++ [key r]) !! i = Some k) as Hseen.
  { intros k i. rewrite lookup_insert_Some, lookup_snoc_Some, Hs, Hlen. split.
    - intros [[<- <-]|[Hne Hi]]; [by right|left]. split; [by eapply lookup_lt_Some|done].
    - intros [[Hlt Hi]|[-> <-]]; [right|by left]. split; [|done]. intros <-. apply Hin, elem_of_Dedup. by eapply list_elem_of_lookup_2. }
  assert (∀ i k, ks !! i = Some k → parent_of (rs ++ [r]) k = parent_of rs k) as Hother.
  { intros i k Hi. apply collapse_parent_other. intros <-. apply Hin, elem_of_Dedup. by eapply list_elem_of_lookup_2. }
  assert (∀ p, parent_of (rs ++ [r]) (key r) = Some p → ∀ i, (out ++ [p]) !! i = ((ks ++ [key r]) !! i ≫= λ k, parent_of (rs ++ [r]) k)) as Hout.
  { intros p Hp i. destruct (decide (i < length ks)%nat) as [Hlt|Hge].
    - rewrite !lookup_app_l, Ho by (done || congruence). destruct (ks !! i) as [k|] eqn:Ei; [|done]. cbn. by rewrite (Hother i k).
    - rewrite !lookup_app_r, Hlen by lia. destruct (i - length ks)%nat as [|n] eqn:En; cbn; [by rewrite Hp|]. by destruct n. }
  destruct (child r) as [c|]; cbn [fst snd]; (split; [exact Hseen|]).
  - intros i. rewrite <-(Hout _ Hfirst i). f_equal. by rewrite alter_app_r_alt, Nat.sub_diag by lia.
  - by apply Hout.
Qed.

(** Rows that come in blocks, one per parent: one parent per block. *)
Lemma collapse_block_tail rs k seen out x :
  Forall (λ r, key r = k) rs → seen !! k = Some (length out) →
  foldl (collapse_step key newParent child attach) (seen, out ++ [x]) rs = (seen, out ++ [foldl attach x (omap child rs)]).
Proof.
  intros Hk Hseen. revert x. induction Hk as [|r rs Hr _ IH]; intros x; [done|]. cbn [foldl].
  assert (collapse_step key newParent child attach (seen, out ++ [x]) r = (seen, out ++ [match child r with Some c => attach x c | None => x end])) as ->.
  { unfold collapse_step. rewrite Hr, Hseen. destruct (child r); [|done]. by rewrite alter_app_r_alt, Nat.sub_diag by lia. }
  rewrite IH. cbn. by destruct (child r).
Qed.

Definition block_parent (rs : list Row) : option Parent := r0 ← head rs; Some (foldl attach (newParent r0) (omap child rs)).

Lemma collapse_blocks {P} (k : P → K) (f : P → list Row) (ps : list P) seen out :
  NoDup (k <$> ps) → (∀ p, p ∈ ps → seen !! k p = None) → (∀ p, p ∈ ps → f p ≠ [] ∧ Forall (λ r, key r = k p) (f p)) →
  (foldl (collapse_step key newParent child attach) (seen, out) (ps ≫= f)).2 = out ++ omap (λ p, block_parent (f p)) ps.
Proof.
  revert seen out. induction ps as [|p ps IH]; intros seen out Hnd Hseen Hf; [cbn; by rewrite app_nil_r|].
  cbn [fmap list_fmap] in Hnd. apply NoDup_cons in Hnd as [Hp Hnd]. rewrite bind_cons, foldl_app.
  destruct (Hf p) as [Hne Hk]; [by left|]. cbn [omap list_omap].
  destruct (f p) as [|r rs] eqn:Efp; [done|]. apply Forall_cons_1 in Hk as [Hr Hk]. cbn [foldl block_parent head mbind option_bind].
  assert (collapse_step key newParent child attach (seen, out) r =
    (<[k p := length out]> seen, out ++ [match child r with Some c => attach (newParent r) c | None => newParent r end])) as ->.
  { unfold collapse_step. rewrite Hr, Hseen by (by left). destruct (child r); [|done]. by rewrite alter_app_r_alt, Nat.sub_diag by lia. }
  rewrite (collapse_block_tail rs (k p)) by (done || apply lookup_insert_eq). rewrite IH; [|done| |].
  - rewrite <-app_assoc. do 2 f_equal. cbn. by destruct (child r).
  - intros q Hq. rewrite lookup_insert_ne; [apply Hseen; by right|]. intros E. apply Hp. rewrite E. by apply list_elem_of_fmap_2.
  - intros q Hq. apply Hf. by right.
Qed.

(** The join collapse returns one parent per distinct key, in the
    order of first appearance, built from the key's first row, with the
    children of all its rows attached in row order. *)
Theorem Collapse_groups_by_key rs :
  Forall2 (λ k p, parent_of rs k = Some p) (Dedup (key <$> rs)) (Collapse rs key newParent child attach).
Proof.
  assert (collapse_ok (foldl (collapse_step key newParent child attach) (∅, []) rs) rs) as Hok.
  { induction rs as [|r rs IH] using rev_ind.
    - split; cbn; [intros k i; by rewrite lookup_empty|done].
    - rewrite foldl_app. cbn [foldl]. set (st := foldl _ _ rs) in *.
      destruct (st.1 !! key r) as [idx|] eqn:E; [by eapply collapse_ok_seen|by apply collapse_ok_new]. }
  unfold Collapse. apply Forall2_same_length_lookup. split; [symmetry; by apply collapse_length|].
  intros i k p Hk Hp. rewrite (proj2 Hok), Hk in Hp. exact Hp.
Qed.
End collapse.

Lemma GroupByMap_lookup items key val k :
  GroupByMap items key val !! k =
    match filter (λ it, key it = k) items with [] => None | l => Some (val <$> l) end.
Proof.
  unfold GroupByMap. induction items as [|it items IH] using rev_ind; [done|].
  rewrite foldl_app, filter_app. cbn [foldl].
  destruct (decide (key it = k)) as [E|E].
  - rewrite filter_cons_True, filter_nil, E, lookup_insert, decide_True, IH by done.
    destruct (filter _ items) as [|r l]; [done|]. cbn. by rewrite fmap_app.
  - rewrite lookup_insert_ne, IH, filter_cons_False, filter_nil, app_nil_r by done. done.
Qed.
End collate.

(** ** sortedKeys *)

Definition sortedKeys (m : gset string) : list string := merge_sort String.le (elements m).

Lemma elem_of_sortedKeys m x : x ∈ sortedKeys m ↔ x ∈ m.
Proof. unfold sortedKeys. by rewrite merge_sort_Permutation, elem_of_elements. Qed.

Lemma string_le_lt s t : String.le s t → s ≠ t → lt_of s t.
Proof.
  unfold String.le, String.leb, lt_of. cbn. destruct (String.compare s t) eqn:E; [|done|done].
  by apply string_compare_eq in E.
Qed.

Lemma sortedKeys_ascending m : ascending (sortedKeys m).
Proof.
  unfold sortedKeys, ascending.
  assert (NoDup (merge_sort String.le (elements m))) as Hnd.
  { rewrite merge_sort_Permutation. apply NoDup_elements. }
  assert (StronglySorted String.le (merge_sort String.le (elements m))) as Hs.
  { apply StronglySorted_merge_sort; apply _. }
  induction Hs as [|x l Hl IH Hx]; constructor.
  - apply IH. by apply NoDup_cons in Hnd as [].
  - apply NoDup_cons in Hnd as [Hn _]. rewrite Forall_forall in Hx |- *.
    intros y Hy. apply string_le_lt; [by apply Hx|]. by intros ->.
Qed.
