(* ===== verification/HostNames.v ===== *)
(** * HostNames: host name validation and normalisation ([internal/hosts/params.go])

    [NormaliseHost] is applied both to the FQDNs an administrator stores and
    to the host a request asks for, so the policy compares like with like.
    The theorems say when a stored name is a fixed point of it and that a
    request's port, case or trailing dot does not matter. *)

From S2P Require Import Prelude GoLib Schema Store.

Local Open Scope string_scope.
Local Open Scope Z_scope.

(** ** Validation *)

Definition label_char (c : ascii) : bool :=
  is_lower c || is_upper c || is_digit c || ascii_eqb c "-".

(** [validateLabel]. *)
Definition validateLabel (label : string) : bool :=
  let n := String.length label in
  if Nat.eqb n 0 || Nat.ltb 63 n then false
  else if bool_decide (nth_byte 0 label = Some "-"%char) || bool_decide (nth_byte (n - 1) label = Some "-"%char)
  then false
  else str_all label_char label.

Definition ValidateFQDN (s : string) : result unit :=
  let cleaned := trim_suffix_byte "." s in
  if bool_decide (cleaned = "") then Err ErrBadRequest
  else if Nat.ltb 253 (String.length cleaned) then Err ErrBadRequest
  else
    let labels := split_byte "." cleaned in
    if Nat.ltb (length labels) 2 then Err ErrBadRequest
    else if negb (forallb validateLabel labels) then Err ErrBadRequest
    else if str_all is_digit (List.last labels "") then Err ErrBadRequest
    else Ok tt.

(** ** Normalisation *)

Section normalise.
Context `{GoUnicode}.

Definition NormaliseFQDN (raw : string) : string := trim_suffix_byte "." (ToLower (TrimSpace raw)).

Definition isNumericPort (port : string) : bool :=
  if bool_decide (port = "") then false else str_all is_digit port.

Definition NormaliseHost (raw : string) : string :=
  match SplitHostPort (TrimSpace raw) with
  | Some (host, port) => if isNumericPort port then NormaliseFQDN host else NormaliseFQDN raw
  | None => NormaliseFQDN raw
  end.
End normalise.

(** ** Character classes of a valid name *)

Definition name_char (c : ascii) : bool := label_char c || ascii_eqb c ".".

Definition plain_char (c : ascii) : bool := name_char c && negb (is_upper c).

Lemma name_char_spec c : name_char c = true →
  is_ascii_byte c = true ∧ is_ascii_space c = false ∧ c ≠ ":"%char ∧ c ≠ "["%char ∧ c ≠ "]"%char.
Proof. destruct c as [[] [] [] [] [] [] [] []]; vm_compute; intros Hc; try discriminate Hc; repeat split; discriminate. Qed.

Lemma validateLabel_chars l : validateLabel l = true → str_all label_char l = true.
Proof. unfold validateLabel. repeat case_match; done. Qed.

Lemma str_all_untrim f c s : f c = true → str_all f (trim_suffix_byte c s) = true → str_all f s = true.
Proof.
  intros Hc. induction s as [|a s IH]; [done|]. cbn [trim_suffix_byte]. destruct s as [|b s'].
  - destruct (ascii_eqb a c) eqn:E; [|done]. intros _. apply ascii_eqb_true in E as ->. cbn. by rewrite Hc.
  - cbn [str_all]. intros [Ha Hs]%andb_prop. rewrite Ha. cbn. by apply IH.
Qed.

Lemma ValidateFQDN_chars s : ValidateFQDN s = Ok tt → str_all name_char s = true.
Proof.
  unfold ValidateFQDN. repeat case_match; try done. intros _. bool_prop.
  apply (str_all_untrim _ "."); [done|]. apply (str_all_split _ "."); [|done].
  intros w Hw. match goal with H : forallb _ _ = true |- _ => rewrite forallb_forall in H; rename H into Hl end.
  apply list_elem_of_In in Hw. apply Hl, validateLabel_chars in Hw. revert Hw.
  apply str_all_impl. intros c Hc. unfold name_char. by rewrite Hc.
Qed.

Lemma trim_suffix_no_dot s c : last_index_byte c s ≠ Some (String.length s - 1)%nat → trim_suffix_byte c s = s.
Proof.
  induction s as [|a s IH]; [done|]. cbn [trim_suffix_byte last_index_byte]. destruct s as [|b s'].
  - cbn. destruct (ascii_eqb a c); [|done]. intros Hn. by contradict Hn.
  - intros Hn. f_equal. apply IH. intros Hl. rewrite Hl in Hn. apply Hn. f_equal.
    cbn [String.length]. lia.
Qed.

Lemma trim_suffix_snoc s c : trim_suffix_byte c (s +:+ String c "") = s.
Proof.
  induction s as [|a s IH]; [change ("" +:+ String c "") with (String c ""); cbn [trim_suffix_byte]; by rewrite ascii_eqb_refl|].
  rewrite append_cons. cbn [trim_suffix_byte]. rewrite IH. by destruct s.
Qed.

Section theorems.
Context `{GoUnicode}.

Lemma plain_facts s : str_all plain_char s = true →
  is_ascii s = true ∧ str_all (λ c, negb (is_ascii_space c)) s = true ∧
  str_all (λ c, negb (is_upper c)) s = true ∧ contains_byte ":" s = false.
Proof.
  intros Hs. rewrite contains_byte_false. unfold is_ascii.
  repeat split; revert Hs; apply str_all_impl; intros c [Hn Hu]%andb_prop;
    apply name_char_spec in Hn as (? & ? & ? & _); try done.
  - by apply negb_true_iff.
  - by rewrite ascii_eqb_false.
Qed.

Lemma NormaliseFQDN_plain s : str_all plain_char s = true → NormaliseFQDN s = trim_suffix_byte "." s.
Proof.
  intros Hs. apply plain_facts in Hs as (Ha & Hsp & Hu & _). unfold NormaliseFQDN.
  by rewrite TrimSpace_id, ToLower_id.
Qed.

Lemma NormaliseHost_plain s : str_all plain_char s = true → NormaliseHost s = trim_suffix_byte "." s.
Proof.
  intros Hs. pose proof (plain_facts s Hs) as (Ha & Hsp & _ & Hc). unfold NormaliseHost.
  rewrite TrimSpace_id by done. rewrite SplitHostPort_no_colon by done. by apply NormaliseFQDN_plain.
Qed.

(** The normal form has no capital letter. *)
Lemma NormaliseFQDN_no_upper raw : str_all (λ c, negb (is_upper c)) (NormaliseFQDN raw) = true.
Proof. apply str_all_trim_suffix, ToLower_no_upper. Qed.

Lemma NormaliseHost_no_upper raw : str_all (λ c, negb (is_upper c)) (NormaliseHost raw) = true.
Proof. unfold NormaliseHost. repeat case_match; apply NormaliseFQDN_no_upper. Qed.

Lemma str_all_and f g s : str_all f s = true → str_all g s = true → str_all (λ c, f c && g c) s = true.
Proof.
  induction s as [|c s IH]; [done|]. cbn. intros [-> Hf]%andb_prop [-> Hg]%andb_prop. by apply IH.
Qed.

Lemma stored_plain raw :
  ValidateFQDN (NormaliseHost raw) = Ok tt → str_all plain_char (NormaliseHost raw) = true.
Proof.
  intros Hv. apply str_all_and; [by apply ValidateFQDN_chars|apply NormaliseHost_no_upper].
Qed.

(** A stored name: the host a request must ask for to match it. *)
Lemma NormaliseHost_stored raw :
  ValidateFQDN (NormaliseHost raw) = Ok tt →
  NormaliseHost (NormaliseHost raw) = trim_suffix_byte "." (NormaliseHost raw).
Proof. intros Hv. by apply NormaliseHost_plain, stored_plain. Qed.

(** A trailing dot of the request does not matter. *)
Lemma NormaliseHost_dot s : str_all plain_char s = true → NormaliseHost (s +:+ ".") = s.
Proof.
  intros Hs. rewrite NormaliseHost_plain; [apply trim_suffix_snoc|].
  rewrite str_all_app, Hs. done.
Qed.

(** Nor does a port. *)
Lemma str_take_app s t : str_take (String.length s) (s +:+ t) = s.
Proof. induction s as [|c s IH]; [by destruct t|]. rewrite append_cons. cbn. by rewrite IH. Qed.

Lemma str_drop_app s t : str_drop (String.length s) (s +:+ t) = t.
Proof. induction s as [|c s IH]; [by destruct t|]. rewrite append_cons. done. Qed.

Lemma last_index_byte_mid c s t :
  contains_byte c t = false → last_index_byte c (s +:+ String c t) = Some (String.length s).
Proof.
  intros Ht. induction s as [|a s IH].
  - change ("" +:+ String c t) with (String c t). cbn [last_index_byte].
    rewrite last_index_byte_None by done. by rewrite ascii_eqb_refl.
  - rewrite append_cons. cbn. by rewrite IH.
Qed.

Lemma str_all_contains f c s : str_all f s = true → f c = false → contains_byte c s = false.
Proof.
  intros Hs Hc. apply contains_byte_false. revert Hs. apply str_all_impl. intros a Ha.
  destruct (ascii_eqb a c) eqn:E; [|done]. apply ascii_eqb_true in E as ->. by rewrite Hc in Ha.
Qed.

Lemma str_drop_plus n m s : str_drop (n + m) s = str_drop m (str_drop n s).
Proof. revert s. induction n as [|n IH]; intros s; [done|]. destruct s; [by destruct m|]. apply IH. Qed.

Lemma contains_byte_app c s t : contains_byte c (s +:+ t) = contains_byte c s || contains_byte c t.
Proof. unfold contains_byte, str_exists. by rewrite str_all_app, negb_andb. Qed.

Lemma SplitHostPort_plain s port :
  str_all plain_char s = true → s ≠ "" → str_all is_digit port = true →
  SplitHostPort (s +:+ ":" +:+ port) = Some (s, port).
Proof.
  intros Hs Hne Hp. unfold SplitHostPort.
  assert (":" +:+ port = String ":" port) as -> by done.
  rewrite last_index_byte_mid by (by apply (str_all_contains is_digit)).
  assert (nth_byte 0 (s +:+ String ":" port) ≠ Some "["%char) as Hb.
  { destruct s as [|a s]; [done|]. rewrite append_cons. cbn. intros [= ->]. by vm_compute in Hs. }
  rewrite bool_decide_eq_false_2 by done. rewrite str_take_app.
  rewrite (str_all_contains plain_char ":" s) by done.
  change (str_drop 0 ?x) with x. cbv zeta.
  assert (∀ c, c ≠ ":"%char → is_digit c = false → contains_byte c (String ":" port) = false) as Hc.
  { intros c Hcc Hd. apply contains_byte_false. cbn. rewrite (ascii_eqb_false ":" c) by done.
    by apply contains_byte_false, (str_all_contains is_digit). }
  rewrite !(contains_byte_app _ s). rewrite (str_all_contains plain_char "[" s), (str_all_contains plain_char "]" s) by done.
  rewrite !Hc by done. cbn [orb].
  replace (S (String.length s)) with (String.length s + 1)%nat by lia.
  by rewrite str_drop_plus, str_drop_app.
Qed.

Lemma NormaliseHost_port s port :
  str_all plain_char s = true → s ≠ "" → isNumericPort port = true →
  NormaliseHost (s +:+ ":" +:+ port) = trim_suffix_byte "." s.
Proof.
  intros Hs Hne Hp. unfold isNumericPort in Hp. case_bool_decide; [done|].
  unfold NormaliseHost. rewrite TrimSpace_id.
  - rewrite SplitHostPort_plain by done. unfold isNumericPort.
    rewrite bool_decide_eq_false_2, Hp by done. by apply NormaliseFQDN_plain.
  - unfold is_ascii. rewrite !str_all_app. apply plain_facts in Hs as (Ha & _). unfold is_ascii in Ha. rewrite Ha.
    cbn. revert Hp. apply str_all_impl. intros c. by destruct c as [[] [] [] [] [] [] [] []].
  - rewrite !str_all_app. apply plain_facts in Hs as (_ & -> & _).
    cbn. revert Hp. apply str_all_impl. intros c. by destruct c as [[] [] [] [] [] [] [] []].
Qed.
End theorems.

(** ** Properties *)

Section properties.
Context `{GoUnicode}.

(** C38: once an administrator's input has been normalised and has passed
    validation, and does not keep a trailing dot, every way a client can
    spell the stored name is normalised back to it: the name itself, the
    absolute form with a final dot, and either with a numeric port. *)
Theorem NormaliseHost_request_forms raw h :
  h = NormaliseHost raw → ValidateFQDN h = Ok tt → trim_suffix_byte "." h = h →
  NormaliseHost h = h ∧ NormaliseHost (h +:+ ".") = h ∧
  ∀ port, isNumericPort port = true →
    NormaliseHost (h +:+ ":" +:+ port) = h ∧ NormaliseHost ((h +:+ ".") +:+ ":" +:+ port) = h.
Proof.
  intros -> Hv Hdot. pose proof (stored_plain _ Hv) as Hs.
  assert (NormaliseHost raw ≠ "") as Hne by (intros E; by rewrite E in Hv).
  split; [by rewrite NormaliseHost_stored|]. split; [by apply NormaliseHost_dot|]. intros port Hp.
  split; [by rewrite NormaliseHost_port|]. rewrite NormaliseHost_port; [apply trim_suffix_snoc| | |done].
  - by rewrite str_all_app, Hs.
  - by destruct (NormaliseHost raw).
Qed.
End properties.

Example NormaliseHost_request_forms_witness :
  NormaliseHost "App.Example.org" = "app.example.org" ∧
  NormaliseHost "app.example.org:8443" = "app.example.org".
Proof.
  split; [reflexivity|].
  refine (proj1 (proj2 (proj2 (NormaliseHost_request_forms "App.Example.org" "app.example.org" _ _ _)) "8443" _));
    reflexivity.
Defined.

(** Of two trailing dots normalisation strips one and validation
    ignores the other, so the name is stored with a final dot; a request
    for the name as stored, or for the name without the dot, is normalised
    to another string and does not match it. *)
Theorem double_dot_stored_not_fixed :
  let stored := NormaliseHost "app.example.org.." in
  ValidateFQDN stored = Ok tt ∧ stored = "app.example.org." ∧
  NormaliseHost stored ≠ stored ∧ NormaliseHost "app.example.org" ≠ stored.
Proof. vm_compute. repeat split; discriminate. Qed.
