(* ===== verification/Http.v ===== *)
(** * Http: responses of the handlers

    A handler of the generated API calls a service and turns its error into
    a status; the text of an error body and the log lines are not kept. *)

From S2P Require Import Prelude Schema Store.

Local Open Scope Z_scope.

(** An HTTP response: its status and its JSON body; the [None] body stands
    for an error message or for no content. *)
Record Response (A : Type) := mkResponse { Status : Z; Body : option A }.
Arguments mkResponse {A} Status Body.
Arguments Status {A} r.
Arguments Body {A} r.

(** A handler: the service's error is turned into a status. *)
Definition respond {A B} (m : M A) (ok : A → Response B) (status : error → Z) : M (Response B) :=
  r ← try m; mret (match r with Ok a => ok a | Err e => mkResponse (status e) None end).

(** A pure function that can fail, as a step. *)
Definition of_result {A} (r : result A) : M A := match r with Ok a => mret a | Err e => throw e end.

Lemma of_result_run {A} (r : result A) tx w : of_result r tx w = (r, w).
Proof. by destruct r. Qed.

Lemma quiet_of_result {A} (r : result A) : quiet (of_result r).
Proof. destruct r; [apply quiet_ret|apply quiet_throw]. Qed.

Lemma keeps_of_result I {A} (r : result A) : keeps I (of_result r).
Proof. destruct r; [apply keeps_ret|apply keeps_throw]. Qed.

Lemma of_result_Ok {A} (r : result A) tx w a w' : of_result r tx w = (Ok a, w') → r = Ok a ∧ w' = w.
Proof. rewrite of_result_run. by intros [= -> ->]. Qed.

(** A handler keeps what its service keeps. *)
Lemma keeps_respond I {A B} (m : M A) (ok : A → Response B) status : keeps I m → keeps I (respond m ok status).
Proof. intros Hm. unfold respond. apply keeps_bind; [by apply keeps_try|]. intros r. apply keeps_ret. Qed.

Lemma respond_run {A B} (m : M A) (ok : A → Response B) status tx w :
  respond m ok status tx w =
    let '(r, w') := m tx w in (Ok (match r with Ok a => ok a | Err e => mkResponse (status e) None end), w').
Proof. unfold respond. rewrite bind_run. unfold try. by destruct (m tx w) as [[a|e] w']. Qed.

(** The first failure of a list, as a loop with an early return. *)
Fixpoint map_result {A B} (f : A → result B) (l : list A) : result (list B) :=
  match l with
  | [] => Ok []
  | x :: l =>
      match f x with
      | Err e => Err e
      | Ok y => match map_result f l with Err e => Err e | Ok ys => Ok (y :: ys) end
      end
  end.

Lemma map_result_Err {A B} (f : A → result B) l e : map_result f l = Err e → ∃ x, x ∈ l ∧ f x = Err e.
Proof.
  induction l as [|x l IH]; [done|]. cbn. destruct (f x) as [y|e'] eqn:E; [|intros [= ->]; exists x; split; [by left|done]].
  destruct (map_result f l) as [ys|e']; [done|]. intros [= ->]. destruct (IH eq_refl) as (z & Hz & Ez). exists z. split; [by right|done].
Qed.

Lemma map_result_Ok {A B} (f : A → result B) l ys : map_result f l = Ok ys ↔ Forall2 (λ x y, f x = Ok y) l ys.
Proof.
  revert ys. induction l as [|x l IH]; intros ys; cbn.
  - split; [by intros [= <-]; constructor|by inversion 1].
  - split.
    + destruct (f x) eqn:E, (map_result f l); intros [=]; subst. constructor; [done|]. by apply IH.
    + inversion 1 as [|? y ? ys' E H']; subst. apply IH in H'. by rewrite E, H'.
Qed.

Definition bad_request {A} : Response A := mkResponse 400 None.
Definition server_error {A} : Response A := mkResponse 500 None.

(** A query that is refused, or a failure. *)
Definition query_error {A} (e : error) : Response A := if bool_decide (e = ErrInvalidFilter) then bad_request else server_error.

#[export] Hint Resolve quiet_of_result keeps_of_result keeps_respond : pw.
