(* ===== verification/Compare.v ===== *)
(** * Compare: orders given by a comparison function

    [CmpOrder cmp]: [cmp] is a strict total order ([ORDER BY] of unique
    keys).  The orders of integers and text, their lexicographic product and
    their converse; sorting by the image of a row under a key, and what a
    query that asks for the rows after a given one returns. *)

From S2P Require Import Prelude.

Lemma filter_all {A} (P : A → Prop) `{∀ x, Decision (P x)} (l : list A) : (∀ x, x ∈ l → P x) → filter P l = l.
Proof.
  induction l as [|x l IH]; intros Hall; [done|]. rewrite filter_cons_True by (apply Hall; by left).
  f_equal. apply IH. intros y Hy. apply Hall. by right.
Qed.

Lemma filter_ext_in {A} (P Q : A → Prop) `{∀ x, Decision (P x)} `{∀ x, Decision (Q x)} (l : list A) :
  (∀ x, x ∈ l → P x ↔ Q x) → filter P l = filter Q l.
Proof.
  induction l as [|x l IH]; intros Hpq; [done|]. rewrite !filter_cons. rewrite IH by (intros; apply Hpq; by right).
  specialize (Hpq x ltac:(by left)). repeat case_decide; tauto || done.
Qed.

Lemma filter_fmap {A B} (f : A → B) (P : B → Prop) `{∀ x, Decision (P x)} (l : list A) :
  filter P (f <$> l) = f <$> filter (λ x, P (f x)) l.
Proof. induction l as [|x l IH]; [done|]. rewrite fmap_cons, !filter_cons. case_decide; [|done]. by rewrite fmap_cons, IH. Qed.

Class CmpOrder {A} (cmp : A → A → comparison) : Prop := {
  cmp_Eq x y : cmp x y = Eq ↔ x = y;
  cmp_flip x y : cmp y x = CompOpp (cmp x y);
  cmp_Lt_trans x y z : cmp x y = Lt → cmp y z = Lt → cmp x z = Lt;
}.

#[export] Hint Mode CmpOrder ! ! : typeclass_instances.
Arguments cmp_Eq {A} cmp {_} x y.
Arguments cmp_flip {A} cmp {_} x y.
Arguments cmp_Lt_trans {A} cmp {_} x y z.

#[export] Instance Z_cmp_order : CmpOrder Z.compare.
Proof.
  split; [apply Z.compare_eq_iff|intros x y; apply Z.compare_antisym|].
  intros x y z. rewrite !Z.compare_lt_iff. lia.
Qed.

Lemma ascii_cmp_nat a b : Ascii.compare a b = Nat.compare (nat_of_ascii a) (nat_of_ascii b).
Proof. unfold Ascii.compare, nat_of_ascii. apply N2Nat.inj_compare. Qed.

Lemma string_cmp_Lt_trans x y z : String.compare x y = Lt → String.compare y z = Lt → String.compare x z = Lt.
Proof.
  revert y z. induction x as [|a x IH]; intros [|b y] [|c z]; cbn; try done.
  rewrite !ascii_cmp_nat.
  destruct (Nat.compare_spec (nat_of_ascii a) (nat_of_ascii b)) as [E1|E1|E1],
    (Nat.compare_spec (nat_of_ascii b) (nat_of_ascii c)) as [E2|E2|E2],
    (Nat.compare_spec (nat_of_ascii a) (nat_of_ascii c)) as [E3|E3|E3]; try done; try lia. apply IH.
Qed.

#[export] Instance string_cmp_order : CmpOrder String.compare.
Proof.
  split; [|intros x y; apply String.compare_antisym|exact string_cmp_Lt_trans].
  intros x y. split; [apply String.compare_eq_iff|]. intros ->. induction y as [|a y IH]; [done|]. cbn.
  by rewrite ascii_cmp_nat, Nat.compare_refl.
Qed.

Section orders.
Context {A : Type} (cmp : A → A → comparison) `{!CmpOrder cmp}.

Lemma cmp_refl x : cmp x x = Eq.
Proof. by apply (cmp_Eq cmp). Qed.

Lemma cmp_Gt x y : cmp x y = Gt ↔ cmp y x = Lt.
Proof. rewrite (cmp_flip cmp x y). by destruct (cmp x y). Qed.
End orders.

(** Lexicographic order of pairs. *)
Definition cmp_pair {A B} (ca : A → A → comparison) (cb : B → B → comparison) (p q : A * B) : comparison :=
  match ca p.1 q.1 with Eq => cb p.2 q.2 | c => c end.

#[export] Instance cmp_pair_order {A B} (ca : A → A → comparison) (cb : B → B → comparison) :
  CmpOrder ca → CmpOrder cb → CmpOrder (cmp_pair ca cb).
Proof.
  intros Ha Hb. unfold cmp_pair. split.
  - intros [a b] [a' b']. cbn. pose proof (cmp_Eq ca a a') as H1. pose proof (cmp_Eq cb b b') as H2.
    destruct (ca a a'), (cb b b'); split; intros H; try done; naive_solver.
  - intros [a b] [a' b']. cbn. rewrite (cmp_flip ca a a'), (cmp_flip cb b b'). by destruct (ca a a'), (cb b b').
  - intros [a b] [a' b'] [a'' b'']. cbn.
    destruct (ca a a') eqn:E1; [apply (cmp_Eq ca) in E1 as ->| |done];
      (destruct (ca a' a'') eqn:E2; [apply (cmp_Eq ca) in E2 as <-| |done]); intros H1 H2;
      try rewrite (cmp_refl ca); try rewrite E1; try rewrite E2; try done.
    + by eapply (cmp_Lt_trans _).
    + by rewrite (cmp_Lt_trans _ _ _ _ E1 E2).
Qed.

Lemma cmp_pair_Lt {A B} (ca : A → A → comparison) (cb : B → B → comparison) `{!CmpOrder ca} p q :
  cmp_pair ca cb p q = Lt ↔ ca p.1 q.1 = Lt ∨ p.1 = q.1 ∧ cb p.2 q.2 = Lt.
Proof.
  unfold cmp_pair. pose proof (cmp_Eq ca p.1 q.1) as He. destruct (ca p.1 q.1) eqn:E; [naive_solver| |].
  - naive_solver.
  - split; [done|]. intros [?|[Hp _]]; [done|]. by apply He in Hp.
Qed.

(** The converse order: [DESC]. *)
Definition cmp_rev {A} (cmp : A → A → comparison) (x y : A) : comparison := cmp y x.

#[export] Instance cmp_rev_order {A} (cmp : A → A → comparison) : CmpOrder cmp → CmpOrder (cmp_rev cmp).
Proof.
  intros H. unfold cmp_rev. split.
  - intros x y. rewrite (cmp_Eq cmp). split; by intros ->.
  - intros x y. apply (cmp_flip cmp).
  - intros x y z Hxy Hyz. by eapply (cmp_Lt_trans _).
Qed.

#[export] Typeclasses Opaque cmp_pair cmp_rev.

(** ** [ORDER BY] a key *)
Section order_by.
Context {A K : Type} (key : A → K) (cmp : K → K → comparison) `{!CmpOrder cmp}.

Definition not_after (x y : A) : Prop := cmp (key x) (key y) ≠ Gt.

#[export] Instance not_after_dec x y : Decision (not_after x y).
Proof. unfold not_after. apply _. Defined.

#[export] Instance not_after_total : Total not_after.
Proof. intros x y. unfold not_after. rewrite (cmp_flip cmp (key x) (key y)). destruct (cmp (key x) (key y)); cbn; auto. Qed.

#[export] Instance not_after_trans : Transitive not_after.
Proof.
  intros x y z. unfold not_after. destruct (cmp (key x) (key y)) eqn:E1; [apply (cmp_Eq cmp) in E1 as ->; done| |done].
  destruct (cmp (key y) (key z)) eqn:E2; [apply (cmp_Eq cmp) in E2 as <-; by rewrite E1| |done].
  by rewrite (cmp_Lt_trans _ _ _ _ E1 E2).
Qed.

Definition order_by (l : list A) : list A := merge_sort not_after l.

Definition before (x y : A) : Prop := cmp (key x) (key y) = Lt.

#[export] Instance before_dec x y : Decision (before x y).
Proof. unfold before. apply _. Defined.

Lemma order_by_Permutation l : order_by l ≡ₚ l.
Proof. apply merge_sort_Permutation. Qed.

(** Rows with distinct keys come out in strict order. *)
Lemma order_by_sorted l : NoDup (key <$> l) → StronglySorted before (order_by l).
Proof.
  intros Hnd. assert (NoDup (key <$> order_by l)) as Hnd' by (by rewrite order_by_Permutation).
  assert (StronglySorted not_after (order_by l)) as Hs by (apply StronglySorted_merge_sort; apply _).
  induction Hs as [|x k Hs IH Hx]; [constructor|]. rewrite fmap_cons in Hnd'. apply NoDup_cons in Hnd' as [Hn Hnd'].
  constructor; [by apply IH|]. rewrite Forall_forall in *. intros y Hy. specialize (Hx y Hy). unfold not_after, before in *.
  destruct (cmp (key x) (key y)) eqn:E; [|done|done]. exfalso. apply Hn. apply (cmp_Eq cmp) in E as ->. by apply list_elem_of_fmap_2.
Qed.

Lemma sorted_unique l k : StronglySorted before l → StronglySorted before k → l ≡ₚ k → l = k.
Proof.
  revert k. induction l as [|x l IH]; intros k Hl Hk Hp; [by apply Permutation_nil_l in Hp as ->|].
  destruct k as [|y k]; [by apply Permutation_nil_r in Hp|].
  apply StronglySorted_inv in Hl as [Hl Hx]. apply StronglySorted_inv in Hk as [Hk Hy]. rewrite Forall_forall in *.
  assert (x = y) as ->.
  { assert (x ∈ y :: k) as Hxk by (rewrite <-Hp; by left). assert (y ∈ x :: l) as Hyl by (rewrite Hp; by left).
    apply elem_of_cons in Hxk as [?|Hxk]; [done|]. apply elem_of_cons in Hyl as [?|Hyl]; [done|].
    specialize (Hx _ Hyl). specialize (Hy _ Hxk). unfold before in *. rewrite (cmp_flip cmp (key x) (key y)), Hx in Hy. done. }
  f_equal. apply IH; [done..|]. by apply (Permutation_cons_inv Hp).
Qed.

Lemma before_irrefl x : ¬ before x x.
Proof. unfold before. by rewrite (cmp_refl cmp). Qed.

Lemma before_asym x y : before x y → ¬ before y x.
Proof. unfold before. rewrite (cmp_flip cmp (key x) (key y)). by intros ->. Qed.

Lemma filter_after_sorted l n x :
  StronglySorted before l → l !! n = Some x → filter (before x) l = drop (S n) l.
Proof.
  revert n. induction l as [|y l IH]; intros n Hl Hn; [done|]. apply StronglySorted_inv in Hl as [Hl Hy]. rewrite Forall_forall in Hy.
  destruct n as [|n]; cbn in Hn.
  - injection Hn as ->. rewrite filter_cons_False by apply before_irrefl. by apply filter_all.
  - rewrite filter_cons_False; [by apply IH|]. apply before_asym, Hy. by eapply list_elem_of_lookup_2.
Qed.

(** The rows after the [n]th one, sorted, are the rest of all rows sorted. *)
Lemma order_by_after l n x :
  NoDup (key <$> l) → order_by l !! n = Some x → order_by (filter (before x) l) = drop (S n) (order_by l).
Proof.
  intros Hnd Hn. pose proof (order_by_sorted l Hnd) as Hs. rewrite <-(filter_after_sorted _ _ _ Hs Hn).
  apply sorted_unique; [|by apply StronglySorted_filter|].
  - apply order_by_sorted. eapply sublist_NoDup; [exact Hnd|]. apply fmap_sublist, sublist_filter.
  - rewrite order_by_Permutation. apply filter_Permutation. by rewrite order_by_Permutation.
Qed.
End order_by.

(** ** Scans in rowid order *)

Lemma scan_sorted {V} (m : gmap Z V) : StronglySorted (before fst Z.compare) (scan m).
Proof.
  assert (Transitive (@by_id V)) by (intros x y z; unfold by_id; lia).
  assert (Total (@by_id V)) by (intros x y; unfold by_id; lia).
  assert (StronglySorted by_id (scan m)) as Hs by (by apply StronglySorted_merge_sort).
  pose proof (NoDup_scan_fst m) as Hnd. induction Hs as [|x l Hs IH Hx]; [constructor|].
  rewrite fmap_cons in Hnd. apply NoDup_cons in Hnd as [Hn Hnd]. constructor; [by apply IH|].
  rewrite Forall_forall in *. intros y Hy. specialize (Hx y Hy). unfold by_id in Hx. unfold before.
  apply Z.compare_lt_iff. assert (x.1 ≠ y.1); [|lia]. intros E. apply Hn. rewrite E. by apply list_elem_of_fmap_2.
Qed.

(** A row inserted under a key above all others comes last. *)
Lemma scan_insert_last {V} (m : gmap Z V) k v :
  (∀ i x, m !! i = Some x → i < k) → scan (<[k := v]> m) = scan m ++ [(k, v)].
Proof.
  intros Hk. assert (m !! k = None) as Hn by (destruct (m !! k) as [x|] eqn:E; [specialize (Hk k x E); lia|done]).
  apply (sorted_unique fst Z.compare); [apply scan_sorted| |].
  - apply StronglySorted_app. split; [|split; [apply scan_sorted|by repeat constructor]].
    intros [i x] y Hi Hy. apply list_elem_of_singleton in Hy as ->. apply elem_of_scan in Hi. apply Z.compare_lt_iff. cbn. by eapply Hk.
  - rewrite !scan_Permutation, map_to_list_insert by done. by rewrite Permutation_app_comm.
Qed.

Lemma rows_insert_fresh {V} (m : gmap Z V) v : rows (<[fresh_id m := v]> m) = rows m ++ [v].
Proof.
  unfold rows. rewrite scan_insert_last, fmap_app; [done|]. intros i x Hi%max_id_ge. unfold fresh_id. lia.
Qed.
