(* ===== verification/Joins.v ===== *)
(** * Joins: the collapse of an outer join

    The read models join a table with its children, a row per pair and a row
    of NULLs for a parent without children, and fold the rows with
    [collate.Collapse].  Here: every parent comes out once, with exactly its
    children, whatever the order of the rows. *)

From S2P Require Import Prelude GoLib Slicex Compare.

Local Open Scope list_scope.

(** [LEFT JOIN]: a row without a partner keeps a row of NULLs. *)
Definition left_join {A} (l : list A) : list (option A) := match l with [] => [None] | _ => Some <$> l end.

Definition join_rows {P C} (children : P → list C) (ps : list P) : list (P * option C) := p ← ps; pair p <$> left_join (children p).

Lemma elem_of_left_join {A} (l : list A) o : o ∈ left_join l ↔ match o with Some x => x ∈ l | None => l = [] end.
Proof.
  destruct l as [|y l]; cbn [left_join].
  - rewrite list_elem_of_singleton. destruct o; [split; [done|by intros ?%elem_of_nil]|done].
  - rewrite list_elem_of_fmap. destruct o as [x|]; [|by split; [intros (? & ? & _)|]]. split; [by intros (? & [= ->] & ?)|by eexists].
Qed.

Lemma left_join_not_nil {A} (l : list A) : left_join l ≠ [].
Proof. by destruct l. Qed.

Lemma omap_left_join {A} (l : list A) : omap id (left_join l) = l.
Proof. destruct l as [|x l]; [done|]. cbn [left_join]. generalize (x :: l) as k. intros k. induction k; cbn; congruence. Qed.

Lemma elem_of_join_rows {P C} (children : P → list C) ps p o :
  (p, o) ∈ join_rows children ps ↔ p ∈ ps ∧ match o with Some c => c ∈ children p | None => children p = [] end.
Proof.
  unfold join_rows. rewrite list_elem_of_bind. split.
  - intros (p' & Hin & Hp). apply list_elem_of_fmap in Hin as (o' & [= -> ->] & Ho). by apply elem_of_left_join in Ho.
  - intros [Hp Ho]. exists p. split; [|done]. apply list_elem_of_fmap. exists o. split; [done|]. by apply elem_of_left_join.
Qed.

Section collapse_join.
Context {P C Item Child K : Type} `{Countable K}.
Context (kp : P → K) (np : P → Item) (ch : C → Child) (attach : Item → Child → Item) (children : P → list C).

(** What becomes of a parent: its children attached, in some order. *)
Definition joined (p : P) (x : Item) : Prop := ∃ cs, cs ≡ₚ children p ∧ x = foldl attach (np p) (ch <$> cs).

Definition collapse_join (rws : list (P * option C)) : list Item :=
  Collapse rws (λ r, kp r.1) (λ r, np r.1) (λ r, ch <$> r.2) attach.

Lemma join_rows_of p ps :
  NoDup (kp <$> ps) → p ∈ ps → filter (λ r : P * option C, kp r.1 = kp p) (join_rows children ps) = pair p <$> left_join (children p).
Proof.
  unfold join_rows. induction ps as [|q ps IH]; [by intros _ ?%elem_of_nil|]. cbn [fmap list_fmap]. intros [Hq Hnd]%NoDup_cons Hp.
  rewrite bind_cons, filter_app. apply elem_of_cons in Hp as [->|Hp].
  - assert (filter (λ r : P * option C, kp r.1 = kp q) (p ← ps; pair p <$> left_join (children p)) = []) as ->.
    { apply filter_none. intros [p' o] (Hp' & _)%elem_of_join_rows E. apply Hq. cbn in E. rewrite <-E. by apply list_elem_of_fmap_2. }
    rewrite app_nil_r. apply filter_all. intros x (o & -> & _)%list_elem_of_fmap. done.
  - rewrite IH by done. assert (filter (λ r : P * option C, kp r.1 = kp p) (pair q <$> left_join (children q)) = []) as ->; [|done].
    apply filter_none. intros x (o & -> & _)%list_elem_of_fmap E. apply Hq. cbn in E. rewrite E. by apply list_elem_of_fmap_2.
Qed.

Lemma collapse_join_parent rws ps p x :
  rws ≡ₚ join_rows children ps → NoDup (kp <$> ps) → p ∈ ps →
  collapse_parent rws (λ r, kp r.1) (λ r, np r.1) (λ r, ch <$> r.2) attach (kp p) = Some x → joined p x.
Proof.
  intros Hr Hnd Hp. unfold collapse_parent. set (mine := filter _ rws).
  assert (mine ≡ₚ pair p <$> left_join (children p)) as Hm.
  { unfold mine. rewrite Hr. by rewrite join_rows_of. }
  destruct mine as [|r0 mine'] eqn:E; [done|]. cbn [head mbind option_bind]. intros [= <-].
  assert (r0.1 = p) as ->.
  { assert (r0 ∈ pair p <$> left_join (children p)) as (o & -> & _)%list_elem_of_fmap; [|done]. rewrite <-Hm. by left. }
  exists (omap snd (r0 :: mine')). split; [|f_equal; exact (eq_sym (list_fmap_omap snd ch (r0 :: mine')))].
  rewrite Hm. rewrite <-(omap_left_join (children p)) at 2. generalize (left_join (children p)) as l. intros l. induction l as [|[c|] l IH]; cbn; by rewrite ?IH.
Qed.

Lemma Forall2_keys (R : K → Item → Prop) (ps : list P) ks l :
  Forall2 R ks l → (∀ k, k ∈ ks → ∃ p, p ∈ ps ∧ kp p = k) →
  ∃ ps', kp <$> ps' = ks ∧ (∀ p, p ∈ ps' → p ∈ ps) ∧ Forall2 (λ p x, p ∈ ps ∧ R (kp p) x) ps' l.
Proof.
  induction 1 as [|k x ks l Hk _ IH]; intros Hks.
  - exists []. split; [done|]. split; [by intros p ?%elem_of_nil|constructor].
  - destruct IH as (ps' & He & Hin & HF); [intros k' Hk'; apply Hks; by right|]. destruct (Hks k) as (p & Hp & <-); [by left|].
    exists (p :: ps'). cbn. rewrite He. split; [done|]. split; [intros q [->|Hq]%elem_of_cons; auto|by constructor].
Qed.

(** The collapse lists the parents, each once, in the order in which their
    rows appear, with their children. *)
Lemma collapse_join_spec rws ps :
  rws ≡ₚ join_rows children ps → NoDup (kp <$> ps) →
  ∃ ps', ps' ≡ₚ ps ∧ kp <$> ps' = Dedup ((λ r, kp r.1) <$> rws) ∧ Forall2 joined ps' (collapse_join rws).
Proof.
  intros Hr Hnd. pose proof (Collapse_groups_by_key (λ r : P * option C, kp r.1) (λ r, np r.1) (λ r, ch <$> r.2) attach rws) as HF.
  destruct (Forall2_keys _ ps _ _ HF) as (ps' & He & Hin & HF').
  { intros k Hk. rewrite elem_of_Dedup in Hk. apply list_elem_of_fmap in Hk as ([p o] & -> & Hp). rewrite Hr in Hp.
    apply elem_of_join_rows in Hp as [Hp _]. by exists p. }
  exists ps'. split; [|split; [done|]].
  - apply NoDup_Permutation; [apply (NoDup_fmap_1 kp); rewrite He; apply NoDup_Dedup|by apply (NoDup_fmap_1 kp)|]. intros p. split; [apply Hin|].
    intros Hp. destruct (left_join (children p)) as [|o l] eqn:El; [by apply left_join_not_nil in El|].
    assert (kp p ∈ kp <$> ps') as Hk.
    { rewrite He, elem_of_Dedup. apply list_elem_of_fmap. exists (p, o). split; [done|]. rewrite Hr. apply elem_of_join_rows. split; [done|].
      apply elem_of_left_join. rewrite El. by left. }
    apply list_elem_of_fmap in Hk as (q & Hk & Hq). assert (p = q) as ->; [|done].
    pose proof (Hin q Hq) as Hq'. clear -Hnd Hk Hp Hq'. induction ps as [|z l IH]; [by apply elem_of_nil in Hp|].
    cbn in Hnd. apply NoDup_cons in Hnd as [Hz Hnd]. apply elem_of_cons in Hp as [->|Hp], Hq' as [->|Hq']; [done| | |by apply IH];
      exfalso; apply Hz; [rewrite Hk|rewrite <-Hk]; by apply list_elem_of_fmap_2.
  - eapply Forall2_impl; [exact HF'|]. intros p x [Hp Hx]. by eapply collapse_join_parent.
Qed.

(** Rows that come parent by parent: the parents in order, each with its
    children in order. *)
Lemma collapse_join_rows ps :
  NoDup (kp <$> ps) → collapse_join (join_rows children ps) = (λ p, foldl attach (np p) (ch <$> children p)) <$> ps.
Proof.
  intros Hnd. unfold collapse_join, Collapse, join_rows.
  rewrite (collapse_blocks _ _ _ _ kp (λ p, pair p <$> left_join (children p)) ps ∅ []); [|done|by intros|].
  - cbn [app]. clear Hnd. induction ps as [|p ps IH]; [done|]. cbn [omap list_omap fmap list_fmap]. unfold block_parent at 1.
    destruct (left_join (children p)) as [|o l] eqn:El; [by apply left_join_not_nil in El|]. cbn [fmap list_fmap head mbind option_bind fst].
    rewrite IH. f_equal. f_equal. rewrite <-(omap_left_join (children p)), El.
    change (pair p o :: (pair p <$> l)) with (pair p <$> o :: l). generalize (o :: l) as k. clear. intros k. induction k as [|[c|] k IH]; cbn; by rewrite ?IH.
  - intros p Hp. split; [destruct (left_join (children p)) eqn:E; [by apply left_join_not_nil in E|done]|].
    apply Forall_fmap, Forall_true. by intros.
Qed.
End collapse_join.
