(* ===== verification/GroupBy.v ===== *)
(** * GroupBy: SQL's [GROUP BY] and its aggregates

    The groups of a list of rows under a key, in key order; sums over groups
    add up to the sum over the rows; the maximum of a column. *)

From S2P Require Import Prelude Compare.

Local Open Scope Z_scope.

(** NULL before everything else. *)
Definition cmp_option {A} (cmp : A → A → comparison) (x y : option A) : comparison :=
  match x, y with None, None => Eq | None, _ => Lt | _, None => Gt | Some a, Some b => cmp a b end.

#[export] Instance cmp_option_order {A} (cmp : A → A → comparison) : CmpOrder cmp → CmpOrder (cmp_option cmp).
Proof.
  intros H. split.
  - intros [x|] [y|]; cbn; try (split; congruence). rewrite (cmp_Eq cmp). split; congruence.
  - intros [x|] [y|]; cbn; try done. apply (cmp_flip cmp).
  - intros [x|] [y|] [z|]; cbn; try done. apply (cmp_Lt_trans cmp).
Qed.

Definition cmp_bool (x y : bool) : comparison :=
  match x, y with false, true => Lt | true, false => Gt | _, _ => Eq end.

#[export] Instance cmp_bool_order : CmpOrder cmp_bool.
Proof. split; [by intros [] []|by intros [] []|by intros [] [] []]. Qed.

#[export] Typeclasses Opaque cmp_option cmp_bool.

(** ** Aggregates *)

Definition zsum (l : list Z) : Z := foldr Z.add 0 l.

Lemma zsum_nil : zsum [] = 0.
Proof. reflexivity. Qed.

Lemma zsum_cons x l : zsum (x :: l) = x + zsum l.
Proof. reflexivity. Qed.

#[global] Arguments zsum : simpl never.

Lemma zsum_app l k : zsum (l ++ k) = zsum l + zsum k.
Proof. induction l as [|x l IH]; [done|]. rewrite <-app_comm_cons, !zsum_cons, IH. lia. Qed.

Lemma zsum_perm l k : l ≡ₚ k → zsum l = zsum k.
Proof. induction 1; rewrite ?zsum_cons; lia. Qed.

#[export] Instance zsum_Proper : Proper ((≡ₚ) ==> eq) zsum.
Proof. intros l k. apply zsum_perm. Qed.

Lemma zsum_const {A} (c : Z) (l : list A) : zsum ((λ _, c) <$> l) = c * Z.of_nat (length l).
Proof. induction l as [|x l IH]; [rewrite fmap_nil, zsum_nil; cbn; lia|]. rewrite fmap_cons, zsum_cons, IH. cbn [length]. lia. Qed.

(** [MAX] of a list that is not empty. *)
Definition zmax (l : list Z) : Z := match l with [] => 0 | x :: l => foldr Z.max x l end.

Definition str_max (x y : string) : string := match String.compare x y with Lt => y | _ => x end.
Definition text_max (l : list string) : string := foldr str_max "" l.

(** [SUM(CASE WHEN p THEN w ELSE 0 END)]. *)
Definition sum_when {A} (p : A → bool) (w : A → Z) (l : list A) : Z := zsum ((λ x, if p x then w x else 0) <$> l).

Lemma sum_when_filter {A} (p : A → bool) (l : list A) : sum_when p (λ _, 1) l = Z.of_nat (length (filter (λ x, p x = true) l)).
Proof. unfold sum_when. induction l as [|x l IH]; [done|]. rewrite fmap_cons, zsum_cons, IH, filter_cons. case_decide as Hp; [rewrite Hp; cbn [length]; lia|]. by destruct (p x). Qed.

(** ** Groups *)
Section groups.
Context {A K : Type} `{EqDecision K} (key : A → K).

Definition group (k : K) (l : list A) : list A := filter (λ x, key x = k) l.

Definition group_keys (cmp : K → K → comparison) `{!CmpOrder cmp} (l : list A) : list K := order_by id cmp (remove_dups (key <$> l)).

Lemma elem_of_group k l x : x ∈ group k l ↔ key x = k ∧ x ∈ l.
Proof. unfold group. by rewrite list_elem_of_filter. Qed.

Lemma group_keys_perm cmp `{!CmpOrder cmp} l : group_keys cmp l ≡ₚ remove_dups (key <$> l).
Proof. apply order_by_Permutation. Qed.

Lemma elem_of_group_keys cmp `{!CmpOrder cmp} l k : k ∈ group_keys cmp l ↔ ∃ x, x ∈ l ∧ key x = k.
Proof. rewrite group_keys_perm, elem_of_remove_dups, list_elem_of_fmap. naive_solver. Qed.

Lemma NoDup_group_keys cmp `{!CmpOrder cmp} l : NoDup (group_keys cmp l).
Proof. rewrite group_keys_perm. apply NoDup_remove_dups. Qed.

(** Over duplicate-free keys that cover the rows, group sums add up. *)
Lemma zsum_groups (ks : list K) (f : A → Z) l :
  NoDup ks → (∀ x, x ∈ l → key x ∈ ks) → zsum ((λ k, zsum (f <$> group k l)) <$> ks) = zsum (f <$> l).
Proof.
  intros Hnd. induction l as [|x l IH]; intros Hin.
  { clear. induction ks as [|k ks IH]; [done|]. by rewrite fmap_cons, zsum_cons, IH. }
  rewrite (fmap_cons f), zsum_cons, <-IH by (intros y Hy; apply Hin; by right).
  assert (key x ∈ ks) as Hx by (apply Hin; by left). clear IH Hin. induction Hnd as [|k ks Hk Hnd IH]; [by apply elem_of_nil in Hx|].
  rewrite !fmap_cons, !zsum_cons. apply elem_of_cons in Hx as [Hx|Hx].
  - assert ((λ k, zsum (f <$> group k (x :: l))) <$> ks = (λ k, zsum (f <$> group k l)) <$> ks) as ->.
    { apply list_fmap_ext. intros i k' Hk'. apply list_elem_of_lookup_2 in Hk'. unfold group. rewrite filter_cons_False; [done|]. congruence. }
    unfold group at 1. rewrite filter_cons_True by done. rewrite fmap_cons, zsum_cons. fold (group k l). lia.
  - unfold group at 1. rewrite filter_cons_False by congruence. rewrite (IH Hx). fold (group k l). lia.
Qed.
End groups.

(** Keys of rows with the same keys. *)
Lemma group_keys_same {A B K} `{EqDecision K} (f : A → K) (g : B → K) cmp `{!CmpOrder cmp} (l : list A) (k : list B) :
  (∀ x, x ∈ f <$> l ↔ x ∈ g <$> k) → group_keys f cmp l = group_keys g cmp k.
Proof.
  intros H. apply (sorted_unique id cmp); [apply (order_by_sorted id cmp); rewrite list_fmap_id; apply NoDup_remove_dups..|].
  rewrite !group_keys_perm. apply NoDup_Permutation; [apply NoDup_remove_dups..|]. intros x. rewrite !elem_of_remove_dups. apply H.
Qed.

(** A sum over some of the rows. *)
Lemma zsum_filter {A} (P : A → Prop) `{∀ x, Decision (P x)} (f : A → Z) (l : list A) :
  zsum (f <$> filter P l) = zsum ((λ x, if decide (P x) then f x else 0) <$> l).
Proof.
  induction l as [|x l IH]; [done|]. rewrite filter_cons, !fmap_cons, zsum_cons. case_decide; [by rewrite fmap_cons, zsum_cons, IH|].
  rewrite IH. lia.
Qed.
