(* ===== verification/Timebucket.v ===== *)
(** * Timebucket: the buckets of histograms ([internal/timebucket])

    A time is a number of nanoseconds since 1 January 1970 UTC (GoLib).
    [Time.Truncate] counts from the zero time, which lies a whole number of
    days before, so a truncation to a divisor of a day is a rounding down to
    a multiple of it; [time.Date(y, m, d, 0, 0, 0, 0, UTC)] of a time's own
    date is midnight, and [AddDate(0, 0, 1)] in UTC is 24 hours later. *)

From S2P Require Import Prelude GoLib Schema Store.

Local Open Scope string_scope.
Local Open Scope Z_scope.

Definition Day : Z := 24 * Hour.

Inductive Granularity := GranularityMinute | Granularity5Min | GranularityHour | GranularityDay.

#[export] Instance Granularity_eq_dec : EqDecision Granularity.
Proof. solve_decision. Defined.

Definition ParseGranularity (s : string) : result Granularity :=
  if bool_decide (s = "hour") || bool_decide (s = "") then Ok GranularityHour
  else if bool_decide (s = "day") then Ok GranularityDay
  else if bool_decide (s = "minute") then Ok GranularityMinute
  else if bool_decide (s = "5min") then Ok Granularity5Min
  else Err ErrInvalidGranularity.

(** The text of a granularity. *)
Definition Granularity_String (g : Granularity) : string :=
  match g with
  | GranularityMinute => "minute" | Granularity5Min => "5min" | GranularityHour => "hour" | GranularityDay => "day"
  end.

Definition GranularityForWindow (d : Z) : Granularity :=
  if d <=? 5 * Minute then GranularityMinute
  else if d <=? Hour then Granularity5Min
  else if d <=? 7 * 24 * Hour then GranularityHour
  else GranularityDay.

(** [Time.Truncate] to a divisor of a day. *)
Definition truncate (d t : Z) : Z := t / d * d.

Definition TruncateToBucket (g : Granularity) (t : time) : time :=
  match g with
  | GranularityDay => truncate Day t
  | GranularityMinute => truncate Minute t
  | Granularity5Min => truncate (5 * Minute) t
  | GranularityHour => truncate Hour t
  end.

Definition Next (g : Granularity) (t : time) : time :=
  match g with
  | GranularityDay => t + Day
  | GranularityMinute => t + Minute
  | Granularity5Min => t + 5 * Minute
  | GranularityHour => t + Hour
  end.

(** [Sequence]: the loop [for b := start; !b.After(end); b = g.Next(b)].
    [None] is a loop still running when the fuel ends. *)
Fixpoint bucket_loop (fuel : nat) (g : Granularity) (b stop : time) : option (list time) :=
  match fuel with
  | O => None
  | S fuel => if stop <? b then Some [] else cons b <$> bucket_loop fuel g (Next g b) stop
  end.

Definition Sequence (fuel : nat) (g : Granularity) (from to : time) : option (list time) :=
  bucket_loop fuel g (TruncateToBucket g from) (TruncateToBucket g to).

(** [BucketExpr]: the SQL expression, as the time it denotes for a column
    that holds [t]; [strftime] prints the fields [%Y-%m-%d], [%H] and [%M]. *)
Definition strftime_date (t : time) : time := t / Day * Day.
Definition strftime_H (t : time) : Z := t mod Day / Hour.
Definition strftime_M (t : time) : Z := t mod Hour / Minute.

Definition BucketExpr (g : Granularity) (t : time) : time :=
  match g with
  | GranularityDay => strftime_date t
  | GranularityMinute => strftime_date t + strftime_H t * Hour + strftime_M t * Minute
  | Granularity5Min => strftime_date t + strftime_H t * Hour + (strftime_M t / 5 * 5) * Minute
  | GranularityHour => strftime_date t + strftime_H t * Hour
  end.

(** ** What the buckets are *)

(** The width of a bucket. *)
Definition width (g : Granularity) : Z :=
  match g with GranularityDay => Day | GranularityMinute => Minute | Granularity5Min => 5 * Minute | GranularityHour => Hour end.

Lemma width_pos g : 0 < width g.
Proof. by destruct g. Qed.

Lemma TruncateToBucket_eq g t : TruncateToBucket g t = t / width g * width g.
Proof. by destruct g. Qed.

Lemma Next_eq g t : Next g t = t + width g.
Proof. by destruct g. Qed.

Lemma TruncateToBucket_bounds g t : TruncateToBucket g t ≤ t < Next g (TruncateToBucket g t).
Proof.
  rewrite Next_eq, TruncateToBucket_eq. pose proof (width_pos g).
  pose proof (Z.div_mod t (width g) ltac:(lia)). pose proof (Z.mod_pos_bound t (width g) ltac:(lia)). lia.
Qed.

(** The truncation in Go and the one in SQL agree. *)
Lemma BucketExpr_TruncateToBucket g t : BucketExpr g t = TruncateToBucket g t.
Proof.
  rewrite TruncateToBucket_eq. unfold BucketExpr, strftime_date, strftime_H, strftime_M.
  destruct g; cbn [width]; unfold Day, Hour, Minute, Second; Z.to_euclidean_division_equations; lia.
Qed.

Lemma ParseGranularity_String g : ParseGranularity (Granularity_String g) = Ok g.
Proof. by destruct g. Qed.

(** The [n] buckets from [b] on. *)
Definition buckets_from (g : Granularity) (b : time) (n : nat) : list time := (λ i, b + Z.of_nat i * width g) <$> seq 0 n.

Lemma buckets_from_S g b n : buckets_from g b (S n) = b :: buckets_from g (Next g b) n.
Proof.
  unfold buckets_from. cbn [seq]. rewrite fmap_cons, <-fmap_S_seq. f_equal; [lia|].
  rewrite <-list_fmap_compose. apply list_fmap_ext. intros i x _. cbn. rewrite Next_eq. lia.
Qed.

Lemma bucket_loop_run g n fuel b :
  (n < fuel)%nat → bucket_loop fuel g b (b + (Z.of_nat n - 1) * width g) = Some (buckets_from g b n).
Proof.
  pose proof (width_pos g) as Hw. revert b fuel. induction n as [|n IH]; intros b [|fuel] Hf; try lia.
  - cbn. destruct (Z.ltb_spec (b + (Z.of_nat 0 - 1) * width g) b); [done|lia].
  - cbn [bucket_loop]. destruct (Z.ltb_spec (b + (Z.of_nat (S n) - 1) * width g) b); [nia|].
    rewrite buckets_from_S. replace (b + (Z.of_nat (S n) - 1) * width g) with (Next g b + (Z.of_nat n - 1) * width g)
      by (rewrite Next_eq; lia). rewrite IH by lia. done.
Qed.

(** The number of buckets from the one of [from] to the one of [to]. *)
Definition bucket_count (g : Granularity) (from to : time) : nat := Z.to_nat (to / width g - from / width g + 1).

Lemma Sequence_buckets g from to fuel :
  from ≤ to → (bucket_count g from to < fuel)%nat →
  Sequence fuel g from to = Some (buckets_from g (TruncateToBucket g from) (bucket_count g from to)).
Proof.
  intros Hle Hf. pose proof (width_pos g). pose proof (Z.div_le_mono from to (width g) ltac:(lia) Hle).
  unfold Sequence. rewrite <-(bucket_loop_run g (bucket_count g from to) fuel) by done.
  f_equal. rewrite !TruncateToBucket_eq. unfold bucket_count. rewrite Z2Nat.id by lia. lia.
Qed.

Lemma buckets_from_lookup g b n i b' :
  buckets_from g b n !! i = Some b' ↔ (i < n)%nat ∧ b' = b + Z.of_nat i * width g.
Proof.
  unfold buckets_from. rewrite list_lookup_fmap_Some. split.
  - intros (k & -> & [-> Hk]%lookup_seq). by rewrite Nat.add_0_l.
  - intros [Hi ->]. exists i. by rewrite lookup_seq.
Qed.

Lemma elem_of_buckets_from g b n b' :
  b' ∈ buckets_from g b n ↔ ∃ i, (i < n)%nat ∧ b' = b + Z.of_nat i * width g.
Proof. rewrite list_elem_of_lookup. split; intros [i Hi]; exists i; by apply buckets_from_lookup. Qed.

Lemma buckets_from_sorted g b n : StronglySorted Z.lt (buckets_from g b n).
Proof.
  pose proof (width_pos g). revert b. induction n as [|n IH]; intros b; [constructor|].
  rewrite buckets_from_S. constructor; [apply IH|]. apply Forall_forall. intros b' (i & _ & ->)%elem_of_buckets_from.
  rewrite Next_eq. nia.
Qed.

Lemma buckets_from_NoDup g b n : NoDup (buckets_from g b n).
Proof.
  pose proof (width_pos g). unfold buckets_from. apply NoDup_fmap_2; [|apply NoDup_seq]. intros i j E. nia.
Qed.

Lemma TruncateToBucket_unique g t i : i * width g ≤ t < i * width g + width g → TruncateToBucket g t = i * width g.
Proof.
  intros Ht. rewrite TruncateToBucket_eq. f_equal. symmetry. apply (Z.div_unique _ _ _ (t - i * width g)); [lia|lia].
Qed.

Lemma bucket_count_le g from to k : from ≤ to → to - from ≤ k * width g → (bucket_count g from to ≤ Z.to_nat (k + 1))%nat.
Proof.
  intros Hle Hk. pose proof (width_pos g). unfold bucket_count. apply Z2Nat.inj_le; [|nia|].
  - pose proof (Z.div_le_mono from to (width g) ltac:(lia) Hle). lia.
  - pose proof (Z.div_le_mono to (from + k * width g) (width g) ltac:(lia) ltac:(lia)) as Hd.
    rewrite Z.div_add in Hd by lia. lia.
Qed.

(** At most this many buckets in a window of a week. *)
Lemma bucket_count_week from to :
  from ≤ to → to - from ≤ 7 * Day → (bucket_count (GranularityForWindow (to - from)) from to ≤ 169)%nat.
Proof.
  intros Hle Hw. unfold GranularityForWindow. change (7 * 24 * Hour) with (7 * Day).
  destruct (Z.leb_spec (to - from) (5 * Minute)); [etrans; [apply (bucket_count_le _ _ _ 5)|]; (done || lia)|].
  destruct (Z.leb_spec (to - from) Hour); [etrans; [apply (bucket_count_le _ _ _ 12)|]; (done || lia)|].
  destruct (Z.leb_spec (to - from) (7 * Day)); [|lia]. apply (bucket_count_le _ _ _ 168); [done|]. cbn [width]. unfold Day in *. lia.
Qed.

(** The bucket of an instant of the window is one of the sequence. *)
Lemma window_bucket g from to t :
  from ≤ t ≤ to → TruncateToBucket g t ∈ buckets_from g (TruncateToBucket g from) (bucket_count g from to).
Proof.
  intros Ht. pose proof (width_pos g) as Hw. apply elem_of_buckets_from. exists (Z.to_nat (t / width g - from / width g)). unfold bucket_count.
  pose proof (Z.div_le_mono from t (width g) ltac:(lia) ltac:(lia)). pose proof (Z.div_le_mono t to (width g) ltac:(lia) ltac:(lia)).
  split; [lia|]. rewrite !TruncateToBucket_eq, Z2Nat.id by lia. ring.
Qed.

(** [Sequence] terminates and covers the window: with fuel for one
    step per bucket and one more it returns bucket starts that are aligned,
    ascending and adjacent, every instant of the window lies in exactly one
    of them, and under the granularity chosen for the window they are at most
    169 unless the window is longer than a week. *)
Theorem Sequence_covers from to fuel :
  from ≤ to →
  let g := GranularityForWindow (to - from) in
  (bucket_count g from to < fuel)%nat →
  ∃ seq, Sequence fuel g from to = Some seq ∧
    (∀ b, b ∈ seq → TruncateToBucket g b = b) ∧
    StronglySorted Z.lt seq ∧
    (∀ i b b', seq !! i = Some b → seq !! S i = Some b' → b' = Next g b) ∧
    (∀ t, from ≤ t ≤ to → TruncateToBucket g t ∈ seq ∧ ∀ b, b ∈ seq → b ≤ t < Next g b → b = TruncateToBucket g t) ∧
    (to - from ≤ 7 * Day → (length seq ≤ 169)%nat).
Proof.
  intros Hle g Hf. exists (buckets_from g (TruncateToBucket g from) (bucket_count g from to)).
  split; [by apply Sequence_buckets|]. pose proof (width_pos g) as Hw.
  assert (∀ i, TruncateToBucket g from + Z.of_nat i * width g = (from / width g + Z.of_nat i) * width g) as Hal
    by (intros i; rewrite TruncateToBucket_eq; lia).
  split; [intros b (i & _ & ->)%elem_of_buckets_from; rewrite Hal; apply TruncateToBucket_unique; lia|].
  split; [apply buckets_from_sorted|]. split; [|split].
  - intros i b b' [_ ->]%buckets_from_lookup [_ ->]%buckets_from_lookup. rewrite Next_eq. lia.
  - intros t Ht. split.
    + by apply window_bucket.
    + intros b (i & _ & ->)%elem_of_buckets_from Hb. rewrite Next_eq, Hal in Hb. rewrite Hal. symmetry.
      by apply TruncateToBucket_unique.
  - intros Hweek. unfold buckets_from. rewrite length_fmap, length_seq. by apply bucket_count_week.
Qed.

(** A week and a second, counted hour by hour and day by day. *)
Example Sequence_covers_witness :
  (bucket_count GranularityHour 1 (7 * Day + 1) < 200)%nat ∧
  (∃ seq, Sequence 200 GranularityHour 1 (7 * Day + 1) = Some seq ∧ length seq = 169%nat) ∧
  Sequence 20 GranularityDay (5 * Hour) (2 * Day) = Some [0; Day; 2 * Day].
Proof.
  split; [apply Nat.ltb_lt; vm_compute; reflexivity|]. split; [|vm_compute; reflexivity].
  destruct (Sequence_covers 1 (7 * Day + 1) 200 ltac:(unfold Day, Hour, Minute, Second; lia) ltac:(apply Nat.ltb_lt; vm_compute; reflexivity)) as (l & Hl & _).
  exists l. split; [exact Hl|]. vm_compute in Hl. injection Hl as <-. vm_compute. reflexivity.
Defined.

