(* ===== verification/Like.v ===== *)
(** * Like: literal text in a [LIKE] pattern ([internal/database/like.go])

    [EscapeLIKE] escapes what a pattern gives a meaning to; between two [%]
    the escaped text matches exactly where it occurs. *)

From S2P Require Import Prelude GoLib.

Local Open Scope string_scope.
Local Open Scope Z_scope.

(** [database.EscapeLIKE]: three passes of [strings.ReplaceAll]. *)
Fixpoint escape_byte (c : ascii) (s : string) : string :=
  match s with
  | EmptyString => ""
  | String a s => if ascii_eqb a c then String "\" (String a (escape_byte c s)) else String a (escape_byte c s)
  end.

Definition EscapeLIKE (s : string) : string := escape_byte "_" (escape_byte "%" (escape_byte "\" s)).

(** [LIKE pattern ESCAPE '\']: [%] matches any text, [_] one character,
    ASCII letters match in either case; a pattern may not end in the escape
    character.  (A character is a byte here: the code's patterns have no [_]
    that is not escaped.) *)
Fixpoint like (p s : string) {struct p} : bool :=
  match p with
  | EmptyString => match s with EmptyString => true | _ => false end
  | String c p' =>
      if ascii_eqb c "\" then
        match p' with
        | EmptyString => false
        | String l p'' =>
            match s with String a s' => ascii_eqb (lower_byte l) (lower_byte a) && like p'' s' | EmptyString => false end
        end
      else if ascii_eqb c "%" then
        (fix any (s : string) : bool := like p' s || match s with String _ s' => any s' | EmptyString => false end) s
      else if ascii_eqb c "_" then match s with String _ s' => like p' s' | EmptyString => false end
      else match s with String a s' => ascii_eqb (lower_byte c) (lower_byte a) && like p' s' | EmptyString => false end
  end.

(** ** Escaped text matches itself *)

(** [mid] occurs in [s], ASCII letters in either case. *)
Definition occurs_in (mid s : string) : Prop :=
  ∃ a b c, s = a +:+ b +:+ c ∧ str_map lower_byte b = str_map lower_byte mid.

Definition like_special (a : ascii) : bool := ascii_eqb a "\" || ascii_eqb a "%" || ascii_eqb a "_".

Lemma EscapeLIKE_cons a s :
  EscapeLIKE (String a s) = if like_special a then String "\" (String a (EscapeLIKE s)) else String a (EscapeLIKE s).
Proof.
  unfold EscapeLIKE, like_special. destruct (ascii_eqb a "\") eqn:E1; [unfold ascii_eqb in E1; bool_prop; by subst|].
  destruct (ascii_eqb a "%") eqn:E2; [unfold ascii_eqb in E2; bool_prop; by subst|].
  destruct (ascii_eqb a "_") eqn:E3; [unfold ascii_eqb in E3; bool_prop; by subst|].
  cbn [escape_byte orb]. rewrite E1. cbn [escape_byte]. rewrite E2. cbn [escape_byte]. by rewrite E3.
Qed.

Lemma like_byte c p s :
  like_special c = false → like (String c p) s =
    match s with String a s' => ascii_eqb (lower_byte c) (lower_byte a) && like p s' | EmptyString => false end.
Proof. unfold like_special. cbn. intros E. by destruct (ascii_eqb c "\"), (ascii_eqb c "%"), (ascii_eqb c "_"). Qed.

Lemma like_escaped_byte c p s :
  like (String "\" (String c p)) s =
    match s with String a s' => ascii_eqb (lower_byte c) (lower_byte a) && like p s' | EmptyString => false end.
Proof. done. Qed.

Lemma like_percent p s : like (String "%" p) s = true ↔ ∃ a b, s = a +:+ b ∧ like p b = true.
Proof.
  change (like (String "%" p) s) with
    ((fix any (s : string) : bool := like p s || match s with String _ s' => any s' | EmptyString => false end) s).
  induction s as [|x s IH].
  - rewrite orb_false_r. split; [by exists "", ""|]. intros ([|] & [|] & E & Hp); by simplify_eq/=.
  - rewrite orb_true_iff, IH. split.
    + intros [Hp|(a & b & -> & Hp)]; [exists "", (String x s); split; [reflexivity|exact Hp]|exists (String x a), b; split; [reflexivity|exact Hp]].
    + intros ([|y a] & b & E & Hp); [left; rewrite append_nil_l in E; by subst|]. rewrite append_cons in E. injection E as -> ->. right. exists a, b. split; [reflexivity|exact Hp].
Qed.

(** An escaped text matches itself, up to case, wildcards included. *)
Lemma like_EscapeLIKE q p s :
  like (EscapeLIKE q +:+ p) s = true ↔ ∃ a b, s = a +:+ b ∧ str_map lower_byte a = str_map lower_byte q ∧ like p b = true.
Proof.
  revert s. induction q as [|c q IH]; intros s.
  - cbn. split; [by exists "", s|]. intros ([|] & b & -> & E & Hp); [done|by cbn in E].
  - assert (like (EscapeLIKE (String c q) +:+ p) s = match s with
      String a s' => ascii_eqb (lower_byte c) (lower_byte a) && like (EscapeLIKE q +:+ p) s' | EmptyString => false end) as ->.
    { rewrite EscapeLIKE_cons. destruct (like_special c) eqn:E; cbn [String.append]; [apply like_escaped_byte|by apply like_byte]. }
    destruct s as [|x s].
    + split; [done|]. intros ([|] & b & E & E' & _); by cbn in *.
    + rewrite andb_true_iff, IH. unfold ascii_eqb. rewrite bool_decide_eq_true. split.
      * intros (E & a & b & -> & Ea & Hp). exists (String x a), b. cbn. by rewrite E, Ea.
      * intros ([|y a] & b & E & E' & Hp); cbn in *; [done|]. injection E as -> ->. injection E' as E1 E2. eauto 6.
Qed.

Lemma like_contains q s : like ("%" +:+ EscapeLIKE q +:+ "%") s = true ↔ occurs_in q s.
Proof.
  change ("%" +:+ EscapeLIKE q +:+ "%") with (String "%" (EscapeLIKE q +:+ "%")). rewrite like_percent. split.
  - intros (a & t & -> & (b & c & -> & E & _)%like_EscapeLIKE). exists a, b, c. split; [reflexivity|exact E].
  - intros (a & b & c & -> & E). exists a, (b +:+ c). split; [reflexivity|]. apply like_EscapeLIKE. exists b, c.
    split; [reflexivity|]. split; [exact E|]. apply like_percent. exists c, "". split; [symmetry; apply append_nil_r|reflexivity].
Qed.
