(* ===== verification/Filterx.v ===== *)
(** * Filterx: filters, sorts and cursors of list queries ([internal/filterx])

    A [Registry] is the allowlist of a view: callers name columns, operators
    and values, the registry gives the conditions.  A condition is kept as
    the tree of squirrel's builders that the code makes ([Sqlizer]); [eval]
    gives it SQL's meaning on a row, in three-valued logic ([None] is
    NULL).  A row is whatever the view selects from: [col] evaluates the SQL
    expressions the registry names, [sub] the rows of a correlated subquery.

    The text of a cursor is written and read by [encoding/json] and
    [encoding/base64]: the class [TokenCodec] states that they are inverse to
    each other on what [EncodeCursor] writes. *)

From S2P Require Import Prelude GoLib Compare Like Schema Store.

Local Open Scope string_scope.
Local Open Scope Z_scope.

(** ** Values and columns *)

(** A bound parameter or a column's value: [nil], [int64], [time.Time],
    [string]. *)
Inductive value := VNull | VInt (n : Z) | VTime (t : time) | VString (s : string).

#[export] Instance value_eq_dec : EqDecision value.
Proof. solve_decision. Defined.

Inductive ValueKind := KindString | KindInt | KindTime.

#[export] Instance ValueKind_eq_dec : EqDecision ValueKind.
Proof. solve_decision. Defined.

Record SortSpec := mkSortSpec { SortSpec_Expr : string; SortSpec_Kind : ValueKind; SortSpec_Nullable : bool }.

Inductive Operator := OpIn | OpNotIn | OpContains | OpNotContains | OpIsNull | OpNotNull.

#[export] Instance Operator_eq_dec : EqDecision Operator.
Proof. solve_decision. Defined.

Definition ParseOperator (s : string) : result Operator :=
  if bool_decide (s = "") || bool_decide (s = "in") then Ok OpIn
  else if bool_decide (s = "not_in") then Ok OpNotIn
  else if bool_decide (s = "contains") then Ok OpContains
  else if bool_decide (s = "not_contains") then Ok OpNotContains
  else if bool_decide (s = "is_null") then Ok OpIsNull
  else if bool_decide (s = "not_null") then Ok OpNotNull
  else Err ErrInvalidFilter.

Record Relational := mkRelational { Relational_Correlated : string; Relational_ValueCol : string }.

Record ColumnSpec := mkColumnSpec {
  ColumnSpec_Expr : string;
  ColumnSpec_Nullable : bool;
  ColumnSpec_Rel : option Relational;
  ColumnSpec_Ops : list Operator;
}.

Definition allows (s : ColumnSpec) (op : Operator) : bool := bool_decide (op ∈ ColumnSpec_Ops s).

Record Filter := mkFilter { Filter_Column : string; Filter_Op : Operator; Filter_Values : list value }.

Record Registry := mkRegistry {
  cols : gmap string ColumnSpec;
  sorts : gmap string SortSpec;
  tieBreaker : string;
}.

(** ** Conditions *)

(** The builders: [sq.Eq] of a slice and of a value, [sq.NotEq] of a slice,
    the comparisons, and the [sq.Expr] texts the package composes. *)
Inductive Sqlizer :=
  | SqIn (expr : string) (vs : list value)
  | SqNotIn (expr : string) (vs : list value)
  | SqEq (expr : string) (v : value)
  | SqLt (expr : string) (v : value)
  | SqGt (expr : string) (v : value)
  | SqLtOrEq (expr : string) (v : value)
  | SqGtOrEq (expr : string) (v : value)
  | SqIsNull (expr : string)
  | SqIsNotNull (expr : string)
  | SqLike (expr : string) (pattern : string)
  | SqNotLike (expr : string) (pattern : string)
  | SqExists (correlated : string) (inner : option (string * list value))
  | SqNotExists (correlated : string) (inner : option (string * list value))
  | SqAnd (l : list Sqlizer)
  | SqOr (l : list Sqlizer).

Definition MaxValues : nat := 200.

(** [Registry.check]. *)
Definition check (r : Registry) (f : Filter) : result ColumnSpec :=
  match cols r !! Filter_Column f with
  | None => Err ErrInvalidFilter
  | Some spec =>
      if negb (allows spec (Filter_Op f)) then Err ErrInvalidFilter
      else if bool_decide (Filter_Op f = OpIsNull) || bool_decide (Filter_Op f = OpNotNull) then Ok spec
      else if bool_decide (Filter_Values f = []) then Err ErrInvalidFilter
      else if Nat.ltb MaxValues (length (Filter_Values f)) then Err ErrInvalidFilter
      else Ok spec
  end.

Definition Validate (r : Registry) (f : Filter) : result unit :=
  match check r f with Ok _ => Ok tt | Err e => Err e end.

Fixpoint like_parts (mk : string → Sqlizer) (values : list value) : result (list Sqlizer) :=
  match values with
  | [] => Ok []
  | VString s :: values =>
      match like_parts mk values with Ok l => Ok (mk ("%" +:+ EscapeLIKE s +:+ "%") :: l) | Err e => Err e end
  | _ :: _ => Err ErrInvalidFilter
  end.

Definition likeCondition (expr : string) (values : list value) (negate : bool) : result Sqlizer :=
  match like_parts (if negate then SqNotLike expr else SqLike expr) values with
  | Ok parts => Ok (if negate then SqAnd parts else SqOr parts)
  | Err e => Err e
  end.

Definition scalarCondition (spec : ColumnSpec) (f : Filter) : result Sqlizer :=
  let expr := ColumnSpec_Expr spec in
  match Filter_Op f with
  | OpIn => Ok (SqIn expr (Filter_Values f))
  | OpNotIn =>
      let notIn := SqNotIn expr (Filter_Values f) in
      Ok (if ColumnSpec_Nullable spec then SqOr [SqIsNull expr; notIn] else notIn)
  | OpContains => likeCondition expr (Filter_Values f) false
  | OpNotContains =>
      match likeCondition expr (Filter_Values f) true with
      | Ok cond => Ok (if ColumnSpec_Nullable spec then SqOr [SqIsNull expr; cond] else cond)
      | Err e => Err e
      end
  | OpIsNull => Ok (SqIsNull expr)
  | OpNotNull => Ok (SqIsNotNull expr)
  end.

Definition relationalCondition (rel : Relational) (f : Filter) : result Sqlizer :=
  let corr := Relational_Correlated rel in
  match Filter_Op f with
  | OpIn => Ok (SqExists corr (Some (Relational_ValueCol rel, Filter_Values f)))
  | OpNotIn => Ok (SqNotExists corr (Some (Relational_ValueCol rel, Filter_Values f)))
  | OpIsNull => Ok (SqNotExists corr None)
  | OpNotNull => Ok (SqExists corr None)
  | OpContains | OpNotContains => Err ErrInvalidFilter
  end.

Definition Condition (r : Registry) (f : Filter) : result Sqlizer :=
  match check r f with
  | Err e => Err e
  | Ok spec => match ColumnSpec_Rel spec with Some rel => relationalCondition rel f | None => scalarCondition spec f end
  end.

(** ** Filter parameters (values.go)

    The API's values arrive as typed slices; [None] is a missing one. *)
Definition StringValues (values : option (list string)) : list value :=
  match values with None => [] | Some l => VString <$> l end.

Definition Int64Values (values : option (list Z)) : list value :=
  match values with None => [] | Some l => VInt <$> l end.

(** [ParseFilter]: [Ok None] is "no filter". *)
Definition ParseFilter (column : string) (values : list value) (opPtr : option string) : result (option Filter) :=
  match (match opPtr with None => Ok OpIn | Some s => ParseOperator s end) with
  | Err e => Err e
  | Ok op =>
      let nullCheck := bool_decide (op = OpIsNull) || bool_decide (op = OpNotNull) in
      Ok (if bool_decide (values = []) && negb nullCheck then None else Some (mkFilter column op values))
  end.

(** The loop over the filters of a request, as the views write it. *)
Fixpoint parse_filters (rg : Registry) (l : list (string * list value * option string)) : result (list Filter) :=
  match l with
  | [] => Ok []
  | (column, values, op) :: l =>
      match ParseFilter column values op with
      | Err e => Err e
      | Ok None => parse_filters rg l
      | Ok (Some f) =>
          match Validate rg f with
          | Err e => Err e
          | Ok _ => match parse_filters rg l with Err e => Err e | Ok fs => Ok (f :: fs) end
          end
      end
  end.

(** ** Values of columns: booleans and nullable columns, and the expressions
    of a view by their text *)

Definition VBool (b : bool) : value := VInt (if b then 1 else 0).

Definition text_value (o : option string) : value := match o with Some s => VString s | None => VNull end.
Definition int_value (o : option Z) : value := match o with Some n => VInt n | None => VNull end.

Definition assoc {A} (k : string) (l : list (string * A)) : option A := snd <$> find (λ kv, bool_decide (kv.1 = k)) l.

(** ** Cursors (cursor.go) *)

Record Cursor := mkCursor { Cursor_Sort : string; Cursor_Order : string; Cursor_ID : Z; Cursor_value : value }.

(** [cursorToken]: its [Value] is the JSON text of the sort value. *)
Record cursorToken := mkCursorToken {
  cursorToken_Sort : string;
  cursorToken_Order : string;
  cursorToken_Value : string;
  cursorToken_ID : Z;
}.

(** Valid UTF-8, as [encoding/json] keeps it: the lead byte says how many
    continuation bytes follow and, with the second byte, which range. *)
Definition utf8_tail (c : ascii) : bool := (128 <=? byte_val c) && (byte_val c <=? 191).

Definition utf8_second (lead : Z) (c : ascii) : bool :=
  let b := byte_val c in
  ((if lead =? 224 then 160 else if lead =? 240 then 144 else 128) <=? b) &&
  (b <=? (if lead =? 237 then 159 else if lead =? 244 then 143 else 191)).

Fixpoint utf8_valid (s : string) : bool :=
  match s with
  | EmptyString => true
  | String c s1 =>
      let b := byte_val c in
      if b <? 128 then utf8_valid s1
      else if (b <? 194) || (244 <? b) then false
      else match s1 with
           | EmptyString => false
           | String c2 s2 =>
               if negb (utf8_second b c2) then false
               else if b <? 224 then utf8_valid s2
               else match s2 with
                    | EmptyString => false
                    | String c3 s3 =>
                        if negb (utf8_tail c3) then false
                        else if b <? 240 then utf8_valid s3
                        else match s3 with
                             | EmptyString => false
                             | String c4 s4 => if utf8_tail c4 then utf8_valid s4 else false
                             end
                    end
           end
  end.

(** What survives being written as JSON: [int64] numbers, valid UTF-8, and
    the times RFC 3339 can write (years 0 to 9999). *)
Definition encodable (v : value) : bool :=
  match v with
  | VNull => true
  | VInt n => (- 2 ^ 63 <=? n) && (n <? 2 ^ 63)
  | VTime t => (-62167219200 * Second <=? t) && (t <? 253402300800 * Second)
  | VString s => utf8_valid s
  end.

(** [json.Marshal] and [json.Unmarshal] of a sort value and of a token, the
    latter with its base64 ([None] is an error), as they are documented. *)
Class TokenCodec := {
  marshal_value : value → string;
  unmarshal_int : string → option Z;
  unmarshal_time : string → option time;
  unmarshal_string : string → option string;
  encode_token : cursorToken → string;
  decode_token : string → option cursorToken;
  encode_token_not_empty t : encode_token t ≠ "";
  marshal_null : marshal_value VNull = "null";
  marshal_not_null v : v ≠ VNull → marshal_value v ≠ "null";
  unmarshal_marshal_int n : encodable (VInt n) = true → unmarshal_int (marshal_value (VInt n)) = Some n;
  unmarshal_marshal_time t : encodable (VTime t) = true → unmarshal_time (marshal_value (VTime t)) = Some t;
  unmarshal_marshal_string s : encodable (VString s) = true → unmarshal_string (marshal_value (VString s)) = Some s;
  decode_encode_token sort order v id :
    utf8_valid sort = true → utf8_valid order = true → encodable v = true → encodable (VInt id) = true →
    let t := mkCursorToken sort order (marshal_value v) id in decode_token (encode_token t) = Some t;
}.

Definition SortableExists (r : Registry) (sortKey : string) : bool := bool_decide (is_Some (sorts r !! sortKey)).

Definition normalizeOrder (order : string) : result string :=
  if bool_decide (order = "asc") || bool_decide (order = "desc") then Ok order else Err ErrInvalidFilter.

(** [OrderBy]: the clause as its parts; the tiebreaker takes the same
    direction as the sort column. *)
Record OrderClause := mkOrderClause { OrderClause_Expr : string; OrderClause_Desc : bool; OrderClause_Tie : string }.

Definition OrderBy (r : Registry) (sortKey order : string) : result OrderClause :=
  match sorts r !! sortKey with
  | None => Err ErrInvalidFilter
  | Some spec =>
      match normalizeOrder order with
      | Err e => Err e
      | Ok ord => Ok (mkOrderClause (SortSpec_Expr spec) (bool_decide (ord = "desc")) (tieBreaker r))
      end
  end.

Section cursors.
Context `{TokenCodec}.

Definition of_option (o : option value) : result value :=
  match o with Some v => Ok v | None => Err ErrInvalidFilter end.

Definition decodeValue (s : SortSpec) (raw : string) : result value :=
  if bool_decide (raw = "null") then Ok VNull
  else of_option match SortSpec_Kind s with
                 | KindInt => VInt <$> unmarshal_int raw
                 | KindTime => VTime <$> unmarshal_time raw
                 | KindString => VString <$> unmarshal_string raw
                 end.

Definition EncodeCursor (r : Registry) (sortKey order : string) (v : value) (id : Z) : result string :=
  match sorts r !! sortKey with
  | None => Err ErrInvalidFilter
  | Some _ =>
      match normalizeOrder order with
      | Err e => Err e
      | Ok _ => Ok (encode_token (mkCursorToken sortKey order (marshal_value v) id))
      end
  end.

Definition DecodeCursor (r : Registry) (token : string) : result Cursor :=
  match decode_token token with
  | None => Err ErrInvalidFilter
  | Some t =>
      match sorts r !! cursorToken_Sort t with
      | None => Err ErrInvalidFilter
      | Some spec =>
          match normalizeOrder (cursorToken_Order t) with
          | Err e => Err e
          | Ok _ =>
              match decodeValue spec (cursorToken_Value t) with
              | Err e => Err e
              | Ok v => Ok (mkCursor (cursorToken_Sort t) (cursorToken_Order t) (cursorToken_ID t) v)
              end
          end
      end
  end.
End cursors.

Definition Keyset (r : Registry) (c : Cursor) : result Sqlizer :=
  match sorts r !! Cursor_Sort c with
  | None => Err ErrInvalidFilter
  | Some spec =>
      let expr := SortSpec_Expr spec in
      let tie := tieBreaker r in
      let id := VInt (Cursor_ID c) in
      let desc := bool_decide (Cursor_Order c = "desc") in
      if bool_decide (Cursor_value c = VNull) then
        Ok (if desc then SqAnd [SqIsNull expr; SqLt tie id]
            else SqOr [SqIsNotNull expr; SqAnd [SqIsNull expr; SqGt tie id]])
      else if desc then
        Ok (SqOr ([SqLt expr (Cursor_value c); SqAnd [SqEq expr (Cursor_value c); SqLt tie id]] ++
                  (if SortSpec_Nullable spec then [SqIsNull expr] else [])))
      else Ok (SqOr [SqGt expr (Cursor_value c); SqAnd [SqEq expr (Cursor_value c); SqGt tie id]])
  end.

(** ** What a condition means *)

(** SQL's conjunction and disjunction. *)
Definition and3 (a b : option bool) : option bool :=
  match a, b with
  | Some false, _ | _, Some false => Some false
  | Some true, Some true => Some true
  | _, _ => None
  end.

Definition or3 (a b : option bool) : option bool :=
  match a, b with
  | Some true, _ | _, Some true => Some true
  | Some false, Some false => Some false
  | _, _ => None
  end.

Definition not3 (a : option bool) : option bool := negb <$> a.

(** Comparison of two values that are not NULL: numbers before text, text
    bytewise ([BINARY]).  A time is stored as text too, but the registries
    never compare one with other text. *)
Definition rank (v : value) : Z := match v with VNull => 0 | VInt _ => 1 | VTime _ => 2 | VString _ => 3 end.

Definition value_cmp (a b : value) : comparison :=
  match a, b with
  | VInt x, VInt y | VTime x, VTime y => x ?= y
  | VString x, VString y => String.compare x y
  | _, _ => rank a ?= rank b
  end.

Definition is_Lt (c : comparison) : bool := match c with Lt => true | _ => false end.
Definition is_Gt (c : comparison) : bool := match c with Gt => true | _ => false end.
Definition is_Eq (c : comparison) : bool := match c with Eq => true | _ => false end.

Section eval.
Context {row crow : Type} (col : string → row → value) (sub : string → row → list crow) (ccol : string → crow → value).

(** A comparison with NULL is NULL. *)
Definition sql_cmp (test : comparison → bool) (a b : value) : option bool :=
  if bool_decide (a = VNull) || bool_decide (b = VNull) then None else Some (test (value_cmp a b)).

(** [a IN (vs)]; squirrel writes an empty list as [(1=0)]. *)
Definition sql_in (a : value) (vs : list value) : option bool := foldr (λ v acc, or3 (sql_cmp is_Eq a v) acc) (Some false) vs.

Definition sql_like (a : value) (pattern : string) : option bool :=
  match a with VString s => Some (like pattern s) | _ => None end.

(** Does some row of the subquery satisfy its condition? *)
Definition sql_exists (l : list crow) (inner : option (string * list value)) : bool :=
  existsb (λ c, match inner with
                | None => true
                | Some (valueCol, vs) => bool_decide (sql_in (ccol valueCol c) vs = Some true)
                end) l.

Fixpoint eval (c : Sqlizer) (r : row) : option bool :=
  match c with
  | SqIn e vs => sql_in (col e r) vs
  | SqNotIn e vs => not3 (sql_in (col e r) vs)
  | SqEq e v => sql_cmp is_Eq (col e r) v
  | SqLt e v => sql_cmp is_Lt (col e r) v
  | SqGt e v => sql_cmp is_Gt (col e r) v
  | SqLtOrEq e v => sql_cmp (negb ∘ is_Gt) (col e r) v
  | SqGtOrEq e v => sql_cmp (negb ∘ is_Lt) (col e r) v
  | SqIsNull e => Some (bool_decide (col e r = VNull))
  | SqIsNotNull e => Some (negb (bool_decide (col e r = VNull)))
  | SqLike e p => sql_like (col e r) p
  | SqNotLike e p => not3 (sql_like (col e r) p)
  | SqExists corr inner => Some (sql_exists (sub corr r) inner)
  | SqNotExists corr inner => Some (negb (sql_exists (sub corr r) inner))
  | SqAnd l => foldr (λ c acc, and3 (eval c r) acc) (Some true) l
  | SqOr l => foldr (λ c acc, or3 (eval c r) acc) (Some false) l
  end.

(** A row passes a [WHERE] if the condition is true on it. *)
Definition holds (c : Sqlizer) (r : row) : bool := bool_decide (eval c r = Some true).

(** [ORDER BY]: the sort column, NULLs first, then the tiebreaker; [DESC]
    turns both around. *)
Definition row_key (o : OrderClause) (r : row) : value * value := (col (OrderClause_Expr o) r, col (OrderClause_Tie o) r).

Definition clause_cmp (o : OrderClause) : value * value → value * value → comparison :=
  if OrderClause_Desc o then cmp_rev (cmp_pair value_cmp value_cmp) else cmp_pair value_cmp value_cmp.

Definition order_rows (o : OrderClause) (l : list row) : list row := order_by (row_key o) (clause_cmp o) l.
End eval.

(** ** Facts about the meaning *)

Lemma value_cmp_Eq a b : value_cmp a b = Eq ↔ a = b.
Proof.
  destruct a as [|x|x|x], b as [|y|y|y]; cbn; try (split; congruence).
  - rewrite Z.compare_eq_iff. split; congruence.
  - rewrite Z.compare_eq_iff. split; congruence.
  - rewrite (cmp_Eq String.compare). split; congruence.
Qed.

Lemma value_cmp_trans a b c : value_cmp a b = Lt → value_cmp b c = Lt → value_cmp a c = Lt.
Proof.
  destruct a as [|x|x|x], b as [|y|y|y]; cbn [value_cmp rank]; try discriminate; destruct c as [|z|z|z]; cbn [value_cmp rank];
    try discriminate; try (intros; reflexivity).
  - apply (cmp_Lt_trans Z.compare).
  - apply (cmp_Lt_trans Z.compare).
  - apply (cmp_Lt_trans String.compare).
Qed.

#[export] Instance value_cmp_order : CmpOrder value_cmp.
Proof.
  split; [apply value_cmp_Eq| |apply value_cmp_trans].
  intros [|x|x|x] [|y|y|y]; try reflexivity; [apply (cmp_flip Z.compare)..|apply (cmp_flip String.compare)].
Qed.

#[export] Instance clause_cmp_order o : CmpOrder (clause_cmp o).
Proof. unfold clause_cmp. destruct (OrderClause_Desc o); apply _. Qed.

Lemma value_cmp_null_l v : value_cmp VNull v = Lt ↔ v ≠ VNull.
Proof. by destruct v. Qed.

Lemma value_cmp_null_r v : value_cmp v VNull = Lt ↔ False.
Proof. by destruct v. Qed.

Lemma or3_true a b : or3 a b = Some true ↔ a = Some true ∨ b = Some true.
Proof. destruct a as [[]|], b as [[]|]; cbn; intuition congruence. Qed.

Lemma and3_true a b : and3 a b = Some true ↔ a = Some true ∧ b = Some true.
Proof. destruct a as [[]|], b as [[]|]; cbn; intuition congruence. Qed.

Lemma sql_cmp_true test a b : sql_cmp test a b = Some true ↔ a ≠ VNull ∧ b ≠ VNull ∧ test (value_cmp a b) = true.
Proof. unfold sql_cmp. repeat case_bool_decide; cbn; intuition congruence. Qed.

Lemma is_Lt_true c : is_Lt c = true ↔ c = Lt.
Proof. by destruct c. Qed.
Lemma is_Gt_true c : is_Gt c = true ↔ c = Gt.
Proof. by destruct c. Qed.
Lemma is_Eq_true c : is_Eq c = true ↔ c = Eq.
Proof. by destruct c. Qed.

Lemma or3_false a b : or3 a b = Some false ↔ a = Some false ∧ b = Some false.
Proof. destruct a as [[]|], b as [[]|]; cbn; intuition congruence. Qed.

Lemma sql_cmp_false test a b : sql_cmp test a b = Some false ↔ a ≠ VNull ∧ b ≠ VNull ∧ test (value_cmp a b) = false.
Proof. unfold sql_cmp. repeat case_bool_decide; cbn; intuition congruence. Qed.

Section meaning.
Context {row crow : Type} (col : string → row → value) (sub : string → row → list crow) (ccol : string → crow → value).
Local Notation holds := (holds col sub ccol).
Local Notation eval := (eval col sub ccol).

Lemma holds_true c r : holds c r = true ↔ eval c r = Some true.
Proof. unfold Filterx.holds. by rewrite bool_decide_eq_true. Qed.

Lemma holds_or2 c c' r : holds (SqOr [c; c']) r = true ↔ holds c r = true ∨ holds c' r = true.
Proof. rewrite !holds_true. cbn. rewrite !or3_true. intuition congruence. Qed.

Lemma holds_and2 c c' r : holds (SqAnd [c; c']) r = true ↔ holds c r = true ∧ holds c' r = true.
Proof. rewrite !holds_true. cbn. rewrite !and3_true. intuition congruence. Qed.

Lemma holds_null e r : holds (SqIsNull e) r = true ↔ col e r = VNull.
Proof. rewrite holds_true. cbn. case_bool_decide; cbn; intuition congruence. Qed.

Lemma holds_not_null e r : holds (SqIsNotNull e) r = true ↔ col e r ≠ VNull.
Proof. rewrite holds_true. cbn. case_bool_decide; cbn; intuition congruence. Qed.

Lemma holds_lt e v r : holds (SqLt e v) r = true ↔ col e r ≠ VNull ∧ v ≠ VNull ∧ value_cmp (col e r) v = Lt.
Proof. rewrite holds_true. cbn. by rewrite sql_cmp_true, is_Lt_true. Qed.

Lemma holds_gt e v r : holds (SqGt e v) r = true ↔ col e r ≠ VNull ∧ v ≠ VNull ∧ value_cmp (col e r) v = Gt.
Proof. rewrite holds_true. cbn. by rewrite sql_cmp_true, is_Gt_true. Qed.

Lemma holds_eq e v r : holds (SqEq e v) r = true ↔ col e r ≠ VNull ∧ v ≠ VNull ∧ col e r = v.
Proof. rewrite holds_true. cbn. by rewrite sql_cmp_true, is_Eq_true, (cmp_Eq value_cmp). Qed.

(** ** Pages *)

Variable rg : Registry.

Lemma OrderBy_Ok sortKey order o :
  OrderBy rg sortKey order = Ok o → ∃ spec, sorts rg !! sortKey = Some spec ∧ normalizeOrder order = Ok order ∧
    o = mkOrderClause (SortSpec_Expr spec) (bool_decide (order = "desc")) (tieBreaker rg).
Proof.
  unfold OrderBy. destruct (sorts rg !! sortKey) as [spec|]; [|done]. unfold normalizeOrder.
  destruct (_ || _) eqn:E; [|done]. intros [= <-]. by exists spec.
Qed.

(** What a view must guarantee for its pages: the tiebreaker is an integer,
    and only columns declared nullable are NULL. *)
Definition row_ok (spec : SortSpec) (r : row) : Prop :=
  (∃ id, col (tieBreaker rg) r = VInt id) ∧ (SortSpec_Nullable spec = false → col (SortSpec_Expr spec) r ≠ VNull).

(** The predicate selects the rows after the cursor's. *)
Lemma Keyset_after sortKey order o spec id last r p :
  OrderBy rg sortKey order = Ok o → sorts rg !! sortKey = Some spec → row_ok spec r →
  col (tieBreaker rg) last = VInt id →
  Keyset rg (mkCursor sortKey order id (col (SortSpec_Expr spec) last)) = Ok p →
  holds p r = true ↔ before (row_key col o) (clause_cmp o) last r.
Proof.
  intros (spec' & Es & _ & ->)%OrderBy_Ok Es' [[rid Hid] Hnn] Hlast. rewrite Es in Es'. injection Es' as ->.
  unfold Keyset. cbn. rewrite Es. unfold before, row_key, clause_cmp. cbn [OrderClause_Desc OrderClause_Expr OrderClause_Tie].
  rewrite Hid, Hlast. set (e := SortSpec_Expr spec) in *.
  assert (VInt id ≠ VNull) as H1 by done. assert (VInt rid ≠ VNull) as H2 by done. pose proof (cmp_Gt value_cmp) as Hflip.
  destruct (decide (col e last = VNull)) as [Hn|Hn]; [rewrite (bool_decide_eq_true_2 _ Hn)|rewrite (bool_decide_eq_false_2 _ Hn)];
    case_bool_decide as Hd; intros [= <-]; unfold cmp_rev; rewrite (cmp_pair_Lt value_cmp value_cmp); cbn [fst snd].
  - rewrite holds_and2, holds_null, holds_lt, Hid, Hn, value_cmp_null_r. tauto.
  - rewrite holds_or2, holds_and2, holds_not_null, holds_null, holds_gt, Hid, Hn, value_cmp_null_l, Hflip.
    assert (VNull = col e r ↔ col e r = VNull) by done. tauto.
  - assert (holds (SqOr ([SqLt e (col e last); SqAnd [SqEq e (col e last); SqLt (tieBreaker rg) (VInt id)]] ++
      (if SortSpec_Nullable spec then [SqIsNull e] else []))) r = true ↔
      holds (SqLt e (col e last)) r = true ∨ (col e r = col e last ∧ value_cmp (VInt rid) (VInt id) = Lt) ∨ col e r = VNull) as ->.
    { rewrite <-holds_null. assert (col e r = col e last ∧ value_cmp (VInt rid) (VInt id) = Lt ↔
        holds (SqAnd [SqEq e (col e last); SqLt (tieBreaker rg) (VInt id)]) r = true) as ->.
      { rewrite holds_and2, holds_eq, holds_lt, Hid. intuition congruence. }
      rewrite holds_null, !holds_true. destruct (SortSpec_Nullable spec); cbn [app foldr Filterx.eval]; rewrite !or3_true; [|intuition congruence].
      case_bool_decide; intuition congruence. }
    rewrite holds_lt. destruct (decide (col e r = VNull)) as [E|E]; [|intuition congruence].
    rewrite E. pose proof (proj2 (value_cmp_null_l (col e last)) Hn). intuition congruence.
  - rewrite holds_or2, holds_and2, holds_gt, holds_eq, holds_gt, Hid, !Hflip.
    assert (col e last = col e r ↔ col e r = col e last) by done.
    destruct (decide (col e r = VNull)) as [E|E]; [|tauto]. rewrite E, value_cmp_null_r in *. intuition congruence.
Qed.

Context `{TokenCodec}.

(** The values of a sort column are of its kind. *)
Definition of_kind (k : ValueKind) (v : value) : Prop :=
  match v, k with
  | VNull, _ | VInt _, KindInt | VTime _, KindTime | VString _, KindString => True
  | _, _ => False
  end.

Lemma cursor_roundtrip sortKey order spec v id token :
  sorts rg !! sortKey = Some spec → of_kind (SortSpec_Kind spec) v →
  utf8_valid sortKey = true → encodable v = true → encodable (VInt id) = true →
  EncodeCursor rg sortKey order v id = Ok token →
  DecodeCursor rg token = Ok (mkCursor sortKey order id v).
Proof.
  intros Es Hk Hu Hv Hid. unfold EncodeCursor, DecodeCursor. rewrite Es.
  destruct (normalizeOrder order) as [ord|e] eqn:Eo; [|done]. intros [= <-].
  assert (utf8_valid order = true) as Huo.
  { unfold normalizeOrder in Eo. destruct (_ || _) eqn:E in Eo; [|done]. apply orb_prop in E as [E|E]; bool_prop; by subst. }
  rewrite (decode_encode_token sortKey order v id Hu Huo Hv Hid). cbn. rewrite Es, Eo.
  assert (decodeValue spec (marshal_value v) = Ok v) as ->; [|done].
  unfold decodeValue. destruct (decide (v = VNull)) as [->|Hn]; [by rewrite bool_decide_eq_true_2 by apply marshal_null|].
  rewrite bool_decide_eq_false_2 by by apply marshal_not_null.
  destruct v as [|n|t|s], (SortSpec_Kind spec); try done.
  - by rewrite (unmarshal_marshal_int n Hv).
  - by rewrite (unmarshal_marshal_time t Hv).
  - by rewrite (unmarshal_marshal_string s Hv).
Qed.

(** Paging by cursors neither skips nor repeats a row.  For rows
    with unique tiebreakers, under any sort of the registry and either order,
    NULLs included: the token made from the [n]th row of the sorted list is
    accepted, and the rows its predicate selects, sorted, are exactly the
    rows of the list after that one. *)
Theorem paging_continues sortKey order o spec l n last id token :
  OrderBy rg sortKey order = Ok o → sorts rg !! sortKey = Some spec → utf8_valid sortKey = true →
  NoDup (col (tieBreaker rg) <$> l) → (∀ r, r ∈ l → row_ok spec r) →
  order_rows col o l !! n = Some last → col (tieBreaker rg) last = VInt id →
  of_kind (SortSpec_Kind spec) (col (SortSpec_Expr spec) last) →
  encodable (col (SortSpec_Expr spec) last) = true → encodable (VInt id) = true →
  EncodeCursor rg sortKey order (col (SortSpec_Expr spec) last) id = Ok token →
  ∃ c p, DecodeCursor rg token = Ok c ∧ Cursor_Sort c = sortKey ∧ Cursor_Order c = order ∧ Keyset rg c = Ok p ∧
    order_rows col o (filter (λ r, holds p r = true) l) = drop (S n) (order_rows col o l).
Proof.
  intros Ho Es Hu Hnd Hok Hn Hid Hk Hv Hvid He.
  pose proof (cursor_roundtrip _ _ _ _ _ _ Es Hk Hu Hv Hvid He) as Hd.
  destruct (Keyset rg (mkCursor sortKey order id (col (SortSpec_Expr spec) last))) as [p|e] eqn:Hp.
  2:{ exfalso. unfold Keyset in Hp. cbn in Hp. rewrite Es in Hp. by repeat case_bool_decide. }
  exists (mkCursor sortKey order id (col (SortSpec_Expr spec) last)), p. repeat (split; [done|]).
  assert (NoDup (row_key col o <$> l)) as Hnd'.
  { apply OrderBy_Ok in Ho as (spec' & _ & _ & ->). apply (NoDup_fmap_1 snd). by rewrite <-list_fmap_compose. }
  unfold order_rows in *. rewrite <-(order_by_after _ (clause_cmp o) l n last Hnd' Hn). f_equal.
  apply filter_ext_in. intros r Hr. apply (Keyset_after sortKey order o spec id); auto.
Qed.
End meaning.

(** ** What a filter selects *)


(** ** What a filter selects *)

Section filters.
Context {row crow : Type} (col : string → row → value) (sub : string → row → list crow) (ccol : string → crow → value).
Local Notation holds := (holds col sub ccol).
Local Notation eval := (eval col sub ccol).

(** The contract of a filter on a column, said without SQL. *)
Definition contains_any (vs : list value) (v : value) : Prop :=
  ∃ q s, VString q ∈ vs ∧ v = VString s ∧ occurs_in q s.

Definition selects (spec : ColumnSpec) (op : Operator) (vs : list value) (r : row) : Prop :=
  match ColumnSpec_Rel spec, op with
  | None, OpIn => col (ColumnSpec_Expr spec) r ∈ vs
  | None, OpNotIn => col (ColumnSpec_Expr spec) r ∉ vs
  | None, OpContains => contains_any vs (col (ColumnSpec_Expr spec) r)
  | None, OpNotContains => ¬ contains_any vs (col (ColumnSpec_Expr spec) r)
  | None, OpIsNull => col (ColumnSpec_Expr spec) r = VNull
  | None, OpNotNull => col (ColumnSpec_Expr spec) r ≠ VNull
  | Some rel, OpIn => ∃ c, c ∈ sub (Relational_Correlated rel) r ∧ ccol (Relational_ValueCol rel) c ∈ vs
  | Some rel, OpNotIn => ¬ ∃ c, c ∈ sub (Relational_Correlated rel) r ∧ ccol (Relational_ValueCol rel) c ∈ vs
  | Some rel, OpIsNull => sub (Relational_Correlated rel) r = []
  | Some rel, OpNotNull => sub (Relational_Correlated rel) r ≠ []
  | Some _, _ => False
  end.

Lemma sql_in_true v vs : VNull ∉ vs → sql_in v vs = Some true ↔ v ∈ vs.
Proof.
  induction vs as [|w vs IH]; intros Hn; [cbn; split; [done|by intros ?%elem_of_nil]|].
  apply not_elem_of_cons in Hn as [Hw Hn]. cbn. rewrite or3_true, sql_cmp_true, is_Eq_true, (cmp_Eq value_cmp), elem_of_cons.
  fold (sql_in v vs). rewrite (IH Hn). intuition congruence.
Qed.

Lemma sql_in_false v vs : VNull ∉ vs → vs ≠ [] → sql_in v vs = Some false ↔ v ≠ VNull ∧ v ∉ vs.
Proof.
  intros Hn Hvs. assert (sql_in v vs = Some false ↔ (vs ≠ [] → v ≠ VNull) ∧ v ∉ vs) as ->; [|tauto]. clear Hvs.
  induction vs as [|w vs IH]; [cbn; split; [|done]; split; [done|apply not_elem_of_nil]|].
  apply not_elem_of_cons in Hn as [Hw Hn]. cbn. fold (sql_in v vs). rewrite or3_false, sql_cmp_false, (IH Hn), not_elem_of_cons.
  assert (is_Eq (value_cmp v w) = false ↔ v ≠ w) as ->; [|intuition congruence].
  rewrite <-not_true_iff_false, is_Eq_true. by rewrite (cmp_Eq value_cmp).
Qed.

Lemma like_parts_Ok mk vs l : like_parts mk vs = Ok l → ∃ qs, vs = VString <$> qs ∧ l = (λ q, mk ("%" +:+ EscapeLIKE q +:+ "%")) <$> qs.
Proof.
  revert l. induction vs as [|v vs IH]; intros l; cbn [like_parts]; [intros [= <-]; by exists []|].
  destruct v as [|n|t|q]; try done. destruct (like_parts mk vs) as [k|]; [|done]. intros [= <-].
  destruct (IH k eq_refl) as (qs & -> & ->). by exists (q :: qs).
Qed.

Lemma holds_or l r : holds (SqOr l) r = true ↔ ∃ c, c ∈ l ∧ holds c r = true.
Proof.
  rewrite holds_true. cbn. induction l as [|c l IH]; cbn.
  - split; [done|]. by intros (c & ?%elem_of_nil & _).
  - rewrite or3_true, IH, <-holds_true. setoid_rewrite elem_of_cons. naive_solver.
Qed.

Lemma holds_and l r : holds (SqAnd l) r = true ↔ ∀ c, c ∈ l → holds c r = true.
Proof.
  rewrite holds_true. cbn. induction l as [|c l IH]; cbn.
  - split; [|done]. by intros _ c ?%elem_of_nil.
  - rewrite and3_true, IH, <-holds_true. setoid_rewrite elem_of_cons. naive_solver.
Qed.

Lemma holds_like e q r :
  holds (SqLike e ("%" +:+ EscapeLIKE q +:+ "%")) r = true ↔ ∃ s, col e r = VString s ∧ occurs_in q s.
Proof.
  rewrite holds_true. cbn [Filterx.eval]. destruct (col e r) as [|n|t|s] eqn:E; cbn [sql_like]; try (split; [done|by intros (? & ? & _)]).
  split; [intros [= Hl]; exists s; split; [done|by apply like_contains]|]. intros (s' & [= <-] & Ho). f_equal. by apply like_contains.
Qed.

(** On text, [NOT LIKE] is the negation, and NULL satisfies neither. *)
Lemma holds_not_like e p r :
  (∃ s, col e r = VString s) → holds (SqNotLike e p) r = true ↔ ¬ holds (SqLike e p) r = true.
Proof. intros [s E]. rewrite !holds_true. cbn. rewrite E. cbn. destruct (like p s); cbn; split; congruence. Qed.

Lemma holds_contains e vs p r : likeCondition e vs false = Ok p → holds p r = true ↔ contains_any vs (col e r).
Proof.
  unfold likeCondition. destruct (like_parts _ vs) as [l|] eqn:E; [|done]. intros [= <-].
  apply like_parts_Ok in E as (qs & -> & ->). rewrite holds_or. setoid_rewrite list_elem_of_fmap. split.
  - intros (c & (q & -> & Hq) & (s & Es & Ho)%holds_like). exists q, s. split; [|done]. apply list_elem_of_fmap. by exists q.
  - intros (q & s & (q' & [= <-] & Hq)%list_elem_of_fmap & Es & Ho). eexists. split; [by exists q|]. apply holds_like. by exists s.
Qed.

Lemma holds_not_contains e vs p r :
  likeCondition e vs true = Ok p → (∃ s, col e r = VString s) → holds p r = true ↔ ¬ contains_any vs (col e r).
Proof.
  intros Hp [s Es]. unfold likeCondition in Hp. destruct (like_parts _ vs) as [l|] eqn:E; [|done]. injection Hp as <-.
  apply like_parts_Ok in E as (qs & -> & ->). rewrite holds_and. setoid_rewrite list_elem_of_fmap. split.
  - intros Hall (q & s' & (q' & [= <-] & Hq)%list_elem_of_fmap & Es' & Ho).
    assert (holds (SqNotLike e ("%" +:+ EscapeLIKE q +:+ "%")) r = true) as Hn by (apply Hall; by exists q).
    apply holds_not_like in Hn; [|by exists s]. apply Hn, holds_like. by exists s'.
  - intros Hn c (q & -> & Hq). apply holds_not_like; [by exists s|]. intros (s' & Es' & Ho)%holds_like. apply Hn.
    exists q, s'. split; [|done]. apply list_elem_of_fmap. by exists q.
Qed.

(** An accepted filter names a column of the registry, an operator the column
    allows, and between 1 and 200 values unless it is a NULL check. *)
Lemma check_Ok rg f spec :
  check rg f = Ok spec →
  cols rg !! Filter_Column f = Some spec ∧ Filter_Op f ∈ ColumnSpec_Ops spec ∧
  (Filter_Op f ≠ OpIsNull → Filter_Op f ≠ OpNotNull → Filter_Values f ≠ [] ∧ (length (Filter_Values f) ≤ MaxValues)%nat).
Proof.
  unfold check, allows. destruct (cols rg !! Filter_Column f) as [s|]; [|done].
  case_bool_decide as Ha; [cbn [negb]|done]. destruct (bool_decide _ || bool_decide _) eqn:En.
  - intros [= <-]. split; [done|]. split; [done|]. intros. apply orb_prop in En as [En|En]; by bool_prop.
  - destruct (bool_decide (Filter_Values f = [])) eqn:Hv; [discriminate|]. bool_prop. destruct (Nat.ltb_spec MaxValues (length (Filter_Values f))) as [?|Hl]; [discriminate|].
    intros [= <-]. split; [done|]. split; [done|]. intros _ _. split; [exact Hv|exact Hl].
Qed.

Lemma holds_exists_in rel vs r :
  VNull ∉ vs → sql_exists ccol (sub (Relational_Correlated rel) r) (Some (Relational_ValueCol rel, vs)) = true ↔
    ∃ c, c ∈ sub (Relational_Correlated rel) r ∧ ccol (Relational_ValueCol rel) c ∈ vs.
Proof.
  intros Hn. unfold sql_exists. rewrite existsb_exists. setoid_rewrite bool_decide_eq_true.
  setoid_rewrite sql_in_true; [|done]. by setoid_rewrite list_elem_of_In.
Qed.

Lemma holds_exists_any rel r : sql_exists ccol (sub (Relational_Correlated rel) r) None = true ↔ sub (Relational_Correlated rel) r ≠ [].
Proof. unfold sql_exists. by destruct (sub _ r). Qed.

(** C39: an accepted filter selects what its operator says, on every
    row: a negated filter keeps exactly the rows its positive form drops,
    the rows with NULL included; [contains] matches the text literally,
    wildcards and all; a relational filter asks for a child row. *)
Theorem Condition_correct rg f spec p r :
  cols rg !! Filter_Column f = Some spec → Condition rg f = Ok p → VNull ∉ Filter_Values f →
  (ColumnSpec_Rel spec = None → ColumnSpec_Nullable spec = false → col (ColumnSpec_Expr spec) r ≠ VNull) →
  (Filter_Op f = OpContains ∨ Filter_Op f = OpNotContains →
    col (ColumnSpec_Expr spec) r = VNull ∨ ∃ s, col (ColumnSpec_Expr spec) r = VString s) →
  holds p r = true ↔ selects spec (Filter_Op f) (Filter_Values f) r.
Proof.
  intros Hc Hp Hnv Hnull Htext. unfold Condition in Hp. destruct (check rg f) as [spec'|] eqn:Hck; [|done].
  apply check_Ok in Hck as (Hc' & _ & Hvs). rewrite Hc in Hc'. injection Hc' as <-. unfold selects.
  assert (∀ vs, ¬ contains_any vs VNull) as Hcn by (by intros vs (q & s & _ & ? & _)).
  destruct (ColumnSpec_Rel spec) as [rel|].
  - assert (∀ b, Some b = Some true ↔ b = true) as Hs by (intros []; split; congruence).
    unfold relationalCondition in Hp. destruct (Filter_Op f); try discriminate; injection Hp as <-; rewrite holds_true; cbn; rewrite Hs.
    + by apply holds_exists_in.
    + rewrite negb_true_iff, <-holds_exists_in by done. symmetry. apply not_true_iff_false.
    + rewrite negb_true_iff, <-not_true_iff_false, holds_exists_any. destruct (sub _ r); naive_solver.
    + apply holds_exists_any.
  - set (e := ColumnSpec_Expr spec) in *. unfold scalarCondition in Hp. fold e in Hp. specialize (Hnull eq_refl).
    destruct (Filter_Op f) eqn:Eop.
    + injection Hp as <-. rewrite holds_true. by apply sql_in_true.
    + destruct (Hvs ltac:(done) ltac:(done)) as [Hne _].
      assert (holds (SqNotIn e (Filter_Values f)) r = true ↔ col e r ≠ VNull ∧ col e r ∉ Filter_Values f) as Hin.
      { rewrite holds_true. cbn. rewrite <-sql_in_false by done. destruct (sql_in _ _) as [[]|]; cbn; split; congruence. }
      injection Hp as <-. destruct (ColumnSpec_Nullable spec); [rewrite holds_or2, holds_null|]; rewrite Hin; [|naive_solver].
      destruct (decide (col e r = VNull)) as [E|E]; [rewrite E|]; tauto.
    + by eapply holds_contains.
    + destruct (likeCondition e _ true) as [q|] eqn:Hq; [|done]. injection Hp as <-.
      destruct (Htext ltac:(by right)) as [E|Hs].
      * destruct (ColumnSpec_Nullable spec); [|by specialize (Hnull eq_refl)]. rewrite holds_or2, holds_null, E. split; [intros _; apply Hcn|by left].
      * pose proof (holds_not_contains _ _ _ _ Hq Hs) as Hh.
        destruct (ColumnSpec_Nullable spec); [rewrite holds_or2, holds_null, Hh|done]. destruct Hs as [s ->]. naive_solver.
    + injection Hp as <-. apply holds_null.
    + injection Hp as <-. apply holds_not_null.
Qed.
End filters.

(** ** A codec and a small table *)
Module FilterDemo.
(** Binary digits stand for the text: any injective writing is a codec. *)
Fixpoint bits (p : positive) : string :=
  match p with xH => "" | xO p => String "0" (bits p) | xI p => String "1" (bits p) end.

Fixpoint unbits (s : string) : positive :=
  match s with EmptyString => xH | String c s => if ascii_eqb c "0" then xO (unbits s) else xI (unbits s) end.

Lemma unbits_bits p : unbits (bits p) = p.
Proof. by induction p as [p IH|p IH|]; cbn; [rewrite IH|rewrite IH|]. Qed.

Definition write {A} `{Countable A} (a : A) : string := bits (encode a).
Definition read {A} `{Countable A} (s : string) : option A := decode (unbits s).

Lemma read_write {A} `{Countable A} (a : A) : read (write a) = Some a.
Proof. unfold read, write. by rewrite unbits_bits, decode_encode. Qed.

#[export] Program Instance bit_codec : TokenCodec := {|
  marshal_value v := match v with VNull => "null" | VInt n => write n | VTime t => write t | VString s => write s end;
  unmarshal_int := read;
  unmarshal_time := read;
  unmarshal_string := read;
  encode_token t := String "t" (write (cursorToken_Sort t, cursorToken_Order t, cursorToken_Value t, cursorToken_ID t));
  decode_token s :=
    match s with
    | EmptyString => None
    | String _ s => (λ p : string * string * string * Z, mkCursorToken p.1.1.1 p.1.1.2 p.1.2 p.2) <$> read s
    end;
|}.
Next Obligation. done. Qed.
Next Obligation. done. Qed.
Next Obligation. intros [|n|t|s] Hv; [done|..]; unfold write; by destruct (encode _). Qed.
Next Obligation. intros n _. apply read_write. Qed.
Next Obligation. intros t _. apply read_write. Qed.
Next Obligation. intros s _. apply read_write. Qed.
Next Obligation. intros sort order v id _ _ _ _. cbn. by rewrite read_write. Qed.

(** Rows of an id and a nullable name. *)
Definition demo_row : Type := Z * option string.

Definition demo_col (e : string) (r : demo_row) : value :=
  if bool_decide (e = "t.id") then VInt r.1 else match r.2 with Some s => VString s | None => VNull end.

Definition demo_sub (_ : string) (_ : demo_row) : list unit := [].
Definition demo_ccol (_ : string) (_ : unit) : value := VNull.

Definition name_sort : SortSpec := mkSortSpec "t.name" KindString true.
Definition name_column : ColumnSpec := mkColumnSpec "t.name" true None [OpIn; OpNotIn; OpContains; OpNotContains].

Definition demo_registry : Registry := mkRegistry {["name" := name_column]} {["name" := name_sort]} "t.id".

Definition demo_rows : list demo_row := [(1, Some "b"); (2, None); (3, Some "a"); (4, Some "b"); (5, None)].

Definition desc_clause : OrderClause := mkOrderClause "t.name" true "t.id".

(** After the row (4, "b") of the list by descending name. *)
Example paging_continues_witness :
  order_rows demo_col desc_clause demo_rows = [(4, Some "b"); (1, Some "b"); (3, Some "a"); (5, None); (2, None)] ∧
  ∃ token c p, EncodeCursor demo_registry "name" "desc" (VString "b") 4 = Ok token ∧ DecodeCursor demo_registry token = Ok c ∧
    Keyset demo_registry c = Ok p ∧
    order_rows demo_col desc_clause (filter (λ r, holds demo_col demo_sub demo_ccol p r = true) demo_rows) =
      [(1, Some "b"); (3, Some "a"); (5, None); (2, None)].
Proof.
  split; [vm_compute; reflexivity|].
  destruct (EncodeCursor demo_registry "name" "desc" (VString "b") 4) as [token|e] eqn:E; [|discriminate E].
  destruct (paging_continues demo_col demo_sub demo_ccol demo_registry "name" "desc" desc_clause name_sort demo_rows 0 (4, Some "b") 4 token)
    as (c & p & Hd & _ & _ & Hk & Hp); [vm_compute; reflexivity|vm_compute; reflexivity|vm_compute; reflexivity| | |vm_compute; reflexivity|
      reflexivity|exact I|vm_compute; reflexivity|vm_compute; reflexivity|exact E|].
  - apply (bool_decide_unpack _). vm_compute. exact I.
  - intros r _. split; [by exists r.1|done].
  - exists token, c, p. split; [reflexivity|]. split; [exact Hd|]. split; [exact Hk|]. rewrite Hp. vm_compute. reflexivity.
Defined.

Definition not_b : Filter := mkFilter "name" OpNotContains [VString "_"; VString "B"].

(** [_] is literal, [B] matches [b]; the rows without a name are kept. *)
Example Condition_correct_witness :
  ∃ p, Condition demo_registry not_b = Ok p ∧ holds demo_col demo_sub demo_ccol p (3, Some "a") = true ∧
    holds demo_col demo_sub demo_ccol p (2, None) = true ∧ holds demo_col demo_sub demo_ccol p (1, Some "b") = false ∧
    ¬ contains_any [VString "_"; VString "B"] (VString "a").
Proof.
  destruct (Condition demo_registry not_b) as [p|e] eqn:E; [|discriminate E]. exists p. split; [reflexivity|].
  assert (∀ r : demo_row, r = (3, Some "a") ∨ r = (2, None) ∨ r = (1, Some "b") →
    holds demo_col demo_sub demo_ccol p r = true ↔ selects demo_col demo_sub demo_ccol name_column OpNotContains [VString "_"; VString "B"] r) as H.
  { intros r Hr. refine (Condition_correct demo_col demo_sub demo_ccol demo_registry not_b name_column p r eq_refl E _ _ _).
    - apply (bool_decide_unpack _). vm_compute. exact I.
    - done.
    - intros _. destruct Hr as [-> | [-> | ->]]; [right; by exists "a"|by left|right; by exists "b"]. }
  assert (holds demo_col demo_sub demo_ccol p (3, Some "a") = true) as H3 by (injection E as <-; vm_compute; reflexivity).
  split; [exact H3|]. split; [injection E as <-; vm_compute; reflexivity|]. split; [injection E as <-; vm_compute; reflexivity|].
  exact (proj1 (H (3, Some "a") (or_introl eq_refl)) H3).
Defined.
End FilterDemo.
