(* ===== verification/Geoip.v ===== *)
(** * Geoip: geolocation of addresses ([internal/geoip], [httpapi/geo.go])

    [Lookup] holds the two MMDB readers, which reload while requests run.
    Everything fails open: without readers, or for an address that does not
    parse or is not found, the result is empty.  The reader library and the
    files are parameters. *)

From S2P Require Import Prelude GoLib Netip Schema Store.

Local Open Scope string_scope.
Local Open Scope Z_scope.

(** [geoip.Result]. *)
Record GeoResult := mkGeoResult {
  CountryCode : string; CountryName : string; ContinentCode : string; ASN : Z; ASNOrg : string;
}.

Definition emptyGeo : GeoResult := mkGeoResult "" "" "" 0 "".

#[export] Instance GeoResult_eq_dec : EqDecision GeoResult.
Proof. solve_decision. Defined.

Definition IsEmpty (r : GeoResult) : bool := bool_decide (r = emptyGeo).

(** [httpapi.GeoInfo]: a field without a value is omitted. *)
Record GeoInfo := mkGeoInfo {
  info_CountryCode : option string; info_CountryName : option string; info_ContinentCode : option string;
  info_Asn : option Z; info_AsnOrg : option string }.

(** [GeoInfoFromResult] (httpapi/geo.go). *)
Definition GeoInfoFromResult (r : GeoResult) : option GeoInfo :=
  let text s := if bool_decide (s = "") then None else Some s in
  if IsEmpty r then None
  else Some (mkGeoInfo (text (CountryCode r)) (text (CountryName r)) (text (ContinentCode r))
               (if ASN r =? 0 then None else Some (ASN r)) (text (ASNOrg r))).

(** ** Lookups (lookup.go) *)

(** The records of the two databases, [None] for an error of the reader. *)
Record CountryRecord := mkCountryRecord { record_IsoCode : string; record_NameEn : string; record_Continent : string }.
Record ASNRecord := mkASNRecord { record_Number : Z; record_Organization : string }.

Record mmdbReaders := mkReaders { countryDB : Addr → option CountryRecord; asnDB : Addr → option ASNRecord }.

(** [Lookup]: the readers behind the atomic pointer, and the directory of
    the files ("" for a lookup that is disabled). *)
Record Lookup := mkLookup { readers : option mmdbReaders; dataDir : string }.

(** [net.ParseIP]: no zones; IPv4 addresses have one form. *)
Definition ParseIP (ip : string) : option Addr :=
  a ← ParseAddr ip; if hasZone a then None else Some (Unmap a).

Definition Resolve (l : option Lookup) (ip : string) : GeoResult :=
  match l with
  | None => emptyGeo
  | Some l =>
      match readers l with
      | None => emptyGeo
      | Some r =>
          match ParseIP ip with
          | None => emptyGeo
          | Some parsed =>
              let '(code, name, continent) :=
                match countryDB r parsed with Some c => (record_IsoCode c, record_NameEn c, record_Continent c) | None => ("", "", "") end in
              let '(asn, org) := match asnDB r parsed with Some a => (record_Number a, record_Organization a) | None => (0, "") end in
              mkGeoResult code name continent asn org
          end
      end
  end.

Section files.
(** Opening a database by its path. *)
Context (openCountry : string → option (Addr → option CountryRecord)) (openASN : string → option (Addr → option ASNRecord)).

(** [Reload]: both readers are replaced, or neither. *)
Definition Reload (countryPath asnPath : string) (l : Lookup) : bool * Lookup :=
  match openCountry countryPath with
  | None => (false, l)
  | Some country =>
      match openASN asnPath with
      | None => (false, l)
      | Some asn => (true, mkLookup (Some (mkReaders country asn)) (dataDir l))
      end
  end.

Definition Close (l : Lookup) : Lookup := mkLookup None (dataDir l).

(** ** Files (updater.go) *)

Definition maxAge : Z := 30 * 24 * Hour.

(** A cached file: its modification time, [None] when there is none. *)
Definition isFileFresh (now : time) (file : option time) : bool :=
  match file with Some modTime => now - modTime <? maxAge | None => false end.

(** [syncFile]: whether the path can be used, given the outcome a download
    would have; a stale file serves when the download fails. *)
Definition syncFile (now : time) (file : option time) (downloaded : bool) : bool :=
  if isFileFresh now file then true
  else if downloaded then true
  else match file with Some _ => true | None => false end.

Definition SyncDBIPFiles (now : time) (country asn : option time) (mkdir downloadedCountry downloadedASN : bool) : bool :=
  mkdir && syncFile now country downloadedCountry && syncFile now asn downloadedASN.

(** [New]: disabled, without files, or with readers; [None] when the files
    cannot be opened. *)
Definition New (enabled synced : bool) (dir : string) : option Lookup :=
  if negb enabled then Some (mkLookup None "")
  else if negb synced then Some (mkLookup None "")
  else match Reload (dir +:+ "/dbip-country.mmdb") (dir +:+ "/dbip-asn.mmdb") (mkLookup None dir) with
       | (true, l) => Some l
       | (false, _) => None
       end.

(** One tick of [RunUpdater]: the old readers stay when it fails. *)
Definition updater_tick (synced : bool) (l : Lookup) : Lookup :=
  if synced then (Reload (dataDir l +:+ "/dbip-country.mmdb") (dataDir l +:+ "/dbip-asn.mmdb") l).2 else l.

(** ** Properties *)

(** A running lookup never loses its readers to an update, whatever fails:
    what it answers comes from the old files or from both new ones. *)
Lemma updater_keeps_readers synced l r :
  readers l = Some r → ∃ r', readers (updater_tick synced l) = Some r' ∧
    (r' = r ∨ ∃ c a, openCountry (dataDir l +:+ "/dbip-country.mmdb") = Some c ∧ openASN (dataDir l +:+ "/dbip-asn.mmdb") = Some a ∧ r' = mkReaders c a).
Proof.
  intros Hr. unfold updater_tick, Reload. destruct synced; [|eauto]. destruct (openCountry _) as [c|] eqn:Ec; [|eauto].
  destruct (openASN _) as [a|] eqn:Ea; [|eauto]. eexists. split; [done|]. right. eauto.
Qed.
End files.

(** A lookup answers the same for every spelling of an address. *)
Lemma Resolve_spelling l ip ip' a b :
  ParseAddr ip = Some a → ParseAddr ip' = Some b → hasZone a = false → hasZone b = false → Unmap a = Unmap b → Resolve l ip = Resolve l ip'.
Proof. intros Ha Hb Hz Hz' E. unfold Resolve, ParseIP. by rewrite Ha, Hb; cbn; rewrite Hz, Hz', E. Qed.

(** The wire form keeps every field that has a value. *)
Lemma GeoInfo_fields r g :
  GeoInfoFromResult r = Some g →
  default "" (info_CountryCode g) = CountryCode r ∧ default "" (info_CountryName g) = CountryName r ∧
  default "" (info_ContinentCode g) = ContinentCode r ∧ default 0 (info_Asn g) = ASN r ∧ default "" (info_AsnOrg g) = ASNOrg r.
Proof.
  unfold GeoInfoFromResult. destruct (IsEmpty r); [done|]. intros [= <-]. cbn. repeat (case_bool_decide as E; try rewrite E; clear E); cbn;
    destruct (Z.eqb_spec (ASN r) 0) as [->|]; done.
Qed.
