(* ===== verification/PolicyCache.v ===== *)
(** * PolicyCache: the authorization cache ([internal/policy/cache.go])

    [buildIPSet] joins the enabled addresses with the owners' host grants
    and intersects the grants of owners that share an address;
    [buildNetworkPolicyCache] parses and orders the CIDR policies.  A Go map
    used as a set of hosts is a [gset string] ([nil] and the empty map behave
    alike: every use is a lookup, a length or a copy). *)

From S2P Require Import Prelude GoLib Netip Schema Slicex.

Local Open Scope string_scope.
Local Open Scope Z_scope.

(** ** Data *)

(** [policy.IPContributor] and [policy.ContributorAccess] (observer.go). *)
Record IPContributor := mkIPContributor {
  IPContributor_DeviceID : DeviceID;
  IPContributor_AddressID : AddressID;
  IPContributor_UserID : UserID;
}.

Record ContributorAccess := mkContributorAccess {
  ContributorAccess_DeviceID : DeviceID;
  ContributorAccess_AddressID : AddressID;
  ContributorAccess_UserID : UserID;
  ContributorAccess_UserBypass : bool;
  ContributorAccess_UserAllowedHosts : list string;
}.

Record ipSetEntry := mkIpSetEntry {
  entry_Contributors : list ContributorAccess;
  entry_BypassAllowlist : bool;
  entry_AllowedHosts : gset string;
  entry_IntersectionApplied : bool;
}.

Record networkPolicyCacheEntry := mkNPEntry {
  np_PolicyID : NetworkPolicyID;
  np_PolicyName : string;
  np_Prefix : Prefix;
  np_BypassHostCheck : bool;
  np_AllowedHosts : gset string;
}.

(** ** buildIPSet *)

(** Removes the elements of [dst] that are not in [src]. *)
Definition intersectHostSets (dst src : gset string) : gset string := filter (λ h, h ∈ src) dst.

Definition accessMap (hostAccess : list UserHostAccess) : gmap UserID UserHostAccess :=
  foldl (λ m ua, <[UserHostAccess_UserID ua := ua]> m) ∅ hostAccess.

Definition hostSetMap (hostAccess : list UserHostAccess) : gmap UserID (gset string) :=
  foldl (λ m ua, <[UserHostAccess_UserID ua := list_to_set (UserHostAccess_AllowedHosts ua)]> m) ∅ hostAccess.

Record accumulator := mkAccumulator {
  acc_contributors : list ContributorAccess;
  acc_allBypass : bool;
  acc_hasRestrictedUser : bool;
  acc_allowedHosts : gset string;
  acc_initialHostsLen : nat;
}.

Definition new_accumulator : accumulator := mkAccumulator [] true false ∅ 0.

(** The body of the loop over [ipEntries] for one entry, once its address is
    parsed: [ua] and [userHosts] are the map lookups of the entry's user,
    with Go's zero values for a missing key. *)
Definition accumulate (bypass : bool) (userHosts : gset string) (e : IPEntry) (acc : accumulator) : accumulator :=
  let contributors :=
    (acc_contributors acc ++
     [mkContributorAccess (IPEntry_DeviceID e) (IPEntry_AddressID e) (IPEntry_UserID e) bypass
        (sortedKeys userHosts)])%list in
  let allBypass := acc_allBypass acc && bypass in
  if bypass then
    mkAccumulator contributors allBypass (acc_hasRestrictedUser acc) (acc_allowedHosts acc) (acc_initialHostsLen acc)
  else if negb (acc_hasRestrictedUser acc) then
    mkAccumulator contributors allBypass true userHosts (size userHosts)
  else
    mkAccumulator contributors allBypass true (intersectHostSets (acc_allowedHosts acc) userHosts)
      (acc_initialHostsLen acc).

(** The key an entry is filed under; [None] skips the row. *)
Definition entry_key (e : IPEntry) : option Addr := Unmap <$> ParseAddr (IPEntry_IP e).

Definition user_bypass (hostAccess : list UserHostAccess) (u : UserID) : bool :=
  match accessMap hostAccess !! u with Some ua => UserHostAccess_BypassAllowlist ua | None => false end.

Definition user_hosts (hostAccess : list UserHostAccess) (u : UserID) : gset string :=
  default ∅ (hostSetMap hostAccess !! u).

Definition add_entry (hostAccess : list UserHostAccess) (byIP : gmap Addr accumulator) (e : IPEntry)
    : gmap Addr accumulator :=
  match entry_key e with
  | None => byIP
  | Some addr =>
      let acc := default new_accumulator (byIP !! addr) in
      <[addr := accumulate (user_bypass hostAccess (IPEntry_UserID e)) (user_hosts hostAccess (IPEntry_UserID e)) e acc]> byIP
  end.

Definition finish_entry (acc : accumulator) : ipSetEntry :=
  mkIpSetEntry (acc_contributors acc) (acc_allBypass acc) (acc_allowedHosts acc)
    (acc_hasRestrictedUser acc && Nat.ltb (size (acc_allowedHosts acc)) (acc_initialHostsLen acc)).

Definition buildIPSet (ipEntries : list IPEntry) (hostAccess : list UserHostAccess) : gmap Addr ipSetEntry :=
  finish_entry <$> foldl (add_entry hostAccess) ∅ ipEntries.

(** ** buildNetworkPolicyCache *)

(** Canonical form of an entry's prefix: an IPv4-mapped one is taken down to
    IPv4, then the host bits are cleared. *)
Definition canonical_prefix (prefix : Prefix) : Prefix :=
  Masked (if Is4In6 (Prefix_ip prefix)
          then PrefixFrom (Unmap (Prefix_ip prefix)) (Prefix_bits prefix - 96)
          else prefix).

Definition toNPEntry (e : CacheEntry) : option networkPolicyCacheEntry :=
  match ParsePrefix (CacheEntry_CIDR e) with
  | None => None
  | Some prefix =>
      Some (mkNPEntry (CacheEntry_PolicyID e) (CacheEntry_PolicyName e) (canonical_prefix prefix)
              (CacheEntry_BypassHostCheck e) (list_to_set (CacheEntry_AllowedHostFQDNs e)))
  end.

(** [byMostSpecificFirst a b <= 0]. *)
Definition byMostSpecificFirst (a b : networkPolicyCacheEntry) : Prop :=
  desc_on (λ e, Prefix_bits (np_Prefix e)) a b.

(** [slices.SortFunc] promises an ordered permutation; this is the stable one. *)
Definition buildNetworkPolicyCache (entries : list CacheEntry) : list networkPolicyCacheEntry :=
  order_desc (λ e, Prefix_bits (np_Prefix e)) (omap toNPEntry entries).

(** ** Specification: what owners may reach *)

(** The owner [u] may reach host [h]. *)
Definition granted (hostAccess : list UserHostAccess) (u : UserID) (h : string) : bool :=
  user_bypass hostAccess u || bool_decide (h ∈ user_hosts hostAccess u).

(** The entries filed under an address, in order. *)
Definition entries_at (ipEntries : list IPEntry) (a : Addr) : list IPEntry :=
  filter (λ e, entry_key e = Some a) ipEntries.

(** What a cache entry lets through. *)
Definition entry_allows (e : ipSetEntry) (h : string) : bool :=
  entry_BypassAllowlist e || bool_decide (h ∈ entry_AllowedHosts e).

Definition contributor_of (hostAccess : list UserHostAccess) (e : IPEntry) : ContributorAccess :=
  mkContributorAccess (IPEntry_DeviceID e) (IPEntry_AddressID e) (IPEntry_UserID e)
    (user_bypass hostAccess (IPEntry_UserID e)) (sortedKeys (user_hosts hostAccess (IPEntry_UserID e))).

(** ** Lemmas *)

Section build.
Context (hostAccess : list UserHostAccess).
Implicit Types es : list IPEntry.

Notation bypass e := (user_bypass hostAccess (IPEntry_UserID e)).
Notation hosts_of e := (user_hosts hostAccess (IPEntry_UserID e)).

Definition accumulate_all (acc : accumulator) es : accumulator :=
  foldl (λ acc e, accumulate (bypass e) (hosts_of e) e acc) acc es.

(** The map of accumulators, address by address. *)
Lemma foldl_add_entry es m a :
  foldl (add_entry hostAccess) m es !! a =
    match m !! a, entries_at es a with
    | None, [] => None
    | o, l => Some (accumulate_all (default new_accumulator o) l)
    end.
Proof.
  revert m. induction es as [|e es IH]; intros m; [cbn; by destruct (m !! a)|].
  cbn [foldl]. rewrite IH. unfold entries_at. rewrite filter_cons. fold (entries_at es a).
  unfold add_entry. destruct (entry_key e) as [k|] eqn:Ek.
  - destruct (decide (k = a)) as [->|Hne].
    + rewrite lookup_insert_eq, decide_True by done. cbn. by destruct (m !! a).
    + rewrite lookup_insert_ne, decide_False by congruence. done.
  - rewrite decide_False by done. done.
Qed.

(** The invariant of the accumulator. *)
Definition acc_ok (acc : accumulator) es : Prop :=
  acc_contributors acc = contributor_of hostAccess <$> es ∧
  acc_allBypass acc = forallb (λ e, bypass e) es ∧
  acc_hasRestrictedUser acc = existsb (λ e, negb (bypass e)) es ∧
  (∀ h, h ∈ acc_allowedHosts acc ↔
     acc_hasRestrictedUser acc = true ∧ ∀ e, e ∈ es → bypass e = false → h ∈ hosts_of e) ∧
  acc_initialHostsLen acc =
    match filter (λ e, bypass e = false) es with [] => 0%nat | e :: _ => size (hosts_of e) end.

Lemma new_accumulator_ok : acc_ok new_accumulator [].
Proof.
  split; [done|]. split; [done|]. split; [done|]. split; [|done]. intros h.
  cbn [new_accumulator acc_allowedHosts acc_hasRestrictedUser]. split; [set_solver|]. by intros [[=] _].
Qed.

Lemma accumulate_ok acc es e : acc_ok acc es → acc_ok (accumulate (bypass e) (hosts_of e) e acc) (es ++ [e])%list.
Proof.
  intros (Hc & Hb & Hr & Ha & Hl).
  assert (acc_hasRestrictedUser acc = false → ∀ x, x ∈ es → bypass x = true) as Hnone.
  { rewrite Hr. intros Hf x Hx. apply not_false_iff_true. intros Hbx.
    assert (existsb (λ e, negb (bypass e)) es = true) as E; [|by rewrite E in Hf].
    apply existsb_exists. exists x. rewrite <-list_elem_of_In, Hbx. done. }
  unfold acc_ok. rewrite fmap_app, forallb_app, existsb_app, filter_app. cbn [fmap list_fmap forallb existsb].
  unfold accumulate. destruct (bypass e) eqn:Eb; cbn [acc_contributors acc_allBypass acc_hasRestrictedUser acc_allowedHosts acc_initialHostsLen negb].
  - split; [by rewrite Hc; unfold contributor_of; cbn; rewrite Eb|]. split; [by rewrite Hb|].
    split; [by rewrite Hr, !orb_false_r|].
    rewrite filter_cons_False, filter_nil, app_nil_r by (by rewrite Eb). split; [|done].
    intros h. rewrite Ha. apply and_iff_compat_l. split; intros Hall x Hx Hbx.
    + apply elem_of_app in Hx as [Hx|Hx%list_elem_of_singleton]; [by apply Hall|congruence].
    + apply Hall; [apply elem_of_app; by left|done].
  - rewrite filter_cons_True, filter_nil by done.
    destruct (acc_hasRestrictedUser acc) eqn:Er; cbn [negb acc_contributors acc_allBypass acc_hasRestrictedUser acc_allowedHosts acc_initialHostsLen].
    + split; [by rewrite Hc; unfold contributor_of; cbn; rewrite Eb|]. split; [by rewrite Hb|].
      split; [by rewrite <-Hr|]. split.
      * intros h. unfold intersectHostSets. rewrite elem_of_filter, Ha. split.
        -- intros (Hh & _ & Hall). split; [done|]. intros x Hx Hbx.
           apply elem_of_app in Hx as [Hx|Hx%list_elem_of_singleton]; [by apply Hall|by subst].
        -- intros [_ Hall]. split; [apply Hall; [apply elem_of_app; right; by left|done]|].
           split; [done|]. intros x Hx. apply Hall, elem_of_app. by left.
      * rewrite Hl. destruct (filter _ es) eqn:Ef; [|done]. exfalso.
        symmetry in Hr. apply existsb_exists in Hr as (x & Hx & Hbx%negb_true_iff).
        assert (x ∈ filter (λ e, bypass e = false) es) as Hin by (apply list_elem_of_filter; by rewrite list_elem_of_In).
        rewrite Ef in Hin. by apply elem_of_nil in Hin.
    + split; [by rewrite Hc; unfold contributor_of; cbn; rewrite Eb|]. split; [by rewrite Hb|].
      split; [by rewrite orb_true_r|]. split.
      * intros h. specialize (Hnone eq_refl). split.
        -- intros Hh. split; [done|]. intros x Hx Hbx. apply elem_of_app in Hx as [Hx|Hx%list_elem_of_singleton]; [|by subst].
           by rewrite (Hnone x Hx) in Hbx.
        -- intros [_ Hall]. apply Hall; [apply elem_of_app; right; by left|done].
      * replace (filter (λ e, bypass e = false) es) with (@nil IPEntry); [done|].
        symmetry. apply filter_none. intros x Hx. by rewrite (Hnone eq_refl x Hx).
Qed.

Lemma accumulate_all_ok acc es es' : acc_ok acc es → acc_ok (accumulate_all acc es') (es ++ es')%list.
Proof.
  revert acc es. induction es' as [|e es' IH]; intros acc es H; [by rewrite app_nil_r|].
  cbn. replace (es ++ e :: es')%list with ((es ++ [e]) ++ es')%list by (by rewrite <-app_assoc).
  apply IH. by apply accumulate_ok.
Qed.

(** What [buildIPSet] holds at an address. *)
Lemma buildIPSet_lookup es a :
  buildIPSet es hostAccess !! a =
    match entries_at es a with
    | [] => None
    | l => Some (finish_entry (accumulate_all new_accumulator l))
    end.
Proof.
  unfold buildIPSet. rewrite lookup_fmap, foldl_add_entry, lookup_empty. by destruct (entries_at es a).
Qed.

Lemma buildIPSet_Some es a entry :
  buildIPSet es hostAccess !! a = Some entry →
  entries_at es a ≠ [] ∧ ∃ acc, acc_ok acc (entries_at es a) ∧ entry = finish_entry acc.
Proof.
  rewrite buildIPSet_lookup. destruct (entries_at es a) as [|e l] eqn:E; [done|]. intros [= <-].
  split; [done|]. eexists. split; [|done]. apply (accumulate_all_ok _ [] (e :: l)), new_accumulator_ok.
Qed.

Lemma entry_allows_granted es a entry h :
  buildIPSet es hostAccess !! a = Some entry →
  entry_allows entry h = true ↔ ∀ e, e ∈ entries_at es a → granted hostAccess (IPEntry_UserID e) h = true.
Proof.
  intros (Hne & acc & (Hc & Hb & Hr & Ha & _) & ->)%buildIPSet_Some.
  unfold entry_allows, granted. cbn. rewrite orb_true_iff, bool_decide_eq_true, Ha, Hb, Hr. split.
  - intros [Hall|[_ Hall]] e He; rewrite orb_true_iff, bool_decide_eq_true.
    + left. rewrite forallb_forall in Hall. apply Hall. by apply list_elem_of_In.
    + destruct (bypass e) eqn:Eb; [by left|right]. by apply Hall.
  - intros Hall. destruct (forallb _ _) eqn:Ef; [by left|right]. split.
    + apply not_false_iff_true. intros Hx. apply not_true_iff_false in Ef. apply Ef.
      apply forallb_forall. intros e He. apply not_false_iff_true. intros Hbe.
      assert (existsb (λ e, negb (bypass e)) (entries_at es a) = true) as E; [|by rewrite E in Hx].
      apply existsb_exists. exists e. by rewrite Hbe.
    + intros e He Hbe. specialize (Hall e He). rewrite Hbe in Hall. cbn in Hall. by apply bool_decide_eq_true in Hall.
Qed.
End build.

Lemma canonical_mapped_invalid p :
  Is4In6 (Prefix_ip p) = true → Prefix_bits p < 96 → canonical_prefix p = ZeroPrefix.
Proof.
  intros H Hb. unfold canonical_prefix, PrefixFrom, Masked, Prefix_IsValid. rewrite H. cbn [Prefix_bits].
  replace (0 <=? Prefix_bits p - 96) with false by (symmetry; apply Z.leb_gt; lia).
  by rewrite andb_false_r.
Qed.

Lemma Contains_ZeroPrefix a : Contains ZeroPrefix a = false.
Proof. reflexivity. Qed.

Lemma elem_of_buildNetworkPolicyCache entries np :
  np ∈ buildNetworkPolicyCache entries ↔ ∃ e, e ∈ entries ∧ toNPEntry e = Some np.
Proof. unfold buildNetworkPolicyCache. by rewrite elem_of_order_desc, list_elem_of_omap. Qed.

Lemma buildNetworkPolicyCache_sorted entries : StronglySorted byMostSpecificFirst (buildNetworkPolicyCache entries).
Proof. apply order_desc_sorted. Qed.
