(* ===== verification/NetipText.v ===== *)
(** * NetipText: printing and parsing addresses are inverse

    [ParseAddr (Addr_String ip) = Some ip] for every valid address, which is
    what lets the program store addresses as text (the [addresses.ip]
    column) and key the policy cache by the parsed value. *)

From S2P Require Import Prelude GoLib Netip.

Local Open Scope string_scope.
Local Open Scope Z_scope.

(** ** Strings *)

Lemma index_byte_append c s t :
  contains_byte c s = false → index_byte c (s +:+ t) = (Nat.add (String.length s)) <$> index_byte c t.
Proof.
  rewrite contains_byte_false. induction s as [|a s IH]; intros Hc.
  - rewrite append_nil_l. by destruct (index_byte c t).
  - cbn in Hc. apply andb_prop in Hc as [Ha Hs]. rewrite append_cons. cbn.
    rewrite (proj1 (negb_true_iff _) Ha), (IH Hs). by destruct (index_byte c t).
Qed.

Lemma str_take_append s t : str_take (String.length s) (s +:+ t) = s.
Proof.
  induction s as [|c s IH]; [by destruct t|]. rewrite append_cons. cbn. by rewrite IH.
Qed.

Lemma str_drop_append s t : str_drop (String.length s) (s +:+ t) = t.
Proof. induction s as [|c s IH]; [by destruct t|]. rewrite append_cons. done. Qed.

(** ** Octets *)

(** A property of octets holds when it holds of the 256 values. *)
Lemma octet_cases (P : Z → Prop) : Forall P (seqZ 0 256) → ∀ n, 0 ≤ n < 256 → P n.
Proof. rewrite Forall_forall. intros H n Hn. apply H, elem_of_seqZ. lia. Qed.

Ltac octet_enum :=
  match goal with |- ∀ n, 0 ≤ n < 256 → @?P n => apply (octet_cases P) end; cbn beta;
  let l := eval vm_compute in (seqZ 0 256) in change (seqZ 0 256) with l;
  repeat (apply Forall_cons_2); try apply Forall_nil_2.
Ltac by_octet := octet_enum; reflexivity.

Lemma parse_octet n : 0 ≤ n < 256 → ∀ r fs,
  parseIPv4Fields (itoa n +:+ r) fs 0 0 = parseIPv4Fields r fs n (String.length (itoa n)).
Proof. revert n. by_octet. Qed.

Lemma itoa_octet_length n : 0 ≤ n < 256 → (1 ≤ String.length (itoa n) ≤ 3)%nat.
Proof. intros _. unfold itoa. destruct (n <? 10), (n <? 100); cbn; lia. Qed.

Lemma octet_range a i : 0 ≤ octet a i < 256.
Proof. unfold octet. change 255 with (Z.ones 8). rewrite Z.land_ones by lia. apply Z.mod_pos_bound. lia. Qed.

Lemma dot_step (fs : list Z) v k r :
  length fs ≠ 3%nat → r ≠ "" → k ≠ 0%nat →
  parseIPv4Fields ("." +:+ r) fs v k = parseIPv4Fields r (app fs [v]) 0 0.
Proof.
  intros H3 Hr Hk. rewrite append_cons, append_nil_l. cbn -[Nat.eqb].
  destruct (Nat.eqb_spec k 0); [done|]. rewrite bool_decide_eq_false_2 by done. cbn [orb].
  destruct (Nat.eqb_spec (length fs) 3); done.
Qed.

Lemma itoa_app_ne n r : 0 ≤ n < 256 → itoa n +:+ r ≠ "".
Proof. intros Hn. pose proof (itoa_octet_length n Hn). destruct (itoa n); cbn in *; [lia|done]. Qed.

Lemma parseIPv4Fields_string4 a :
  parseIPv4Fields (string4 a) [] 0 0 = Some [octet a 0; octet a 1; octet a 2; octet a 3].
Proof.
  assert (∀ i, String.length (itoa (octet a i)) ≠ 0%nat) as Hk.
  { intros i. pose proof (itoa_octet_length _ (octet_range a i)). lia. }
  unfold string4.
  rewrite parse_octet by apply octet_range. rewrite dot_step by (done || apply itoa_app_ne, octet_range || apply Hk).
  rewrite parse_octet by apply octet_range. rewrite dot_step by (done || apply itoa_app_ne, octet_range || apply Hk).
  rewrite parse_octet by apply octet_range.
  rewrite dot_step by (done || (rewrite <-(append_nil_r (itoa _)); apply itoa_app_ne, octet_range) || apply Hk).
  rewrite <-(append_nil_r (itoa (octet a 3))), parse_octet by apply octet_range. reflexivity.
Qed.

(** Putting one more digit back. *)
Lemma digit_step a p q b : 0 < q → 0 < b → p = q * b → a / p * b + (a / q) mod b = a / q.
Proof. intros Hq Hb ->. rewrite <-Z.div_div by lia. pose proof (Z.div_mod (a / q) b). lia. Qed.

Lemma octet_eq a i : 0 ≤ i ≤ 3 → octet a i = a / 2 ^ (8 * (3 - i)) mod 256.
Proof. intros Hi. unfold octet. change 255 with (Z.ones 8). rewrite Z.land_ones, Z.shiftr_div_pow2 by lia. done. Qed.

Lemma octets_value a : 0 ≤ a < 2 ^ 32 → of_digits 256 [octet a 0; octet a 1; octet a 2; octet a 3] = a.
Proof.
  intros Ha. unfold of_digits. cbn [foldl]. rewrite !octet_eq by lia.
  rewrite (Z.mod_small (a / 2 ^ (8 * (3 - 0)))) by (split; [apply Z.div_pos; lia|apply Z.div_lt_upper_bound; lia]).
  rewrite Z.add_0_l, (digit_step a (2 ^ 24) (2 ^ 16)), (digit_step a (2 ^ 16) (2 ^ 8)), (digit_step a (2 ^ 8) 1) by done.
  apply Z.div_1_r.
Qed.

Lemma addr_kind_append s t c : addr_kind s = Some c → addr_kind (s +:+ t) = Some c.
Proof.
  induction s as [|b s IH]; [done|]. rewrite append_cons. cbn. by case_match.
Qed.

Lemma addr_kind_itoa n : 0 ≤ n < 256 → ∀ r, addr_kind (itoa n +:+ r) = addr_kind r.
Proof. revert n. by_octet. Qed.

Lemma ParseAddr_string4 a : 0 ≤ a < 2 ^ 32 → ParseAddr (string4 a) = Some (Addr4 a).
Proof.
  intros Ha. unfold ParseAddr.
  assert (addr_kind (string4 a) = Some "."%char) as ->.
  { unfold string4. rewrite addr_kind_itoa by apply octet_range. reflexivity. }
  cbn. unfold parseIPv4. rewrite parseIPv4Fields_string4. cbn -[of_digits]. by rewrite octets_value.
Qed.

(** ** Hexadecimal fields *)

Lemma nibble_cases (P : Z → Prop) : Forall P (seqZ 0 16) → ∀ n, 0 ≤ n < 16 → P n.
Proof. rewrite Forall_forall. intros H n Hn. apply H, elem_of_seqZ. lia. Qed.

Ltac by_nibble :=
  match goal with |- ∀ n, 0 ≤ n < 16 → @?P n => apply (nibble_cases P) end; cbn beta;
  let l := eval vm_compute in (seqZ 0 16) in change (seqZ 0 16) with l;
  repeat (apply Forall_cons_2); try apply Forall_nil_2; try reflexivity.

Lemma hex_val_char d : 0 ≤ d < 16 → hex_val (hex_char d) = Some d.
Proof. revert d. by_nibble. Qed.

(** A hexadecimal digit is none of the separators. *)
Definition is_sep (c : ascii) : bool := ascii_eqb c "." || ascii_eqb c ":" || ascii_eqb c "%".

Lemma hex_char_sep d : 0 ≤ d < 16 → is_sep (hex_char d) = false.
Proof. revert d. by_nibble. Qed.

Lemma scan_digit d r acc off : 0 ≤ d < 16 → (off < 4)%nat →
  scan_hex (String (hex_char d) r) acc off = scan_hex r (acc * 16 + d) (S off).
Proof. intros Hd Ho. cbn -[hex_char Nat.ltb]. rewrite hex_val_char by done. by rewrite (proj2 (Nat.ltb_ge _ _)) by lia. Qed.

(** The digits of a field, the most significant first. *)
Definition hex_digits (x : Z) : list Z :=
  if x <? 16 then [x mod 16]
  else if x <? 256 then [x / 16 mod 16; x mod 16]
  else if x <? 4096 then [x / 256 mod 16; x / 16 mod 16; x mod 16]
  else [x / 4096 mod 16; x / 256 mod 16; x / 16 mod 16; x mod 16].

Fixpoint hex_text (ds : list Z) (r : string) : string :=
  match ds with [] => r | d :: ds => String (hex_char d) (hex_text ds r) end.

Lemma hex16_text x r : hex16 x +:+ r = hex_text (hex_digits x) r.
Proof. unfold hex16, hex_digits. destruct (x <? 16), (x <? 256), (x <? 4096); cbn -[hex_char Z.div Z.modulo]; by rewrite ?append_cons, ?append_nil_l. Qed.

Lemma hex_digits_range x : Forall (λ d, 0 ≤ d < 16) (hex_digits x).
Proof.
  unfold hex_digits. repeat case_match; repeat (apply Forall_cons_2; [apply Z.mod_pos_bound; lia|]); apply Forall_nil_2.
Qed.

Lemma hex_digits_length x : (1 ≤ length (hex_digits x) ≤ 4)%nat.
Proof. unfold hex_digits. repeat case_match; cbn; lia. Qed.

Lemma hex_digits_value x : 0 ≤ x < 65536 → foldl (λ acc d, acc * 16 + d) 0 (hex_digits x) = x.
Proof.
  intros Hx. unfold hex_digits.
  destruct (Z.ltb_spec x 16); [|destruct (Z.ltb_spec x 256); [|destruct (Z.ltb_spec x 4096)]]; cbn [foldl];
    Z.to_euclidean_division_equations; lia.
Qed.

Lemma scan_text ds r acc off :
  Forall (λ d, 0 ≤ d < 16) ds → (off + length ds ≤ 4)%nat →
  scan_hex (hex_text ds r) acc off = scan_hex r (foldl (λ acc d, acc * 16 + d) acc ds) (off + length ds).
Proof.
  intros Hds. revert acc off. induction Hds as [|d ds Hd Hds IH]; intros acc off Ho; cbn [hex_text length foldl] in *; [by rewrite Nat.add_0_r|].
  rewrite scan_digit by (done || lia). rewrite IH by lia. f_equal. lia.
Qed.

(** What may follow a field: nothing, or a byte that is no digit. *)
Definition ends (r : string) : Prop := match r with "" => True | String c _ => hex_val c = None end.

Lemma scan_field x r : 0 ≤ x < 65536 → ends r → ∃ k, scan_hex (hex16 x +:+ r) 0 0 = Some (x, S k, r).
Proof.
  intros Hx Hr. pose proof (hex_digits_length x) as Hl. rewrite hex16_text, scan_text by (apply hex_digits_range || lia).
  rewrite hex_digits_value by done. destruct (length (hex_digits x)) as [|k]; [lia|]. exists k.
  destruct r as [|c r]; [done|]. cbn in *. by rewrite Hr.
Qed.

Lemma hex16_cons x r : ∃ d s, 0 ≤ d < 16 ∧ hex16 x +:+ r = String (hex_char d) s.
Proof.
  rewrite hex16_text. pose proof (hex_digits_range x) as Hr. pose proof (hex_digits_length x). destruct (hex_digits x) as [|d ds]; cbn in *; [lia|].
  apply Forall_cons in Hr as [? _]. eauto.
Qed.

(** ** Groups of fields *)

Definition field_ok (g : Z) : Prop := 0 ≤ g < 65536.

Lemma join_hex_cons g h gs : join_hex (g :: h :: gs) = hex16 g +:+ ":" +:+ join_hex (h :: gs).
Proof. reflexivity. Qed.

Lemma join_hex_head g gs : ∃ d s, 0 ≤ d < 16 ∧ join_hex (g :: gs) = String (hex_char d) s.
Proof.
  destruct gs as [|h gs]; [|rewrite join_hex_cons; apply hex16_cons].
  destruct (hex16_cons g "") as (d & s & Hd & E). rewrite append_nil_r in E. eauto.
Qed.

(** One field of the main loop, by what follows it. *)
Lemma parse_field fuel g r pre ell : field_ok g → ends r →
  parse_fields6 (S fuel) (hex16 g +:+ r) pre ell =
    match r with
    | "" => Some (app pre [g], ell, "")
    | String c rest' =>
        if ascii_eqb c "." then parse_fields6 (S fuel) (hex16 g +:+ r) pre ell
        else if negb (ascii_eqb c ":") then None
        else match rest' with
             | "" => None
             | String c' rest'' =>
                 if ascii_eqb c' ":" then
                   match ell with
                   | Some _ => None
                   | None => if bool_decide (rest'' = "") then Some (app pre [g], Some (length (app pre [g])), "")
                             else parse_fields6 fuel rest'' (app pre [g]) (Some (length (app pre [g])))
                   end
                 else parse_fields6 fuel rest' (app pre [g]) ell
             end
    end.
Proof.
  intros Hg Hr. destruct (scan_field g r Hg Hr) as [k Hs]. cbn [parse_fields6]. rewrite Hs. cbn [Nat.eqb].
  destruct r as [|c rest']; [done|]. destruct (ascii_eqb c "."); [done|]. done.
Qed.

Lemma sep_ends c r : c = ":"%char ∨ c = "%"%char → ends (String c r).
Proof. by intros [-> | ->]. Qed.

(** Fields to the end of the text. *)
Lemma parse_join fuel gs pre ell :
  Forall field_ok gs → gs ≠ [] → (length gs ≤ fuel)%nat →
  parse_fields6 fuel (join_hex gs) pre ell = Some (app pre gs, ell, "").
Proof.
  intros Hgs. revert fuel pre. induction Hgs as [|g gs Hg Hgs IH]; intros fuel pre Hne Hl; [done|].
  destruct fuel as [|fuel]; [cbn in Hl; lia|]. destruct gs as [|h gs].
  - pose proof (parse_field fuel g "" pre ell Hg I) as E. by rewrite append_nil_r in E.
  - rewrite join_hex_cons. change (":" +:+ join_hex (h :: gs)) with (String ":" (join_hex (h :: gs))).
    rewrite parse_field by (done || by apply sep_ends; left). cbn [ascii_eqb]. destruct (join_hex_head h gs) as (d & s & Hd & E).
    rewrite E. pose proof (hex_char_sep d Hd) as Hsep. unfold is_sep in Hsep. apply orb_false_elim in Hsep as [Hsep _]. apply orb_false_elim in Hsep as [_ Hc].
    change (ascii_eqb ":" ".") with false. change (ascii_eqb ":" ":") with true. cbn [negb]. rewrite Hc, <-E, IH by (done || (cbn in *; lia)).
    by rewrite <-app_assoc.
Qed.

(** Fields up to an ellipsis, then the rest. *)
Lemma parse_ellipsis fuel gs pre post :
  Forall field_ok gs → gs ≠ [] → Forall field_ok post → (length gs + length post ≤ fuel)%nat →
  parse_fields6 fuel (join_hex gs +:+ "::" +:+ join_hex post) pre None =
    Some (app (app pre gs) post, Some (length (app pre gs)), "").
Proof.
  intros Hgs. revert fuel pre. induction Hgs as [|g gs Hg Hgs IH]; intros fuel pre Hne Hpost Hl; [done|].
  destruct fuel as [|fuel]; [cbn in Hl; lia|]. destruct gs as [|h gs].
  - cbn [join_hex]. change ("::" +:+ join_hex post) with (String ":" (String ":" (join_hex post))).
    rewrite parse_field by (done || by apply sep_ends; left). change (ascii_eqb ":" ".") with false. change (ascii_eqb ":" ":") with true. cbn [negb].
    destruct post as [|p post]; [by rewrite bool_decide_eq_true_2, app_nil_r by done|].
    rewrite bool_decide_eq_false_2 by (destruct (join_hex_head p post) as (d & s & _ & ->); done).
    rewrite parse_join by (done || (cbn in *; lia)). done.
  - rewrite join_hex_cons, !append_assoc. set (r := join_hex (h :: gs) +:+ "::" +:+ join_hex post).
    change (":" +:+ r) with (String ":" r).
    rewrite parse_field by (done || by apply sep_ends; left). change (ascii_eqb ":" ".") with false. change (ascii_eqb ":" ":") with true. cbn [negb].
    destruct (join_hex_head h gs) as (d & s & Hd & E). assert (r = String (hex_char d) (s +:+ "::" +:+ join_hex post)) as Er by (unfold r; by rewrite E).
    rewrite Er. pose proof (hex_char_sep d Hd) as Hsep. unfold is_sep in Hsep. apply orb_false_elim in Hsep as [Hsep _]. apply orb_false_elim in Hsep as [_ Hc].
    rewrite Hc, <-Er. unfold r. rewrite IH by (done || (cbn in *; lia)). by rewrite <-!app_assoc.
Qed.

(** ** The run of zeros that is left out *)

Lemma zero_run_spec gs : take (zero_run gs) gs = replicate (zero_run gs) 0 ∧ (zero_run gs ≤ length gs)%nat.
Proof.
  induction gs as [|g gs [IH1 IH2]]; [done|]. cbn [zero_run]. destruct (Z.eqb_spec g 0) as [->|]; cbn; [|split; [done|lia]].
  split; [by rewrite IH1|lia].
Qed.

(** [(z, l)] is a run of zeros of [gs], of two at least if not empty. *)
Definition zeros_at (gs : list Z) (zl : nat * nat) : Prop :=
  take zl.2 (drop zl.1 gs) = replicate zl.2 0 ∧ (zl.1 + zl.2 ≤ length gs)%nat ∧ (zl.2 = 0%nat ∨ (2 ≤ zl.2)%nat).

Lemma longest_zeros_spec pre gs best :
  zeros_at (pre ++ gs) best → zeros_at (pre ++ gs) (longest_zeros gs (length pre) best).
Proof.
  revert pre best. induction gs as [|g gs IH]; intros pre best Hb; [done|]. cbn [longest_zeros].
  replace (pre ++ g :: gs)%list with ((pre ++ [g]) ++ gs)%list by (by rewrite <-app_assoc).
  replace (S (length pre)) with (length (pre ++ [g])) by (rewrite length_app; cbn; lia).
  apply IH. rewrite <-app_assoc. destruct (_ && _) eqn:E; [|done]. apply andb_prop in E as [E _]. apply Nat.leb_le in E.
  destruct (zero_run_spec (g :: gs)) as [Hz Hl]. split; cbn [fst snd].
  - by rewrite drop_app_length.
  - rewrite length_app. split; [cbn [app] in *; lia|by right].
Qed.

Lemma of_digits_app base l k : of_digits base (l ++ k) = foldl (λ acc d, acc * base + d) (of_digits base l) k.
Proof. apply foldl_app. Qed.

Lemma take_zeros_drop (gs : list Z) z l :
  take l (drop z gs) = replicate l 0 → gs = (take z gs ++ replicate l 0 ++ drop (z + l) gs)%list.
Proof. intros <-. rewrite <-drop_drop, !take_drop. done. Qed.

Lemma cut_prefix_colons_hex d : 0 ≤ d < 16 → ∀ s, cut_prefix "::" (String (hex_char d) s) = None.
Proof. revert d. by_nibble. Qed.

Lemma parse_groups6_string6 gs :
  length gs = 8%nat → Forall field_ok gs → parse_groups6 (string6 gs) = Some (of_digits 65536 gs).
Proof.
  intros Hlen Hgs. pose proof (longest_zeros_spec [] gs (0%nat, 0%nat)) as Hz. cbn [length app] in Hz.
  unfold string6. destruct (longest_zeros gs 0 (0%nat, 0%nat)) as [z l]. destruct Hz as (Hz & Hzl & Hl2); [repeat split; cbn; [lia|by left]|].
  cbn [fst snd] in *. destruct l as [|l].
  - destruct gs as [|g gs]; [done|]. destruct (join_hex_head g gs) as (d & s & Hd & E). unfold parse_groups6. rewrite E.
    rewrite cut_prefix_colons_hex, bool_decide_eq_false_2 by naive_solver. rewrite <-E, parse_join by (done || (cbn in *; lia)).
    cbn [app]. by rewrite Hlen.
  - assert (Forall field_ok (take z gs) ∧ Forall field_ok (drop (z + S l) gs)) as [Ht Hd] by (split; [by apply Forall_take|by apply Forall_drop]).
    apply take_zeros_drop in Hz as Hgs'. set (post := drop (z + S l) gs) in *. assert (length post = 8 - (z + S l))%nat as Hpl by (unfold post; by rewrite length_drop, Hlen).
    destruct (take z gs) as [|g pre] eqn:Et.
    + assert (z = 0%nat) as -> by (destruct z, gs; done). cbn [join_hex]. change ("" +:+ "::" +:+ join_hex post) with (String ":" (String ":" (join_hex post))).
      unfold parse_groups6. change (cut_prefix "::" (String ":" (String ":" (join_hex post)))) with (Some (join_hex post)). cbv iota.
      destruct post as [|p post'] eqn:Ep.
      * rewrite bool_decide_eq_true_2 by done. rewrite Hgs', app_nil_r. cbn [app length] in *. assert (S l = 8%nat) as -> by lia. reflexivity.
      * rewrite bool_decide_eq_false_2 by (intros [_ E]; destruct (join_hex_head p post') as (d & s & _ & E'); congruence).
        rewrite parse_join by (done || (cbn in *; lia)). cbn [app]. rewrite (proj2 (Nat.ltb_lt _ _)) by (cbn in *; lia). f_equal.
        rewrite Hgs'. cbn [take drop app]. by replace (8 - length (p :: post'))%nat with (S l) by (cbn in *; lia).
    + assert (length (g :: pre) = z) as Hz' by (rewrite <-Et, length_take; lia).
      destruct (join_hex_head g pre) as (d & s & Hdr & E). unfold parse_groups6. rewrite E.
      change (String (hex_char d) s +:+ "::" +:+ join_hex post) with (String (hex_char d) (s +:+ "::" +:+ join_hex post)).
      rewrite cut_prefix_colons_hex, bool_decide_eq_false_2 by naive_solver.
      change (String (hex_char d) (s +:+ "::" +:+ join_hex post)) with (String (hex_char d) s +:+ "::" +:+ join_hex post). rewrite <-E.
      rewrite parse_ellipsis by (done || lia). change ([] ++ g :: pre)%list with (g :: pre).
      rewrite (proj2 (Nat.ltb_lt _ _)) by (rewrite length_app; lia). f_equal. rewrite take_app_length, drop_app_length, Hgs'.
      by replace (8 - length ((g :: pre) ++ post))%nat with (S l) by (rewrite length_app; lia).
Qed.

(** ** Whole addresses *)

Lemma field_eq a i : 0 ≤ i ≤ 7 → field a i = a / 2 ^ (16 * (7 - i)) mod 65536.
Proof. intros Hi. unfold field. change 65535 with (Z.ones 16). rewrite Z.land_ones, Z.shiftr_div_pow2 by lia. done. Qed.

Lemma fields_ok a : Forall field_ok (fields a).
Proof.
  apply Forall_fmap, Forall_forall. intros i _. unfold field_ok, field. cbn. change 65535 with (Z.ones 16). rewrite Z.land_ones by lia.
  apply Z.mod_pos_bound. lia.
Qed.

Lemma fields_value a : 0 ≤ a < 2 ^ 128 → of_digits 65536 (fields a) = a.
Proof.
  intros Ha. unfold of_digits, fields. cbn [fmap list_fmap foldl]. rewrite !field_eq by lia.
  rewrite (Z.mod_small (a / 2 ^ (16 * (7 - 0)))) by (split; [apply Z.div_pos; lia|apply Z.div_lt_upper_bound; lia]).
  rewrite Z.add_0_l, (digit_step a (2 ^ 112) (2 ^ 96)), (digit_step a (2 ^ 96) (2 ^ 80)), (digit_step a (2 ^ 80) (2 ^ 64)),
    (digit_step a (2 ^ 64) (2 ^ 48)), (digit_step a (2 ^ 48) (2 ^ 32)), (digit_step a (2 ^ 32) (2 ^ 16)), (digit_step a (2 ^ 16) 1) by done.
  apply Z.div_1_r.
Qed.

Lemma addr_kind_hex16 g r : addr_kind (hex16 g +:+ r) = addr_kind r.
Proof.
  rewrite hex16_text. pose proof (hex_digits_range g) as Hr. induction Hr as [|d ds Hd _ IH]; [done|]. cbn [hex_text addr_kind].
  pose proof (hex_char_sep d Hd) as Hs. unfold is_sep in Hs. by rewrite Hs.
Qed.

Lemma addr_kind_join gs r : addr_kind (join_hex gs +:+ String ":" r) = Some ":"%char.
Proof.
  destruct gs as [|g [|h gs]]; [done|apply addr_kind_hex16|]. rewrite join_hex_cons, !append_assoc, addr_kind_hex16. done.
Qed.

Lemma addr_kind_string6 gs r : length gs = 8%nat → addr_kind (string6 gs +:+ r) = Some ":"%char.
Proof.
  intros Hl. unfold string6. destruct (longest_zeros _ _ _) as [z [|l]].
  - destruct gs as [|g [|h gs]]; [done|done|]. rewrite join_hex_cons, !append_assoc, addr_kind_hex16. done.
  - rewrite append_assoc. apply addr_kind_join.
Qed.

(** No zone mark among the digits. *)
Definition no_percent (s : string) : Prop := str_all (λ c, negb (ascii_eqb c "%")) s = true.

Lemma no_percent_app s t : no_percent s → no_percent t → no_percent (s +:+ t).
Proof. unfold no_percent. rewrite str_all_app. by intros -> ->. Qed.

Lemma no_percent_hex16 g : no_percent (hex16 g).
Proof.
  rewrite <-(append_nil_r (hex16 g)), hex16_text. pose proof (hex_digits_range g) as Hr. unfold no_percent.
  induction Hr as [|d ds Hd _ IH]; [done|]. cbn [hex_text str_all]. pose proof (hex_char_sep d Hd) as Hs. unfold is_sep in Hs.
  apply orb_false_elim in Hs as [_ ->]. exact IH.
Qed.

Lemma no_percent_join gs : no_percent (join_hex gs).
Proof.
  induction gs as [|g [|h gs] IH]; [done|apply no_percent_hex16|]. rewrite join_hex_cons.
  apply no_percent_app; [apply no_percent_hex16|]. by apply no_percent_app.
Qed.

Lemma no_percent_string6 gs : no_percent (string6 gs).
Proof.
  unfold string6. destruct (longest_zeros _ _ _) as [z [|l]]; [apply no_percent_join|].
  apply no_percent_app; [apply no_percent_join|]. apply no_percent_app; [done|apply no_percent_join].
Qed.

(** A text without zone mark, then the zone. *)
Lemma parseIPv6_zone s a zone :
  no_percent s → parse_groups6 s = Some a → parseIPv6 (s +:+ zone_suffix zone) = Some (Addr6 a zone).
Proof.
  intros Hp Hg. unfold parseIPv6, zone_suffix. case_bool_decide as Hz.
  - subst zone. rewrite append_nil_r. assert (index_byte "%" s = None) as ->; [|by rewrite Hg].
    rewrite <-(append_nil_r s), index_byte_append by (by apply contains_byte_false). done.
  - rewrite index_byte_append by (by apply contains_byte_false). change (index_byte "%" ("%" +:+ zone)) with (Some 0%nat). cbn [fmap option_fmap option_map].
    rewrite Nat.add_0_r. change ("%" +:+ zone) with (String "%" zone). cbv zeta.
    assert (str_drop (S (String.length s)) (s +:+ String "%" zone) = zone) as ->.
    { clear. induction s as [|c s IH]; [done|]. exact IH. }
    rewrite bool_decide_eq_false_2, str_take_append, Hg by done. done.
Qed.

(** The mixed form of a 4-in-6 address. *)
Lemma scan_octet n : 0 ≤ n < 256 → ∀ r, ∃ vk, scan_hex (itoa n +:+ String "." r) 0 0 = Some (vk.1, S vk.2, String "." r).
Proof.
  revert n. match goal with |- ∀ n, 0 ≤ n < 256 → @?P n => apply (octet_cases P) end. cbn beta.
  let l := eval vm_compute in (seqZ 0 256) in change (seqZ 0 256) with l.
  repeat (apply Forall_cons_2); try apply Forall_nil_2; intros r;
    match goal with |- ∃ vk, ?s = _ => let t := eval vm_compute in s in lazymatch t with Some (?v, S ?k, _) => exists (v, k); reflexivity end end.
Qed.

Lemma no_percent_itoa n : 0 ≤ n < 256 → no_percent (itoa n).
Proof. revert n. by_octet. Qed.

Lemma no_percent_string4 v : no_percent (string4 v).
Proof.
  unfold string4. repeat (apply no_percent_app; [first [apply no_percent_itoa, octet_range|done]|]). apply no_percent_itoa, octet_range.
Qed.

Lemma string4_head v : ∃ vk r, scan_hex (string4 v) 0 0 = Some (vk.1, S vk.2, String "." r).
Proof. destruct (scan_octet _ (octet_range v 0) (itoa (octet v 1) +:+ "." +:+ itoa (octet v 2) +:+ "." +:+ itoa (octet v 3))) as [vk E]. eauto. Qed.

(** An octet's text does not start with a colon. *)
Lemma itoa_no_colon n : 0 ≤ n < 256 → ∀ r, ∃ c s, itoa n +:+ r = String c s ∧ ascii_eqb c ":" = false.
Proof.
  intros Hn r. pose proof (no_percent_itoa n Hn). assert (str_all (λ c, negb (ascii_eqb c ":")) (itoa n) = true) as Hc by (revert n Hn H; by_octet).
  pose proof (itoa_octet_length n Hn). destruct (itoa n) as [|c s]; [cbn in *; lia|]. cbn in Hc. apply andb_prop in Hc as [Hc _].
  apply negb_true_iff in Hc. exists c, (s +:+ r). split; [apply append_cons|done].
Qed.

Lemma parse_groups6_mapped v :
  0 ≤ v < 2 ^ 32 → parse_groups6 ("::ffff:" +:+ string4 v) = Some (65535 * 2 ^ 32 + v).
Proof.
  intros Hv. unfold parse_groups6. change (cut_prefix "::" ("::ffff:" +:+ string4 v)) with (Some ("ffff:" +:+ string4 v)). cbv iota beta.
  rewrite bool_decide_eq_false_2 by (intros [_ [=]]).
  assert (parse_fields6 8 ("ffff:" +:+ string4 v) [] (Some 0%nat) = parse_fields6 7 (string4 v) [65535] (Some 0%nat)) as ->.
  { destruct (itoa_no_colon _ (octet_range v 0) ("." +:+ itoa (octet v 1) +:+ "." +:+ itoa (octet v 2) +:+ "." +:+ itoa (octet v 3))) as (c & s & E & Hc).
    change (string4 v) with (itoa (octet v 0) +:+ "." +:+ itoa (octet v 1) +:+ "." +:+ itoa (octet v 2) +:+ "." +:+ itoa (octet v 3)).
    rewrite E. change ("ffff:" +:+ String c s) with (hex16 65535 +:+ String ":" (String c s)).
    rewrite parse_field by (try (unfold field_ok; lia); by apply sep_ends; left). change (ascii_eqb ":" ".") with false. change (ascii_eqb ":" ":") with true.
    cbn [negb]. by rewrite Hc. }
  destruct (string4_head v) as (vk & r & Hs). cbn [parse_fields6]. rewrite Hs. cbn [Nat.eqb]. change (ascii_eqb "." ".") with true. cbv iota.
  rewrite bool_decide_eq_false_2 by done. cbn [andb length Nat.ltb Nat.leb]. rewrite parseIPv4Fields_string4. cbn -[Z.mul Z.add of_digits octet Z.pow].
  f_equal. pose proof (octets_value v Hv) as Ho. unfold of_digits in *. cbn [foldl app take drop replicate Nat.sub length] in *. lia.
Qed.

Lemma is4in6_value a : 0 ≤ a → Z.shiftr a 32 = 65535 → 65535 * 2 ^ 32 + Z.land a (Z.ones 32) = a.
Proof. intros Ha Hs. rewrite Z.land_ones by lia. rewrite Z.shiftr_div_pow2 in Hs by lia. pose proof (Z.div_mod a (2 ^ 32)). lia. Qed.

(** Parsing what is printed gives the address back. *)
Lemma ParseAddr_String a : Addr_wf a = true → IsValid a = true → ParseAddr (Addr_String a) = Some a.
Proof.
  destruct a as [|a|a zone]; [done| |]; cbn [Addr_wf]; intros Hw%andb_prop _; destruct Hw as [H0 H1];
    apply Z.leb_le in H0; apply Z.ltb_lt in H1; [by apply ParseAddr_string4|].
  cbn [Addr_String]. destruct (Is4In6 (Addr6 a zone)) eqn:H46.
  - cbn in H46. apply Z.eqb_eq in H46. unfold ParseAddr. change (addr_kind _) with (Some ":"%char). change (ascii_eqb ":" ".") with false.
    change (ascii_eqb ":" ":") with true. cbv iota. rewrite (parseIPv6_zone _ a); [done|apply no_percent_app; [done|apply no_percent_string4]|].
    rewrite parse_groups6_mapped, is4in6_value by (done || (rewrite Z.land_ones by lia; apply Z.mod_pos_bound; lia)). done.
  - unfold ParseAddr. rewrite addr_kind_string6 by done. change (ascii_eqb ":" ".") with false. change (ascii_eqb ":" ":") with true.
    apply parseIPv6_zone; [apply no_percent_string6|]. by rewrite parse_groups6_string6, fields_value by (done || apply fields_ok).
Qed.

(** What is parsed is well-formed, and so is what it is unmapped to. *)
Lemma Unmap_not_4in6 a : Is4In6 (Unmap a) = false.
Proof. destruct a as [|a|a z]; [done|done|]. unfold Unmap. by destruct (Is4In6 (Addr6 a z)) eqn:E. Qed.

Lemma Unmap_idemp a : Unmap (Unmap a) = Unmap a.
Proof. destruct a as [|a|a z]; [done|done|]. unfold Unmap at 2 3. destruct (Is4In6 (Addr6 a z)) eqn:E; [done|]. unfold Unmap. by rewrite E. Qed.

Lemma Unmap_valid a : IsValid (Unmap a) = IsValid a.
Proof. destruct a as [|a|a z]; [done|done|]. unfold Unmap. by destruct (Is4In6 _). Qed.

Lemma Unmap_wf a : Addr_wf a = true → Addr_wf (Unmap a) = true.
Proof.
  destruct a as [|a|a z]; [done|done|]. unfold Unmap. destruct (Is4In6 _); [|done]. intros _. cbn [Addr_wf].
  rewrite Z.land_ones by lia. pose proof (Z.mod_pos_bound a (2 ^ 32)). apply andb_true_intro. split; [apply Z.leb_le|apply Z.ltb_lt]; lia.
Qed.

(** ** Parsed addresses are well-formed *)

Lemma of_digits_bound base l n :
  0 < base → Forall (λ d, 0 ≤ d < base) l → length l = n → 0 ≤ of_digits base l < base ^ Z.of_nat n.
Proof.
  intros Hb Hl <-. induction l as [|d l IH] using rev_ind; [cbn; lia|]. apply Forall_app in Hl as [Hl [Hd _]%Forall_cons_1].
  specialize (IH Hl). rewrite of_digits_app, length_app. cbn [foldl length]. rewrite Nat2Z.inj_add, Z.pow_add_r by lia.
  change (base ^ Z.of_nat 1) with (base ^ 1). rewrite Z.pow_1_r. nia.
Qed.

Lemma digit_val_range c : is_digit c = true → 0 ≤ digit_val c ≤ 9.
Proof. unfold is_digit, digit_val. intros [H1 H2]%andb_prop. apply Z.leb_le in H1, H2. lia. Qed.

Lemma parseIPv4Fields_ok s fs v k l :
  parseIPv4Fields s fs v k = Some l → Forall (λ d, 0 ≤ d < 256) fs → 0 ≤ v < 256 →
  Forall (λ d, 0 ≤ d < 256) l ∧ length l = 4%nat.
Proof.
  revert fs v k. induction s as [|c s IH]; intros fs v k; cbn [parseIPv4Fields].
  - destruct (Nat.eqb_spec (length fs) 3) as [E|]; [|done]. intros [= <-] Hfs Hv. split; [apply Forall_app_2; [done|by apply Forall_singleton]|].
    rewrite length_app, E. done.
  - destruct (is_digit c) eqn:Hc.
    + destruct (_ && _); [done|]. destruct (Z.ltb_spec 255 (v * 10 + digit_val c)); [done|]. intros H' Hfs Hv.
      eapply IH; [exact H'|done|]. pose proof (digit_val_range c Hc). lia.
    + destruct (ascii_eqb c "."); [|done]. destruct (_ || _); [done|]. destruct (Nat.eqb _ 3); [done|]. intros H Hfs Hv.
      eapply IH; [exact H| |lia]. apply Forall_app_2; [done|by apply Forall_singleton].
Qed.

Lemma hex_val_range c d : hex_val c = Some d → 0 ≤ d < 16.
Proof.
  unfold hex_val. destruct (is_digit c) eqn:Hc; [intros [= <-]; pose proof (digit_val_range c Hc); unfold digit_val in *; lia|].
  destruct ((97 <=? byte_val c) && _) eqn:E; [intros [= <-]; apply andb_prop in E as [E1 E2]; apply Z.leb_le in E1, E2; lia|].
  destruct ((65 <=? byte_val c) && _) eqn:E'; [|done]. intros [= <-]; apply andb_prop in E' as [E1 E2]; apply Z.leb_le in E1, E2; lia.
Qed.

Lemma scan_hex_ok s acc off v k r :
  scan_hex s acc off = Some (v, k, r) → (off ≤ 4)%nat → 0 ≤ acc < 16 ^ Z.of_nat off → field_ok v.
Proof.
  revert acc off. induction s as [|c s IH]; intros acc off; cbn [scan_hex].
  - intros [= <- <- <-] Ho Ha. unfold field_ok. assert (16 ^ Z.of_nat off ≤ 16 ^ 4) by (apply Z.pow_le_mono_r; lia). lia.
  - destruct (hex_val c) as [d|] eqn:Hd.
    + destruct (Nat.ltb_spec 3 off); [done|]. intros H' Ho Ha. eapply IH; [exact H'|lia|]. apply hex_val_range in Hd.
      rewrite Nat2Z.inj_succ, Z.pow_succ_r by lia. lia.
    + intros [= <- <- <-] Ho Ha. unfold field_ok. assert (16 ^ Z.of_nat off ≤ 16 ^ 4) by (apply Z.pow_le_mono_r; lia). lia.
Qed.

Lemma parse_fields6_ok fuel s gs ell l e r :
  parse_fields6 fuel s gs ell = Some (l, e, r) → Forall field_ok gs → Forall field_ok l.
Proof.
  revert s gs ell. induction fuel as [|fuel IH]; intros s gs ell; cbn [parse_fields6]; [by intros [= <- <- <-]|].
  destruct (scan_hex s 0 0) as [[[acc off] rest]|] eqn:Hs; [|done]. apply scan_hex_ok in Hs as Hacc; [|lia|cbn; lia].
  assert (∀ gs, Forall field_ok gs → Forall field_ok (gs ++ [acc])) as Happ by (intros; apply Forall_app_2; [done|by apply Forall_singleton]).
  destruct (Nat.eqb off 0); [done|]. destruct rest as [|c rest']; [intros [= <- <- <-]; auto|].
  destruct (ascii_eqb c ".").
  { destruct (_ && _); [done|]. destruct (Nat.ltb 6 _); [done|]. destruct (parseIPv4Fields s [] 0 0) as [q|] eqn:Hq; [|done].
    apply parseIPv4Fields_ok in Hq as [Hq _]; [|constructor|lia]. destruct q as [|a [|b [|x [|y [|z q]]]]]; try done. intros [= <- <- <-] Hgs.
    apply Forall_cons in Hq as [Ha Hq]. apply Forall_cons in Hq as [Hb Hq]. apply Forall_cons in Hq as [Hx Hq]. apply Forall_cons in Hq as [Hy _].
    apply Forall_app. split; [done|]. unfold field_ok. repeat (apply Forall_cons_2); [lia|lia|apply Forall_nil_2]. }
  destruct (negb _); [done|]. destruct rest' as [|c' rest'']; [done|]. destruct (ascii_eqb c' ":"); [|eauto].
  destruct ell; [done|]. case_bool_decide; [intros [= <- <- <-]; auto|eauto].
Qed.

Lemma parse_groups6_ok s a : parse_groups6 s = Some a → 0 ≤ a < 2 ^ 128.
Proof.
  assert (∀ l, Forall field_ok l → length l = 8%nat → 0 ≤ of_digits 65536 l < 2 ^ 128) as Hb.
  { intros l Hl Hn. change (2 ^ 128) with (65536 ^ Z.of_nat 8). apply of_digits_bound; [lia|done|done]. }
  unfold parse_groups6. destruct (match cut_prefix _ _ with Some _ => _ | None => _ end) as [start ell]. case_bool_decide; [intros [= <-]; lia|].
  destruct (parse_fields6 8 start [] ell) as [[[gs ell'] [|c r]]|] eqn:E; [|done|done]. apply parse_fields6_ok in E; [|constructor].
  destruct ell' as [e|].
  - destruct (Nat.ltb_spec (length gs) 8); [|done]. intros [= <-]. apply Hb.
    + apply Forall_app; split; [by apply Forall_take|]. apply Forall_app; split; [apply Forall_replicate; unfold field_ok; lia|by apply Forall_drop].
    + rewrite !length_app, length_replicate, length_take, length_drop. lia.
  - destruct (Nat.eqb_spec (length gs) 8); [|done]. intros [= <-]. by apply Hb.
Qed.

Lemma ParseAddr_wf s a : ParseAddr s = Some a → Addr_wf a = true ∧ IsValid a = true.
Proof.
  unfold ParseAddr. destruct (addr_kind s) as [c|]; [|done]. destruct (ascii_eqb c ".").
  - unfold parseIPv4. destruct (parseIPv4Fields s [] 0 0) as [l|] eqn:E; [|done]. intros [= <-]. apply parseIPv4Fields_ok in E as [Hl Hn]; [|constructor|lia].
    split; [|done]. pose proof (of_digits_bound 256 l 4 ltac:(lia) Hl Hn). cbn [Addr_wf compose]. apply andb_true_intro. rewrite Z.leb_le, Z.ltb_lt. cbn in *. lia.
  - destruct (ascii_eqb c ":"); [|done]. unfold parseIPv6. assert (∀ z t, (λ a, Addr6 a z) <$> parse_groups6 t = Some a → Addr_wf a = true ∧ IsValid a = true) as Hz.
    { intros z t (v & Hv & ->)%fmap_Some. split; [|done]. apply parse_groups6_ok in Hv. cbn [Addr_wf]. apply andb_true_intro. rewrite Z.leb_le, Z.ltb_lt. lia. }
    destruct (index_byte "%" s); [case_bool_decide; [done|]|]; apply Hz.
Qed.

(** The canonical text of a parsed address is a fixed point. *)
Lemma canonical_text s a :
  ParseAddr s = Some a → ParseAddr (Addr_String (Unmap a)) = Some (Unmap a).
Proof.
  intros [Hw Hv]%ParseAddr_wf. apply ParseAddr_String; [by apply Unmap_wf|by rewrite Unmap_valid].
Qed.
