(* ===== verification/Crypto.v ===== *)
(** * Crypto: SHA-256 and base64url

    [crypto/sha256] and [encoding/base64]'s [RawURLEncoding], as the program
    uses them: the hash of a token or API key is what is stored and compared,
    and its text form is unpadded base64url.  Both are executable; words are
    32-bit integers. *)

From S2P Require Import Prelude GoLib.

Local Open Scope Z_scope.

(** ** 32-bit words *)

Definition w32 (x : Z) : Z := x mod 2 ^ 32.
Definition add32 (x y : Z) : Z := w32 (x + y).
Definition rotr (n x : Z) : Z := Z.lor (Z.shiftr x n) (w32 (Z.shiftl x (32 - n))).
Definition not32 (x : Z) : Z := Z.lxor x (2 ^ 32 - 1).

(** ** SHA-256 (FIPS 180-4) *)

(** The constants of the standard, from their definition: the first 32 bits of
    the fractional parts of the cube roots of the first 64 primes, and of the
    square roots of the first 8. *)
Definition is_prime (n : Z) : bool :=
  forallb (λ k, negb (n mod Z.of_nat k =? 0)) (seq 2 (Z.to_nat n - 2)).

Definition sha_primes : list Z := Eval vm_compute in filter (λ n, is_prime n = true) (Z.of_nat <$> seq 2 310).

(** The integer cube root of [x], bit by bit from bit [n]. *)
Fixpoint cube_root (n : nat) (x r : Z) : Z :=
  match n with
  | O => r
  | S n => let r' := r + 2 ^ Z.of_nat n in cube_root n x (if r' * r' * r' <=? x then r' else r)
  end.

Definition sha_k : list Z := Eval vm_compute in (λ p, w32 (cube_root 36 (p * 2 ^ 96) 0)) <$> take 64 sha_primes.

Definition sha_init : list Z := Eval vm_compute in (λ p, w32 (Z.sqrt (p * 2 ^ 64))) <$> take 8 sha_primes.

Definition bytes_of (s : string) : list Z := byte_val <$> String.list_ascii_of_string s.

Definition string_of_bytes (l : list Z) : string :=
  String.string_of_list_ascii ((λ b, ascii_of_nat (Z.to_nat b)) <$> l).

Definition be_bytes (n : nat) (x : Z) : list Z :=
  (λ i, Z.land (Z.shiftr x (8 * Z.of_nat (n - 1 - i))) 255) <$> seq 0 n.

(** A one bit, zeros, and the bit length on 64 bits. *)
Definition sha_pad (m : list Z) : list Z :=
  let l := Z.of_nat (length m) in
  (m ++ [128] ++ replicate (Z.to_nat ((55 - l) mod 64)) 0 ++ be_bytes 8 (8 * l))%list.

Fixpoint be_words (l : list Z) : list Z :=
  match l with
  | a :: b :: c :: d :: l => (a * 16777216 + b * 65536 + c * 256 + d) :: be_words l
  | _ => []
  end.

Fixpoint blocks (fuel : nat) (ws : list Z) : list (list Z) :=
  match fuel, ws with
  | O, _ | _, [] => []
  | S fuel, _ => take 16 ws :: blocks fuel (drop 16 ws)
  end.

(** The message schedule, newest word first. *)
Fixpoint schedule (n : nat) (w : list Z) : list Z :=
  match n with
  | O => w
  | S n =>
      let w2 := nth 1 w 0 in let w7 := nth 6 w 0 in let w15 := nth 14 w 0 in let w16 := nth 15 w 0 in
      let s1 := Z.lxor (Z.lxor (rotr 17 w2) (rotr 19 w2)) (Z.shiftr w2 10) in
      let s0 := Z.lxor (Z.lxor (rotr 7 w15) (rotr 18 w15)) (Z.shiftr w15 3) in
      schedule n (w32 (s1 + w7 + s0 + w16) :: w)
  end.

Definition sha_round (st : list Z) (kw : Z * Z) : list Z :=
  match st with
  | [a; b; c; d; e; f; g; h] =>
      let s1 := Z.lxor (Z.lxor (rotr 6 e) (rotr 11 e)) (rotr 25 e) in
      let ch := Z.lxor (Z.land e f) (Z.land (not32 e) g) in
      let t1 := h + s1 + ch + kw.1 + kw.2 in
      let s0 := Z.lxor (Z.lxor (rotr 2 a) (rotr 13 a)) (rotr 22 a) in
      let maj := Z.lxor (Z.lxor (Z.land a b) (Z.land a c)) (Z.land b c) in
      [w32 (t1 + s0 + maj); a; b; c; w32 (d + t1); e; f; g]
  | _ => st
  end.

Definition sha_block (st : list Z) (block : list Z) : list Z :=
  zip_with add32 st (foldl sha_round st (zip sha_k (rev (schedule 48 (rev block))))).

Definition sha256 (s : string) : string :=
  let ws := be_words (sha_pad (bytes_of s)) in
  string_of_bytes (foldl sha_block sha_init (blocks (length ws) ws) ≫= be_bytes 4).

(** ** base64url without padding *)

Definition b64_char (d : Z) : ascii :=
  ascii_of_nat (Z.to_nat
    (if d <? 26 then 65 + d else if d <? 52 then 71 + d else if d <? 62 then d - 4
     else if d =? 62 then 45 else 95)).

Fixpoint b64_encode (l : list Z) : list Z :=
  match l with
  | a :: b :: c :: l =>
      let x := a * 65536 + b * 256 + c in
      x / 262144 :: x / 4096 mod 64 :: x / 64 mod 64 :: x mod 64 :: b64_encode l
  | [a; b] => let x := a * 256 + b in [x / 1024; x / 16 mod 64; x * 4 mod 64]
  | [a] => [a / 4; a * 16 mod 64]
  | [] => []
  end.

(** [base64.RawURLEncoding.EncodeToString]. *)
Definition RawURLEncode (s : string) : string :=
  String.string_of_list_ascii (b64_char <$> b64_encode (bytes_of s)).

Example sha256_abc : RawURLEncode (sha256 "abc") = "ungWv48Bz-pBQUDeXa4iI7ADYaOWF3qctBD_YfIAFa0"%string.
Proof. vm_compute. reflexivity. Qed.

(** Proofs never compute a hash; [vm_compute] still does. *)
#[global] Opaque sha256 RawURLEncode.
