(* ===== verification/PolicyService.v ===== *)
(** * PolicyService: access decisions ([internal/policy])

    The service's state and its operations: [Decide] and [lookupIP]
    (access.go), [VerifyAccess] with the event it emits (access.go,
    observer.go, request.go), the forward-auth and simulation handlers
    (handler.go), the cache refresh (cache.go, lifecycle.go) and the audit
    snapshot (audit.go).  Log records are not modelled; a decision event is
    returned in the list of events delivered to every observer. *)

From S2P Require Import Prelude GoLib Netip Schema Store Slicex HostNames PolicyCache Crypto.

From S2P Require Export Geoip.

Local Open Scope string_scope.
Local Open Scope Z_scope.

(** ** Data *)

Inductive DenyReason :=
  DenyReasonNoDeviceMatch | DenyReasonIPNotRegistered | DenyReasonInvalidToken | DenyReasonHostNotAllowed.

#[export] Instance DenyReason_eq_dec : EqDecision DenyReason.
Proof. solve_decision. Defined.

Inductive MatchSource := MatchSourceDevice | MatchSourceNetworkPolicy.

(** [MatchSource] is [None] for Go's zero value [""]. *)
Record DecisionResult := mkDecisionResult {
  Allowed : bool;
  result_DenyReason : option DenyReason;
  Contributors : list IPContributor;
  result_MatchSource : option MatchSource;
  result_NetworkPolicyID : option NetworkPolicyID;
  result_NetworkPolicyName : option string;
}.

(** The state of [policy.Service]; the refresh signal is in the world. *)
Record Service := mkService {
  apiSecretHash : string;
  trustedProxy : Addr;
  ipSet : gmap Addr ipSetEntry;
  networkPolicies : list networkPolicyCacheEntry;
  lastRefreshedAt : option time;
  lastRefreshDurationMs : Z;
}.

Abbreviation headers := (gmap string (list string)).

(** [http.Header.Get] and [Values] for a canonical key. *)
Definition header_values (h : headers) (key : string) : list string := default [] (h !! key).
Definition header_get (h : headers) (key : string) : string := default "" (head (header_values h key)).

Definition nilIfEmpty (s : string) : option string := if bool_decide (s = "") then None else Some s.

Record VerifyRequest := mkVerifyRequest {
  Token : string;
  ClientIP : Addr;
  TargetHost : option string;
  TargetURI : option string;
  HTTPMethod : option string;
  XFFChain : option string;
  rawHeader : headers;
}.

Definition NewVerifyRequest (token : string) (clientIP : Addr) (h : headers) : VerifyRequest :=
  mkVerifyRequest token clientIP
    (nilIfEmpty (header_get h "X-Forwarded-Host")) (nilIfEmpty (header_get h "X-Forwarded-Uri"))
    (nilIfEmpty (header_get h "X-Forwarded-Method")) (nilIfEmpty (header_get h "X-Forwarded-For")) h.

Definition sensitiveHeaders : list string := ["authorization"; "cookie"; "proxy-authorization"].

Definition forwardingHeaderKeys : list string := [
  "X-Forwarded-Host"; "X-Forwarded-Uri"; "X-Forwarded-Method"; "X-Forwarded-Proto"; "X-Forwarded-For";
  "X-Real-Ip"; "User-Agent" ].

Record DecisionEvent := mkDecisionEvent {
  ev_ClientIP : string;
  ev_Outcome : bool;
  ev_DenyReason : option DenyReason;
  ev_IPContributors : list IPContributor;
  ev_MatchSource : option MatchSource;
  ev_NetworkPolicyID : option NetworkPolicyID;
  ev_NetworkPolicyName : option string;
  ev_CreatedAt : time;
  ev_DurationUs : Z;
  ev_TargetHost : option string;
  ev_TargetURI : option string;
  ev_HTTPMethod : option string;
  ev_XFFChain : option string;
  ev_Headers : headers;
  ev_GeoIP : GeoResult;
}.

Section service.
Context `{GoUnicode}.

(** ** Headers kept in the access log *)

Definition fullEnrichmentHeaders (h : headers) : headers :=
  filter (λ kv, bool_decide (ToLower kv.1 ∈ sensitiveHeaders) = false) h.

Definition minimalEnrichmentHeaders (h : headers) : headers :=
  foldl (λ m key, let vals := header_values h key in
                  if bool_decide (vals = []) then m else <[key := vals]> m) ∅ forwardingHeaderKeys.

Definition NewDecisionEvent (outcome : bool) (denyReason : option DenyReason) (result : option DecisionResult)
    (req : VerifyRequest) (geo : GeoResult) (now durationUs : Z) : DecisionEvent :=
  mkDecisionEvent (Addr_String (ClientIP req)) outcome denyReason
    (default [] (Contributors <$> result))
    (result ≫= result_MatchSource) (result ≫= result_NetworkPolicyID) (result ≫= result_NetworkPolicyName)
    now durationUs (TargetHost req) (TargetURI req) (HTTPMethod req) (XFFChain req)
    (if outcome then fullEnrichmentHeaders (rawHeader req) else minimalEnrichmentHeaders (rawHeader req)) geo.

(** ** Decisions *)

Definition is_trusted_proxy (s : Service) (ip : Addr) : bool :=
  IsValid (trustedProxy s) && Compare_eq0 (trustedProxy s) ip.

Definition lookupIP (s : Service) (ip : Addr) : option ipSetEntry :=
  if is_trusted_proxy s ip then None else ipSet s !! ip.

Definition toIPContributors (cs : list ContributorAccess) : list IPContributor :=
  (λ c, mkIPContributor (ContributorAccess_DeviceID c) (ContributorAccess_AddressID c)
          (ContributorAccess_UserID c)) <$> cs.

Definition deny (r : DenyReason) : DecisionResult := mkDecisionResult false (Some r) [] None None None.

(** The loop over the network policies. *)
Fixpoint scanPolicies (ps : list networkPolicyCacheEntry) (ip : Addr) (h : string) : DecisionResult :=
  match ps with
  | [] => deny DenyReasonIPNotRegistered
  | np :: ps =>
      if Contains (np_Prefix np) ip then
        if np_BypassHostCheck np || bool_decide (h ∈ np_AllowedHosts np) then
          mkDecisionResult true None [] (Some MatchSourceNetworkPolicy) (Some (np_PolicyID np)) (Some (np_PolicyName np))
        else deny DenyReasonHostNotAllowed
      else scanPolicies ps ip h
  end.

Definition Decide (s : Service) (ip0 : Addr) (host : string) : DecisionResult :=
  if negb (IsValid ip0) then deny DenyReasonIPNotRegistered
  else
    let ip := Unmap ip0 in
    match lookupIP s ip with
    | Some entry =>
        let contributors := toIPContributors (entry_Contributors entry) in
        if entry_BypassAllowlist entry then
          mkDecisionResult true None contributors (Some MatchSourceDevice) None None
        else
          let h := NormaliseHost host in
          if bool_decide (h ∈ entry_AllowedHosts entry) then
            mkDecisionResult true None contributors (Some MatchSourceDevice) None None
          else mkDecisionResult false (Some DenyReasonHostNotAllowed) contributors (Some MatchSourceDevice) None None
    | None =>
        if is_trusted_proxy s ip then deny DenyReasonIPNotRegistered
        else scanPolicies (networkPolicies s) ip (NormaliseHost host)
    end.

(** ** Verification *)

(** [VerifyAccess] with a resolver ([None] when enrichment is disabled),
    the time and the elapsed microseconds: its error and the events it
    hands to the observers. *)
Definition VerifyAccess (s : Service) (geoResolver : option (string → GeoResult)) (now us : Z) (req : VerifyRequest)
    : result unit * list DecisionEvent :=
  if negb (bool_decide (sha256 (Token req) = apiSecretHash s)) then
    (Err ErrInvalidBearerToken, [NewDecisionEvent false (Some DenyReasonInvalidToken) None req emptyGeo now us])
  else
    let geo := match geoResolver with Some resolve => resolve (Addr_String (ClientIP req)) | None => emptyGeo end in
    let host := default "" (TargetHost req) in
    let res := Decide s (ClientIP req) host in
    if negb (Allowed res) then
      if bool_decide (result_DenyReason res = Some DenyReasonIPNotRegistered) then
        (Err ErrIPNotEnabled, [NewDecisionEvent false (result_DenyReason res) None req geo now us])
      else
        (Err ErrHostNotAllowed, [NewDecisionEvent false (result_DenyReason res) (Some res) req geo now us])
    else (Ok tt, [NewDecisionEvent true None (Some res) req geo now us]).

(** ** Handlers *)

Definition StatusOK : Z := 200.
Definition StatusForbidden : Z := 403.
Definition StatusTooEarly : Z := 425.

(** [HandleForwardAuthIP]: the request's headers and the client address the
    middleware put in its context. *)
Definition HandleForwardAuthIP (s : Service) (geoResolver : option (string → GeoResult)) (now us : Z)
    (h : headers) (clientIP : option string) : Z * list DecisionEvent :=
  if bool_decide (header_get h "Early-Data" = "1") then (StatusTooEarly, [])
  else
    match cut_prefix "Bearer " (header_get h "Authorization") with
    | None | Some "" => (StatusForbidden, [])
    | Some token =>
        match clientIP with
        | None => (StatusForbidden, [])
        | Some ip =>
            match ParseAddr ip with
            | None => (StatusForbidden, [])
            | Some addr =>
                match VerifyAccess s geoResolver now us (NewVerifyRequest token (Unmap addr) h) with
                | (Err _, evs) => (StatusForbidden, evs)
                | (Ok _, evs) => (StatusOK, evs)
                end
            end
        end
    end.

(** [httpapi.PolicySimulateResult]. *)
Record PolicySimulateResult := mkSimulateResult {
  sim_Ip : string;
  sim_Host : string;
  sim_Allowed : bool;
  sim_DenyReason : option DenyReason;
  sim_MatchSource : option MatchSource;
  sim_NetworkPolicyId : option Z;
  sim_NetworkPolicyName : option string;
}.

Definition SimulatePolicyAccess (s : Service) (ip host : string) : PolicySimulateResult :=
  let addr := Unmap (default AddrZero (ParseAddr ip)) in
  let ip' := if IsValid addr then Addr_String addr else ip in
  let res := Decide s addr host in
  mkSimulateResult ip' host (Allowed res) (result_DenyReason res)
    (if Allowed res then result_MatchSource res else None)
    (result_NetworkPolicyID res) (result_NetworkPolicyName res).

(** ** Construction and refresh *)

Definition NewService (secret : string) (proxy : Addr) : result Service :=
  if bool_decide (TrimSpace secret = "") then Err ErrSecretNotConfigured
  else Ok (mkService (sha256 secret) proxy ∅ [] None 0).
End service.

(** The providers of the cache's data: nil interfaces are [None]. *)
Record Providers := mkProviders {
  ipProvider : M (list IPEntry);
  hostProvider : option (M (list UserHostAccess));
  networkPoliciesProvider : option (M (list CacheEntry));
}.

Definition optional {A} (p : option (M (list A))) : M (list A) := match p with Some m => m | None => mret [] end.

(** [refreshCache]: both caches are replaced together, or neither; [ms] is
    the measured duration. *)
Definition refreshCache (p : Providers) (ms : Z) (s : Service) : M Service :=
  ipEntries ← ipProvider p;
  hostAccess ← optional (hostProvider p);
  entries ← optional (networkPoliciesProvider p);
  t ← now;
  mret (mkService (apiSecretHash s) (trustedProxy s) (buildIPSet ipEntries hostAccess)
          (buildNetworkPolicyCache entries) (Some t) ms).

(** One round of [RunListener]: a failed rebuild keeps the old caches.  The
    signal is consumed before the rebuild starts. *)
Definition onRefreshSignal (p : Providers) (ms : Z) (s : Service) : M Service :=
  _ ← effect (set_refresh false); catch (refreshCache p ms s) (λ _, mret s).

Definition onTicker (p : Providers) (ms : Z) (s : Service) : M Service :=
  catch (refreshCache p ms s) (λ _, mret s).

(** [triggerRefresh] and the observer methods that call it (lifecycle.go). *)
Definition triggerRefresh (w : world) : world := set_refresh true w.

Definition policy_OnAddressEvent (e : AddressEvent) (w : world) : world :=
  if bool_decide (AddressEvent_Type e = EventTypeAddressRefreshed) then w else triggerRefresh w.

Definition OnDeviceEvent (e : DeviceEvent) (w : world) : world := triggerRefresh w.
Definition OnHostAccessChanged (w : world) : world := triggerRefresh w.
Definition OnNetworkPolicyChanged (w : world) : world := triggerRefresh w.

(** ** The audit snapshot *)

Record PolicyMapEntry := mkPolicyMapEntry {
  pme_IP : string;
  pme_BypassAllowlist : bool;
  pme_AllowedHosts : list string;
  pme_IntersectionApplied : bool;
  pme_Contributors : list ContributorAccess;
}.

Record PolicyMapSnapshot := mkSnapshot {
  Entries : list PolicyMapEntry;
  snap_LastRefreshedAt : option time;
  snap_LastRefreshDurationMs : Z;
}.

Definition toPolicyMapEntry (ip : Addr) (e : ipSetEntry) : PolicyMapEntry :=
  mkPolicyMapEntry (Addr_String ip) (entry_BypassAllowlist e) (sortedKeys (entry_AllowedHosts e))
    (entry_IntersectionApplied e) (entry_Contributors e).

(** Go's map iteration order is unspecified; this is one order. *)
Definition GetPolicyMap (s : Service) : PolicyMapSnapshot :=
  mkSnapshot ((λ kv, toPolicyMapEntry kv.1 kv.2) <$> map_to_list (ipSet s)) (lastRefreshedAt s) (lastRefreshDurationMs s).
