(* ===== verification/PolicySpec.v ===== *)
(** * PolicySpec: what an access decision means

    An abstract specification of the policy, over the rows the cache is
    built from, and the theorems that [Decide], [VerifyAccess] and the
    forward-auth handler implement it. *)

From S2P Require Import Prelude GoLib Netip Schema Store Slicex HostNames PolicyCache Crypto PolicyService.

Local Open Scope string_scope.
Local Open Scope Z_scope.

(** ** The specification *)

(** [np] is a most specific policy for the address: it contains it, and no
    policy that contains it has a longer prefix. *)
Definition most_specific (nps : list CacheEntry) (a : Addr) (np : networkPolicyCacheEntry) : Prop :=
  np ∈ omap toNPEntry nps ∧ Contains (np_Prefix np) a = true ∧
  ∀ np', np' ∈ omap toNPEntry nps → Contains (np_Prefix np') a = true →
    Prefix_bits (np_Prefix np') ≤ Prefix_bits (np_Prefix np).

(** No two enabled policies denote the same range. *)
Definition distinct_ranges (nps : list CacheEntry) : Prop := NoDup (np_Prefix <$> omap toNPEntry nps).

Definition np_allows (np : networkPolicyCacheEntry) (h : string) : bool :=
  np_BypassHostCheck np || bool_decide (h ∈ np_AllowedHosts np).

(** When host [h] may be reached from address [a]: by the owners of the
    devices registered at [a] if there is one, all of them agreeing, and
    otherwise by a most specific network policy. *)
Definition policy_allows (proxy : Addr) (es : list IPEntry) (ha : list UserHostAccess) (nps : list CacheEntry)
    (a : Addr) (h : string) : Prop :=
  IsValid a = true ∧ ¬ (IsValid proxy = true ∧ proxy = a) ∧
  match entries_at es a with
  | [] => ∃ np, most_specific nps a np ∧ np_allows np h = true
  | l => ∀ e, e ∈ l → granted ha (IPEntry_UserID e) h = true
  end.

(** The service's caches are those of the given rows. *)
Definition caches (s : Service) (es : list IPEntry) (ha : list UserHostAccess) (nps : list CacheEntry) : Prop :=
  ipSet s = buildIPSet es ha ∧ networkPolicies s = buildNetworkPolicyCache nps.

(** ** Prefixes *)

Lemma shiftr_shiftl_shiftr x n : Z.shiftr (Z.shiftl (Z.shiftr x n) n) n = Z.shiftr x n.
Proof.
  destruct (decide (0 ≤ n)) as [Hn|Hn].
  - rewrite Z.shiftr_shiftl_l by done. by rewrite Z.sub_diag, Z.shiftl_0_r.
  - assert (∃ k, n = -k ∧ 0 ≤ k) as (k & -> & Hk) by (exists (-n); lia).
    rewrite !Z.shiftr_opp_r, Z.shiftl_opp_r, Z.shiftr_shiftl_l by lia. by rewrite Z.sub_diag, Z.shiftl_0_r.
Qed.

(** A masked address that agrees with [b] on the network bits is [b] masked. *)
Lemma mask_determined w bits a b :
  Z.shiftr (Z.lxor b (mask w bits a)) (w - bits) = 0 → mask w bits a = mask w bits b.
Proof.
  unfold mask. rewrite Z.shiftr_lxor, Z.lxor_eq_0_iff, shiftr_shiftl_shiftr. by intros ->.
Qed.

Lemma Masked_Contains_unique p q a :
  Prefix_bits (Masked p) = Prefix_bits (Masked q) →
  Contains (Masked p) a = true → Contains (Masked q) a = true → Masked p = Masked q.
Proof.
  assert (∀ p, Contains (Masked p) a = true →
    Masked p = mkPrefix (match a with
                         | Addr4 b => Addr4 (mask 32 (Prefix_bits (Masked p)) b)
                         | Addr6 b _ => Addr6 (mask 128 (Prefix_bits (Masked p)) b) ""
                         | AddrZero => AddrZero end) (Prefix_bits (Masked p))) as Hm.
  { clear. intros p. unfold Masked. destruct (Prefix_IsValid p); [|done].
    destruct p as [[|x|x z] n]; [done| |]; cbn [Prefix_ip Prefix_bits]; unfold Contains;
      destruct (negb _ || hasZone a); try done; destruct a as [|b|b zb]; try done; cbn [Prefix_ip Prefix_bits];
      intros Hc%Z.eqb_eq; by rewrite (mask_determined _ _ x b). }
  intros Hb Hp%Hm Hq%Hm. rewrite Hp, Hq, Hb. reflexivity.
Qed.

Lemma toNPEntry_masked e np : toNPEntry e = Some np → ∃ p, np_Prefix np = Masked p.
Proof. unfold toNPEntry. destruct (ParsePrefix _); [|done]. intros [= <-]. cbn. unfold canonical_prefix. eauto. Qed.

Lemma NoDup_fmap_unique {A B} (f : A → B) (l : list A) x y :
  NoDup (f <$> l) → x ∈ l → y ∈ l → f x = f y → x = y.
Proof.
  intros Hnd Hx Hy E. apply list_elem_of_lookup in Hx as [i Hi], Hy as [j Hj].
  assert (i = j) as <-; [|congruence].
  eapply (NoDup_lookup (f <$> l)); [done| |]; rewrite list_lookup_fmap; [by rewrite Hi|]. rewrite Hj. cbn. by rewrite E.
Qed.

Lemma most_specific_unique nps a np np' :
  distinct_ranges nps → most_specific nps a np → most_specific nps a np' → np = np'.
Proof.
  intros Hnd (Hin & Hc & Hmax) (Hin' & Hc' & Hmax').
  eapply NoDup_fmap_unique; [exact Hnd|done|done|].
  assert (Prefix_bits (np_Prefix np) = Prefix_bits (np_Prefix np')) as Hb
    by (specialize (Hmax _ Hin' Hc'); specialize (Hmax' _ Hin Hc); lia).
  apply list_elem_of_omap in Hin as (e & _ & [p Hp]%toNPEntry_masked).
  apply list_elem_of_omap in Hin' as (e' & _ & [p' Hp']%toNPEntry_masked).
  rewrite Hp, Hp' in *. by apply (Masked_Contains_unique _ _ a).
Qed.

(** ** The scan of the network policies *)

Section decide.
Context `{GoUnicode}.

Definition np_result (np : networkPolicyCacheEntry) (h : string) : DecisionResult :=
  if np_allows np h then
    mkDecisionResult true None [] (Some MatchSourceNetworkPolicy) (Some (np_PolicyID np)) (Some (np_PolicyName np))
  else deny DenyReasonHostNotAllowed.

Lemma scanPolicies_first ps a h :
  (scanPolicies ps a h = deny DenyReasonIPNotRegistered ∧ ∀ np, np ∈ ps → Contains (np_Prefix np) a = false) ∨
  ∃ l1 np l2, ps = (l1 ++ np :: l2)%list ∧ Contains (np_Prefix np) a = true ∧
    (∀ np', np' ∈ l1 → Contains (np_Prefix np') a = false) ∧ scanPolicies ps a h = np_result np h.
Proof.
  induction ps as [|np ps IH]; [left; split; [done|]; by intros np ?%elem_of_nil|].
  cbn [scanPolicies]. destruct (Contains (np_Prefix np) a) eqn:E.
  { right. exists [], np, ps. split_and!; [done|done| |done]. by intros np' ?%elem_of_nil. }
  destruct IH as [(-> & Hn)|(l1 & np' & l2 & -> & Hc & Hn & ->)].
  - left. split; [done|]. intros np' [->|Hin]%elem_of_cons; eauto.
  - right. exists (np :: l1), np', l2. split_and!; [done|done| |done].
    intros np'' [->|Hin]%elem_of_cons; eauto.
Qed.

(** In the cache's order, the first match is a most specific one. *)
Lemma first_most_specific nps a l1 np l2 :
  buildNetworkPolicyCache nps = (l1 ++ np :: l2)%list → Contains (np_Prefix np) a = true →
  (∀ np', np' ∈ l1 → Contains (np_Prefix np') a = false) → most_specific nps a np.
Proof.
  assert (∀ np, np ∈ buildNetworkPolicyCache nps ↔ np ∈ omap toNPEntry nps) as Hin
    by (intros x; apply elem_of_order_desc).
  pose proof (buildNetworkPolicyCache_sorted nps) as Hs.
  intros E Hc Hn. split; [apply Hin; rewrite E; set_solver|]. split; [done|].
  intros np' Hnp'%Hin Hc'. rewrite E in Hnp', Hs.
  apply elem_of_app in Hnp' as [Hl1|[->|Hl2]%elem_of_cons]; [by rewrite (Hn np') in Hc'|done|].
  assert (byMostSpecificFirst np np') as Hle; [|exact Hle].
  apply (StronglySorted_app_order _ (l1 ++ [np])%list l2); [by rewrite <-app_assoc|set_solver|done].
Qed.

Lemma scan_most_specific nps a h :
  (scanPolicies (buildNetworkPolicyCache nps) a h = deny DenyReasonIPNotRegistered ∧ ¬ ∃ np, most_specific nps a np) ∨
  ∃ np, most_specific nps a np ∧ scanPolicies (buildNetworkPolicyCache nps) a h = np_result np h.
Proof.
  destruct (scanPolicies_first (buildNetworkPolicyCache nps) a h) as [(-> & Hn)|(l1 & np & l2 & E & Hc & Hn & ->)].
  - left. split; [done|]. intros (np & Hnp & Hc & _). by rewrite (Hn np) in Hc by (by apply elem_of_order_desc).
  - right. exists np. split; [|done]. by eapply first_most_specific.
Qed.

(** ** Decide *)

Lemma Unmap_idem ip : Unmap (Unmap ip) = Unmap ip.
Proof. destruct ip as [|a|a z]; [done|done|]. cbn [Unmap]. destruct (Is4In6 (Addr6 a z)) eqn:E; [done|]. cbn [Unmap]. by rewrite E. Qed.

Lemma IsValid_Unmap ip : IsValid (Unmap ip) = IsValid ip.
Proof. destruct ip as [|a|a z]; [done|done|]. cbn [Unmap]. by case_match. Qed.

Lemma is_trusted_proxy_true s a : is_trusted_proxy s a = true ↔ IsValid (trustedProxy s) = true ∧ trustedProxy s = a.
Proof. unfold is_trusted_proxy, Compare_eq0. by rewrite andb_true_iff, bool_decide_eq_true. Qed.

Lemma Decide_proxy s ip host : is_trusted_proxy s (Unmap ip) = true → Decide s ip host = deny DenyReasonIPNotRegistered.
Proof. intros Hp. unfold Decide, lookupIP. rewrite Hp. by destruct (negb _). Qed.

Lemma Decide_entry s ip host entry :
  IsValid ip = true → is_trusted_proxy s (Unmap ip) = false → ipSet s !! Unmap ip = Some entry →
  Decide s ip host =
    let allowed := entry_allows entry (NormaliseHost host) in
    mkDecisionResult allowed (if allowed then None else Some DenyReasonHostNotAllowed)
      (toIPContributors (entry_Contributors entry)) (Some MatchSourceDevice) None None.
Proof.
  intros Hv Hp He. unfold Decide, lookupIP. rewrite Hv, Hp, He. cbn [negb]. unfold entry_allows.
  destruct (entry_BypassAllowlist entry); [done|]. cbn [orb]. by case_bool_decide.
Qed.

Lemma Decide_no_entry s ip host :
  IsValid ip = true → is_trusted_proxy s (Unmap ip) = false → ipSet s !! Unmap ip = None →
  Decide s ip host = scanPolicies (networkPolicies s) (Unmap ip) (NormaliseHost host).
Proof. intros Hv Hp He. unfold Decide, lookupIP. by rewrite Hv, Hp, He. Qed.

Lemma buildIPSet_None_iff es ha a : buildIPSet es ha !! a = None ↔ entries_at es a = [].
Proof. rewrite buildIPSet_lookup. by destruct (entries_at es a). Qed.

Lemma Decide_allowed s es ha nps ip host :
  caches s es ha nps → distinct_ranges nps →
  Allowed (Decide s ip host) = true ↔
    policy_allows (trustedProxy s) es ha nps (Unmap ip) (NormaliseHost host).
Proof.
  intros [Hip Hnp] Hd. unfold policy_allows. rewrite IsValid_Unmap, <-is_trusted_proxy_true.
  destruct (IsValid ip) eqn:Hv; [|unfold Decide; rewrite Hv; cbn; split; [done|by intros [? _]]].
  destruct (is_trusted_proxy s (Unmap ip)) eqn:Hp.
  { rewrite Decide_proxy by done. split; [done|]. intros (_ & Hn & _). by contradict Hn. }
  destruct (buildIPSet es ha !! Unmap ip) as [entry|] eqn:He.
  - rewrite (Decide_entry _ _ _ entry) by (by rewrite ?Hip). cbn [Allowed].
    rewrite (entry_allows_granted _ _ _ _ _ He).
    assert (entries_at es (Unmap ip) ≠ []) as Hne by (intros E; apply (buildIPSet_None_iff es ha) in E; congruence).
    destruct (entries_at es (Unmap ip)) as [|e l]; [done|]. split; [intros Hall; split_and!; done|]. by intros (_ & _ & Hall).
  - rewrite Decide_no_entry by (by rewrite ?Hip). rewrite Hnp.
    apply buildIPSet_None_iff in He as ->.
    destruct (scan_most_specific nps (Unmap ip) (NormaliseHost host)) as [(-> & Hn)|(np & Hms & ->)].
    + split; [done|]. intros (_ & _ & np & Hms & _). exfalso. eauto.
    + unfold np_result. destruct (np_allows np _) eqn:E; cbn; [split; [intros _; split_and!; [done|done|by eauto]|done]|].
      split; [done|]. intros (_ & _ & np' & Hms' & Ha).
      rewrite (most_specific_unique _ _ _ _ Hd Hms' Hms) in Ha. congruence.
Qed.

(** [Decide] allows a request exactly when the specification does:
    the address is valid and is not the trusted proxy's, and either every
    owner of a device registered at the address bypasses the allowlist or
    is granted the normalised host (deny wins over all of them), or no
    device is registered there and the most specific enabled network
    policy that contains the address lets the host through. *)
Theorem Decide_refines_policy s es ha nps ip host :
  caches s es ha nps → distinct_ranges nps →
  Allowed (Decide s ip host) = true ↔
    policy_allows (trustedProxy s) es ha nps (Unmap ip) (NormaliseHost host).
Proof. apply Decide_allowed. Qed.

(** Where no device is registered, the decision is that of a most
    specific enabled policy containing the address, whose id and name an
    allow reports; the address is reported as not registered exactly when
    no policy contains it.  This holds whichever order the sort leaves
    policies of equal length in. *)
Theorem Decide_longest_prefix s es ha nps ip host :
  caches s es ha nps → IsValid ip = true → is_trusted_proxy s (Unmap ip) = false →
  entries_at es (Unmap ip) = [] →
  (Decide s ip host = deny DenyReasonIPNotRegistered ∧
     ∀ np, np ∈ omap toNPEntry nps → Contains (np_Prefix np) (Unmap ip) = false) ∨
  ∃ np, most_specific nps (Unmap ip) np ∧
    Decide s ip host =
      if np_allows np (NormaliseHost host) then
        mkDecisionResult true None [] (Some MatchSourceNetworkPolicy) (Some (np_PolicyID np)) (Some (np_PolicyName np))
      else deny DenyReasonHostNotAllowed.
Proof.
  intros [Hip Hnp] Hv Hp He. rewrite Decide_no_entry by (rewrite ?Hip, ?buildIPSet_None_iff; done). rewrite Hnp.
  destruct (scanPolicies_first (buildNetworkPolicyCache nps) (Unmap ip) (NormaliseHost host)) as [(-> & Hn)|Hs].
  - left. split; [done|]. intros np Hin. apply Hn. by apply elem_of_order_desc.
  - right. destruct Hs as (l1 & np & l2 & E & Hc & Hl1 & ->). exists np. split; [|done].
    by eapply first_most_specific.
Qed.

(** The decision does not depend on how the address is written: an
    IPv4-mapped IPv6 address is decided as its IPv4 form; an unparseable
    one (the zero address) is never allowed; and no spelling of the
    trusted proxy's address is, whatever the caches hold. *)
Theorem Decide_canonical_fail_closed s ip host :
  Decide s (Unmap ip) host = Decide s ip host ∧
  Decide s AddrZero host = deny DenyReasonIPNotRegistered ∧
  (IsValid (trustedProxy s) = true → Unmap ip = trustedProxy s →
     Decide s ip host = deny DenyReasonIPNotRegistered).
Proof.
  split; [|split; [done|]].
  - unfold Decide. by rewrite IsValid_Unmap, Unmap_idem.
  - intros Hv E. apply Decide_proxy, is_trusted_proxy_true. by rewrite E.
Qed.
End decide.

(** ** A concrete policy *)

Module Demo.
Definition laptop : IPEntry := mkIPEntry "198.51.100.7" 1 1 10.
Definition phone : IPEntry := mkIPEntry "::ffff:198.51.100.7" 2 2 11.
Definition tablet : IPEntry := mkIPEntry "203.0.113.9" 3 3 12.
Definition es : list IPEntry := [laptop; phone; tablet].
Definition ha : list UserHostAccess := [
  mkUserHostAccess 10 false ["git.example.org"; "wiki.example.org"];
  mkUserHostAccess 11 false ["wiki.example.org"];
  mkUserHostAccess 12 true [] ].
Definition nps : list CacheEntry := [
  mkCacheEntry 1 "office" "10.0.0.0/16" true [];
  mkCacheEntry 2 "lab" "10.0.7.0/24" false ["wiki.example.org"] ].
Definition proxy : Addr := Addr4 167772161. (* 10.0.0.1 *)
Definition secret : string := "0123456789abcdef".
Definition service : Service :=
  mkService (sha256 secret) proxy (buildIPSet es ha) (buildNetworkPolicyCache nps) None 0.
Definition ip (s : string) : Addr := default AddrZero (ParseAddr s).

Lemma distinct : distinct_ranges nps.
Proof. apply (bool_decide_eq_true_1 (NoDup (np_Prefix <$> omap toNPEntry nps))). vm_compute. reflexivity. Qed.
End Demo.

Example Decide_refines_policy_witness :
  Allowed (Decide Demo.service (Demo.ip "198.51.100.7") "wiki.example.org:443") = true ∧
  Allowed (Decide Demo.service (Demo.ip "198.51.100.7") "git.example.org") = false ∧
  policy_allows Demo.proxy Demo.es Demo.ha Demo.nps (Demo.ip "198.51.100.7") "wiki.example.org".
Proof.
  split; [vm_compute; reflexivity|]. split; [vm_compute; reflexivity|].
  apply (proj1 (Decide_refines_policy Demo.service Demo.es Demo.ha Demo.nps (Demo.ip "198.51.100.7") "wiki.example.org:443"
           (conj eq_refl eq_refl) Demo.distinct)). vm_compute. reflexivity.
Defined.

Example Decide_longest_prefix_witness :
  Decide Demo.service (Demo.ip "10.0.7.3") "git.example.org" = deny DenyReasonHostNotAllowed ∧
  ∃ np, most_specific Demo.nps (Demo.ip "10.0.7.3") np.
Proof.
  split; [vm_compute; reflexivity|].
  destruct (Decide_longest_prefix Demo.service Demo.es Demo.ha Demo.nps (Demo.ip "10.0.7.3") "git.example.org")
    as [[Hd _]|(np & Hms & _)]; [split; reflexivity|reflexivity|vm_compute; reflexivity|vm_compute; reflexivity| |].
  - exfalso. vm_compute in Hd. discriminate Hd.
  - exists np. exact Hms.
Defined.

Example Decide_canonical_fail_closed_witness :
  Decide Demo.service (Demo.ip "::ffff:10.0.0.1") "wiki.example.org" = deny DenyReasonIPNotRegistered.
Proof.
  apply (proj2 (proj2 (Decide_canonical_fail_closed Demo.service (Demo.ip "::ffff:10.0.0.1") "wiki.example.org")));
    vm_compute; reflexivity.
Defined.
