(* ===== verification/PolicyVerify.v ===== *)
(** * PolicyVerify: theorems on verification, its audit events and the handlers *)

From S2P Require Import Prelude GoLib Netip Schema Store Slicex HostNames PolicyCache Crypto PolicyService.
From S2P Require Import PolicySpec.

Local Open Scope string_scope.
Local Open Scope Z_scope.

Section verify.
Context `{GoUnicode}.
Implicit Types (s : Service) (req : VerifyRequest).

(** ** Shape of a decision *)

(** The only reasons [Decide] gives, and none on an allow. *)
Lemma Decide_reason s ip host :
  match Allowed (Decide s ip host) with
  | true => result_DenyReason (Decide s ip host) = None
  | false => result_DenyReason (Decide s ip host) = Some DenyReasonIPNotRegistered ∨
             result_DenyReason (Decide s ip host) = Some DenyReasonHostNotAllowed
  end.
Proof.
  unfold Decide. destruct (negb (IsValid ip)); [by left|].
  destruct (lookupIP s (Unmap ip)) as [entry|].
  - destruct (entry_BypassAllowlist entry); [done|]. case_bool_decide; cbn; [done|by right].
  - destruct (is_trusted_proxy s (Unmap ip)); [by left|].
    destruct (scanPolicies_first (networkPolicies s) (Unmap ip) (NormaliseHost host)) as [(-> & _)|(? & np & ? & _ & _ & _ & ->)];
      [by left|]. unfold np_result. destruct (np_allows _ _); cbn; [done|by right].
Qed.

(** ** Headers *)

Lemma header_get_other h k : h !! k = None → header_get h k = "".
Proof. intros E. unfold header_get, header_values. by rewrite E. Qed.

Lemma fullEnrichmentHeaders_key h k v :
  fullEnrichmentHeaders h !! k = Some v → ToLower k ∉ sensitiveHeaders ∧ h !! k = Some v.
Proof.
  unfold fullEnrichmentHeaders. rewrite map_lookup_filter_Some. cbn. intros [Hv Hb%bool_decide_eq_false_1]. done.
Qed.

Lemma minimalEnrichmentHeaders_key h k v :
  minimalEnrichmentHeaders h !! k = Some v → k ∈ forwardingHeaderKeys ∧ h !! k = Some v.
Proof.
  unfold minimalEnrichmentHeaders.
  assert (∀ keys (m : headers), foldl (λ m key, if bool_decide (header_values h key = []) then m else <[key := header_values h key]> m) m keys !! k = Some v →
    m !! k = Some v ∨ k ∈ keys ∧ h !! k = Some v) as Hg.
  { induction keys as [|key keys IH]; intros m Hm; [by left|]. cbn [foldl] in Hm. apply IH in Hm as [Hm|[Hk Hv]].
    - case_bool_decide as Hnil; [by left|].
      destruct (decide (key = k)) as [->|Hne]; [|rewrite lookup_insert_ne in Hm by done; by left].
      rewrite lookup_insert_eq in Hm. injection Hm as Hm. right. split; [by left|].
      unfold header_values in *. destruct (h !! k); [by rewrite <-Hm|done].
    - right. split; [by right|done]. }
  intros [Hm|?]%Hg; [by rewrite lookup_empty in Hm|done].
Qed.

Lemma forwarding_not_sensitive k : k ∈ forwardingHeaderKeys → ToLower k ∉ sensitiveHeaders.
Proof.
  assert (forallb (λ k, bool_decide (ToLower k ∉ sensitiveHeaders)) forwardingHeaderKeys = true) as Hf by (vm_compute; reflexivity).
  rewrite forallb_forall in Hf. intros Hk%list_elem_of_In%Hf. by apply bool_decide_eq_true_1 in Hk.
Qed.

(** ** VerifyAccess *)

Definition request_host req : string := default "" (TargetHost req).

(** The event a verification emits. *)
Definition outcome_of (r : result unit) : bool := match r with Ok _ => true | Err _ => false end.

Definition reason_of (r : result unit) : option DenyReason :=
  match r with
  | Ok _ => None
  | Err ErrInvalidBearerToken => Some DenyReasonInvalidToken
  | Err ErrIPNotEnabled => Some DenyReasonIPNotRegistered
  | Err _ => Some DenyReasonHostNotAllowed
  end.

Lemma VerifyAccess_event s geo now us req :
  ∃ ev, (VerifyAccess s geo now us req).2 = [ev] ∧
    ev_Outcome ev = outcome_of (VerifyAccess s geo now us req).1 ∧
    ev_DenyReason ev = reason_of (VerifyAccess s geo now us req).1 ∧
    ev_ClientIP ev = Addr_String (ClientIP req) ∧
    ev_Headers ev = (if ev_Outcome ev then fullEnrichmentHeaders (rawHeader req) else minimalEnrichmentHeaders (rawHeader req)) ∧
    (ev_DenyReason ev = Some DenyReasonInvalidToken → ev_GeoIP ev = emptyGeo ∧ ev_IPContributors ev = []).
Proof.
  unfold VerifyAccess. pose proof (Decide_reason s (ClientIP req) (default "" (TargetHost req))) as Hr.
  destruct (negb (bool_decide _)); [by eexists|].
  destruct (Allowed (Decide s (ClientIP req) (default "" (TargetHost req)))); cbn [negb].
  - by eexists.
  - destruct Hr as [Hr|Hr]; rewrite Hr; (case_bool_decide; [try done|try done]); by eexists.
Qed.

Lemma VerifyAccess_Ok s geo now us req :
  (VerifyAccess s geo now us req).1 = Ok tt ↔
    sha256 (Token req) = apiSecretHash s ∧ Allowed (Decide s (ClientIP req) (request_host req)) = true.
Proof.
  unfold VerifyAccess, request_host. case_bool_decide as Ht; cbn [negb]; [|split; [done|by intros []]].
  destruct (Allowed _); cbn [negb]; [done|]. case_bool_decide; (split; [done|by intros []]).
Qed.

(** A verification succeeds exactly when the token's hash is the
    secret's and [Decide] allows the client address and host; it hands the
    observers exactly one event, which agrees with the error returned on
    the outcome and on the reason, and carries neither geolocation nor
    contributors when the token was wrong. *)
Theorem VerifyAccess_spec s geo now us req :
  let '(r, evs) := VerifyAccess s geo now us req in
  (r = Ok tt ↔ sha256 (Token req) = apiSecretHash s ∧ Allowed (Decide s (ClientIP req) (request_host req)) = true) ∧
  ∃ ev, evs = [ev] ∧ ev_Outcome ev = outcome_of r ∧ ev_DenyReason ev = reason_of r ∧
    ev_ClientIP ev = Addr_String (ClientIP req) ∧
    (ev_DenyReason ev = Some DenyReasonInvalidToken → ev_GeoIP ev = emptyGeo ∧ ev_IPContributors ev = []).
Proof.
  pose proof (VerifyAccess_Ok s geo now us req) as Hok.
  destruct (VerifyAccess_event s geo now us req) as (ev & He & Ho & Hr & Hc & _ & Hg).
  destruct (VerifyAccess s geo now us req) as [r evs]. cbn in *. split; [done|]. by exists ev.
Qed.

(** ** The forward-auth handler *)

(** C9: the handler answers 200 exactly to a request that is not 0-RTT
    early data, carries a non-empty bearer token whose hash is the
    secret's, has a parseable client address, and that [Decide] allows for
    the forwarded host; it answers 425 exactly to early data and 403 to
    everything else. *)
Theorem HandleForwardAuthIP_fail_closed s geo now us h clientIP :
  let status := (HandleForwardAuthIP s geo now us h clientIP).1 in
  (status = StatusOK ∨ status = StatusForbidden ∨ status = StatusTooEarly) ∧
  (status = StatusTooEarly ↔ header_get h "Early-Data" = "1") ∧
  (status = StatusOK ↔
    header_get h "Early-Data" ≠ "1" ∧
    ∃ token ip addr, cut_prefix "Bearer " (header_get h "Authorization") = Some token ∧ token ≠ "" ∧
      sha256 token = apiSecretHash s ∧ clientIP = Some ip ∧ ParseAddr ip = Some addr ∧
      Allowed (Decide s addr (header_get h "X-Forwarded-Host")) = true).
Proof.
  unfold HandleForwardAuthIP. case_bool_decide as He; [cbn; naive_solver|].
  destruct (cut_prefix "Bearer " (header_get h "Authorization")) as [[|c t]|] eqn:Et; [cbn; naive_solver| |cbn; naive_solver].
  destruct clientIP as [ip|]; [|cbn; naive_solver].
  destruct (ParseAddr ip) as [addr|] eqn:Ea; [|cbn; naive_solver].
  pose proof (VerifyAccess_Ok s geo now us (NewVerifyRequest (String c t) (Unmap addr) h)) as Hok.
  assert (request_host (NewVerifyRequest (String c t) (Unmap addr) h) = header_get h "X-Forwarded-Host") as Hh.
  { unfold request_host, NewVerifyRequest, nilIfEmpty. cbn. by case_bool_decide. }
  rewrite Hh in Hok. cbn [Token ClientIP NewVerifyRequest] in Hok.
  rewrite (proj1 (Decide_canonical_fail_closed s addr _)) in Hok.
  destruct (VerifyAccess _ _ _ _ _) as [[[]|e] evs]; cbn [fst] in *; (split; [naive_solver|]; split; [done|]).
  - destruct Hok as [Hok _]. specialize (Hok eq_refl) as [? ?]. split; [|done]. intros _. split; [done|]. eauto 10.
  - split; [done|]. intros (_ & token & ip' & addr' & [= <-] & _ & Hs & [= <-] & Ea' & Hd).
    rewrite Ea in Ea'. injection Ea' as <-.
    destruct Hok as [_ Hok]. by discriminate (Hok (conj Hs Hd)).
Qed.

(** C36: no event of the handler, allow or deny, carries an
    [Authorization], [Cookie] or [Proxy-Authorization] header in any case;
    a deny event carries only headers of the forwarding allowlist; and an
    event's headers are always the request's own. *)
Theorem decision_events_hide_credentials s geo now us h clientIP ev k v :
  ev ∈ (HandleForwardAuthIP s geo now us h clientIP).2 → ev_Headers ev !! k = Some v →
  ToLower k ∉ sensitiveHeaders ∧ h !! k = Some v ∧ (ev_Outcome ev = false → k ∈ forwardingHeaderKeys).
Proof.
  assert (∀ req, rawHeader req = h → ev ∈ (VerifyAccess s geo now us req).2 → ev_Headers ev !! k = Some v →
    ToLower k ∉ sensitiveHeaders ∧ h !! k = Some v ∧ (ev_Outcome ev = false → k ∈ forwardingHeaderKeys)) as Hv.
  { intros req Hraw Hin Hk. destruct (VerifyAccess_event s geo now us req) as (ev' & E & _ & _ & _ & Hh & _).
    rewrite E in Hin. apply list_elem_of_singleton in Hin as ->. rewrite Hh, Hraw in Hk.
    destruct (ev_Outcome ev'); [by apply fullEnrichmentHeaders_key in Hk as [? ?]|].
    apply minimalEnrichmentHeaders_key in Hk as [Hk ?]. split; [by apply forwarding_not_sensitive|done]. }
  unfold HandleForwardAuthIP. intros Hin. repeat case_match; cbn in Hin; try by apply elem_of_nil in Hin.
  all: match goal with E : VerifyAccess _ _ _ _ ?req = _ |- _ => intros Hk; apply (Hv req); [done|by rewrite E|done] end.
Qed.

(** The simulation an administrator runs predicts the handler: for a
    request with the right token and no early data, from a parseable
    address, it reports an allow exactly when the handler answers 200. *)
Theorem Simulate_predicts_handler s geo now us h ip token :
  header_get h "Early-Data" ≠ "1" →
  cut_prefix "Bearer " (header_get h "Authorization") = Some token → token ≠ "" →
  sha256 token = apiSecretHash s →
  sim_Allowed (SimulatePolicyAccess s ip (header_get h "X-Forwarded-Host")) = true ↔
    (HandleForwardAuthIP s geo now us h (Some ip)).1 = StatusOK.
Proof.
  intros He Ht Hne Hs. unfold HandleForwardAuthIP. rewrite bool_decide_eq_false_2, Ht by done.
  destruct token as [|c t]; [by contradict Hne|].
  unfold SimulatePolicyAccess. cbn [sim_Allowed]. destruct (ParseAddr ip) as [addr|]; [|done]. cbn [default].
  pose proof (VerifyAccess_Ok s geo now us (NewVerifyRequest (String c t) (Unmap addr) h)) as Hok.
  assert (request_host (NewVerifyRequest (String c t) (Unmap addr) h) = header_get h "X-Forwarded-Host") as Hh.
  { unfold request_host, NewVerifyRequest, nilIfEmpty. cbn. by case_bool_decide. }
  rewrite Hh in Hok. cbn [Token ClientIP NewVerifyRequest] in Hok. change (from_option id AddrZero (Some addr)) with addr.
  destruct (VerifyAccess _ _ _ _ _) as [[[]|e] evs]; cbn [fst] in *.
  - split; [done|]. intros _. by apply Hok.
  - split; [|done]. intros Hd. by discriminate (proj2 Hok (conj Hs Hd)).
Qed.
End verify.

(** ** Witnesses *)

Module VerifyDemo.
Definition h : headers := {[
  "Authorization" := ["Bearer 0123456789abcdef"]; "X-Forwarded-Host" := ["wiki.example.org"];
  "X-Forwarded-For" := ["198.51.100.7"]; "Cookie" := ["session=1"] ]}.
End VerifyDemo.

Example decision_events_hide_credentials_witness :
  ∃ ev, ev ∈ (HandleForwardAuthIP Demo.service None 0 5 VerifyDemo.h (Some "203.0.113.77")).2 ∧
    "X-Forwarded-For" ∈ forwardingHeaderKeys.
Proof.
  pose (e := match (HandleForwardAuthIP Demo.service None 0 5 VerifyDemo.h (Some "203.0.113.77")).2 with ev :: _ => Some ev | [] => None end).
  assert (∃ ev, (HandleForwardAuthIP Demo.service None 0 5 VerifyDemo.h (Some "203.0.113.77")).2 = [ev] ∧ ev_Outcome ev = false ∧
    ev_Headers ev !! "X-Forwarded-For" = Some ["198.51.100.7"]) as (ev & E & Ho & Hh).
  { vm_compute. eexists. split; [reflexivity|]. split; reflexivity. }
  exists ev. assert (ev ∈ (HandleForwardAuthIP Demo.service None 0 5 VerifyDemo.h (Some "203.0.113.77")).2) as Hin by (rewrite E; by left).
  split; [exact Hin|].
  exact (proj2 (proj2 (decision_events_hide_credentials _ _ _ _ _ _ _ _ _ Hin Hh)) Ho).
Defined.

Example Simulate_predicts_handler_witness :
  (HandleForwardAuthIP Demo.service None 0 5 VerifyDemo.h (Some "198.51.100.7")).1 = StatusOK.
Proof.
  apply (Simulate_predicts_handler Demo.service None 0 5 VerifyDemo.h "198.51.100.7" "0123456789abcdef");
    [vm_compute; discriminate|vm_compute; reflexivity|discriminate|vm_compute; reflexivity|vm_compute; reflexivity].
Defined.

(** ** The intersection flag *)

(** The flag documented as "true when deny-wins trimmed at least one
    contributor's host set" compares the final set with the first restricted
    owner's only, so it depends on the order of the rows: with one order of
    the same two devices it is set, with the other it is not, although in
    both the second owner loses a granted host. *)
Theorem IntersectionApplied_order_dependent :
  let a := mkIPEntry "198.51.100.7" 1 1 10 in
  let b := mkIPEntry "198.51.100.7" 2 2 11 in
  let ha := [mkUserHostAccess 10 false ["wiki.example.org"];
             mkUserHostAccess 11 false ["git.example.org"; "wiki.example.org"]] in
  let ip := Demo.ip "198.51.100.7" in
  entry_IntersectionApplied <$> buildIPSet [a; b] ha !! ip = Some false ∧
  entry_IntersectionApplied <$> buildIPSet [b; a] ha !! ip = Some true ∧
  entry_AllowedHosts <$> buildIPSet [a; b] ha !! ip = entry_AllowedHosts <$> buildIPSet [b; a] ha !! ip.
Proof. vm_compute. split; [reflexivity|]. split; reflexivity. Qed.
