(* ===== verification/PolicyView.v ===== *)
(** * PolicyView: the policy map by user ([internal/policy/policy_user_view.go])

    The audit view projects a snapshot of the policy cache onto users: at
    which addresses each is registered, with whom, and which hosts the
    others at an address leave him.  The theorem: what the view says a user
    can reach from an address is what the decision gives him there. *)

From S2P Require Import Prelude GoLib Netip Compare Schema Store Slicex HostNames Http PolicyCache NetipText Crypto PolicyService PolicySpec.

Local Open Scope string_scope.
Local Open Scope Z_scope.
Local Open Scope list_scope.

(** ** Rows *)

Record policyAuditUserRow := mkAuditUserRow {
  audit_UserID : UserID; audit_UserName : string; audit_Username : string; audit_IsAdmin : bool; audit_BypassAllowlist : bool }.

Record policyEnrichmentRow := mkEnrichmentRow {
  enrichment_AddressID : AddressID; enrichment_AddressUpdatedAt : time; enrichment_DeviceName : string }.

Record PolicyUserAddress := mkUserAddress {
  ua_AddressId : AddressID; ua_DeviceId : DeviceID; ua_DeviceName : string; ua_UpdatedAt : time }.

(** ** The index (buildIPIndex) *)

Record ipBucket := mkBucket {
  entryBypass : bool;
  entryAllowedHosts : list string;
  userBypass : bool;
  userAllowedHosts : list string;
  bucket_addresses : list PolicyUserAddress;
}.

Abbreviation userIPIndex := (gmap UserID (gmap string ipBucket)) (only parsing).
Abbreviation ipUsersIndex := (gmap string (gset UserID)) (only parsing).

Section index.
Context (addressEnrichment : gmap AddressID policyEnrichmentRow).

Definition user_address (c : ContributorAccess) (meta : policyEnrichmentRow) : PolicyUserAddress :=
  mkUserAddress (ContributorAccess_AddressID c) (ContributorAccess_DeviceID c) (enrichment_DeviceName meta) (enrichment_AddressUpdatedAt meta).

(** The bucket a contributor is filed in, fresh if there is none. *)
Definition bucket_for (entry : PolicyMapEntry) (c : ContributorAccess) (o : option ipBucket) : ipBucket :=
  match o with
  | Some b => b
  | None => mkBucket (pme_BypassAllowlist entry) (pme_AllowedHosts entry) (ContributorAccess_UserBypass c) (ContributorAccess_UserAllowedHosts c) []
  end.

Definition add_address (b : ipBucket) (a : PolicyUserAddress) : ipBucket :=
  mkBucket (entryBypass b) (entryAllowedHosts b) (userBypass b) (userAllowedHosts b) (bucket_addresses b ++ [a]).

(** The body of the loop over the contributors of an entry. *)
Definition index_contributor (entry : PolicyMapEntry) (ix : userIPIndex * ipUsersIndex) (c : ContributorAccess) : userIPIndex * ipUsersIndex :=
  match addressEnrichment !! ContributorAccess_AddressID c with
  | None => ix
  | Some meta =>
      let '(byUser, usersAtIP) := ix in
      let ip := pme_IP entry in
      let userID := ContributorAccess_UserID c in
      let ips := default ∅ (byUser !! userID) in
      (<[userID := <[ip := add_address (bucket_for entry c (ips !! ip)) (user_address c meta)]> ips]> byUser,
       <[ip := {[userID]} ∪ default ∅ (usersAtIP !! ip)]> usersAtIP)
  end.

(** The body of the loop over the entries. *)
Definition index_entry (ix : userIPIndex * ipUsersIndex) (entry : PolicyMapEntry) : userIPIndex * ipUsersIndex :=
  let usersAtIP := match ix.2 !! pme_IP entry with Some _ => ix.2 | None => <[pme_IP entry := ∅]> ix.2 end in
  foldl (index_contributor entry) (ix.1, usersAtIP) (pme_Contributors entry).

Definition buildIPIndex (snap : PolicyMapSnapshot) : userIPIndex * ipUsersIndex := foldl index_entry (∅, ∅) (Entries snap).
End index.

(** ** The view *)

Record PolicyIPDevice := mkIPDevice { ipdevice_Id : DeviceID; ipdevice_Name : string }.

Record PolicyUserIPSharedUser := mkSharedUser {
  shared_UserId : UserID; shared_Username : string; shared_UserName : string; shared_Devices : list PolicyIPDevice }.

Record PolicyUserIP := mkUserIP {
  uip_Ip : string;
  uip_SharedWithUsers : list PolicyUserIPSharedUser;
  uip_BypassAtIp : bool;
  uip_EffectiveHosts : list string;
  uip_TrimmedHosts : list string;
  uip_Addresses : list PolicyUserAddress;
  uip_Geo : option GeoInfo;
}.

Inductive PolicyUserStatus := Bypass | LiveWithAccess | LiveNoHostAccess | NoLiveIps | NoAccess.

Record PolicyUserEntry := mkUserEntry {
  ue_UserId : UserID;
  ue_DisplayName : string;
  ue_IsAdmin : bool;
  ue_BypassAllowlist : bool;
  ue_Status : PolicyUserStatus;
  ue_OnSharedIp : bool;
  ue_DeviceCount : Z;
  ue_IpCount : Z;
  ue_AllowedHostCount : Z;
  ue_LastSeenAt : option time;
  ue_UserAllowedHosts : list string;
  ue_Ips : list PolicyUserIP;
}.

Record PolicyNetworkPolicyEntry := mkNetworkPolicyEntry {
  npe_PolicyId : NetworkPolicyID; npe_PolicyName : string; npe_Cidr : string; npe_Enabled : bool; npe_BypassHostCheck : bool; npe_EffectiveHostCount : Z }.

Record PolicyUserMapAudit := mkAudit {
  audit_RefreshedAt : option time;
  audit_RefreshDurationMs : Z;
  audit_TotalIpCount : Z;
  audit_TotalDeviceCount : Z;
  audit_TotalHostCount : Z;
  audit_SharedIpCount : Z;
  audit_Users : list PolicyUserEntry;
  audit_NetworkPolicies : list PolicyNetworkPolicyEntry;
  audit_TotalNetworkPolicyCount : Z;
}.

Definition count {A} (l : list A) : Z := Z.of_nat (length l).

(** The devices of another user at an address, one entry each, by id. *)
Fixpoint distinct_devices (seen : gset DeviceID) (l : list PolicyUserAddress) : list PolicyIPDevice :=
  match l with
  | [] => []
  | a :: l =>
      if decide (ua_DeviceId a ∈ seen) then distinct_devices seen l
      else mkIPDevice (ua_DeviceId a) (ua_DeviceName a) :: distinct_devices ({[ua_DeviceId a]} ∪ seen) l
  end.

Definition devices_at (b : option ipBucket) : list PolicyIPDevice :=
  match b with Some b => order_by ipdevice_Id Z.compare (distinct_devices ∅ (bucket_addresses b)) | None => [] end.

Section users.
Context (byUser : userIPIndex) (usersAtIP : ipUsersIndex) (userInfoByID : gmap UserID policyAuditUserRow).

(** A user that is not listed reads as the zero row. *)
Definition user_info (u : UserID) : policyAuditUserRow := default (mkAuditUserRow 0 "" "" false false) (userInfoByID !! u).

Definition shared_user (ip : string) (u : UserID) : PolicyUserIPSharedUser :=
  mkSharedUser u (audit_Username (user_info u)) (audit_UserName (user_info u)) (devices_at (byUser !! u ≫= (.!! ip))).

Definition shared_users (userID : UserID) (ip : string) : list PolicyUserIPSharedUser :=
  shared_user ip <$> order_by id Z.compare (elements (default ∅ (usersAtIP !! ip) ∖ {[userID]})).

(** What is left of the user's hosts at an address, and what is not. *)
Definition effective_hosts (b : ipBucket) : list string * list string :=
  if userBypass b || entryBypass b then ([], [])
  else (Intersect (userAllowedHosts b) (entryAllowedHosts b), Diff (userAllowedHosts b) (entryAllowedHosts b)).

Definition user_ip (userID : UserID) (kv : string * ipBucket) : PolicyUserIP :=
  let '(ip, bucket) := kv in
  mkUserIP ip (shared_users userID ip) (entryBypass bucket) (effective_hosts bucket).1 (effective_hosts bucket).2
    (order_by ua_AddressId Z.compare (bucket_addresses bucket)) None.

(** In the order of the texts of the addresses. *)
Definition buildUserIPs (userID : UserID) (ipMap : gmap string ipBucket) : list PolicyUserIP :=
  user_ip userID <$> order_by fst String.compare (map_to_list ipMap).
End users.

Definition enrichGeo (ips : list PolicyUserIP) (geo : option (string → GeoResult)) : list PolicyUserIP :=
  match geo with
  | None => ips
  | Some resolve =>
      (λ x, mkUserIP (uip_Ip x) (uip_SharedWithUsers x) (uip_BypassAtIp x) (uip_EffectiveHosts x) (uip_TrimmedHosts x) (uip_Addresses x)
              (GeoInfoFromResult (resolve (uip_Ip x)))) <$> ips
  end.

Definition DeriveUserStatus (bypass : bool) (ipCount allowedHostCount : Z) : PolicyUserStatus :=
  if bypass then Bypass
  else
    let hasLiveIPs := 0 <? ipCount in
    let hasHostGrants := 0 <? allowedHostCount in
    if hasLiveIPs && hasHostGrants then LiveWithAccess
    else if hasLiveIPs && negb hasHostGrants then LiveNoHostAccess
    else if negb hasLiveIPs && hasHostGrants then NoLiveIps
    else NoAccess.

(** The addresses of a user, over all his buckets. *)
Definition all_addresses (ipMap : gmap string ipBucket) : list PolicyUserAddress :=
  (map_to_list ipMap).*2 ≫= bucket_addresses.

Definition countDistinctDevices (ipMap : gmap string ipBucket) : Z :=
  Z.of_nat (size (list_to_set (ua_DeviceId <$> all_addresses ipMap) : gset DeviceID)).

Definition anySharedIP (ips : list PolicyUserIP) : bool := existsb (λ x, negb (bool_decide (length (uip_SharedWithUsers x) = 0%nat))) ips.

Definition maxLastSeenAt (ipMap : gmap string ipBucket) : option time :=
  let max := foldl (λ max a, if max <? ua_UpdatedAt a then ua_UpdatedAt a else max) zero_time (all_addresses ipMap) in
  if IsZero max then None else Some max.

(** ** Assembly (assemblePolicyUserMap) *)

(** The hosts of some bucket of a user: Go takes the one its map iteration
    meets first (they agree, see [bucket_user_hosts]). *)
Definition some_bucket_hosts (ipMap : gmap string ipBucket) : list string :=
  match map_to_list ipMap with (_, b) :: _ => userAllowedHosts b | [] => [] end.

Section assemble.
Context (byUser : userIPIndex) (usersAtIP : ipUsersIndex) (userInfoByID : gmap UserID policyAuditUserRow).
Context (allowedHostsByUser : gmap UserID (list string)).

(** The user's hosts before any intersection. *)
Definition user_hosts_of (u : UserID) : list string :=
  match byUser !! u with Some ipMap => some_bucket_hosts ipMap | None => default [] (allowedHostsByUser !! u) end.

Definition user_entry (ur : policyAuditUserRow) : PolicyUserEntry :=
  let userID := audit_UserID ur in
  let bypass := audit_BypassAllowlist ur in
  let userHosts := if bypass then [] else user_hosts_of userID in
  let allowedHostCount := if bypass then 0 else count (user_hosts_of userID) in
  match byUser !! userID with
  | None =>
      mkUserEntry userID (audit_UserName ur) (audit_IsAdmin ur) bypass (DeriveUserStatus bypass 0 allowedHostCount) false 0 0 allowedHostCount None userHosts []
  | Some ipMap =>
      let ips := buildUserIPs byUser usersAtIP userInfoByID userID ipMap in
      mkUserEntry userID (audit_UserName ur) (audit_IsAdmin ur) bypass (DeriveUserStatus bypass (count ips) allowedHostCount)
        (anySharedIP ips) (countDistinctDevices ipMap) (count ips) allowedHostCount (maxLastSeenAt ipMap) userHosts ips
  end.
End assemble.

Definition assemblePolicyUserMap (snap : PolicyMapSnapshot) (addressEnrichment : gmap AddressID policyEnrichmentRow)
    (allUsers : list policyAuditUserRow) (allowedHostsByUser : gmap UserID (list string)) : PolicyUserMapAudit :=
  let '(byUser, usersAtIP) := buildIPIndex addressEnrichment snap in
  let userInfoByID := foldl (λ m ur, <[audit_UserID ur := ur]> m) ∅ allUsers in
  let users := user_entry byUser usersAtIP userInfoByID allowedHostsByUser <$> allUsers in
  let allHostsSet : gset string := list_to_set (allUsers ≫= λ ur, user_hosts_of byUser allowedHostsByUser (audit_UserID ur)) in
  mkAudit (snap_LastRefreshedAt snap) (snap_LastRefreshDurationMs snap)
    (Z.of_nat (size usersAtIP)) (foldl (λ n u, n + ue_DeviceCount u) 0 users) (Z.of_nat (size allHostsSet))
    (Z.of_nat (size (filter (λ kv : string * gset UserID, (2 ≤ size kv.2)%nat) usersAtIP))) users [] 0.

(** ** Repository *)

(** [getPolicyAddressEnrichment]: the rows of the join, by address. *)
Definition enrichment_rows (addressIDs : list AddressID) (d : db) : gmap AddressID policyEnrichmentRow :=
  foldl (λ m r, <[enrichment_AddressID r := r]> m) ∅
    (omap (λ kv : Z * Address, if decide (kv.1 ∈ addressIDs) then v ← devices d !! Address_DeviceID kv.2;
                                  Some (mkEnrichmentRow kv.1 (Address_UpdatedAt kv.2) (Device_Name v)) else None) (scan (addresses d))).

Definition getPolicyAddressEnrichment (addressIDs : list AddressID) : M (gmap AddressID policyEnrichmentRow) :=
  if bool_decide (addressIDs = []) then mret ∅ else query (λ _ d, enrichment_rows addressIDs d).

Definition is_admin (r : Role) : bool := match r with SuperAdminRole | AdminRole => true | UserRole => false end.

Definition audit_user_rows (d : db) : list policyAuditUserRow :=
  order_by (λ r, (audit_UserName r, audit_UserID r)) (cmp_pair String.compare Z.compare)
    ((λ u, mkAuditUserRow (User_ID u) (User_DisplayName u) (User_Username u) (is_admin (User_Role u)) (default false (user_settings d !! User_ID u))) <$>
     filter (λ u, User_DeletedAt u = None) (rows (users d))).

(** The hosts granted to users, a row for every group a host is granted by. *)
Definition allowed_host_rows (d : db) : list (UserID * string) :=
  order_by id (cmp_pair Z.compare String.compare)
    (ug ← elements (user_groups d); gm ← elements (group_members d);
     if bool_decide (gm.1 = ug.2) then match hosts d !! gm.2 with Some h => [(ug.1, Host_FQDN h)] | None => [] end else []).

Definition getAllUsersForPolicyAudit : M (list policyAuditUserRow * gmap UserID (list string)) :=
  userRows ← query (λ _ d, audit_user_rows d);
  hostRows ← query (λ _ d, allowed_host_rows d);
  mret (userRows, GroupByMap hostRows fst snd).

Definition collectAddressIDs (snap : PolicyMapSnapshot) : list AddressID :=
  Dedup (Entries snap ≫= λ e, ContributorAccess_AddressID <$> pme_Contributors e).

Definition network_policy_entry (totalHostCount : Z) (e : CacheEntry) : PolicyNetworkPolicyEntry :=
  mkNetworkPolicyEntry (CacheEntry_PolicyID e) (CacheEntry_PolicyName e) (CacheEntry_CIDR e) true (CacheEntry_BypassHostCheck e)
    (if CacheEntry_BypassHostCheck e then totalHostCount else count (CacheEntry_AllowedHostFQDNs e)).

Definition with_geo_ips (geo : option (string → GeoResult)) (u : PolicyUserEntry) : PolicyUserEntry :=
  mkUserEntry (ue_UserId u) (ue_DisplayName u) (ue_IsAdmin u) (ue_BypassAllowlist u) (ue_Status u) (ue_OnSharedIp u) (ue_DeviceCount u)
    (ue_IpCount u) (ue_AllowedHostCount u) (ue_LastSeenAt u) (ue_UserAllowedHosts u) (enrichGeo (ue_Ips u) geo).

Definition BuildPolicyUserMap (s : Service) (npProvider : option (M (list CacheEntry))) (geo : option (string → GeoResult)) : M PolicyUserMapAudit :=
  let snap := GetPolicyMap s in
  addrEnrichment ← getPolicyAddressEnrichment (collectAddressIDs snap);
  '(allUsers, allowedHostsByUser) ← getAllUsersForPolicyAudit;
  npEntries ← optional npProvider;
  let audit := assemblePolicyUserMap snap addrEnrichment allUsers allowedHostsByUser in
  totalHostCount ← query (λ _ d, Z.of_nat (size (hosts d)));
  mret (mkAudit (audit_RefreshedAt audit) (audit_RefreshDurationMs audit) (audit_TotalIpCount audit) (audit_TotalDeviceCount audit)
          (audit_TotalHostCount audit) (audit_SharedIpCount audit) (with_geo_ips geo <$> audit_Users audit)
          (network_policy_entry totalHostCount <$> npEntries) (count (network_policy_entry totalHostCount <$> npEntries))).

Definition handler_GetPolicyUserMap (s : Service) (npProvider : option (M (list CacheEntry))) (geo : option (string → GeoResult)) :
    M (Response PolicyUserMapAudit) :=
  respond (BuildPolicyUserMap s npProvider geo) (λ a, mkResponse 200 (Some a)) (λ _, 500).

(** ** What the index holds *)

Section index_spec.
Context (enrichment : gmap AddressID policyEnrichmentRow).

(** A bucket shows an entry of the snapshot with one of its contributors. *)
Definition shows (l : list PolicyMapEntry) (u : UserID) (ip : string) (b : ipBucket) : Prop :=
  ∃ entry c, entry ∈ l ∧ c ∈ pme_Contributors entry ∧ pme_IP entry = ip ∧ ContributorAccess_UserID c = u ∧
    entryBypass b = pme_BypassAllowlist entry ∧ entryAllowedHosts b = pme_AllowedHosts entry ∧
    userBypass b = ContributorAccess_UserBypass c ∧ userAllowedHosts b = ContributorAccess_UserAllowedHosts c.

Definition index_sound (l : list PolicyMapEntry) (byUser : userIPIndex) : Prop :=
  ∀ u ips ip b, byUser !! u = Some ips → ips !! ip = Some b → shows l u ip b.

(** The address of a contributor is filed under its user and text. *)
Definition filed (byUser : userIPIndex) (entry : PolicyMapEntry) (c : ContributorAccess) (meta : policyEnrichmentRow) : Prop :=
  ∃ ips b, byUser !! ContributorAccess_UserID c = Some ips ∧ ips !! pme_IP entry = Some b ∧ user_address c meta ∈ bucket_addresses b.

Lemma index_contributor_sound l entry c ix :
  entry ∈ l → c ∈ pme_Contributors entry → index_sound l ix.1 → index_sound l (index_contributor enrichment entry ix c).1.
Proof.
  intros He Hc Hs. unfold index_contributor. destruct (enrichment !! _) as [meta|]; [|done]. destruct ix as [byUser usersAtIP]. cbn in *.
  intros u ips ip b Hu Hb. destruct (decide (ContributorAccess_UserID c = u)) as [<-|Hne].
  2:{ rewrite lookup_insert_ne in Hu by done. eauto. }
  rewrite lookup_insert_eq in Hu. injection Hu as <-. destruct (decide (pme_IP entry = ip)) as [<-|Hne].
  2:{ rewrite lookup_insert_ne in Hb by done. destruct (byUser !! _) as [ips0|] eqn:E; cbn in Hb; [eauto|by rewrite lookup_empty in Hb]. }
  rewrite lookup_insert_eq in Hb. injection Hb as <-. destruct (default ∅ (byUser !! _) !! pme_IP entry) as [b0|] eqn:E; cbn.
  - destruct (byUser !! ContributorAccess_UserID c) as [ips0|] eqn:E0; cbn in E; [exact (Hs _ _ _ _ E0 E)|by rewrite lookup_empty in E].
  - by exists entry, c.
Qed.

Lemma index_contributor_keeps entry c ix entry' c' meta :
  filed ix.1 entry' c' meta → filed (index_contributor enrichment entry ix c).1 entry' c' meta.
Proof.
  intros (ips & b & Hu & Hb & Ha). unfold index_contributor. destruct (enrichment !! _) as [m|]; [|by exists ips, b]. destruct ix as [byUser usersAtIP]. cbn in *.
  unfold filed. destruct (decide (ContributorAccess_UserID c = ContributorAccess_UserID c')) as [E|Hne].
  2:{ exists ips, b. by rewrite lookup_insert_ne. }
  rewrite E, Hu, lookup_insert_eq. cbn. destruct (decide (pme_IP entry = pme_IP entry')) as [E'|Hne].
  - rewrite E', Hb. eexists _, _. split; [done|]. rewrite lookup_insert_eq. split; [done|]. cbn. apply elem_of_app. by left.
  - eexists _, b. split; [done|]. by rewrite lookup_insert_ne.
Qed.

Lemma index_contributor_files entry c ix meta :
  enrichment !! ContributorAccess_AddressID c = Some meta → filed (index_contributor enrichment entry ix c).1 entry c meta.
Proof.
  intros Hm. unfold index_contributor, filed. rewrite Hm. destruct ix as [byUser usersAtIP]. cbn. eexists _, _. rewrite lookup_insert_eq. split; [done|].
  rewrite lookup_insert_eq. split; [done|]. cbn. apply elem_of_app. right. by left.
Qed.

Lemma index_contributors l entry cs ix :
  entry ∈ l → cs ⊆ pme_Contributors entry → index_sound l ix.1 →
  let ix' := foldl (index_contributor enrichment entry) ix cs in
  index_sound l ix'.1 ∧ (∀ e c m, filed ix.1 e c m → filed ix'.1 e c m) ∧
  ∀ c m, c ∈ cs → enrichment !! ContributorAccess_AddressID c = Some m → filed ix'.1 entry c m.
Proof.
  intros He. revert ix. induction cs as [|c cs IH]; intros ix Hsub Hs; [split; [done|]; split; [done|]; by intros c m ?%elem_of_nil|]. cbn [foldl].
  destruct (IH (index_contributor enrichment entry ix c)) as (IH1 & IH2 & IH3); [set_solver|apply index_contributor_sound; [done|set_solver|done]|].
  split; [exact IH1|]. split.
  - intros e c' m Hf. by apply IH2, index_contributor_keeps.
  - intros c' m [->|Hc]%elem_of_cons Hm; [|by apply IH3]. by apply IH2, index_contributor_files.
Qed.

Lemma index_entries l0 l ix :
  l ⊆ l0 → index_sound l0 ix.1 →
  let ix' := foldl (index_entry enrichment) ix l in
  index_sound l0 ix'.1 ∧ (∀ e c m, filed ix.1 e c m → filed ix'.1 e c m) ∧
  ∀ e c m, e ∈ l → c ∈ pme_Contributors e → enrichment !! ContributorAccess_AddressID c = Some m → filed ix'.1 e c m.
Proof.
  revert ix. induction l as [|e l IH]; intros ix Hsub Hs; [split; [done|]; split; [done|]; by intros e c m ?%elem_of_nil|]. cbn [foldl].
  unfold index_entry at 2 4 6. set (ix1 := (ix.1, _)).
  destruct (index_contributors l0 e (pme_Contributors e) ix1) as (H1 & H2 & H3); [set_solver|done|done|].
  destruct (IH (foldl (index_contributor enrichment e) ix1 (pme_Contributors e))) as (IH1 & IH2 & IH3); [set_solver|done|].
  split; [exact IH1|]. split.
  - intros e' c m Hf. by apply IH2, H2.
  - intros e' c m [->|He]%elem_of_cons Hc Hm; [by apply IH2, H3|by apply IH3].
Qed.

Lemma buildIPIndex_spec snap :
  let byUser := (buildIPIndex enrichment snap).1 in
  index_sound (Entries snap) byUser ∧
  ∀ e c m, e ∈ Entries snap → c ∈ pme_Contributors e → enrichment !! ContributorAccess_AddressID c = Some m → filed byUser e c m.
Proof.
  destruct (index_entries (Entries snap) (Entries snap) (∅, ∅)) as (H1 & _ & H3); [done| |by split].
  intros u ips ip b Hu. cbn in Hu. by rewrite lookup_empty in Hu.
Qed.
End index_spec.

(** ** What the snapshot holds *)

Section audit.
Context `{GoUnicode}.
Context (s : Service) (es : list IPEntry) (ha : list UserHostAccess) (nps : list CacheEntry).
Context (Hcaches : caches s es ha nps).

(** A contributor of an entry is the row of an address, filed under it. *)
Lemma snapshot_contributor entry c :
  entry ∈ Entries (GetPolicyMap s) → c ∈ pme_Contributors entry →
  ∃ a ie e, ipSet s !! a = Some ie ∧ entry = toPolicyMapEntry a ie ∧ e ∈ entries_at es a ∧ c = contributor_of ha e ∧
    ParseAddr (pme_IP entry) = Some a ∧ Unmap a = a ∧ IsValid a = true.
Proof.
  intros ((a, ie) & -> & Hin%elem_of_map_to_list)%list_elem_of_fmap Hc. exists a, ie. rewrite (proj1 Hcaches) in Hin. pose proof Hin as Hb.
  apply buildIPSet_Some in Hb as (_ & acc & (Hac & _) & Hie). cbn in Hc. rewrite Hie in Hc. cbn in Hc. rewrite Hac in Hc.
  apply list_elem_of_fmap in Hc as (e & -> & He). exists e. rewrite (proj1 Hcaches). pose proof He as [Hk _]%list_elem_of_filter.
  unfold entry_key in Hk. apply fmap_Some in Hk as (b & Hb & ->). split_and!; [done..| |apply Unmap_idemp|]; [by apply (canonical_text (IPEntry_IP e))|].
  rewrite Unmap_valid. by apply ParseAddr_wf in Hb as [_ Hv].
Qed.

Lemma snapshot_entry a e : e ∈ entries_at es a →
  ∃ ie, ipSet s !! a = Some ie ∧ toPolicyMapEntry a ie ∈ Entries (GetPolicyMap s) ∧ contributor_of ha e ∈ entry_Contributors ie.
Proof.
  intros He. destruct (ipSet s !! a) as [ie|] eqn:E.
  - exists ie. split; [done|]. split; [apply list_elem_of_fmap; exists (a, ie); split; [done|by apply elem_of_map_to_list]|].
    rewrite (proj1 Hcaches) in E. apply buildIPSet_Some in E as (_ & acc & (Hac & _) & ->). cbn. rewrite Hac. by apply list_elem_of_fmap_2.
  - rewrite (proj1 Hcaches) in E. apply buildIPSet_None_iff in E. rewrite E in He. by apply elem_of_nil in He.
Qed.

(** The hosts of an address are within those of its restricted owners. *)
Lemma entry_hosts_within a ie e h : ipSet s !! a = Some ie → e ∈ entries_at es a →
  user_bypass ha (IPEntry_UserID e) = false → h ∈ entry_AllowedHosts ie → h ∈ user_hosts ha (IPEntry_UserID e).
Proof.
  rewrite (proj1 Hcaches). intros (_ & acc & (_ & _ & _ & Ha & _) & ->)%buildIPSet_Some He Hb Hh. cbn in Hh. apply Ha in Hh as [_ Hh]. by apply Hh.
Qed.

(** ** The view and the decision *)

Context (enrichment : gmap AddressID policyEnrichmentRow) (allUsers : list policyAuditUserRow) (allowed : gmap UserID (list string)).

Definition audited : list PolicyUserEntry := audit_Users (assemblePolicyUserMap (GetPolicyMap s) enrichment allUsers allowed).

(** The addresses of a user in the view are his buckets. *)
Lemma audited_ip u x : u ∈ audited → x ∈ ue_Ips u →
  ∃ ips b, (buildIPIndex enrichment (GetPolicyMap s)).1 !! ue_UserId u = Some ips ∧ ips !! uip_Ip x = Some b ∧
    uip_BypassAtIp x = entryBypass b ∧ uip_EffectiveHosts x = (effective_hosts b).1 ∧ uip_TrimmedHosts x = (effective_hosts b).2.
Proof.
  unfold audited, assemblePolicyUserMap. destruct (buildIPIndex _ _) as [byUser usersAtIP]. intros (ur & -> & _)%list_elem_of_fmap Hx. unfold user_entry in *. cbn [fst].
  destruct (byUser !! audit_UserID ur) as [ips|] eqn:E; cbn in Hx |- *; [|by apply elem_of_nil in Hx].
  unfold buildUserIPs in Hx. apply list_elem_of_fmap in Hx as ((ip, b) & -> & Hb). rewrite order_by_Permutation in Hb.
  apply elem_of_map_to_list in Hb. exists ips, b. by split_and!.
Qed.

Lemma audited_bucket ur ips ip b : ur ∈ allUsers → (buildIPIndex enrichment (GetPolicyMap s)).1 !! audit_UserID ur = Some ips → ips !! ip = Some b →
  ∃ u x, u ∈ audited ∧ ue_UserId u = audit_UserID ur ∧ x ∈ ue_Ips u ∧ uip_Ip x = ip ∧ uip_Addresses x ≡ₚ bucket_addresses b.
Proof.
  unfold audited, assemblePolicyUserMap. destruct (buildIPIndex _ _) as [byUser usersAtIP]. cbn. intros Hur Hips Hb.
  set (info := foldl _ _ _). exists (user_entry byUser usersAtIP info allowed ur), (user_ip byUser usersAtIP info (audit_UserID ur) (ip, b)).
  split; [by apply list_elem_of_fmap_2|]. unfold user_entry. rewrite Hips. cbn. split; [done|]. split; [|split; [done|apply order_by_Permutation]].
  unfold buildUserIPs. apply list_elem_of_fmap. exists (ip, b). split; [done|]. rewrite order_by_Permutation. by apply elem_of_map_to_list.
Qed.
End audit.

(** C34: what the audit view shows is what the decision service does.
    An address shown for a user parses to one a device of his is registered
    at; unless it is the trusted proxy's, every host is let through from it
    when the view calls it a bypass, and otherwise, for a user held to the
    allowlist, the hosts shown as effective are those a request is let
    through to, and the hosts shown as trimmed those of the user's own that
    are denied there.  No address of a listed user is left out: each whose
    row is found is shown, with the device that holds it. *)
Theorem audit_agrees_with_decision `{GoUnicode} s es ha nps enrichment allUsers allowed :
  caches s es ha nps →
  (∀ u x host, u ∈ audited s enrichment allUsers allowed → x ∈ ue_Ips u →
     ∃ a, ParseAddr (uip_Ip x) = Some a ∧ (∃ e, e ∈ entries_at es a ∧ IPEntry_UserID e = ue_UserId u) ∧
       (is_trusted_proxy s a = false →
          (uip_BypassAtIp x = true → Allowed (Decide s a host) = true) ∧
          (uip_BypassAtIp x = false → user_bypass ha (ue_UserId u) = false →
             (NormaliseHost host ∈ uip_EffectiveHosts x ↔ Allowed (Decide s a host) = true) ∧
             (NormaliseHost host ∈ uip_TrimmedHosts x ↔
                NormaliseHost host ∈ user_hosts ha (ue_UserId u) ∧ Allowed (Decide s a host) = false)))) ∧
  (∀ ur a e meta, ur ∈ allUsers → e ∈ entries_at es a → IPEntry_UserID e = audit_UserID ur →
     enrichment !! IPEntry_AddressID e = Some meta →
     ∃ u x, u ∈ audited s enrichment allUsers allowed ∧ ue_UserId u = audit_UserID ur ∧ x ∈ ue_Ips u ∧
       uip_Ip x = Addr_String a ∧ user_address (contributor_of ha e) meta ∈ uip_Addresses x).
Proof.
  intros Hc. destruct (buildIPIndex_spec enrichment (GetPolicyMap s)) as [Hsound Hfiled]. split.
  - intros u x host Hu Hx. destruct (audited_ip s enrichment allUsers allowed u x Hu Hx) as (ips & b & Hips & Hb & -> & -> & ->).
    destruct (Hsound _ _ _ _ Hips Hb) as (entry & c & Hentry & Hin & Hip & Hcu & Hnb & Hbh & Hbu & Huh).
    destruct (snapshot_contributor s es ha nps Hc entry c Hentry Hin) as (a & ie & e & Hie & -> & He & -> & Hpa & Hun & Hv).
    rewrite Hip in Hpa. exists a. split; [exact Hpa|]. split; [by exists e|]. intros Hp.
    rewrite (Decide_entry s a host ie) by (by rewrite ?Hun). cbn in Hnb, Hbh, Hcu, Hbu, Huh |- *. unfold entry_allows, effective_hosts. rewrite <-Hnb, <-Hcu, Hbu, Hbh, Huh.
    split; [by intros ->|]. intros -> Hub. rewrite Hub. cbn [orb fst snd]. rewrite bool_decide_eq_true, bool_decide_eq_false.
    rewrite elem_of_Intersect, elem_of_Diff, !elem_of_sortedKeys by apply sortedKeys_ascending. split; [|done].
    split; [by intros []|]. intros Hh. split; [|done]. by apply (entry_hosts_within s es ha nps Hc a ie).
  - intros ur a e meta Hur He Hu Hm. destruct (snapshot_entry s es ha nps Hc a e He) as (ie & Hie & Hentry & Hin).
    destruct (Hfiled _ _ _ Hentry Hin Hm) as (ips & b & Hips & Hb & Ha). cbn in Hips, Hb. rewrite Hu in Hips.
    destruct (audited_bucket s enrichment allUsers allowed ur ips _ b Hur Hips Hb) as (u & x & Hx1 & Hx2 & Hx3 & Hx4 & Hx5).
    exists u, x. split_and!; [done..|]. by rewrite Hx5.
Qed.

(** The hosts of a user are the same in all of his buckets, so it does not
    matter which one is read. *)
Lemma bucket_user_hosts `{GoUnicode} s es ha nps enrichment u ips ip b :
  caches s es ha nps → (buildIPIndex enrichment (GetPolicyMap s)).1 !! u = Some ips → ips !! ip = Some b →
  userAllowedHosts b = sortedKeys (user_hosts ha u) ∧ userBypass b = user_bypass ha u.
Proof.
  intros Hc Hips Hb. destruct (buildIPIndex_spec enrichment (GetPolicyMap s)) as [Hsound _].
  destruct (Hsound _ _ _ _ Hips Hb) as (entry & c & Hentry & Hin & _ & <- & _ & _ & -> & ->).
  by destruct (snapshot_contributor s es ha nps Hc entry c Hentry Hin) as (a & ie & e & _ & _ & _ & -> & _).
Qed.

Lemma some_bucket_hosts_of `{GoUnicode} s es ha nps enrichment u ips :
  caches s es ha nps → (buildIPIndex enrichment (GetPolicyMap s)).1 !! u = Some ips → ips ≠ ∅ →
  some_bucket_hosts ips = sortedKeys (user_hosts ha u).
Proof.
  intros Hc Hips Hne. unfold some_bucket_hosts. destruct (map_to_list ips) as [|(ip, b) l] eqn:E; [by apply map_to_list_empty_iff in E|].
  eapply (bucket_user_hosts s es ha nps); [done|exact Hips|]. apply (elem_of_map_to_list ips ip b). rewrite E. by left.
Qed.

(** ** A concrete view *)

Module ViewDemo.
Definition anna : policyAuditUserRow := mkAuditUserRow 10 "Anna" "anna" false false.
Definition bert : policyAuditUserRow := mkAuditUserRow 11 "Bert" "bert" false false.
Definition carl : policyAuditUserRow := mkAuditUserRow 12 "Carl" "carl" true true.
Definition enrichment : gmap AddressID policyEnrichmentRow :=
  {[1 := mkEnrichmentRow 1 100 "laptop"; 2 := mkEnrichmentRow 2 200 "phone"; 3 := mkEnrichmentRow 3 300 "tablet"; 4 := mkEnrichmentRow 4 400 "desk"]}.
Definition view : list PolicyUserEntry := audited Demo.service enrichment [anna; bert; carl] ∅.
Definition anna_entry : PolicyUserEntry := nth 0 view (mkUserEntry 0 "" false false NoAccess false 0 0 0 None [] []).
Definition anna_ip : PolicyUserIP := nth 0 (ue_Ips anna_entry) (mkUserIP "" [] false [] [] [] None).

(** A user who bypasses the allowlist next to one who does not. *)
Definition es_shared : list IPEntry := [Demo.phone; mkIPEntry "198.51.100.7" 4 4 12].
Definition service_shared : Service := mkService (sha256 Demo.secret) Demo.proxy (buildIPSet es_shared Demo.ha) [] None 0.
Definition carl_ip : PolicyUserIP := nth 0 (audited service_shared enrichment [carl] ∅ ≫= ue_Ips) (mkUserIP "" [] false [] [] [] None).

(** A host in two groups that are both granted to a user. *)
Definition tables : db :=
  on_user_groups (λ _, {[(10, 1); (10, 2)]}) (on_group_members (λ _, {[(1, 1); (2, 1)]}) (on_hosts (λ _, {[1 := mkHost 1 "wiki.example.org" 0 0]}) empty_db)).
End ViewDemo.

Example audit_agrees_with_decision_witness :
  uip_Ip ViewDemo.anna_ip = "198.51.100.7" ∧
  uip_EffectiveHosts ViewDemo.anna_ip = ["wiki.example.org"] ∧ uip_TrimmedHosts ViewDemo.anna_ip = ["git.example.org"] ∧
  Allowed (Decide Demo.service (Demo.ip "198.51.100.7") "Wiki.example.org:8443") = true ∧
  ∃ u, u ∈ ViewDemo.view ∧ ue_UserId u = 12.
Proof.
  assert (ViewDemo.anna_entry ∈ ViewDemo.view) as Hin by (apply list_elem_of_In; vm_compute; left; reflexivity).
  assert (ViewDemo.anna_ip ∈ ue_Ips ViewDemo.anna_entry) as Hx by (apply list_elem_of_In; vm_compute; left; reflexivity).
  destruct (audit_agrees_with_decision Demo.service Demo.es Demo.ha Demo.nps ViewDemo.enrichment [ViewDemo.anna; ViewDemo.bert; ViewDemo.carl] ∅ (conj eq_refl eq_refl))
    as [Hview Hall].
  split; [vm_compute; reflexivity|]. split; [vm_compute; reflexivity|]. split; [vm_compute; reflexivity|]. split.
  - destruct (Hview _ _ "Wiki.example.org:8443" Hin Hx) as (a & Ha & _ & Hd). vm_compute in Ha. injection Ha as <-.
    apply (proj1 (proj1 (proj2 (Hd ltac:(vm_compute; reflexivity)) ltac:(vm_compute; reflexivity) ltac:(vm_compute; reflexivity)))).
    apply list_elem_of_In. vm_compute. left. reflexivity.
  - destruct (Hall ViewDemo.carl (Demo.ip "203.0.113.9") Demo.tablet (mkEnrichmentRow 3 300 "tablet")) as (u & x & Hu & Hid & _);
      [apply list_elem_of_In; right; right; left; reflexivity|apply list_elem_of_In; vm_compute; left; reflexivity|reflexivity|vm_compute; reflexivity|].
    exists u. split; [exact Hu|exact Hid].
Defined.

(** A user with the bypass flag is shown no trimmed host at an address he
    shares, while the decision holds him to what the others may reach. *)
Example bypass_user_is_held_to_the_others :
  uip_BypassAtIp ViewDemo.carl_ip = false ∧ uip_TrimmedHosts ViewDemo.carl_ip = [] ∧ uip_EffectiveHosts ViewDemo.carl_ip = [] ∧
  Allowed (Decide ViewDemo.service_shared (Demo.ip "198.51.100.7") "wiki.example.org") = true ∧
  Allowed (Decide ViewDemo.service_shared (Demo.ip "198.51.100.7") "git.example.org") = false.
Proof. vm_compute. tauto. Qed.

(** A host granted through two groups is counted twice for a user the cache
    does not know. *)
Example host_of_two_groups_counted_twice :
  let allowed := GroupByMap (allowed_host_rows ViewDemo.tables) fst snd in
  ue_AllowedHostCount <$> audited (mkService "" AddrZero ∅ [] None 0) ∅ [ViewDemo.anna] allowed = [2].
Proof. vm_compute. reflexivity. Qed.
