(* ===== verification/AccessLog.v ===== *)
(** * AccessLog: the decision log ([internal/accesslog])

    The policy service hands its decision events to the [Sink], which queues
    them (capacity 500), buffers them (50) and stores them in batches, one
    transaction per batch.  A batch that cannot be stored is dropped. *)

From S2P Require Import Prelude GoLib Compare Schema Store PolicyCache PolicyService.

Local Open Scope string_scope.
Local Open Scope Z_scope.

(** ** The repository (repository.go) *)

Definition DenyReason_String (r : DenyReason) : string :=
  match r with
  | DenyReasonNoDeviceMatch => "no_device_match" | DenyReasonIPNotRegistered => "ip_not_registered"
  | DenyReasonInvalidToken => "invalid_token" | DenyReasonHostNotAllowed => "host_not_allowed"
  end.

(** The row of an event. *)
Definition log_row (e : DecisionEvent) : AccessLogRow :=
  mkAccessLogRow (ev_ClientIP e) (ev_Outcome e) (DenyReason_String <$> ev_DenyReason e)
    (Z.of_nat (length (ev_IPContributors e))) (ev_CreatedAt e) (ev_XFFChain e) (ev_TargetHost e) (ev_TargetURI e)
    (ev_HTTPMethod e) (ev_Headers e) (ev_DurationUs e).

Definition geo_row (r : GeoResult) : GeoRow :=
  mkGeoRow (CountryCode r) (CountryName r) (ContinentCode r) (ASN r) (ASNOrg r).

Definition insert_log (e : DecisionEvent) : M Z :=
  exec (λ _ d, let id := fresh_id (access_log (logs d)) in Ok (id, on_logs (on_access_log (<[id := log_row e]>)) d)).

Definition insert_policy_contributor (accessID : Z) (policyID : NetworkPolicyID) (name : option string) : M unit :=
  exec (λ _ d, match name with
               | None => Err (ErrSQL false)       (* policy_name is NOT NULL *)
               | Some name =>
                   if decide (is_Some (policies d !! policyID)) then
                     Ok (tt, on_logs (on_access_log_policies (<[accessID := mkPolicyContributorRow (Some policyID) name]>)) d)
                   else Err ErrForeignKey
               end).

Definition insert_contributor (accessID : Z) (c : IPContributor) : M unit :=
  exec (λ _ d, match devices d !! IPContributor_DeviceID c, addresses d !! IPContributor_AddressID c, users d !! IPContributor_UserID c with
               | Some _, Some _, Some _ =>
                   Ok (tt, on_logs (on_access_log_contributors (λ l, l ++ [mkContributorRow accessID
                     (IPContributor_DeviceID c) (IPContributor_AddressID c) (IPContributor_UserID c)])%list) d)
               | _, _, _ => Err ErrForeignKey
               end).

Definition insert_geoip (accessID : Z) (r : GeoResult) : M unit :=
  exec (λ _ d, Ok (tt, on_logs (on_access_log_geoip (<[accessID := geo_row r]>)) d)).

(** The rows that go with a log entry. *)
Definition insert_links (accessID : Z) (e : DecisionEvent) : M unit :=
  _ ← match ev_MatchSource e with
      | Some MatchSourceNetworkPolicy =>
          match ev_NetworkPolicyID e with
          | Some policyID => insert_policy_contributor accessID policyID (ev_NetworkPolicyName e)
          | None => mret tt
          end
      | Some MatchSourceDevice | None => for_each (ev_IPContributors e) (insert_contributor accessID)
      end;
  if IsEmpty (ev_GeoIP e) then mret tt else insert_geoip accessID (ev_GeoIP e).

(** The body of the loop. *)
Definition insert_event (e : DecisionEvent) : M unit := accessID ← insert_log e; insert_links accessID e.

(** Preparing the statement is a call to the driver too. *)
Definition BatchInsert (events : list DecisionEvent) : M unit :=
  if bool_decide (events = []) then mret tt
  else withinTx (_ ← query (λ _ _, tt); for_each events insert_event).

(** [DELETE FROM access_log WHERE created_at < ?], with its cascades. *)
Definition prune_logs (before : time) (l : log_tables) : log_tables :=
  let kept := filter (λ kv, before ≤ log_CreatedAt kv.2) (access_log l) in
  mkLogTables kept
    (filter (λ r, is_Some (kept !! contributor_AccessLogID r)) (access_log_contributors l))
    (filter (λ kv, is_Some (kept !! kv.1)) (access_log_policies l))
    (filter (λ kv, is_Some (kept !! kv.1)) (access_log_geoip l))
    (hourly_traffic l) (hourly_attribution l).

Definition DeleteOlderThan (before : time) : M Z :=
  exec (λ _ d, Ok (Z.of_nat (size (filter (λ kv, log_CreatedAt kv.2 < before) (access_log (logs d)))), on_logs (prune_logs before) d)).

(** [SELECT DISTINCT deny_reason ... ORDER BY deny_reason]. *)
Definition deny_reasons (d : db) : list string :=
  order_by id String.compare (remove_dups (omap log_DenyReason (rows (access_log (logs d))))).

Definition ListDenyReasons : M (list string) := query (λ _ d, deny_reasons d).

(** ** The sink (sink.go) *)

Record Sink := mkSink { sink_ch : list DecisionEvent; sink_buffer : list DecisionEvent }.

Definition NewSink : Sink := mkSink [] [].

Definition sink_capacity : nat := 500.
Definition batchSize : nat := 50.

(** [OnDecision]: the event is dropped when the queue is full. *)
Definition OnDecision (e : DecisionEvent) (s : Sink) : Sink := mkSink (try_send sink_capacity e (sink_ch s)) (sink_buffer s).

(** [flush]: the buffer is emptied whether or not the batch is stored. *)
Definition flush (s : Sink) : M Sink :=
  if bool_decide (sink_buffer s = []) then mret s
  else _ ← catch (BatchInsert (sink_buffer s)) (λ _, mret tt); mret (mkSink (sink_ch s) []).

(** The case [e := <-s.ch] of the loop. *)
Definition sink_append (e : DecisionEvent) (ch : list DecisionEvent) (s : Sink) : M Sink :=
  let s' := mkSink ch (sink_buffer s ++ [e]) in
  if Nat.leb batchSize (length (sink_buffer s')) then flush s' else mret s'.

Definition sink_receive (s : Sink) : M Sink :=
  match sink_ch s with [] => mret s | e :: ch => sink_append e ch s end.

(** The case [<-ctx.Done()]: drain the queue, then flush. *)
Fixpoint sink_drain (ch : list DecisionEvent) (s : Sink) : M Sink :=
  match ch with
  | [] => flush s
  | e :: ch => s' ← sink_append e ch s; sink_drain ch s'
  end.

Definition sink_stop (s : Sink) : M Sink := sink_drain (sink_ch s) s.

(** What happens to a running sink: an event arrives, or the loop takes one
    of its cases. *)
Inductive sink_action := SinkEvent (e : DecisionEvent) | SinkReceive | SinkTick.

Definition sink_step (a : sink_action) (s : Sink) : M Sink :=
  match a with
  | SinkEvent e => mret (OnDecision e s)
  | SinkReceive => sink_receive s
  | SinkTick => flush s
  end.

Fixpoint sink_run (l : list sink_action) (s : Sink) : M Sink :=
  match l with [] => mret s | a :: l => s' ← sink_step a s; sink_run l s' end.
