(* ===== verification/AccessLogSpec.v ===== *)
(** * AccessLogSpec: what reaches the decision log

    A batch is stored whole or not at all; every accepted event is stored at
    most once and in order; a sink that is stopped while the database works
    has stored everything it accepted. *)

From S2P Require Import Prelude GoLib Netip Compare Schema Store PolicyCache PolicyService AccessLog.

Local Open Scope list_scope.
Local Open Scope Z_scope.

(** The log, oldest id first. *)
Definition log_of (d : db) : list AccessLogRow := rows (access_log (logs d)).

Definition contributor_refs_ok (d : db) (c : IPContributor) : Prop :=
  is_Some (devices d !! IPContributor_DeviceID c) ∧ is_Some (addresses d !! IPContributor_AddressID c) ∧
  is_Some (users d !! IPContributor_UserID c).

(** The rows an event refers to exist. *)
Definition refs_ok (d : db) (e : DecisionEvent) : Prop :=
  match ev_MatchSource e with
  | Some MatchSourceNetworkPolicy =>
      ∀ p, ev_NetworkPolicyID e = Some p → is_Some (policies d !! p) ∧ is_Some (ev_NetworkPolicyName e)
  | Some MatchSourceDevice | None =>
      Forall (contributor_refs_ok d) (ev_IPContributors e)
  end.

(** Only the log tables differ. *)
Definition same_but_logs (d d' : db) : Prop := d' = on_logs (λ _, logs d') d.

Lemma same_but_logs_refl d : same_but_logs d d.
Proof. by destruct d. Qed.

Lemma same_but_logs_on f d : same_but_logs d (on_logs f d).
Proof. done. Qed.

Lemma same_but_logs_trans d1 d2 d3 : same_but_logs d1 d2 → same_but_logs d2 d3 → same_but_logs d1 d3.
Proof. unfold same_but_logs. intros E1 E2. rewrite E2, E1. done. Qed.

Lemma same_but_logs_refs d d' e : same_but_logs d d' → refs_ok d e → refs_ok d' e.
Proof. by intros ->. Qed.

(** ** One event *)

(** A computation that writes to the log tables only, and to the log itself
    appends [l] when it succeeds. *)
Definition appends {A} (m : M A) (l : list AccessLogRow) : Prop := ∀ tx w r w',
  m tx w = (r, w') → same_but_logs (w_db w) (w_db w') ∧
  match r with Ok _ => log_of (w_db w') = log_of (w_db w) ++ l | Err _ => True end.

Lemma appends_ret {A} (a : A) : appends (mret a) [].
Proof. intros tx w r w' [= <- <-]. split; [apply same_but_logs_refl|by rewrite app_nil_r]. Qed.

Lemma appends_bind {A B} (m : M A) (f : A → M B) l k : appends m l → (∀ a, appends (f a) k) → appends (m ≫= f) (l ++ k).
Proof.
  intros Hm Hf tx w r w' E. rewrite bind_run in E. destruct (m tx w) as [[a|e] w1] eqn:E1.
  - destruct (Hm _ _ _ _ E1) as [S1 L1]. destruct (Hf a _ _ _ _ E) as [S2 L2]. split; [by eapply same_but_logs_trans|].
    destruct r; [|done]. by rewrite L2, L1, app_assoc.
  - injection E as <- <-. by destruct (Hm _ _ _ _ E1).
Qed.

Lemma appends_exec {A} (f : time → db → result (A * db)) l :
  (∀ t d a d', f t d = Ok (a, d') → same_but_logs d d' ∧ log_of d' = log_of d ++ l) → appends (exec f) l.
Proof.
  intros Hf tx w r w' E. unfold exec in E. destruct (pop_fault w) as [[b|] w1] eqn:Ef; apply pop_fault_db in Ef as (Ed & _).
  - injection E as <- <-. rewrite Ed. split; [apply same_but_logs_refl|done].
  - destruct (f _ _) as [[a d']|e] eqn:E1; injection E as <- <-; [|rewrite Ed; split; [apply same_but_logs_refl|done]].
    rewrite Ed in E1. by destruct (Hf _ _ _ _ E1).
Qed.

Lemma appends_for_each {A} (body : A → M unit) (l : list A) : (∀ a, appends (body a) []) → appends (for_each l body) [].
Proof. intros Hb. induction l as [|a l IH]; [apply appends_ret|]. apply (appends_bind _ _ [] []); [apply Hb|done]. Qed.

Lemma appends_insert_policy_contributor id p n : appends (insert_policy_contributor id p n) [].
Proof.
  apply appends_exec. intros _ d a d' E. destruct n; [|done]. case_decide; [|done]. injection E as <- <-.
  split; [done|by rewrite app_nil_r].
Qed.

Lemma appends_insert_contributor id c : appends (insert_contributor id c) [].
Proof. apply appends_exec. intros _ d a d' E. cases. split; [done|by rewrite app_nil_r]. Qed.

Lemma appends_insert_event e : appends (insert_event e) [log_row e].
Proof.
  unfold insert_event, insert_links. apply (appends_bind _ _ [log_row e] []).
  { apply appends_exec. intros _ d a d' [= <- <-]. split; [done|]. apply rows_insert_fresh. }
  pose proof appends_insert_policy_contributor as Hp. pose proof appends_insert_contributor as Hc.
  intros id. apply (appends_bind _ _ [] []).
  - destruct (ev_MatchSource e) as [[]|]; [by apply appends_for_each|destruct (ev_NetworkPolicyID e); [apply Hp|apply appends_ret]|by apply appends_for_each].
  - intros _. destruct (IsEmpty _); [apply appends_ret|]. apply appends_exec. intros _ d a d' [= <- <-]. split; [done|by rewrite app_nil_r].
Qed.

Lemma appends_insert_events es : appends (for_each es insert_event) (log_row <$> es).
Proof. induction es as [|e es IH]; [apply appends_ret|]. apply (appends_bind _ _ [log_row e]); [apply appends_insert_event|done]. Qed.

(** ** A batch *)

(** Whole or not at all, whatever fails. *)
Lemma BatchInsert_atomic es w r w' :
  BatchInsert es false w = (r, w') → same_but_logs (w_db w) (w_db w') ∧
  match r with Ok _ => log_of (w_db w') = log_of (w_db w) ++ (log_row <$> es) | Err _ => w_db w' = w_db w end.
Proof.
  unfold BatchInsert. case_bool_decide as He.
  { subst. intros [= <- <-]. split; [apply same_but_logs_refl|by rewrite app_nil_r]. }
  intros E. assert (appends (_ ← query (λ _ _, tt); for_each es insert_event) (log_row <$> es)) as Ha.
  { apply (appends_bind _ _ []); [|intros _; apply appends_insert_events]. intros tx w1 r1 w1' E1. unfold query in E1.
    destruct (pop_fault w1) as [[b|] w2] eqn:Ef; apply pop_fault_db in Ef as (Ed & _); injection E1 as <- <-; rewrite Ed;
      (split; [apply same_but_logs_refl|]); [done|by rewrite app_nil_r]. }
  destruct r as [[]|e].
  - apply withinTx_Ok in E as (w0 & w1 & Ed0 & _ & _ & E & Ed1). destruct (Ha _ _ _ _ E) as [S L]. rewrite Ed1, <-Ed0. by split.
  - apply withinTx_rollback in E. rewrite E. split; [apply same_but_logs_refl|done].
Qed.

(** ** The sink *)

(** Batches that were taken from the sink, with whether they were stored. *)
Abbreviation batches := (list (list DecisionEvent * bool)) (only parsing).

Definition taken (bs : list (list DecisionEvent * bool)) : list DecisionEvent := concat bs.*1.
Definition stored (bs : list (list DecisionEvent * bool)) : list DecisionEvent := concat (filter (λ b, b.2 = true) bs).*1.

(** From [s] to [s'] with [new] accepted in between: events leave the sink in
    the order they came, in batches of at most 50, each stored whole or not
    at all. *)
Definition progress (s : Sink) (w : world) (new : list DecisionEvent) (s' : Sink) (w' : world) : Prop :=
  ∃ bs, taken bs ++ sink_buffer s' ++ sink_ch s' = sink_buffer s ++ sink_ch s ++ new ∧
    log_of (w_db w') = log_of (w_db w) ++ (log_row <$> stored bs) ∧
    Forall (λ b, (length b.1 ≤ batchSize)%nat) bs.

Lemma progress_refl s w : progress s w [] s w.
Proof. exists []. cbn. by rewrite !app_nil_r. Qed.

Lemma taken_app bs bs' : taken (bs ++ bs') = taken bs ++ taken bs'.
Proof. unfold taken. by rewrite fmap_app, concat_app. Qed.

Lemma stored_app bs bs' : stored (bs ++ bs') = stored bs ++ stored bs'.
Proof. unfold stored. by rewrite filter_app, fmap_app, concat_app. Qed.

Lemma stored_one es b : stored [(es, b)] = if b then es else [].
Proof. unfold stored. destruct b; [rewrite filter_cons_True by done|by rewrite filter_cons_False by done]. cbn. apply app_nil_r. Qed.

Lemma progress_trans s w new s1 w1 new' s2 w2 :
  progress s w new s1 w1 → progress s1 w1 new' s2 w2 → progress s w (new ++ new') s2 w2.
Proof.
  intros (bs & Eb & El & Hl) (bs' & Eb' & El' & Hl'). exists (bs ++ bs'). rewrite taken_app, stored_app. split; [|split].
  - rewrite <-app_assoc, Eb', !app_assoc. f_equal. by rewrite <-!app_assoc, Eb.
  - by rewrite El', El, fmap_app, app_assoc.
  - by apply Forall_app_2.
Qed.

Lemma flush_progress s w :
  (length (sink_buffer s) ≤ batchSize)%nat →
  ∃ w', flush s false w = (Ok (mkSink (sink_ch s) []), w') ∧ progress s w [] (mkSink (sink_ch s) []) w'.
Proof.
  intros Hl. unfold flush. case_bool_decide as Hb.
  { exists w. destruct s as [ch b]. cbn in *. subst. split; [done|apply progress_refl]. }
  rewrite bind_run, catch_run. destruct (BatchInsert _ _ _) as [r w'] eqn:E. apply BatchInsert_atomic in E as [_ E].
  exists w'. split; [by destruct r|]. exists [(sink_buffer s, if r then true else false)]. rewrite stored_one. unfold taken. cbn. rewrite !app_nil_r.
  split; [done|]. split; [|by apply Forall_singleton]. destruct r; rewrite E; cbn; by rewrite ?app_nil_r.
Qed.

Lemma sink_append_progress e ch s w :
  (length (sink_buffer s) < batchSize)%nat →
  ∃ s' w', sink_append e ch s false w = (Ok s', w') ∧ sink_ch s' = ch ∧ (length (sink_buffer s') < batchSize)%nat ∧
    progress (mkSink (e :: ch) (sink_buffer s)) w [] s' w'.
Proof.
  intros Hl. unfold sink_append. cbn [sink_buffer]. set (s1 := mkSink ch (sink_buffer s ++ [e])).
  assert (progress (mkSink (e :: ch) (sink_buffer s)) w [] s1 w) as Hp.
  { exists []. unfold s1, stored. cbn. by rewrite !app_nil_r, <-app_assoc. }
  assert (length (sink_buffer s1) = S (length (sink_buffer s))) as El by (cbn; rewrite length_app; cbn; lia).
  destruct (Nat.leb_spec batchSize (length (sink_buffer s ++ [e]))) as [Hfull|Hroom].
  - destruct (flush_progress s1 w) as (w' & E & Hf); [lia|]. rewrite E. exists (mkSink ch []), w'. repeat split; [cbn; unfold batchSize; lia|].
    by apply (progress_trans _ _ [] _ _ [] _ _ Hp Hf).
  - exists s1, w. repeat split; done.
Qed.

Lemma sink_receive_progress s w :
  (length (sink_buffer s) < batchSize)%nat →
  ∃ s' w', sink_receive s false w = (Ok s', w') ∧ (length (sink_ch s') ≤ length (sink_ch s))%nat ∧
    (length (sink_buffer s') < batchSize)%nat ∧ progress s w [] s' w'.
Proof.
  intros Hl. unfold sink_receive. destruct s as [[|e ch] b]; cbn [sink_ch sink_buffer] in *.
  - exists (mkSink [] b), w. repeat split; [done|done|apply progress_refl].
  - destruct (sink_append_progress e ch (mkSink (e :: ch) b) w Hl) as (s' & w' & E & Ec & Hb & Hp). exists s', w'. rewrite Ec. cbn.
    repeat split; [done|lia|done|done].
Qed.

Lemma sink_drain_progress ch s w :
  sink_ch s = ch → (length (sink_buffer s) < batchSize)%nat →
  ∃ w', sink_drain ch s false w = (Ok NewSink, w') ∧ progress s w [] NewSink w'.
Proof.
  revert s w. induction ch as [|e ch IH]; intros s w Hc Hl; cbn [sink_drain].
  - destruct (flush_progress s w) as (w' & E & Hp); [lia|]. rewrite Hc in *. by exists w'.
  - destruct (sink_append_progress e ch s w Hl) as (s1 & w1 & E & Hc1 & Hl1 & Hp1). rewrite bind_run, E.
    destruct (IH s1 w1 Hc1 Hl1) as (w' & E' & Hp'). exists w'. split; [done|].
    destruct s as [c b]. cbn in Hc. subst c. by apply (progress_trans _ _ [] _ _ [] _ _ Hp1 Hp').
Qed.

(** A running sink: events arrive, the loop takes a case, the sink is stopped,
    the rest of the program works on other tables. *)
Inductive sink_runs (s : Sink) (w : world) : list DecisionEvent → Sink → world → Prop :=
  | sink_starts : sink_runs s w [] s w
  | sink_event e acc s1 w1 :
      sink_runs s w acc s1 w1 →
      sink_runs s w (acc ++ if Nat.ltb (length (sink_ch s1)) sink_capacity then [e] else []) (OnDecision e s1) w1
  | sink_loop a acc s1 w1 s2 w2 :
      sink_runs s w acc s1 w1 → a ∈ [SinkReceive; SinkTick] → sink_step a s1 false w1 = (Ok s2, w2) → sink_runs s w acc s2 w2
  | sink_stops acc s1 w1 s2 w2 :
      sink_runs s w acc s1 w1 → sink_stop s1 false w1 = (Ok s2, w2) → sink_runs s w acc s2 w2
  | sink_others acc s1 w1 w2 :
      sink_runs s w acc s1 w1 → access_log (logs (w_db w2)) = access_log (logs (w_db w1)) → sink_runs s w acc s1 w2.

(** Whatever fails, the log receives accepted events only, each at
    most once and in the order they came: what has left the sink is a
    sequence of batches of at most 50, and the log has grown by exactly those
    of them that were stored whole.  The queue holds at most 500 events and
    the buffer fewer than 50. *)
Theorem sink_stores_in_order s w acc s' w' :
  sink_runs s w acc s' w' → (length (sink_ch s) ≤ sink_capacity)%nat → (length (sink_buffer s) < batchSize)%nat →
  progress s w acc s' w' ∧ (length (sink_ch s') ≤ sink_capacity)%nat ∧ (length (sink_buffer s') < batchSize)%nat.
Proof.
  intros Hr Hc0 Hb0. induction Hr as [|e acc s1 w1 Hr (Hp & Hc & Hb)|a acc s1 w1 s2 w2 Hr (Hp & Hc & Hb) Ha E|acc s1 w1 s2 w2 Hr (Hp & Hc & Hb) E|acc s1 w1 w2 Hr (Hp & Hc & Hb) E].
  - split; [apply progress_refl|done].
  - unfold OnDecision, try_send. cbn [sink_ch sink_buffer].
    assert (progress s1 w1 (if Nat.ltb (length (sink_ch s1)) sink_capacity then [e] else [])
      (mkSink (if Nat.ltb (length (sink_ch s1)) sink_capacity then sink_ch s1 ++ [e] else sink_ch s1) (sink_buffer s1)) w1) as Hn.
    { destruct (Nat.ltb (length (sink_ch s1)) sink_capacity); exists []; cbn; by rewrite ?app_nil_r. }
    split; [by eapply progress_trans|]. split; [|done]. destruct (Nat.ltb_spec (length (sink_ch s1)) sink_capacity); [|done].
    rewrite length_app. cbn. lia.
  - assert (∃ s3 w3, sink_step a s1 false w1 = (Ok s3, w3) ∧ (length (sink_ch s3) ≤ length (sink_ch s1))%nat ∧
      (length (sink_buffer s3) < batchSize)%nat ∧ progress s1 w1 [] s3 w3) as (s3 & w3 & E3 & Hc3 & Hb3 & Hp3).
    { rewrite !elem_of_cons in Ha. destruct Ha as [->|[->|[]%elem_of_nil]]; cbn [sink_step]; [by apply sink_receive_progress|].
      destruct (flush_progress s1 w1) as (w3 & E3 & Hp3); [lia|]. eexists _, w3. split; [exact E3|]. cbn. unfold batchSize. by repeat split; [lia|lia|]. }
    rewrite E3 in E. injection E as -> ->. split; [|split; [lia|done]]. rewrite <-(app_nil_r acc). by eapply progress_trans.
  - destruct (sink_drain_progress (sink_ch s1) s1 w1 eq_refl Hb) as (w3 & E3 & Hp3). unfold sink_stop in E. rewrite E3 in E.
    injection E as <- <-. split; [|cbn; unfold sink_capacity, batchSize; lia]. rewrite <-(app_nil_r acc). by eapply progress_trans.
  - split; [|done]. destruct Hp as (bs & Eb & El & Hl). exists bs. split; [done|]. split; [|done]. rewrite <-El. unfold log_of. by rewrite E.
Qed.

(** ** A database that works *)

Section runs_ok.
Context (P : db → Prop) (HP : ∀ d d', same_but_logs d d' → P d → P d').

Definition runs_ok {A} (m : M A) : Prop := ∀ tx w, no_faults w → P (w_db w) →
  ∃ a w', m tx w = (Ok a, w') ∧ no_faults w' ∧ same_but_logs (w_db w) (w_db w').

Lemma runs_ok_ret {A} (a : A) : runs_ok (mret a).
Proof. intros tx w Hf _. exists a, w. split; [done|]. split; [done|apply same_but_logs_refl]. Qed.

Lemma runs_ok_bind {A B} (m : M A) (f : A → M B) : runs_ok m → (∀ a, runs_ok (f a)) → runs_ok (m ≫= f).
Proof.
  intros Hm Hf tx w Hn Hw. destruct (Hm tx w Hn Hw) as (a & w1 & E1 & Hn1 & S1).
  destruct (Hf a tx w1 Hn1 (HP _ _ S1 Hw)) as (b & w2 & E2 & Hn2 & S2). exists b, w2. rewrite bind_run, E1.
  split; [done|]. split; [done|by eapply same_but_logs_trans].
Qed.

Lemma runs_ok_exec {A} (f : time → db → result (A * db)) :
  (∀ t d, P d → ∃ a d', f t d = Ok (a, d') ∧ same_but_logs d d') → runs_ok (exec f).
Proof.
  intros Hf tx w Hn Hw. rewrite exec_run by done. destruct (Hf (w_now w) (w_db w) Hw) as (a & d' & -> & S).
  exists a, (set_db d' w). by repeat split.
Qed.

Lemma runs_ok_for_each {A} (l : list A) body : (∀ a, a ∈ l → runs_ok (body a)) → runs_ok (for_each l body).
Proof.
  induction l as [|a l IH]; intros Hb; [apply runs_ok_ret|]. apply runs_ok_bind; [apply Hb; by left|].
  intros _. apply IH. intros b Hbl. apply Hb. by right.
Qed.

Lemma runs_ok_withinTx {A} (fn : M A) : runs_ok fn → runs_ok (withinTx fn).
Proof.
  intros Hm [] w Hn Hw; [by apply Hm|]. destruct (Hm true w Hn Hw) as (a & w1 & E1 & Hn1 & S1).
  rewrite withinTx_run; [|done|by rewrite E1]. rewrite E1. by exists a, w1.
Qed.
End runs_ok.

Lemma insert_event_runs e : runs_ok (λ d, refs_ok d e) (insert_event e).
Proof.
  pose proof (λ d d', same_but_logs_refs d d' e) as HP. unfold insert_event, insert_links. apply runs_ok_bind; [done| |].
  { apply runs_ok_exec. intros _ d _. eexists _, _. by split. }
  intros id. apply runs_ok_bind; [done| |intros _; destruct (IsEmpty _); [apply runs_ok_ret|apply runs_ok_exec; intros _ d _; eexists _, _; by split]].
  assert (ev_MatchSource e ≠ Some MatchSourceNetworkPolicy →
    runs_ok (λ d, refs_ok d e) (for_each (ev_IPContributors e) (insert_contributor id))) as Hc.
  { intros Hm. apply runs_ok_for_each; [done|]. intros c Hcl. apply runs_ok_exec. intros _ d Hr. unfold refs_ok in Hr.
    assert (Forall (contributor_refs_ok d) (ev_IPContributors e)) as Hr' by (by destruct (ev_MatchSource e) as [[]|]).
    rewrite Forall_forall in Hr'. destruct (Hr' c Hcl) as ([? ->] & [? ->] & [? ->]). eexists _, _. by split. }
  destruct (ev_MatchSource e) as [[]|] eqn:Em; [by apply Hc| |by apply Hc].
  destruct (ev_NetworkPolicyID e) as [p|] eqn:Ep; [|apply runs_ok_ret]. apply runs_ok_exec. intros _ d Hr. unfold refs_ok in Hr.
  rewrite Em in Hr. destruct (Hr p Ep) as [Hs [name ->]]. rewrite decide_True by done. eexists _, _. by split.
Qed.

(** All the events queued in a sink refer to existing rows. *)
Definition all_refs_ok (es : list DecisionEvent) (d : db) : Prop := Forall (refs_ok d) es.

Lemma all_refs_stable es d d' : same_but_logs d d' → all_refs_ok es d → all_refs_ok es d'.
Proof. intros S H. eapply Forall_impl; [exact H|]. intros e. by apply same_but_logs_refs. Qed.

Lemma BatchInsert_runs es : runs_ok (all_refs_ok es) (BatchInsert es).
Proof.
  unfold BatchInsert. case_bool_decide; [apply runs_ok_ret|]. apply runs_ok_withinTx, runs_ok_bind; [apply all_refs_stable| |].
  { intros tx w Hn _. rewrite query_run by done. exists tt, w. split; [done|]. split; [done|apply same_but_logs_refl]. }
  intros _. apply runs_ok_for_each; [apply all_refs_stable|]. intros e He tx w Hn Hw. apply insert_event_runs; [done|].
  unfold all_refs_ok in Hw. rewrite Forall_forall in Hw. by apply Hw.
Qed.

Lemma flush_runs s w :
  no_faults w → all_refs_ok (sink_buffer s) (w_db w) →
  ∃ w', flush s false w = (Ok (mkSink (sink_ch s) []), w') ∧ no_faults w' ∧ same_but_logs (w_db w) (w_db w') ∧
    log_of (w_db w') = log_of (w_db w) ++ (log_row <$> sink_buffer s).
Proof.
  intros Hn Hr. unfold flush. case_bool_decide as Hb.
  { exists w. destruct s as [ch b]. cbn in *. subst. split; [done|]. split; [done|]. split; [apply same_but_logs_refl|by rewrite app_nil_r]. }
  destruct (BatchInsert_runs (sink_buffer s) false w Hn Hr) as ([] & w' & E & Hn' & S). rewrite bind_run, catch_run, E.
  exists w'. split; [done|]. split; [done|]. split; [done|]. by apply BatchInsert_atomic in E as [_ E].
Qed.

Lemma sink_drain_runs ch s w :
  sink_ch s = ch → no_faults w → all_refs_ok (sink_buffer s ++ ch) (w_db w) →
  ∃ w', sink_drain ch s false w = (Ok NewSink, w') ∧ no_faults w' ∧ same_but_logs (w_db w) (w_db w') ∧
    log_of (w_db w') = log_of (w_db w) ++ (log_row <$> sink_buffer s ++ ch).
Proof.
  revert s w. induction ch as [|e ch IH]; intros s w Hc Hn Hr; cbn [sink_drain].
  { rewrite app_nil_r in *. destruct (flush_runs s w Hn Hr) as (w' & E & H). rewrite Hc in E. by exists w'. }
  rewrite bind_run. unfold sink_append. cbn [sink_buffer]. set (s1 := mkSink ch (sink_buffer s ++ [e])).
  assert (sink_buffer s ++ e :: ch = sink_buffer s1 ++ ch) as El by (cbn; by rewrite <-app_assoc). rewrite El in *.
  destruct (Nat.leb _ _).
  - apply Forall_app in Hr as [Hr1 Hr2]. destruct (flush_runs s1 w Hn Hr1) as (w1 & E1 & Hn1 & S1 & L1). rewrite E1.
    destruct (IH (mkSink ch []) w1 eq_refl Hn1 (all_refs_stable _ _ _ S1 Hr2)) as (w' & E' & Hn' & S' & L').
    exists w'. split; [done|]. split; [done|]. split; [by eapply same_but_logs_trans|]. rewrite L', L1, <-app_assoc, <-fmap_app. done.
  - apply (IH s1 w eq_refl Hn Hr).
Qed.

(** A sink that is stopped while the database works ends empty, with
    everything that was buffered or queued stored, in order. *)
Theorem sink_stop_drains s w :
  no_faults w → all_refs_ok (sink_buffer s ++ sink_ch s) (w_db w) →
  ∃ w', sink_stop s false w = (Ok NewSink, w') ∧ no_faults w' ∧ same_but_logs (w_db w) (w_db w') ∧
    log_of (w_db w') = log_of (w_db w) ++ (log_row <$> sink_buffer s ++ sink_ch s).
Proof. intros Hn Hr. by apply sink_drain_runs. Qed.

(** ** A reference that does not hold *)

Lemma for_each_Ok {A} (l : list A) (body : A → M unit) tx w w' (Q : db → A → Prop) :
  (∀ a, ∃ k, appends (body a) k) → (∀ a tx w w', body a tx w = (Ok tt, w') → Q (w_db w) a) →
  (∀ a d d', same_but_logs d d' → Q d' a → Q d a) →
  for_each l body tx w = (Ok tt, w') → Forall (Q (w_db w)) l.
Proof.
  intros Ha Hq HQ. revert w. induction l as [|a l IH]; intros w E; [by apply Forall_nil_2|]. cbn in E.
  apply bind_Ok in E as ([] & w1 & E1 & E). apply Forall_cons_2; [by eapply Hq|].
  destruct (Ha a) as [k Hk]. destruct (Hk _ _ _ _ E1) as [S _]. eapply Forall_impl; [by eapply IH|]. intros b. by apply HQ.
Qed.

Lemma same_but_logs_sym d d' : same_but_logs d d' → same_but_logs d' d.
Proof. intros ->. by destruct d. Qed.

Lemma insert_event_refs e tx w w' : insert_event e tx w = (Ok tt, w') → refs_ok (w_db w) e.
Proof.
  unfold insert_event, insert_links. intros E. apply bind_Ok in E as (id & w1 & E1 & E). apply bind_Ok in E as ([] & w2 & E2 & _).
  apply (exec_Ok _ tx) in E1 as (d1 & E1 & Ed & _). injection E1 as _ <-. apply (same_but_logs_refs (w_db w1)); [rewrite Ed; apply same_but_logs_sym, same_but_logs_on|].
  clear Ed. unfold refs_ok. assert (for_each (ev_IPContributors e) (insert_contributor id) tx w1 = (Ok tt, w2) →
    Forall (contributor_refs_ok (w_db w1)) (ev_IPContributors e)) as Hc.
  { intros H. refine (for_each_Ok _ _ _ _ _ contributor_refs_ok _ _ _ H).
    - intros c. exists []. apply appends_insert_contributor.
    - intros c tx' w3 w3' E. apply (exec_Ok _ tx') in E as (d' & E & _). clear E2. unfold contributor_refs_ok. by cases.
    - by intros c d d' ->. }
  destruct (ev_MatchSource e) as [[]|]; [by apply Hc| |by apply Hc].
  intros p Hp. rewrite Hp in E2. apply (exec_Ok _ tx) in E2 as (d' & E & _). destruct (ev_NetworkPolicyName e); [|done]. by case_decide.
Qed.

(** One event whose policy has been deleted since the decision, or
    that refers to any row that is not there, loses its whole batch: nothing
    of it is stored, and the buffer is emptied all the same. *)
Theorem bad_reference_loses_batch s w e :
  e ∈ sink_buffer s → ¬ refs_ok (w_db w) e →
  ∃ w', flush s false w = (Ok (mkSink (sink_ch s) []), w') ∧ w_db w' = w_db w.
Proof.
  intros He Hbad. unfold flush. rewrite bool_decide_eq_false_2 by (by intros E; rewrite E in He; apply elem_of_nil in He).
  rewrite bind_run, catch_run. destruct (BatchInsert _ _ _) as [[[]|err] w'] eqn:E; [|exists w'; by apply BatchInsert_atomic in E as [_ E]].
  exfalso. apply Hbad. unfold BatchInsert in E.
  rewrite bool_decide_eq_false_2 in E by (by intros E'; rewrite E' in He; apply elem_of_nil in He).
  apply withinTx_Ok in E as (w0 & w1 & Ed & _ & _ & E & _). apply bind_Ok in E as ([] & w2 & E1 & E).
  assert (w_db w2 = w_db w) as Ed2.
  { unfold query in E1. destruct (pop_fault w0) as [[b|] w3] eqn:Ef; [done|]. injection E1 as <-. apply pop_fault_db in Ef as (-> & _). done. }
  rewrite <-Ed2. assert (Forall (refs_ok (w_db w2)) (sink_buffer s)) as Hall.
  { refine (for_each_Ok _ _ _ _ _ refs_ok _ insert_event_refs _ E).
    - intros a. eexists. apply appends_insert_event.
    - intros a d d' S. apply same_but_logs_refs. by apply same_but_logs_sym. }
  rewrite Forall_forall in Hall. by apply Hall.
Qed.

Module AccessLogDemo.
Local Open Scope string_scope.

Definition anna : User := mkUser 10 "anna" "Anna" None None UserRole false None 0 None.
Definition laptop : Device := mkDevice 1 "laptop" None None 0 0 None None None 10.
Definition home : Address := mkAddress 1 1 "10.0.0.7" true EventSourceHeartbeat 0 0.
Definition office : NetworkPolicy := mkNetworkPolicy 1 "office" "10.1.0.0/16" None true true 0 0.

Definition tables : db := on_policies (<[1 := office]>) (on_addresses (<[1 := home]>) (on_devices (<[1 := laptop]>) (on_users (<[10 := anna]>) empty_db))).

Definition allowed : DecisionEvent :=
  mkDecisionEvent "10.0.0.7" true None [mkIPContributor 1 1 10] (Some MatchSourceDevice) None None (5 * Second) 120
    (Some "wiki.home") None None None ∅ emptyGeo.
Definition by_policy : DecisionEvent :=
  mkDecisionEvent "10.1.2.3" true None [] (Some MatchSourceNetworkPolicy) (Some 1) (Some "office") (6 * Second) 90
    (Some "wiki.home") None None None ∅ emptyGeo.

Definition w0 : world := world_of tables (10 * Second) [].

(** Two events, a tick, a stop. *)
Example sink_stores_in_order_witness :
  ∃ w', sink_stop (mkSink [allowed; by_policy] []) false w0 = (Ok NewSink, w') ∧ progress NewSink w0 [allowed; by_policy] NewSink w'.
Proof.
  destruct (sink_stop (mkSink [allowed; by_policy] []) false w0) as [r w'] eqn:E.
  assert (r = Ok NewSink) as -> by (apply (f_equal fst) in E; vm_compute in E; exact (eq_sym E)).
  exists w'. split; [reflexivity|].
  refine (proj1 (sink_stores_in_order NewSink w0 [allowed; by_policy] NewSink w' _ _ _)); [|vm_compute; lia|vm_compute; lia].
  apply (sink_stops _ _ _ (mkSink [allowed; by_policy] []) w0); [|exact E].
  apply (sink_event NewSink w0 by_policy [allowed] (mkSink [allowed] []) w0).
  apply (sink_event NewSink w0 allowed [] NewSink w0). apply sink_starts.
Defined.

Lemma demo_refs : all_refs_ok ([] ++ [allowed; by_policy]) tables.
Proof.
  apply Forall_cons_2; [|apply Forall_cons_2; [|by apply Forall_nil_2]].
  - apply Forall_singleton. unfold contributor_refs_ok. cbn. by repeat split; eexists.
  - intros p [= <-]. split; by eexists.
Qed.

Example sink_stop_drains_witness :
  no_faults w0 ∧ ∃ w', sink_stop (mkSink [allowed; by_policy] []) false w0 = (Ok NewSink, w') ∧
    log_of (w_db w') = [log_row allowed; log_row by_policy].
Proof.
  split; [reflexivity|]. destruct (sink_stop_drains (mkSink [allowed; by_policy] []) w0 eq_refl demo_refs) as (w' & E & _ & _ & L).
  exists w'. split; [exact E|]. rewrite L. vm_compute. reflexivity.
Defined.

(** The policy is deleted before the flush. *)
Definition w1 : world := set_db (on_policies (delete 1) tables) w0.

Example bad_reference_loses_batch_witness :
  ∃ w', flush (mkSink [] [allowed; by_policy]) false w1 = (Ok NewSink, w') ∧ log_of (w_db w') = [].
Proof.
  destruct (bad_reference_loses_batch (mkSink [] [allowed; by_policy]) w1 by_policy) as (w' & E & Ed).
  - cbn. right. by left.
  - intros Hr. destruct (proj1 (Hr 1 eq_refl)) as [x Hx]. vm_compute in Hx. discriminate Hx.
  - exists w'. split; [exact E|]. rewrite Ed. vm_compute. reflexivity.
Defined.
End AccessLogDemo.
