(* ===== verification/DecisionLog.v ===== *)
(** * DecisionLog: what the access log says of the answers

    The forward-auth handler answers, the decision events it emits go through
    the sink, and the sink writes the log.  The log never says anything that
    was not answered, and as long as the queue has room and no flush fails
    every request that was judged is in the log or on its way to it. *)

From S2P Require Import Prelude GoLib Netip Compare Schema Store PolicyCache Crypto PolicyService PolicySpec PolicyVerify AccessLog AccessLogSpec.

Local Open Scope string_scope.
Local Open Scope list_scope.
Local Open Scope Z_scope.

(** A forward-auth request as the handler sees it: its headers, the client
    address of its context, when it came and how long it took. *)
Record AuthRequest := mkAuthRequest { rq_headers : headers; rq_clientIP : option string; rq_at : time; rq_us : Z }.

Section decision_log.
Context `{GoUnicode} (geo : option (string → GeoResult)).

Definition answer (s : Service) (rq : AuthRequest) : Z * list DecisionEvent :=
  HandleForwardAuthIP s geo (rq_at rq) (rq_us rq) (rq_headers rq) (rq_clientIP rq).

(** The sink is the handler's only observer. *)
Definition observe (evs : list DecisionEvent) (k : Sink) : Sink := foldl (λ k e, OnDecision e k) k evs.

(** The program serving: requests are answered, with whatever the policy
    service's caches hold then, the sink's loop takes its cases, the sink is
    stopped, the rest works on other tables.  The list is that of the
    requests with their answers. *)
Inductive serves (k : Sink) (w : world) : list (AuthRequest * Z) → Sink → world → Prop :=
  | serves_start : serves k w [] k w
  | serves_request s rq acc k1 w1 :
      serves k w acc k1 w1 → serves k w (acc ++ [(rq, (answer s rq).1)]) (observe (answer s rq).2 k1) w1
  | serves_loop a acc k1 w1 k2 w2 :
      serves k w acc k1 w1 → a ∈ [SinkReceive; SinkTick] → sink_step a k1 false w1 = (Ok k2, w2) → serves k w acc k2 w2
  | serves_stop acc k1 w1 k2 w2 :
      serves k w acc k1 w1 → sink_stop k1 false w1 = (Ok k2, w2) → serves k w acc k2 w2
  | serves_others acc k1 w1 w2 :
      serves k w acc k1 w1 → access_log (logs (w_db w2)) = access_log (logs (w_db w1)) → serves k w acc k1 w2.

(** The log's row tells the request and its answer. *)
Definition tells (a : AuthRequest * Z) (r : AccessLogRow) : Prop :=
  let h := rq_headers a.1 in
  ∃ ip addr, rq_clientIP a.1 = Some ip ∧ ParseAddr ip = Some addr ∧ log_ClientIP r = Addr_String (Unmap addr) ∧
    log_Outcome r = bool_decide (a.2 = StatusOK) ∧ (log_DenyReason r = None ↔ a.2 = StatusOK) ∧
    log_TargetHost r = nilIfEmpty (header_get h "X-Forwarded-Host") ∧ log_TargetURI r = nilIfEmpty (header_get h "X-Forwarded-Uri") ∧
    log_HTTPMethod r = nilIfEmpty (header_get h "X-Forwarded-Method") ∧ log_XFFChain r = nilIfEmpty (header_get h "X-Forwarded-For") ∧
    log_CreatedAt r = rq_at a.1 ∧ log_DurationUs r = rq_us a.1.

(** The requests that get as far as a verification. *)
Definition judged (rq : AuthRequest) : bool :=
  negb (bool_decide (header_get (rq_headers rq) "Early-Data" = "1")) &&
  match cut_prefix "Bearer " (header_get (rq_headers rq) "Authorization") with Some (String _ _) => true | _ => false end &&
  match rq_clientIP rq ≫= ParseAddr with Some _ => true | None => false end.

Lemma VerifyAccess_row s now us req :
  ∃ ev, (VerifyAccess s geo now us req).2 = [ev] ∧ ev_TargetHost ev = TargetHost req ∧ ev_TargetURI ev = TargetURI req ∧
    ev_HTTPMethod ev = HTTPMethod req ∧ ev_XFFChain ev = XFFChain req ∧ ev_CreatedAt ev = now ∧ ev_DurationUs ev = us.
Proof. unfold VerifyAccess. destruct (negb (bool_decide _)); [by eexists|]. destruct (negb (Allowed _)); [case_bool_decide|]; by eexists. Qed.

(** A judged request gives one event, any other none. *)
Lemma answer_events s rq :
  if judged rq then ∃ ev, (answer s rq).2 = [ev] ∧ tells (rq, (answer s rq).1) (log_row ev) else (answer s rq).2 = [].
Proof.
  unfold judged, answer, HandleForwardAuthIP. case_bool_decide; [done|]. cbn [negb andb].
  destruct (cut_prefix _ _) as [[|c t]|]; [done| |done]. cbn [andb]. destruct (rq_clientIP rq) as [ip|] eqn:Ei; [|done]. cbn [mbind option_bind].
  destruct (ParseAddr ip) as [addr|] eqn:Ea; [|done]. set (req := NewVerifyRequest _ _ _).
  destruct (VerifyAccess_event s geo (rq_at rq) (rq_us rq) req) as (ev & E & Ho & Hr & Hc & _).
  destruct (VerifyAccess_row s (rq_at rq) (rq_us rq) req) as (ev' & E' & H1 & H2 & H3 & H4 & H5 & H6).
  rewrite E in E'. injection E' as <-. destruct (VerifyAccess s geo _ _ req) as [r evs]. cbn [fst snd] in *. subst evs.
  exists ev. assert ((if r then StatusOK else StatusForbidden) = StatusOK ↔ outcome_of r = true) as Hs by (by destruct r).
  destruct r as [[]|e]; cbn [fst snd]; (split; [done|]); exists ip, addr; cbn [fst snd log_row log_ClientIP log_Outcome log_DenyReason
    log_TargetHost log_TargetURI log_HTTPMethod log_XFFChain log_CreatedAt log_DurationUs];
    rewrite Ho, Hr, Hc, H1, H2, H3, H4, H5, H6; repeat split; try done; cbn; by destruct e.
Qed.

(** ** What is logged was answered *)

Lemma Forall2_sublist_r {A B} (R : A → B → Prop) la lb lb' :
  Forall2 R la lb → lb' `sublist_of` lb → ∃ la', la' `sublist_of` la ∧ Forall2 R la' lb'.
Proof.
  intros HR Hs. revert la HR. induction Hs as [|b k1 k2 Hs IH|b k1 k2 Hs IH]; intros la HR; [apply Forall2_nil_inv_r in HR as ->; by exists []|..];
    apply Forall2_cons_inv_r in HR as (a & l & Ha & HR & ->); destruct (IH _ HR) as (la' & Hla & HR').
  - exists (a :: la'). split; by constructor.
  - exists la'. split; [by constructor|done].
Qed.

Lemma sublist_stored (bs : list (list DecisionEvent * bool)) : stored bs `sublist_of` taken bs.
Proof.
  unfold stored, taken. induction bs as [|[es b] bs IH]; [done|]. destruct b.
  - rewrite filter_cons_True by done. by apply sublist_app.
  - rewrite filter_cons_False by done. cbn. by apply sublist_inserts_l.
Qed.

(** The runs of the program are runs of the sink, on the events of the
    requests that were not dropped. *)
Lemma serves_runs k w acc k' w' :
  serves k w acc k' w' →
  ∃ evs answered, sink_runs k w evs k' w' ∧ answered `sublist_of` acc ∧ Forall2 (λ a e, tells a (log_row e)) answered evs.
Proof.
  induction 1 as [|s rq acc k1 w1 Hs (evs & ans & Hr & Hsub & Ht)|a acc k1 w1 k2 w2 Hs (evs & ans & Hr & Hsub & Ht) Ha E|
    acc k1 w1 k2 w2 Hs (evs & ans & Hr & Hsub & Ht) E|acc k1 w1 w2 Hs (evs & ans & Hr & Hsub & Ht) E].
  - exists [], []. split; [constructor|]. by split.
  - pose proof (answer_events s rq) as He. destruct (judged rq).
    + destruct He as (ev & -> & Htell). cbn [observe foldl]. eexists _, (ans ++ if Nat.ltb (length (sink_ch k1)) sink_capacity then [(rq, (answer s rq).1)] else []).
      split; [by apply (sink_event _ _ ev)|]. destruct (Nat.ltb _ _).
      * split; [by apply sublist_app|]. apply Forall2_app; [done|by constructor].
      * rewrite !app_nil_r. split; [by apply sublist_inserts_r|done].
    + rewrite He. exists evs, ans. split; [done|]. split; [by apply sublist_inserts_r|done].
  - exists evs, ans. split; [by eapply sink_loop|done].
  - exists evs, ans. split; [by eapply sink_stops|done].
  - exists evs, ans. split; [by eapply sink_others|done].
Qed.

(** C16: whatever requests come, whatever the caches hold when
    they are answered and whatever fails, the log has grown by rows that tell
    of answers that were given: one row at most for a request, in the order
    of the requests, with the client address, the target and the time of the
    request, recorded as allowed exactly when the answer was 200. *)
Theorem log_never_lies w acc k' w' :
  serves NewSink w acc k' w' →
  ∃ answered new, log_of (w_db w') = log_of (w_db w) ++ new ∧ answered `sublist_of` acc ∧ Forall2 tells answered new.
Proof.
  intros (evs & ans & Hr & Hsub & Ht)%serves_runs.
  destruct (sink_stores_in_order _ _ _ _ _ Hr) as ((bs & Et & El & _) & _); [cbn; unfold sink_capacity; lia|cbn; unfold batchSize; lia|].
  cbn [NewSink sink_buffer sink_ch app] in Et. assert (stored bs `sublist_of` evs) as Hst.
  { rewrite <-Et. apply sublist_inserts_r, sublist_stored. }
  destruct (Forall2_sublist_r _ _ _ _ Ht Hst) as (ans' & Hs' & Ht'). exists ans', (log_row <$> stored bs).
  split; [done|]. split; [by etransitivity|]. by apply Forall2_fmap_r.
Qed.

(** ** What was judged is logged *)

(** The database works, and what the waiting events refer to is still
    there. *)
Definition works (k : Sink) (w : world) : Prop := no_faults w ∧ all_refs_ok (sink_buffer k ++ sink_ch k) (w_db w).

(** The program serving while nothing gets lost: a request comes when the
    queue has room, and the loop takes its cases while the database works.
    A flush under a context that is already cancelled is one that fails. *)
Inductive serves_well (k : Sink) (w : world) : list (AuthRequest * Z) → Sink → world → Prop :=
  | well_start : serves_well k w [] k w
  | well_request s rq acc k1 w1 :
      serves_well k w acc k1 w1 → (length (sink_ch k1) < sink_capacity)%nat →
      serves_well k w (acc ++ [(rq, (answer s rq).1)]) (observe (answer s rq).2 k1) w1
  | well_loop a acc k1 w1 k2 w2 :
      serves_well k w acc k1 w1 → a ∈ [SinkReceive; SinkTick] → works k1 w1 → sink_step a k1 false w1 = (Ok k2, w2) →
      serves_well k w acc k2 w2
  | well_others acc k1 w1 w2 :
      serves_well k w acc k1 w1 → access_log (logs (w_db w2)) = access_log (logs (w_db w1)) → serves_well k w acc k1 w2.

(** The loop takes what is queued, and the ticker fires. *)
Definition sink_catch_up (k : Sink) : M Sink := sink_run (replicate (length (sink_ch k)) SinkReceive ++ [SinkTick]) k.

Lemma sink_append_ch e ch k tx w k' w' : sink_append e ch k tx w = (Ok k', w') → sink_ch k' = ch.
Proof.
  unfold sink_append, flush. destruct (Nat.leb _ _); [|by intros [= <- _]]. cbn [sink_buffer].
  case_bool_decide; [by intros [= <- _]|]. intros Hb. apply bind_Ok in Hb as (x & w1 & _ & Hb). by injection Hb as <- _.
Qed.

(** Catching up does what stopping does. *)
Lemma sink_catch_up_stop k w : sink_catch_up k false w = sink_stop k false w.
Proof.
  unfold sink_catch_up, sink_stop. assert (∀ ch k w, sink_ch k = ch →
    sink_run (replicate (length ch) SinkReceive ++ [SinkTick]) k false w = sink_drain ch k false w) as Hd; [|by apply Hd].
  clear k w. induction ch as [|e ch IH]; intros k w Hc.
  - cbn. rewrite bind_run. by destruct (flush k false w) as [[k'|?] w'].
  - cbn [length replicate app sink_run sink_drain sink_step]. rewrite !bind_run. unfold sink_receive. rewrite Hc.
    destruct (sink_append e ch k false w) as [[k'|?] w'] eqn:E; [|done]. apply sink_append_ch in E. by apply IH.
Qed.

(** A case of the loop moves events from the sink to the log, and loses
    none. *)
Lemma loop_moves a k w k' w' :
  a ∈ [SinkReceive; SinkTick] → works k w → sink_step a k false w = (Ok k', w') →
  ∃ out, log_of (w_db w') = log_of (w_db w) ++ (log_row <$> out) ∧ out ++ sink_buffer k' ++ sink_ch k' = sink_buffer k ++ sink_ch k.
Proof.
  intros Ha [Hn Hr] E. assert (∀ k0, sink_buffer k0 ++ sink_ch k0 = sink_buffer k ++ sink_ch k → flush k0 false w = (Ok k', w') →
    ∃ out, log_of (w_db w') = log_of (w_db w) ++ (log_row <$> out) ∧ out ++ sink_buffer k' ++ sink_ch k' = sink_buffer k ++ sink_ch k) as Hfl.
  { intros k0 Ek Hfl. rewrite <-Ek in Hr. apply Forall_app in Hr as [Hr _]. destruct (flush_runs k0 w Hn Hr) as (w1 & E1 & _ & _ & L1).
    rewrite E1 in Hfl. injection Hfl as <- <-. by exists (sink_buffer k0). }
  rewrite !elem_of_cons in Ha. destruct Ha as [->|[->|[]%elem_of_nil]]; [|by apply (Hfl k)]. cbn [sink_step] in E. unfold sink_receive in E.
  assert ((Ok k, w) = (Ok k', w') → ∃ out, log_of (w_db w') = log_of (w_db w) ++ (log_row <$> out) ∧
    out ++ sink_buffer k' ++ sink_ch k' = sink_buffer k ++ sink_ch k) as Hsame.
  { intros [= <- <-]. exists []. by rewrite app_nil_r. }
  destruct (sink_ch k) as [|e ch] eqn:Ec; [by apply Hsame|]. unfold sink_append in E.
  assert (sink_buffer (mkSink ch (sink_buffer k ++ [e])) ++ ch = sink_buffer k ++ e :: ch) as Eb by (cbn; by rewrite <-app_assoc).
  destruct (Nat.leb _ _); [by apply (Hfl (mkSink ch (sink_buffer k ++ [e])))|]. injection E as <- <-. exists []. split; [by rewrite app_nil_r|exact Eb].
Qed.

(** At every moment the judged requests are those of the log's new rows,
    then those of the buffer, then those of the queue. *)
Lemma serves_well_accounts w acc k' w' :
  serves_well NewSink w acc k' w' →
  ∃ new, log_of (w_db w') = log_of (w_db w) ++ new ∧
    Forall2 tells (filter (λ a, judged a.1 = true) acc) (new ++ (log_row <$> sink_buffer k' ++ sink_ch k')).
Proof.
  induction 1 as [|s rq acc k1 w1 Hs (new & El & Ht) Hroom|a acc k1 w1 k2 w2 Hs (new & El & Ht) Ha Hw E|acc k1 w1 w2 Hs (new & El & Ht) E].
  - exists []. split; [by rewrite app_nil_r|]. constructor.
  - exists new. split; [done|]. rewrite filter_app. pose proof (answer_events s rq) as He. destruct (judged rq) eqn:Ej.
    + destruct He as (ev & -> & Hev). rewrite filter_cons_True by done. cbn [observe foldl]. unfold OnDecision, try_send.
      destruct (Nat.ltb_spec (length (sink_ch k1)) sink_capacity); [|lia]. cbn [sink_ch sink_buffer]. rewrite !fmap_app in *.
      rewrite !(assoc_L (++)) in *. apply Forall2_app; [done|]. by constructor.
    + rewrite He, filter_cons_False by (cbn; by rewrite Ej). cbn [observe foldl]. by rewrite app_nil_r.
  - destruct (loop_moves _ _ _ _ _ Ha Hw E) as (out & Lo & Eo). exists (new ++ (log_row <$> out)). split; [by rewrite Lo, El, <-app_assoc|].
    by rewrite <-app_assoc, <-fmap_app, Eo.
  - exists new. split; [|done]. rewrite <-El. unfold log_of. by rewrite E.
Qed.

(** C17: the loop running beside the handler, requests answered each with
    whatever the caches hold then, other components writing tables other than
    the log, as long as the queue is never full when a request comes and no
    flush fails (the database works, what the waiting events refer to is
    still there, the flush does not run under a context that is already
    cancelled).  Then no judged request is unaccounted for at any moment: in
    the order they came, the judged requests are those of the rows the log
    has gained, followed by those waiting in the buffer and in the queue.
    And once the loop has taken what is queued and its ticker has fired, or
    once it has stopped under the same conditions, nothing waits any more:
    the log has gained exactly one row for each judged request, allowed or
    not, and none for the requests turned away before (early data, no token,
    no client address). *)
Theorem every_judgement_logged w acc k w1 :
  serves_well NewSink w acc k w1 →
  let judged_requests := filter (λ a, judged a.1 = true) acc in
  (∃ new, log_of (w_db w1) = log_of (w_db w) ++ new ∧ Forall2 tells judged_requests (new ++ (log_row <$> sink_buffer k ++ sink_ch k))) ∧
  (works k w1 → ∀ finish, finish = sink_catch_up k ∨ finish = sink_stop k →
   ∃ w2 new, finish false w1 = (Ok NewSink, w2) ∧ log_of (w_db w2) = log_of (w_db w) ++ new ∧ Forall2 tells judged_requests new).
Proof.
  intros Hs. destruct (serves_well_accounts _ _ _ _ Hs) as (new & El & Ht). split; [by exists new|]. intros [Hn Hr] finish Hf.
  assert (finish false w1 = sink_stop k false w1) as -> by (destruct Hf as [-> | ->]; [apply sink_catch_up_stop|done]).
  destruct (sink_stop_drains k w1 Hn Hr) as (w2 & E & _ & _ & L2). exists w2, (new ++ (log_row <$> sink_buffer k ++ sink_ch k)).
  split; [exact E|]. split; [by rewrite L2, El, <-app_assoc|exact Ht].
Qed.
End decision_log.

(** ** At a concrete run *)

Module DecisionLogDemo.
Import AccessLogDemo.

(** The secret is "s3cret"; the office policy bypasses the host check. *)
Definition service : Service :=
  mkService (sha256 "s3cret") AddrZero ∅ [mkNPEntry 1 "office" (mkPrefix (Addr4 167837696) 16) true ∅] None 0.

Definition request (token ip : string) (t : time) : AuthRequest :=
  mkAuthRequest (<["Authorization" := ["Bearer " +:+ token]]> {["X-Forwarded-Host" := ["wiki.home"]]}) (Some ip) t 100.

(** From the office, from elsewhere, and without a token; the loop takes the
    first event before the second request comes. *)
Definition from_office : AuthRequest := request "s3cret" "10.1.2.3" (6 * Second).
Definition from_elsewhere : AuthRequest := request "s3cret" "9.9.9.9" (7 * Second).
Definition no_token : AuthRequest := request "" "10.1.2.3" (8 * Second).

Definition events : list DecisionEvent := Eval vm_compute in
  [from_office; from_elsewhere; no_token] ≫= λ rq, (answer None service rq).2.

Definition acc : list (AuthRequest * Z) := [(from_office, StatusOK); (from_elsewhere, StatusForbidden); (no_token, StatusForbidden)].

Lemma events_refs : all_refs_ok events tables.
Proof.
  apply Forall_cons_2; [|apply Forall_cons_2; [|by apply Forall_nil_2]].
  - intros p [= <-]. split; by eexists.
  - by apply Forall_nil_2.
Qed.

Lemma demo_serves : serves_well None NewSink w0 acc (mkSink (drop 1 events) (take 1 events)) w0.
Proof.
  assert ((answer None service from_office).1 = StatusOK) as E1 by (vm_compute; reflexivity).
  assert ((answer None service from_elsewhere).1 = StatusForbidden) as E2 by (vm_compute; reflexivity).
  assert ((answer None service no_token).1 = StatusForbidden) as E3 by (vm_compute; reflexivity).
  assert ((answer None service from_office).2 = take 1 events) as V1 by (vm_compute; reflexivity).
  assert ((answer None service from_elsewhere).2 = drop 1 events) as V2 by (vm_compute; reflexivity).
  assert ((answer None service no_token).2 = []) as V3 by (vm_compute; reflexivity).
  pose proof (well_start None NewSink w0) as R0. apply (well_request None _ _ service from_office) in R0; [|cbn; unfold sink_capacity; lia].
  rewrite E1, V1 in R0. apply (well_loop None _ _ SinkReceive _ _ _ (mkSink [] (take 1 events)) w0) in R0;
    [|by left|split; [done|]|vm_compute; reflexivity].
  2: { pose proof events_refs as Hr. apply Forall_cons in Hr as [Hr _]. by apply Forall_cons_2. }
  apply (well_request None _ _ service from_elsewhere) in R0; [|cbn; unfold sink_capacity; lia]. rewrite E2, V2 in R0.
  apply (well_request None _ _ service no_token) in R0; [|cbn; unfold sink_capacity; lia]. rewrite E3, V3 in R0. exact R0.
Qed.

(** Two of the three are in the log, whichever way the loop ends. *)
Example every_judgement_logged_witness :
  ∃ w2 new, sink_stop (mkSink (drop 1 events) (take 1 events)) false w0 = (Ok NewSink, w2) ∧
    log_of (w_db w2) = new ∧ (log_Outcome <$> new) = [true; false].
Proof.
  destruct (every_judgement_logged None w0 acc _ _ demo_serves) as (_ & Hend).
  destruct (Hend (conj eq_refl events_refs) _ (or_intror eq_refl)) as (w2 & new & E & El & Ht).
  exists w2, new. split; [exact E|]. split; [exact El|].
  assert (filter (λ a, judged a.1 = true) acc = take 2 acc) as Ef by (vm_compute; reflexivity).
  rewrite Ef in Ht. inversion Ht as [|? r1 ? l1 H1 H2]; subst. inversion H2 as [|? r2 ? l2 H3 H4]; subst. inversion H4; subst.
  destruct H1 as (? & ? & _ & _ & _ & O1 & _). destruct H3 as (? & ? & _ & _ & _ & O2 & _). cbn. rewrite O1, O2. reflexivity.
Defined.

Example log_never_lies_witness :
  ∃ k' w' answered new, sink_stop (observe (answer None service (request "s3cret" "10.1.2.3" 6)).2 NewSink) false w0 = (Ok k', w') ∧
    log_of (w_db w') = new ∧ answered `sublist_of` [(request "s3cret" "10.1.2.3" 6, StatusOK)] ∧ Forall2 tells answered new.
Proof.
  set (rq := request "s3cret" "10.1.2.3" 6). set (k1 := observe (answer None service rq).2 NewSink).
  destruct (sink_stop k1 false w0) as [r w'] eqn:E.
  assert (r = Ok NewSink) as -> by (apply (f_equal fst) in E; vm_compute in E; exact (eq_sym E)).
  assert ((answer None service rq).1 = StatusOK) as Es by (vm_compute; reflexivity).
  destruct (log_never_lies None w0 [(rq, (answer None service rq).1)] NewSink w') as (ans & new & El & Hs & Ht).
  - eapply serves_stop; [|exact E]. apply (serves_request None NewSink w0 service rq [] NewSink w0). apply serves_start.
  - exists NewSink, w', ans, new. split; [reflexivity|]. split; [exact El|]. rewrite Es in Hs. split; [exact Hs|exact Ht].
Defined.
End DecisionLogDemo.
