(* ===== verification/Rollup.v ===== *)
(** * Rollup: hourly aggregates of the decision log ([internal/rollup])

    The job rolls complete hours of the log up into two tables: traffic per
    (hour, client, host, outcome, reason), and requests attributed to a
    policy, a user or a device.  The dashboards answer from the log for
    windows of at most 24 hours and from the aggregates for longer ones.

    [strftime('%Y-%m-%d %H:00:00', t)] is the start of the hour of [t]; the
    texts SQLite compares are in the order of the times they denote. *)

From S2P Require Import Prelude GoLib Compare GroupBy Schema Store Http Timebucket PolicyCache PolicyService.

Local Open Scope Z_scope.
Local Open Scope list_scope.

(** ** Traffic (traffic_rollup.go) *)

Definition bucket_at (t : time) : time := truncate Hour t.

Definition in_window (from to t : time) : bool := (from <=? t) && (t <? to).

(** [COALESCE(text, '')]. *)
Definition coalesce (o : option string) : string := default ""%string o.

(** The rows of the log in a window, in rowid order. *)
Definition window_log (from to : time) (d : db) : list (Z * AccessLogRow) :=
  filter (λ kv, in_window from to (log_CreatedAt kv.2) = true) (scan (access_log (logs d))).

(** [LEFT JOIN access_log_geoip]. *)
Definition with_geo (d : db) (kv : Z * AccessLogRow) : AccessLogRow * option GeoRow := (kv.2, access_log_geoip (logs d) !! kv.1).

(** [GROUP BY bucket_at, client_ip, target_host, outcome, deny_reason]: the
    last four are the columns of the log, NULL apart from the empty text. *)
Abbreviation group_key := (time * string * option string * bool * option string)%type (only parsing).

Definition traffic_group (r : AccessLogRow * option GeoRow) : group_key :=
  (bucket_at (log_CreatedAt r.1), log_ClientIP r.1, log_TargetHost r.1, log_Outcome r.1, log_DenyReason r.1).

Definition cmp_group_key : group_key → group_key → comparison :=
  cmp_pair (cmp_pair (cmp_pair (cmp_pair Z.compare String.compare) (cmp_option String.compare)) cmp_bool) (cmp_option String.compare).

(** The columns of the unique index. *)
Definition stored_key (k : group_key) : TrafficKey :=
  (k.1.1.1.1, k.1.1.1.2, coalesce k.1.1.2, k.1.2, coalesce k.2).

Definition aggregate (l : list (AccessLogRow * option GeoRow)) : TrafficAggregate :=
  let geo (f : GeoRow → string) := text_max ((λ r, coalesce (f <$> r.2)) <$> l) in
  mkTrafficAggregate (Z.of_nat (length l)) (zsum ((λ r, log_DurationUs r.1) <$> l)) (zmax ((λ r, log_DurationUs r.1) <$> l))
    (geo geo_CountryCode) (geo geo_CountryName) (geo geo_ContinentCode).

(** [INSERT OR REPLACE] of the groups, in the order [GROUP BY] gives them. *)
Definition rollup_traffic (l : list (AccessLogRow * option GeoRow)) (m : gmap TrafficKey TrafficAggregate) : gmap TrafficKey TrafficAggregate :=
  foldl (λ m k, <[stored_key k := aggregate (group traffic_group k l)]> m) m (group_keys traffic_group cmp_group_key l).

Definition RunRollup (from to : time) : M unit :=
  exec (λ _ d, Ok (tt, on_logs (on_hourly_traffic (rollup_traffic (with_geo d <$> window_log from to d))) d)).

Definition traffic_bucket (k : TrafficKey) : time := k.1.1.1.1.
Definition attribution_bucket (k : AttributionKey) : time := k.1.1.1.

Definition max_time (l : list time) : option time := match l with [] => None | t :: l => Some (foldr Z.max t l) end.
Definition min_time (l : list time) : option time := match l with [] => None | t :: l => Some (foldr Z.min t l) end.

(** [None] is the zero time. *)
Definition LastRollupAt : M (option time) :=
  query (λ _ d, max_time ((λ kv, traffic_bucket kv.1) <$> map_to_list (hourly_traffic (logs d)))).

Definition EarliestAccessLogAt : M (option time) :=
  query (λ _ d, min_time (log_CreatedAt <$> rows (access_log (logs d)))).

Definition DeleteAggregatesOlderThan (before : time) : M Z :=
  exec (λ _ d, let m := hourly_traffic (logs d) in
    Ok (Z.of_nat (size (filter (λ kv, traffic_bucket kv.1 < before) m)),
        on_logs (on_hourly_traffic (filter (λ kv, before ≤ traffic_bucket kv.1))) d)).

(** ** Attribution (attribution_rollup.go) *)

(** The joined source of a kind: a log entry, the id of an entity it is
    attributed to (NULL for a deleted policy) and the entity's name. *)
Record link := mkLink { link_LogID : Z; link_Row : AccessLogRow; link_EntityID : option Z; link_Name : string }.

(** [attributionSpecs]: the source, with its id and name expressions. *)
Definition attribution_source (kind : AttributionKind) (d : db) : list link :=
  match kind with
  | AttributionKindPolicy =>
      omap (λ kv, p ← access_log_policies (logs d) !! kv.1;
                  Some (mkLink kv.1 kv.2 (policy_contributor_PolicyID p) (policy_contributor_PolicyName p))) (scan (access_log (logs d)))
  | AttributionKindUser =>
      omap (λ c, r ← access_log (logs d) !! contributor_AccessLogID c; u ← users d !! contributor_UserID c;
                 Some (mkLink (contributor_AccessLogID c) r (Some (contributor_UserID c)) (User_DisplayName u))) (access_log_contributors (logs d))
  | AttributionKindDevice =>
      omap (λ c, r ← access_log (logs d) !! contributor_AccessLogID c; v ← devices d !! contributor_DeviceID c;
                 Some (mkLink (contributor_AccessLogID c) r (Some (contributor_DeviceID c)) (Device_Name v))) (access_log_contributors (logs d))
  end.

(** [rollupCount]: [COUNT( * )] of the 1:1 policy link, [COUNT(DISTINCT al.id)]
    of the others. *)
Definition rollupCount (kind : AttributionKind) (l : list link) : Z :=
  match kind with
  | AttributionKindPolicy => Z.of_nat (length l)
  | _ => Z.of_nat (length (remove_dups (link_LogID <$> l)))
  end.

(** [MAX] of ids, NULLs ignored. *)
Definition max_id_of (l : list (option Z)) : option Z := max_time (omap id l).

Definition window_links (kind : AttributionKind) (from to : time) (d : db) : list link :=
  filter (λ x, in_window from to (log_CreatedAt (link_Row x)) = true) (attribution_source kind d).

Definition link_group (x : link) : time * string * bool :=
  (bucket_at (log_CreatedAt (link_Row x)), link_Name x, log_Outcome (link_Row x)).

Definition cmp_link_group : time * string * bool → time * string * bool → comparison :=
  cmp_pair (cmp_pair Z.compare String.compare) cmp_bool.

Definition rollup_links (kind : AttributionKind) (l : list link) (m : gmap AttributionKey (option Z * Z)) : gmap AttributionKey (option Z * Z) :=
  foldl (λ m k, let g := group link_group k l in
                <[(k.1.1, kind, k.1.2, k.2) := (max_id_of (link_EntityID <$> g), rollupCount kind g)]> m)
    m (group_keys link_group cmp_link_group l).

(** [RunAttributionRollup] ranges over a map: [kinds] is the order Go takes. *)
Definition RunAttributionRollup (kinds : list AttributionKind) (from to : time) : M unit :=
  for_each kinds (λ kind, exec (λ _ d, Ok (tt, on_logs (on_hourly_attribution (rollup_links kind (window_links kind from to d))) d))).

Definition DeleteAttributionAggregatesOlderThan (before : time) : M Z :=
  exec (λ _ d, let m := hourly_attribution (logs d) in
    Ok (Z.of_nat (size (filter (λ kv, attribution_bucket kv.1 < before) m)),
        on_logs (on_hourly_attribution (filter (λ kv, before ≤ attribution_bucket kv.1))) d)).

(** ** Reads (traffic_reads.go, attribution_reads.go, handler.go) *)

Definition RawWindowThreshold : Z := 24 * Hour.

Record SummaryStats := mkSummaryStats {
  TotalRequests : Z;
  AllowedCount : Z;
  DeniedCount : Z;
  DenyIPNotRegistered : Z;
  DenyHostNotAllowed : Z;
  DenyOther : Z;
  UniqueIPs : Z;
  AvgDurationUs : Z;
}.

Definition count_distinct {A} `{EqDecision A} (l : list A) : Z := Z.of_nat (length (remove_dups l)).

(** Integer division, 0 of nothing. *)
Definition average (sum count : Z) : Z := if 0 <? count then Z.quot sum count else 0.

Definition ip_not_registered : string := "ip_not_registered".
Definition host_not_allowed : string := "host_not_allowed".
Definition other_reason (reason : string) : bool :=
  negb (bool_decide (reason = ip_not_registered)) && negb (bool_decide (reason = host_not_allowed)).

Definition getRawSummaryStats (from to : time) (d : db) : SummaryStats :=
  let l := (window_log from to d).*2 in
  let count p := sum_when p (λ _, 1) l in
  let denied r := negb (log_Outcome r) in
  let total := Z.of_nat (length l) in
  mkSummaryStats total (count log_Outcome) (count denied)
    (count (λ r, denied r && bool_decide (log_DenyReason r = Some ip_not_registered)))
    (count (λ r, denied r && bool_decide (log_DenyReason r = Some host_not_allowed)))
    (count (λ r, denied r && match log_DenyReason r with None => true | Some reason => other_reason reason end))
    (count_distinct (log_ClientIP <$> l)) (average (zsum (log_DurationUs <$> l)) total).

(** The aggregates whose bucket is in a window. *)
Definition window_aggregates (from to : time) (d : db) : list (TrafficKey * TrafficAggregate) :=
  filter (λ kv, in_window from to (traffic_bucket kv.1) = true) (map_to_list (hourly_traffic (logs d))).

Definition key_ip (k : TrafficKey) : string := k.1.1.1.2.
Definition key_host (k : TrafficKey) : string := k.1.1.2.
Definition key_outcome (k : TrafficKey) : bool := k.1.2.
Definition key_reason (k : TrafficKey) : string := k.2.

Definition getAggregateSummaryStats (from to : time) (d : db) : SummaryStats :=
  let l := window_aggregates from to d in
  let sum p := sum_when (λ kv, p kv.1) (λ kv, agg_RequestCount kv.2) l in
  let denied k := negb (key_outcome k) in
  let total := sum (λ _, true) in
  mkSummaryStats total (sum key_outcome) (sum denied)
    (sum (λ k, denied k && bool_decide (key_reason k = ip_not_registered)))
    (sum (λ k, denied k && bool_decide (key_reason k = host_not_allowed)))
    (sum (λ k, denied k && other_reason (key_reason k)))
    (count_distinct ((λ kv, key_ip kv.1) <$> l)) (average (zsum ((λ kv, agg_SumDurationUs kv.2) <$> l)) total).

Definition GetSummaryStats (from to : time) : M SummaryStats :=
  query (λ _ d, if to - from <=? RawWindowThreshold then getRawSummaryStats from to d else getAggregateSummaryStats from to d).

Record TrafficBucket := mkTrafficBucket { bucket_Timestamp : time; bucket_AllowCount : Z; bucket_DenyCount : Z }.

Definition getRawTrafficSeries (from to : time) (g : Granularity) (d : db) : list TrafficBucket :=
  let l := (window_log from to d).*2 in
  let key r := BucketExpr g (log_CreatedAt r) in
  (λ t, let b := group key t l in
        mkTrafficBucket t (sum_when log_Outcome (λ _, 1) b) (sum_when (λ r, negb (log_Outcome r)) (λ _, 1) b)) <$> group_keys key Z.compare l.

(** The bucket expression over the aggregates: the day, or the hour as stored. *)
Definition aggregate_bucket (g : Granularity) (t : time) : time :=
  match g with GranularityDay => strftime_date t | _ => t end.

Definition getAggregateTrafficSeries (from to : time) (g : Granularity) (d : db) : list TrafficBucket :=
  let l := window_aggregates from to d in
  let key kv := aggregate_bucket g (traffic_bucket kv.1) in
  let sum p b := sum_when (λ kv, p (key_outcome kv.1)) (λ kv, agg_RequestCount kv.2) b in
  (λ t, let b := group key t l in mkTrafficBucket t (sum id b) (sum negb b)) <$> group_keys key Z.compare l.

Definition GetTrafficSeries (from to : time) : M (list TrafficBucket) :=
  let g := GranularityForWindow (to - from) in
  query (λ _ d, if to - from <=? RawWindowThreshold then getRawTrafficSeries from to g d else getAggregateTrafficSeries from to g d).

Record IPCount := mkIPCount { ipcount_IP : string; ipcount_Count : Z; ipcount_Geo : GeoResult }.

(** SQLite's [LIMIT]: a negative bound is no bound. *)
Definition sql_limit {A} (limit : Z) (l : list A) : list A := if limit <? 0 then l else take (Z.to_nat limit) l.

Definition getRawTopDeniedIPs (from to : time) (limit : Z) (d : db) : list IPCount :=
  let l := filter (λ r, log_Outcome r = false) (window_log from to d).*2 in
  sql_limit limit (order_desc ipcount_Count
    ((λ ip, mkIPCount ip (Z.of_nat (length (group log_ClientIP ip l))) emptyGeo) <$> group_keys log_ClientIP String.compare l)).

Definition getAggregateTopDeniedIPs (from to : time) (limit : Z) (d : db) : list IPCount :=
  let l := filter (λ kv, key_outcome kv.1 = false) (window_aggregates from to d) in
  let key kv := key_ip kv.1 in
  sql_limit limit (order_desc ipcount_Count
    ((λ ip, mkIPCount ip (zsum ((λ kv, agg_RequestCount kv.2) <$> group key ip l)) emptyGeo) <$> group_keys key String.compare l)).

(** The addresses of the result are located, with a resolver. *)
Definition locate (geo : option (string → GeoResult)) (x : IPCount) : IPCount :=
  match geo with Some resolve => mkIPCount (ipcount_IP x) (ipcount_Count x) (resolve (ipcount_IP x)) | None => x end.

Definition GetTopDeniedIPs (geo : option (string → GeoResult)) (from to : time) (limit : Z) : M (list IPCount) :=
  ips ← query (λ _ d, if to - from <=? RawWindowThreshold then getRawTopDeniedIPs from to limit d else getAggregateTopDeniedIPs from to limit d);
  mret (locate geo <$> ips).

Record ServiceCount := mkServiceCount { service_Host : string; service_AllowCount : Z; service_DenyCount : Z }.

Definition service_total (s : ServiceCount) : Z := service_AllowCount s + service_DenyCount s.

Definition getRawServiceSplit (from to : time) (d : db) : list ServiceCount :=
  let l := (window_log from to d).*2 in
  let key r := coalesce (log_TargetHost r) in
  order_desc service_total
    ((λ h, let b := group key h l in
           mkServiceCount h (sum_when log_Outcome (λ _, 1) b) (sum_when (λ r, negb (log_Outcome r)) (λ _, 1) b)) <$> group_keys key String.compare l).

Definition getAggregateServiceSplit (from to : time) (d : db) : list ServiceCount :=
  let l := window_aggregates from to d in
  let key kv := key_host kv.1 in
  let sum p b := sum_when (λ kv, p (key_outcome kv.1)) (λ kv, agg_RequestCount kv.2) b in
  order_desc service_total ((λ h, let b := group key h l in mkServiceCount h (sum id b) (sum negb b)) <$> group_keys key String.compare l).

Definition GetServiceSplit (from to : time) : M (list ServiceCount) :=
  query (λ _ d, if to - from <=? RawWindowThreshold then getRawServiceSplit from to d else getAggregateServiceSplit from to d).

Record AttributionCount := mkAttributionCount {
  attribution_EntityID : option Z; attribution_EntityName : string; attribution_AllowCount : Z; attribution_DenyCount : Z }.

Definition attribution_total (a : AttributionCount) : Z := attribution_AllowCount a + attribution_DenyCount a.

Definition getRawAttributionSplit (kind : AttributionKind) (from to : time) (d : db) : list AttributionCount :=
  let l := window_links kind from to d in
  let ids b outcome := link_LogID <$> filter (λ x, log_Outcome (link_Row x) = outcome) b in
  order_desc attribution_total
    ((λ n, let b := group link_Name n l in
           mkAttributionCount (max_id_of (link_EntityID <$> b)) n (count_distinct (ids b true)) (count_distinct (ids b false))) <$>
     group_keys link_Name String.compare l).

Definition getAggregateAttributionSplit (kind : AttributionKind) (from to : time) (d : db) : list AttributionCount :=
  let l := filter (λ kv, kv.1.1.1.2 = kind ∧ in_window from to (attribution_bucket kv.1) = true) (map_to_list (hourly_attribution (logs d))) in
  let key (kv : AttributionKey * (option Z * Z)) := kv.1.1.2 in
  let sum p b := sum_when (λ kv : AttributionKey * (option Z * Z), p kv.1.2) (λ kv, kv.2.2) b in
  order_desc attribution_total
    ((λ n, let b := group key n l in mkAttributionCount (max_id_of ((λ kv, kv.2.1) <$> b)) n (sum id b) (sum negb b)) <$>
     group_keys key String.compare l).

(** A kind that has no entry in [attributionSpecs] is an error. *)
Definition GetAttributionSplit (kind : option AttributionKind) (from to : time) : M (list AttributionCount) :=
  match kind with
  | None => throw ErrUnknownKind
  | Some kind =>
      query (λ _ d, if to - from <=? RawWindowThreshold then getRawAttributionSplit kind from to d else getAggregateAttributionSplit kind from to d)
  end.

(** [parseTimeRange]. *)
Definition parseTimeRange (now : time) (from to : option time) : time * time := (default (now - 24 * Hour) from, default now to).

(** [attributionKindFromAPI]: any other text is kept as a kind that has no
    specification. *)
Definition attributionKindFromAPI (k : string) : option AttributionKind :=
  if bool_decide (k = "policy")%string then Some AttributionKindPolicy
  else if bool_decide (k = "user")%string then Some AttributionKindUser
  else if bool_decide (k = "device")%string then Some AttributionKindDevice
  else None.

(** A dashboard answers its data, or 500. *)
Definition dashboard {A} (m : M A) : M (Response A) := respond m (λ a, mkResponse 200 (Some a)) (λ _, 500).

Definition handler_GetDashboardStats (from to : option time) : M (Response SummaryStats) :=
  t ← now; let '(from, to) := parseTimeRange t from to in dashboard (GetSummaryStats from to).

Definition handler_GetDashboardTraffic (from to : option time) : M (Response (list TrafficBucket)) :=
  t ← now; let '(from, to) := parseTimeRange t from to in dashboard (GetTrafficSeries from to).

Definition handler_GetDashboardServices (from to : option time) : M (Response (list ServiceCount)) :=
  t ← now; let '(from, to) := parseTimeRange t from to in dashboard (GetServiceSplit from to).

Definition top_denied (x : IPCount) : string * Z * option GeoInfo := (ipcount_IP x, ipcount_Count x, GeoInfoFromResult (ipcount_Geo x)).

Definition handler_GetDashboardTopDeniedIps (geo : option (string → GeoResult)) (from to : option time) (limit : option Z) :
    M (Response (list (string * Z * option GeoInfo))) :=
  t ← now;
  let '(from, to) := parseTimeRange t from to in
  dashboard (ips ← GetTopDeniedIPs geo from to (default 10 limit); mret (top_denied <$> ips)).

Definition handler_GetDashboardAttributionSplit (kind : string) (from to : option time) : M (Response (list AttributionCount)) :=
  t ← now; let '(from, to) := parseTimeRange t from to in dashboard (GetAttributionSplit (attributionKindFromAPI kind) from to).

(** ** The job (job.go) *)

Record RollupJob := mkRollupJob { lastRollupAt : option time; initialized : bool }.

Definition NewRollupJob : RollupJob := mkRollupJob None false.

Definition catchUpChunk : Z := 24 * Hour.

(** The chunks of the loop; [None] when the fuel ends first. *)
Fixpoint chunks (fuel : nat) (chunkFrom currentHour : time) : option (list (time * time)) :=
  match fuel with
  | O => None
  | S fuel =>
      if chunkFrom <? currentHour then
        let chunkTo := if currentHour <? chunkFrom + catchUpChunk then currentHour else chunkFrom + catchUpChunk in
        cons (chunkFrom, chunkTo) <$> chunks fuel chunkTo currentHour
      else Some []
  end.

Section job.
(** The order in which Go ranges over [attributionSpecs], per chunk. *)
Context (kinds : time → list AttributionKind).

(** The body of the loop: the job advances chunk by chunk. *)
Fixpoint catch_up (cs : list (time * time)) (j : RollupJob) : M (RollupJob * result unit) :=
  match cs with
  | [] => mret (j, Ok tt)
  | (chunkFrom, chunkTo) :: cs =>
      r ← try (_ ← RunRollup chunkFrom chunkTo; RunAttributionRollup (kinds chunkFrom) chunkFrom chunkTo);
      match r with
      | Err e => mret (j, Err e)
      | Ok _ => catch_up cs (mkRollupJob (Some chunkTo) (initialized j))
      end
  end.

(** [time.Before] with the zero time. *)
Definition zero_before (t : option time) (u : time) : bool := match t with None => true | Some t => t <? u end.

(** The fuel of the loop: one step per day and one to stop. *)
Definition catch_up_fuel (from currentHour : time) : nat := Z.to_nat ((currentHour - from) / catchUpChunk + 2).

(** [RollupJob.Run]: the job after the run, and the run's error. *)
Definition RollupJob_Run (j : RollupJob) : M (RollupJob * result unit) :=
  t ← now;
  let currentHour := truncate Hour t in
  r ← (if initialized j then mret (Ok j)
       else last ← try LastRollupAt;
            mret match last with
                 | Err e => Err e
                 | Ok None => Ok (mkRollupJob (lastRollupAt j) true)
                 | Ok (Some b) => Ok (mkRollupJob (Some (b + Hour)) true)
                 end);
  match r with
  | Err e => mret (j, Err e)
  | Ok j =>
      if match lastRollupAt j with Some last => negb (last <? currentHour) | None => false end then mret (j, Ok tt)
      else
        earliest ← try EarliestAccessLogAt;
        match earliest with
        | Err e => mret (j, Err e)
        | Ok None => mret (mkRollupJob (Some currentHour) (initialized j), Ok tt)
        | Ok (Some e) =>
            let earliestHour := truncate Hour e in
            let from := match lastRollupAt j with
                        | Some last => if last <? earliestHour then earliestHour else last
                        | None => earliestHour
                        end in
            if negb (from <? currentHour) then mret (mkRollupJob (Some currentHour) (initialized j), Ok tt)
            else match chunks (catch_up_fuel from currentHour) from currentHour with
                 | Some cs => catch_up cs j
                 | None => mret (j, Ok tt)    (* unreachable: [chunks_enough] *)
                 end
        end
  end.
End job.
