(* ===== verification/RollupSpec.v ===== *)
(** * RollupSpec: the aggregates say what the log says

    What one run of the rollup stores, the answers of the dashboards from
    the log and from the aggregates, and what the job covers. *)

From S2P Require Import Prelude GoLib Compare GroupBy Schema Store Timebucket PolicyCache PolicyService Rollup.

Local Open Scope Z_scope.
Local Open Scope list_scope.

(** ** Hours *)

Lemma Hour_pos : 0 < Hour.
Proof. done. Qed.

Lemma bucket_at_bounds t : bucket_at t ≤ t < bucket_at t + Hour.
Proof. exact (TruncateToBucket_bounds GranularityHour t). Qed.

Definition hour_aligned (t : time) : Prop := ∃ n, t = n * Hour.

Lemma bucket_at_aligned t : hour_aligned (bucket_at t).
Proof. by exists (t / Hour). Qed.

(** A time is in an aligned window exactly when its bucket is. *)
Lemma in_window_bucket a b t : hour_aligned a → hour_aligned b → in_window a b (bucket_at t) = in_window a b t.
Proof.
  intros [n ->] [m ->]. pose proof (bucket_at_bounds t) as Ht. destruct (bucket_at_aligned t) as [k Hk]. rewrite Hk in *.
  pose proof Hour_pos as Hh. clear Hk. revert Ht Hh. generalize Hour as h. intros h Ht Hh.
  unfold in_window. f_equal; apply eq_true_iff_eq; rewrite ?Z.leb_le, ?Z.ltb_lt; (split; intros H; [|try lia]); try lia.
  - destruct (Z.le_gt_cases n k); nia.
  - assert (k + 1 ≤ m) by (apply Z.le_succ_l, (Z.mul_lt_mono_pos_r h); lia). nia.
Qed.

(** ** One run of the rollup *)

Abbreviation log_entry := (AccessLogRow * option GeoRow)%type (only parsing).

(** The aggregate a log entry counts in. *)
Definition entry_key (r : log_entry) : TrafficKey := stored_key (traffic_group r).

(** No empty text where the code writes NULL. *)
Definition normalised (r : AccessLogRow) : Prop := log_TargetHost r ≠ Some ""%string ∧ log_DenyReason r ≠ Some ""%string.

Lemma coalesce_inj o o' : o ≠ Some ""%string → o' ≠ Some ""%string → coalesce o = coalesce o' → o = o'.
Proof. destruct o as [x|], o' as [y|]; cbn; congruence. Qed.

Lemma entry_key_inj (r r' : log_entry) : normalised r.1 → normalised r'.1 → entry_key r = entry_key r' → traffic_group r = traffic_group r'.
Proof.
  intros [H1 H2] [H1' H2']. unfold entry_key, stored_key, traffic_group. cbn. intros [= E1 E2 E3 E4 E5].
  apply coalesce_inj in E3; [|done..]. apply coalesce_inj in E5; [|done..]. congruence.
Qed.

(** Inserting under keys without repetition. *)
Lemma foldl_insert_ne {K V X} `{Countable K} (f : X → K) (g : X → V) (ks : list X) (m : gmap K V) k :
  (∀ x, x ∈ ks → f x ≠ k) → foldl (λ m x, <[f x := g x]> m) m ks !! k = m !! k.
Proof.
  revert m. induction ks as [|x ks IH]; intros m Hn; [done|]. cbn. rewrite IH by (intros y Hy; apply Hn; by right).
  apply lookup_insert_ne. apply Hn. by left.
Qed.

Lemma foldl_insert_eq {K V X} `{Countable K} `{EqDecision X} (f : X → K) (g : X → V) (ks : list X) (m : gmap K V) x :
  x ∈ ks → (∀ y, y ∈ ks → f y = f x → y = x) → foldl (λ m x, <[f x := g x]> m) m ks !! f x = Some (g x).
Proof.
  revert m. induction ks as [|y ks IH]; intros m Hx Hu; [by apply elem_of_nil in Hx|]. cbn.
  destruct (decide (x ∈ ks)) as [Hin|Hin]; [apply IH; [done|]; intros z Hz; apply Hu; by right|].
  apply elem_of_cons in Hx as [->|Hx]; [|done]. rewrite foldl_insert_ne; [apply lookup_insert_eq|].
  intros z Hz E. apply Hin. rewrite <-(Hu z); [done|by right|done].
Qed.

(** What [INSERT OR REPLACE] leaves under a key: the aggregate of the entries
    with that key, if there are any. *)
Lemma rollup_traffic_lookup l m k :
  (∀ r, r ∈ l → normalised r.1) →
  rollup_traffic l m !! k = if decide (group entry_key k l = []) then m !! k else Some (aggregate (group entry_key k l)).
Proof.
  intros Hn. unfold rollup_traffic. case_decide as Hg.
  - apply foldl_insert_ne. intros g (r & Hr & <-)%elem_of_group_keys E.
    assert (r ∈ group entry_key k l) as Hin by (by apply elem_of_group). rewrite Hg in Hin. by apply elem_of_nil in Hin.
  - destruct (group entry_key k l) as [|r rs] eqn:E; [done|]. assert (r ∈ group entry_key k l) as Hr by (rewrite E; by left).
    apply elem_of_group in Hr as [<- Hr]. rewrite <-E. clear E Hg rs.
    assert (group traffic_group (traffic_group r) l = group entry_key (entry_key r) l) as <-.
    { apply filter_ext_in. intros r' Hr'. split; [unfold entry_key; by intros ->|]. intros E. apply entry_key_inj; auto. }
    apply (foldl_insert_eq stored_key (λ k, aggregate (group traffic_group k l))).
    + apply elem_of_group_keys. by exists r.
    + intros k' (r' & Hr' & <-)%elem_of_group_keys E. apply entry_key_inj; auto.
Qed.

(** ** What the aggregates cover *)

Definition log_entries (d : db) : list log_entry := with_geo d <$> scan (access_log (logs d)).

Definition normalised_log (d : db) : Prop := ∀ id r, access_log (logs d) !! id = Some r → normalised r.

(** Every bucket from [from] up to [upto] holds the aggregates of the log's
    entries of that hour, and nothing else. *)
Definition covered (from upto : time) (d : db) : Prop := ∀ k,
  from ≤ traffic_bucket k < upto →
  hourly_traffic (logs d) !! k =
    let g := group entry_key k (log_entries d) in if decide (g = []) then None else Some (aggregate g).

(** The entries of an aligned window. *)
Lemma window_entries a b d :
  with_geo d <$> window_log a b d = filter (λ r, in_window a b (log_CreatedAt r.1) = true) (log_entries d).
Proof. unfold log_entries, window_log. by rewrite filter_fmap. Qed.

Lemma group_window a b d k :
  hour_aligned a → hour_aligned b → in_window a b (traffic_bucket k) = true →
  group entry_key k (log_entries d) = group entry_key k (with_geo d <$> window_log a b d).
Proof.
  intros Ha Hb Hk. rewrite window_entries. unfold group. rewrite list_filter_filter. apply filter_ext_in. intros r _.
  split; [|by intros []]. intros <-. split; [done|]. rewrite <-(in_window_bucket a b) by done. exact Hk.
Qed.

Lemma bucket_entry_key r : traffic_bucket (entry_key r) = bucket_at (log_CreatedAt r.1).
Proof. done. Qed.

Lemma elem_of_log_entries d r : r ∈ log_entries d → ∃ id, access_log (logs d) !! id = Some r.1.
Proof. unfold log_entries. rewrite list_elem_of_fmap. intros ([id x] & -> & Hx%elem_of_scan). by exists id. Qed.

(** After a rollup of an aligned window, the window is covered. *)
Lemma RunRollup_covers a b tx w w' :
  hour_aligned a → hour_aligned b → normalised_log (w_db w) →
  (∀ k, in_window a b (traffic_bucket k) = true → hourly_traffic (logs (w_db w)) !! k ≠ None →
    group entry_key k (log_entries (w_db w)) ≠ []) →
  RunRollup a b tx w = (Ok tt, w') → covered a b (w_db w').
Proof.
  intros Ha Hb Hn Hstale E. apply (exec_Ok _ tx) in E as (d' & [= <-] & -> & _). intros k Hk.
  assert (in_window a b (traffic_bucket k) = true) as Hw by (unfold in_window; apply andb_true_iff; rewrite Z.leb_le, Z.ltb_lt; lia).
  change (log_entries (on_logs _ (w_db w))) with (log_entries (w_db w)). cbn [logs hourly_traffic on_logs on_hourly_traffic].
  rewrite rollup_traffic_lookup.
  - rewrite <-(group_window a b _ k) by done. cbv zeta. case_decide as Hg; [|done].
    destruct (hourly_traffic (logs (w_db w)) !! k) eqn:E; [|done]. exfalso. by apply (Hstale k Hw); [rewrite E|].
  - intros r. rewrite window_entries, list_elem_of_filter. intros [_ (id & Hr)%elem_of_log_entries]. by eapply Hn.
Qed.

(** ** Aggregates that summarise entries *)

(** One aggregate per key of the entries, with what the entries say. *)
Definition summarises (W : list (TrafficKey * TrafficAggregate)) (R : list log_entry) : Prop :=
  NoDup W.*1 ∧ ∀ k g, (k, g) ∈ W ↔ k ∈ entry_key <$> R ∧ g = aggregate (group entry_key k R).

Lemma group_nil k R : group entry_key k R = [] ↔ k ∉ entry_key <$> R.
Proof.
  rewrite list_elem_of_fmap. split.
  - intros E (r & -> & Hr). assert (r ∈ group entry_key (entry_key r) R) as H by (by apply elem_of_group). rewrite E in H. by apply elem_of_nil in H.
  - intros Hn. destruct (group entry_key k R) as [|r l] eqn:E; [done|]. exfalso. apply Hn.
    assert (r ∈ group entry_key k R) as Hr by (rewrite E; by left). apply elem_of_group in Hr as [<- Hr]. by exists r.
Qed.

(** The aggregates of a covered window. *)
Lemma covered_summarises a b d :
  hour_aligned a → hour_aligned b → covered a b d → summarises (window_aggregates a b d) (with_geo d <$> window_log a b d).
Proof.
  intros Ha Hb Hc. unfold window_aggregates. split.
  { apply (sublist_NoDup _ (map_to_list (hourly_traffic (logs d))).*1); [apply NoDup_fst_map_to_list|f_equiv; apply sublist_filter]. }
  intros k g. rewrite list_elem_of_filter, elem_of_map_to_list. cbn. split.
  - intros [Hw E]. assert (Hk := Hw). unfold in_window in Hk. apply andb_true_iff in Hk as [H1%Z.leb_le H2%Z.ltb_lt].
    rewrite (Hc k) in E by lia. cbv zeta in E. rewrite (group_window a b d k) in E by done. case_decide as Hg; [done|]. injection E as <-.
    split; [|done]. apply dec_stable. intros Hn. by apply Hg, group_nil.
  - intros [Hk ->]. assert (in_window a b (traffic_bucket k) = true) as Hw.
    { apply list_elem_of_fmap in Hk as (r & -> & Hr). rewrite window_entries in Hr. apply list_elem_of_filter in Hr as [Hr _].
      rewrite bucket_entry_key, in_window_bucket; done. }
    split; [done|]. assert (Hw' := Hw). unfold in_window in Hw'. apply andb_true_iff in Hw' as [H1%Z.leb_le H2%Z.ltb_lt].
    rewrite (Hc k) by lia. cbv zeta. rewrite (group_window a b d k) by done. case_decide as Hg; [|done]. by apply group_nil in Hg.
Qed.

Section summaries.
Context (W : list (TrafficKey * TrafficAggregate)) (R : list log_entry) (HS : summarises W R).

Lemma summarises_filter (P : TrafficKey → Prop) `{∀ k, Decision (P k)} :
  summarises (filter (λ kv, P kv.1) W) (filter (λ r, P (entry_key r)) R).
Proof.
  destruct HS as [Hnd HW]. split; [apply (sublist_NoDup _ W.*1); [done|f_equiv; apply sublist_filter]|].
  intros k g. rewrite list_elem_of_filter, HW. cbn. rewrite !list_elem_of_fmap. split.
  - intros (Hp & (r & -> & Hr) & ->). split; [exists r; split; [done|by apply list_elem_of_filter]|].
    f_equal. unfold group. rewrite list_filter_filter. apply filter_ext_in. intros r' _. split; [|by intros []]. by intros ->.
  - intros ((r & -> & [Hp Hr]%list_elem_of_filter) & ->). split; [done|]. split; [by exists r|].
    f_equal. unfold group. rewrite list_filter_filter. apply filter_ext_in. intros r' _. split; [by intros []|]. by intros ->.
Qed.

Lemma summarises_keys {B} (c : TrafficKey → B) x : x ∈ (λ kv, c kv.1) <$> W ↔ x ∈ (λ r, c (entry_key r)) <$> R.
Proof.
  destruct HS as [_ HW]. rewrite !list_elem_of_fmap. split.
  - intros ([k g] & -> & Hk). apply HW in Hk as [(r & -> & Hr)%list_elem_of_fmap _]. by exists r.
  - intros (r & -> & Hr). exists (entry_key r, aggregate (group entry_key (entry_key r) R)). split; [done|]. apply HW.
    split; [by apply list_elem_of_fmap_2|done].
Qed.

(** A column that is a sum over the group adds up to the sum over the entries. *)
Lemma summarises_zsum (col : TrafficAggregate → Z) (w : log_entry → Z) :
  (∀ l, col (aggregate l) = zsum (w <$> l)) → zsum ((λ kv, col kv.2) <$> W) = zsum (w <$> R).
Proof.
  intros Hcol. destruct HS as [Hnd HW].
  assert ((λ kv, col kv.2) <$> W = (λ k, zsum (w <$> group entry_key k R)) <$> W.*1) as ->.
  { rewrite <-list_fmap_compose. apply list_fmap_ext. intros i [k g] Hi%list_elem_of_lookup_2. cbn. apply HW in Hi as [_ ->]. apply Hcol. }
  apply zsum_groups; [done|]. intros r Hr. apply list_elem_of_fmap. exists (entry_key r, aggregate (group entry_key (entry_key r) R)).
  split; [done|]. apply HW. split; [by apply list_elem_of_fmap_2|done].
Qed.
End summaries.

Lemma requests_column l : agg_RequestCount (aggregate l) = zsum ((λ _, 1) <$> l).
Proof. cbn. rewrite zsum_const. lia. Qed.

Lemma durations_column l : agg_SumDurationUs (aggregate l) = zsum ((λ r : log_entry, log_DurationUs r.1) <$> l).
Proof. done. Qed.

(** [SUM(CASE WHEN p THEN request_count ELSE 0 END)] counts the entries. *)
Lemma summarises_sum_when W R (p : TrafficKey → bool) : summarises W R →
  sum_when (λ kv, p kv.1) (λ kv, agg_RequestCount kv.2) W = sum_when (λ r, p (entry_key r)) (λ _, 1) R.
Proof.
  intros HS. pose proof (summarises_zsum _ _ (summarises_filter _ _ HS (λ k, p k = true)) _ _ requests_column) as H.
  rewrite !zsum_filter in H. unfold sum_when. etrans; [etrans; [|exact H]|]; f_equal; apply list_fmap_ext; intros i x _; by destruct (p _).
Qed.

(** ** The dashboards *)

Lemma window_rows a b d : (window_log a b d).*2 = (with_geo d <$> window_log a b d).*1.
Proof. by rewrite <-list_fmap_compose. Qed.

Lemma sum_when_fmap {A B} (f : A → B) p w l : sum_when p w (f <$> l) = sum_when (λ x, p (f x)) (λ x, w (f x)) l.
Proof. unfold sum_when. by rewrite <-list_fmap_compose. Qed.

Lemma sum_when_ext {A} (p q : A → bool) w l : (∀ x, p x = q x) → sum_when p w l = sum_when q w l.
Proof. intros H. unfold sum_when. f_equal. apply list_fmap_ext. intros i x _. by rewrite H. Qed.

Lemma count_distinct_same {A} `{EqDecision A} (l k : list A) : (∀ x, x ∈ l ↔ x ∈ k) → count_distinct l = count_distinct k.
Proof.
  intros H. unfold count_distinct. f_equal. apply Permutation_length, NoDup_Permutation; [apply NoDup_remove_dups..|].
  intros x. by rewrite !elem_of_remove_dups.
Qed.

Lemma coalesce_is (o : option string) x : x ≠ ""%string → bool_decide (o = Some x) = bool_decide (coalesce o = x).
Proof. intros Hx. apply bool_decide_ext. destruct o as [y|]; cbn; split; congruence. Qed.

Lemma other_reason_coalesce (o : option string) : (match o with None => true | Some reason => other_reason reason end) = other_reason (coalesce o).
Proof. by destruct o. Qed.

Section dashboards.
Context (a b : time) (d : db) (Ha : hour_aligned a) (Hb : hour_aligned b) (Hc : covered a b d).

Let R : list log_entry := with_geo d <$> window_log a b d.

Lemma window_summarised : summarises (window_aggregates a b d) R.
Proof. by apply covered_summarises. Qed.

Lemma aggregate_count (p : TrafficKey → bool) (q : AccessLogRow → bool) :
  (∀ r, p (entry_key r) = q r.1) →
  sum_when (λ kv, p kv.1) (λ kv, agg_RequestCount kv.2) (window_aggregates a b d) = sum_when q (λ _, 1) (window_log a b d).*2.
Proof.
  intros Hp. rewrite (summarises_sum_when _ _ _ window_summarised), window_rows, sum_when_fmap. by apply sum_when_ext.
Qed.

Lemma summary_agrees : getAggregateSummaryStats a b d = getRawSummaryStats a b d.
Proof.
  assert (sum_when (λ _ : TrafficKey * TrafficAggregate, true) (λ kv, agg_RequestCount kv.2) (window_aggregates a b d) =
    Z.of_nat (length (window_log a b d).*2)) as Etotal.
  { rewrite (aggregate_count (λ _, true) (λ _, true)) by done. unfold sum_when. rewrite zsum_const. lia. }
  unfold getAggregateSummaryStats, getRawSummaryStats. cbv zeta. rewrite Etotal. f_equal.
  - by apply (aggregate_count key_outcome).
  - by apply (aggregate_count (λ k : TrafficKey, negb (key_outcome k)) (λ r, negb (log_Outcome r))).
  - pose proof (aggregate_count (λ k : TrafficKey, negb (key_outcome k) && bool_decide (key_reason k = ip_not_registered))
      (λ r : AccessLogRow, negb (log_Outcome r) && bool_decide (log_DenyReason r = Some ip_not_registered))) as H. apply H.
    intros r. f_equal. by rewrite coalesce_is.
  - pose proof (aggregate_count (λ k : TrafficKey, negb (key_outcome k) && bool_decide (key_reason k = host_not_allowed))
      (λ r : AccessLogRow, negb (log_Outcome r) && bool_decide (log_DenyReason r = Some host_not_allowed))) as H. apply H.
    intros r. f_equal. by rewrite coalesce_is.
  - pose proof (aggregate_count (λ k : TrafficKey, negb (key_outcome k) && other_reason (key_reason k))
      (λ r : AccessLogRow, negb (log_Outcome r) && match log_DenyReason r with None => true | Some reason => other_reason reason end)) as H. apply H.
    intros r. f_equal. by rewrite other_reason_coalesce.
  - apply count_distinct_same. intros ip. rewrite (summarises_keys _ _ window_summarised), window_rows, <-list_fmap_compose. done.
  - f_equal. rewrite (summarises_zsum _ _ window_summarised _ _ durations_column), window_rows, <-list_fmap_compose. done.
Qed.

(** Grouping by a column of the aggregates and by what it is of an entry. *)
Lemma grouped_agree {B C} `{EqDecision B} (cmp : B → B → comparison) `{!CmpOrder cmp} (c : TrafficKey → B) (c' : AccessLogRow → B)
    (P : TrafficKey → Prop) `{∀ k, Decision (P k)} (P' : AccessLogRow → Prop) `{∀ r, Decision (P' r)}
    (f : B → list (TrafficKey * TrafficAggregate) → C) (f' : B → list AccessLogRow → C) :
  (∀ r, c (entry_key r) = c' r.1) → (∀ r, P (entry_key r) ↔ P' r.1) →
  (∀ x W l, summarises W l → f x W = f' x l.*1) →
  let W := filter (λ kv, P kv.1) (window_aggregates a b d) in
  let l := filter P' (window_log a b d).*2 in
  ((λ x, f x (group (λ kv, c kv.1) x W)) <$> group_keys (λ kv, c kv.1) cmp W) = ((λ x, f' x (group c' x l)) <$> group_keys c' cmp l).
Proof.
  intros Hcc HPP Hf W l. pose proof (summarises_filter _ _ window_summarised P) as HS. fold W in HS.
  assert (l = (filter (λ r : log_entry, P (entry_key r)) R).*1) as El.
  { unfold l. rewrite window_rows, filter_fmap. fold R. f_equal. apply filter_ext_in. intros r _. by rewrite HPP. }
  assert (group_keys (λ kv, c kv.1) cmp W = group_keys c' cmp l) as ->.
  { apply group_keys_same. intros x. rewrite (summarises_keys _ _ HS), El, <-list_fmap_compose.
    rewrite !list_elem_of_fmap. split; intros (r & -> & Hr); exists r; (split; [|done]); cbn; by rewrite Hcc. }
  apply list_fmap_ext. intros i x _. rewrite El. unfold group. rewrite filter_fmap.
  pose proof (Hf x _ _ (summarises_filter _ _ HS (λ k, c k = x))) as E. etrans; [exact E|]. do 2 f_equal. apply filter_ext_in. intros r _. by rewrite Hcc.
Qed.

Lemma filter_true {A} (l : list A) : filter (λ _, True) l = l.
Proof. by apply filter_all. Qed.

Lemma allowed_denied W l : summarises W l →
  sum_when (λ kv, id (key_outcome kv.1)) (λ kv, agg_RequestCount kv.2) W = sum_when log_Outcome (λ _, 1) l.*1 ∧
  sum_when (λ kv, negb (key_outcome kv.1)) (λ kv, agg_RequestCount kv.2) W = sum_when (λ r, negb (log_Outcome r)) (λ _, 1) l.*1.
Proof.
  intros HS. split.
  - etrans; [exact (summarises_sum_when _ _ key_outcome HS)|by rewrite sum_when_fmap].
  - etrans; [exact (summarises_sum_when _ _ (λ k, negb (key_outcome k)) HS)|by rewrite sum_when_fmap].
Qed.

Lemma series_agrees g :
  g = GranularityHour ∨ g = GranularityDay → getAggregateTrafficSeries a b g d = getRawTrafficSeries a b g d.
Proof.
  intros Hg. pose proof (grouped_agree Z.compare (λ k, aggregate_bucket g (traffic_bucket k)) (λ r, BucketExpr g (log_CreatedAt r))
    (λ _, True) (λ _, True)
    (λ t W, mkTrafficBucket t (sum_when (λ kv, id (key_outcome kv.1)) (λ kv, agg_RequestCount kv.2) W)
                              (sum_when (λ kv, negb (key_outcome kv.1)) (λ kv, agg_RequestCount kv.2) W))
    (λ t l, mkTrafficBucket t (sum_when log_Outcome (λ _, 1) l) (sum_when (λ r, negb (log_Outcome r)) (λ _, 1) l))) as H.
  rewrite !filter_true in H. apply H; [|done|].
  - intros r. rewrite BucketExpr_TruncateToBucket. rewrite bucket_entry_key. destruct Hg as [-> | ->]; [done|]. cbn.
    unfold strftime_date, bucket_at, truncate, Day. set (t := log_CreatedAt _). unfold Hour, Minute, Second. Z.to_euclidean_division_equations; lia.
  - intros t W l HS. apply allowed_denied in HS as [-> ->]. done.
Qed.

Lemma services_agree : getAggregateServiceSplit a b d = getRawServiceSplit a b d.
Proof.
  pose proof (grouped_agree String.compare key_host (λ r, coalesce (log_TargetHost r)) (λ _, True) (λ _, True)
    (λ h W, mkServiceCount h (sum_when (λ kv, id (key_outcome kv.1)) (λ kv, agg_RequestCount kv.2) W)
                              (sum_when (λ kv, negb (key_outcome kv.1)) (λ kv, agg_RequestCount kv.2) W))
    (λ h l, mkServiceCount h (sum_when log_Outcome (λ _, 1) l) (sum_when (λ r, negb (log_Outcome r)) (λ _, 1) l))) as H.
  rewrite !filter_true in H. unfold getAggregateServiceSplit, getRawServiceSplit. cbv zeta. f_equal. apply H; [done|done|].
  intros h W l HS. apply allowed_denied in HS as [-> ->]. done.
Qed.

Lemma denied_ips_agree limit : getAggregateTopDeniedIPs a b limit d = getRawTopDeniedIPs a b limit d.
Proof.
  pose proof (grouped_agree String.compare key_ip log_ClientIP (λ k, key_outcome k = false) (λ r, log_Outcome r = false)
    (λ ip W, mkIPCount ip (zsum ((λ kv, agg_RequestCount kv.2) <$> W)) emptyGeo) (λ ip l, mkIPCount ip (Z.of_nat (length l)) emptyGeo)) as H.
  unfold getAggregateTopDeniedIPs, getRawTopDeniedIPs. cbv zeta. do 2 f_equal. apply H; [done|done|].
  intros ip W l HS. f_equal. rewrite (summarises_zsum _ _ HS _ _ requests_column), zsum_const, length_fmap. lia.
Qed.
End dashboards.

(** C8: where an hour-aligned window is covered, the aggregate path
    gives every dashboard the answer the log itself would give: the summary
    (counts, deny reasons, distinct addresses, average duration), the hourly
    and daily series, the services and the top denied addresses, in the same
    order. *)
Theorem aggregates_answer_like_log a b d limit :
  hour_aligned a → hour_aligned b → covered a b d →
  getAggregateSummaryStats a b d = getRawSummaryStats a b d ∧
  getAggregateTrafficSeries a b GranularityHour d = getRawTrafficSeries a b GranularityHour d ∧
  getAggregateTrafficSeries a b GranularityDay d = getRawTrafficSeries a b GranularityDay d ∧
  getAggregateServiceSplit a b d = getRawServiceSplit a b d ∧
  getAggregateTopDeniedIPs a b limit d = getRawTopDeniedIPs a b limit d.
Proof.
  intros Ha Hb Hc. split; [by apply summary_agrees|]. split; [apply series_agrees; auto|]. split; [apply series_agrees; auto|].
  split; [by apply services_agree|by apply denied_ips_agree].
Qed.
