(* ===== verification/RollupJobSpec.v ===== *)
(** * RollupJobSpec: what the rollup job covers

    The job's loop ends, a run covers every complete hour of the log
    whatever failed before, and it never touches the hours behind it; so an
    entry stored after its hour was rolled up is never aggregated. *)

From S2P Require Import Prelude GoLib Netip Compare GroupBy Schema Store Timebucket PolicyCache PolicyService AccessLog Rollup RollupSpec.

Local Open Scope Z_scope.
Local Open Scope list_scope.

(** ** The chunks of the loop *)

(** Adjacent windows of at most a day, from [a] to [z]. *)
Fixpoint adjacent (a : time) (cs : list (time * time)) (z : time) : Prop :=
  match cs with
  | [] => a = z
  | (x, y) :: cs => x = a ∧ a < y ∧ y - a ≤ catchUpChunk ∧ y ≤ z ∧ hour_aligned y ∧ adjacent y cs z
  end.

Lemma catchUpChunk_pos : 0 < catchUpChunk.
Proof. done. Qed.

Lemma aligned_add_chunk t : hour_aligned t → hour_aligned (t + catchUpChunk).
Proof. intros [n ->]. exists (n + 24). unfold catchUpChunk. lia. Qed.

Lemma chunks_adjacent fuel a z :
  a ≤ z → hour_aligned a → hour_aligned z → (0 < fuel)%nat → z - a ≤ (Z.of_nat fuel - 1) * catchUpChunk →
  ∃ cs, chunks fuel a z = Some cs ∧ adjacent a cs z.
Proof.
  intros Haz Ha Hz Hf Hle. pose proof catchUpChunk_pos as Hc. pose proof (aligned_add_chunk) as Hal.
  revert a Haz Ha Hf Hle. induction fuel as [|fuel IH]; intros a Haz Ha Hf Hle; [lia|]. cbn [chunks].
  destruct (Z.ltb_spec a z) as [Hlt|]; [|exists []; split; [done|cbn; lia]].
  assert (0 < fuel)%nat as Hf' by (destruct fuel; nia).
  destruct (Z.ltb_spec z (a + catchUpChunk)) as [Hlast|Hmore].
  - destruct (IH z ltac:(lia) Hz Hf') as (cs & -> & Hcs); [nia|]. exists ((a, z) :: cs). split; [done|]. cbn. repeat split; (done || lia).
  - destruct (IH (a + catchUpChunk) ltac:(lia) (Hal _ Ha) Hf') as (cs & -> & Hcs); [nia|].
    exists ((a, a + catchUpChunk) :: cs). split; [done|]. cbn. repeat split; try (done || lia). by apply Hal.
Qed.

(** The fuel of [RollupJob_Run] is enough. *)
Lemma chunks_enough a z :
  a ≤ z → hour_aligned a → hour_aligned z → ∃ cs, chunks (catch_up_fuel a z) a z = Some cs ∧ adjacent a cs z.
Proof.
  intros Haz Ha Hz. pose proof catchUpChunk_pos as Hc. unfold catch_up_fuel.
  pose proof (Z.div_pos (z - a) catchUpChunk ltac:(lia) ltac:(lia)). pose proof (Z.mod_pos_bound (z - a) catchUpChunk ltac:(lia)).
  pose proof (Z.div_mod (z - a) catchUpChunk ltac:(lia)). apply chunks_adjacent; [done..|lia|]. rewrite Z2Nat.id by lia. nia.
Qed.

(** ** What the rollup of a window does *)

(** The log itself is the same. *)
Definition same_log (d d' : db) : Prop := access_log (logs d') = access_log (logs d) ∧ access_log_geoip (logs d') = access_log_geoip (logs d).

Lemma same_log_trans d1 d2 d3 : same_log d1 d2 → same_log d2 d3 → same_log d1 d3.
Proof. intros [A B] [C D]. split; congruence. Qed.

Lemma same_log_entries d d' : same_log d d' → log_entries d' = log_entries d.
Proof.
  intros [E1 E2]. unfold log_entries. rewrite E1. apply list_fmap_ext. intros i x _. unfold with_geo. by rewrite E2.
Qed.

Lemma normalised_same d d' : same_log d d' → normalised_log d → normalised_log d'.
Proof. intros [E _] H id r. rewrite E. apply H. Qed.

(** The entries of the log that count under a key. *)
Definition log_group (k : TrafficKey) (d : db) : list log_entry := group entry_key k (log_entries d).

Lemma log_group_bucket k d r : r ∈ log_group k d → r ∈ log_entries d ∧ traffic_bucket k = bucket_at (log_CreatedAt r.1).
Proof. unfold log_group. intros [<- Hr]%elem_of_group. done. Qed.

Lemma log_group_aligned k d : log_group k d ≠ [] → hour_aligned (traffic_bucket k).
Proof.
  destruct (log_group k d) as [|r l] eqn:E; [done|]. intros _. assert (r ∈ log_group k d) as Hr by (rewrite E; by left).
  apply log_group_bucket in Hr as [_ ->]. apply bucket_at_aligned.
Qed.

(** From [d] to [d'] the hours of [P] are rolled up: each of their keys with an
    entry in the log holds what the log says, and nothing else changes. *)
Record rolls (P : time → Prop) (d d' : db) : Prop := mkRolls {
  ro_log : same_log d d';
  ro_exact : ∀ k, P (traffic_bucket k) → log_group k d ≠ [] → hourly_traffic (logs d') !! k = Some (aggregate (log_group k d));
  ro_rest : ∀ k, ¬ (P (traffic_bucket k) ∧ log_group k d ≠ []) → hourly_traffic (logs d') !! k = hourly_traffic (logs d) !! k;
}.

Lemma rolls_none P d d' :
  same_log d d' → hourly_traffic (logs d') = hourly_traffic (logs d) →
  (∀ k, P (traffic_bucket k) → log_group k d = []) → rolls P d d'.
Proof. intros Hs Ht Hn. split; [done| |by intros; rewrite Ht]. intros k Hk Hg. by rewrite (Hn k Hk) in Hg. Qed.

Lemma rolls_ext P Q d d' : (∀ k, log_group k d ≠ [] → P (traffic_bucket k) ↔ Q (traffic_bucket k)) → rolls P d d' → rolls Q d d'.
Proof.
  intros Hpq [Hs He Hr]. split; [done| |].
  - intros k Hk Hg. apply He; [by apply Hpq|done].
  - intros k Hn. apply Hr. intros [Hk Hg]. apply Hn. split; [by apply Hpq|done].
Qed.

Lemma rolls_seq P Q `{∀ t, Decision (P t)} `{∀ t, Decision (Q t)} d d1 d2 : rolls P d d1 → rolls Q d1 d2 → rolls (λ t, P t ∨ Q t) d d2.
Proof.
  intros [Hs1 He1 Hr1] [Hs2 He2 Hr2].
  assert (∀ k, log_group k d1 = log_group k d) as Hg by (intros k; unfold log_group; by rewrite (same_log_entries _ _ Hs1)).
  setoid_rewrite Hg in He2. setoid_rewrite Hg in Hr2. split; [by eapply same_log_trans| |].
  - intros k Hk Hne. destruct (decide (Q (traffic_bucket k))) as [Hq|Hq]; [by apply He2|]. rewrite Hr2 by tauto. apply He1; tauto.
  - intros k Hn. rewrite Hr2, Hr1 by tauto. done.
Qed.

(** One statement. *)
Lemma RunRollup_rolls a b tx w w' :
  hour_aligned a → hour_aligned b → normalised_log (w_db w) →
  RunRollup a b tx w = (Ok tt, w') → rolls (λ t, a ≤ t < b) (w_db w) (w_db w').
Proof.
  intros Ha Hb Hn E. apply (exec_Ok _ tx) in E as (d' & [= <-] & -> & _). set (d := w_db w) in *.
  assert (∀ k, hourly_traffic (logs (on_logs (on_hourly_traffic (rollup_traffic (with_geo d <$> window_log a b d))) d)) !! k =
    if decide (group entry_key k (with_geo d <$> window_log a b d) = []) then hourly_traffic (logs d) !! k
    else Some (aggregate (group entry_key k (with_geo d <$> window_log a b d)))) as Hl.
  { intros k. cbn [logs hourly_traffic on_logs on_hourly_traffic]. apply rollup_traffic_lookup. intros r.
    rewrite window_entries, list_elem_of_filter. intros [_ (id & Hr)%elem_of_log_entries]. by eapply Hn. }
  assert (∀ k, in_window a b (traffic_bucket k) = true ↔ a ≤ traffic_bucket k < b) as Hw.
  { intros k. unfold in_window. rewrite andb_true_iff, Z.leb_le, Z.ltb_lt. done. }
  split; [done| |].
  - intros k Hk Hg. rewrite Hl. apply Hw in Hk. unfold log_group in *. rewrite (group_window a b) in Hg |- * by done. by rewrite decide_False.
  - intros k Hk. rewrite Hl. case_decide as Hg; [done|]. exfalso. apply Hk. destruct (group entry_key k _) as [|r l] eqn:E; [done|].
    assert (r ∈ group entry_key k (with_geo d <$> window_log a b d)) as Hr by (rewrite E; by left).
    apply elem_of_group in Hr as [<- Hr]. rewrite window_entries, list_elem_of_filter in Hr. destruct Hr as [Hi Hr].
    rewrite <-(in_window_bucket a b) in Hi by done. split; [by apply Hw|]. intros Hn'. apply (not_elem_of_nil r). rewrite <-Hn'.
    unfold log_group. by apply elem_of_group.
Qed.

(** ** The loop *)

(** Only the attribution aggregates differ. *)
Definition same_traffic (d d' : db) : Prop := same_log d d' ∧ hourly_traffic (logs d') = hourly_traffic (logs d).

Lemma RunAttributionRollup_same kinds a b d0 : keeps (same_traffic d0) (RunAttributionRollup kinds a b).
Proof. apply keeps_for_each. intros kind. apply keeps_exec. by intros t d x d' H [= <- <-]. Qed.

Lemma RunAttributionRollup_quiet kinds a b tx w :
  no_faults w → ∃ w', RunAttributionRollup kinds a b tx w = (Ok tt, w') ∧ no_faults w'.
Proof.
  revert w. unfold RunAttributionRollup. induction kinds as [|kind kinds IH]; intros w Hw; [by exists w|].
  cbn [for_each]. rewrite bind_run, exec_run by done. by apply IH.
Qed.

Lemma same_traffic_rolls P d d1 d2 : rolls P d d1 → same_traffic d1 d2 → rolls P d d2.
Proof. intros [Hs He Hr] [Hs' Ht]. split; [by eapply same_log_trans|by rewrite Ht..]. Qed.

(** One chunk: its hours are rolled up, or nothing is. *)
Lemma chunk_rolls kinds a b tx w r w' :
  hour_aligned a → hour_aligned b → normalised_log (w_db w) →
  (_ ← RunRollup a b; RunAttributionRollup kinds a b) tx w = (r, w') →
  (rolls (λ t, a ≤ t < b) (w_db w) (w_db w') ∨ r ≠ Ok tt ∧ w_db w' = w_db w) ∧ (no_faults w → r = Ok tt ∧ no_faults w').
Proof.
  intros Ha Hb Hn E. rewrite bind_run in E. destruct (RunRollup a b tx w) as [[[]|e] w1] eqn:E1.
  - pose proof (RunRollup_rolls _ _ _ _ _ Ha Hb Hn E1) as Hr.
    pose proof (RunAttributionRollup_same kinds a b (w_db w1) tx w1 ltac:(by repeat split)) as Hs. rewrite E in Hs. cbn in Hs.
    split; [left; by eapply same_traffic_rolls|]. intros Hw. unfold RunRollup in E1. rewrite exec_run in E1 by done. injection E1 as <-.
    destruct (RunAttributionRollup_quiet kinds a b tx _ (no_faults_set_db (on_logs (on_hourly_traffic
      (rollup_traffic (with_geo (w_db w) <$> window_log a b (w_db w)))) (w_db w)) w Hw)) as (w2 & E2 & Hw2).
    rewrite E2 in E. by injection E as <- <-.
  - injection E as <- <-. split.
    + right. split; [done|]. unfold RunRollup, exec in E1.
      destruct (pop_fault w) as [[x|] w2] eqn:Ef; apply pop_fault_db in Ef as (Ef & _); [by injection E1 as <- <-|discriminate E1].
    + intros Hw. unfold RunRollup in E1. by rewrite exec_run in E1.
Qed.

(** The loop from [a] to [z]: it rolls up the hours from [a] to some [u], and
    the job stands at [u] or before, short of nothing it has passed. *)
Lemma catch_up_rolls kinds cs : ∀ a z j tx w r w',
  adjacent a cs z → hour_aligned a → normalised_log (w_db w) → catch_up kinds cs j tx w = (r, w') →
  ∃ j' res u, r = Ok (j', res) ∧ rolls (λ t, a ≤ t < u) (w_db w) (w_db w') ∧ a ≤ u ≤ z ∧ initialized j' = initialized j ∧
    (j' = j ∨ ∃ L, lastRollupAt j' = Some L ∧ hour_aligned L ∧ a < L ≤ u) ∧
    (res = Ok tt → u = z ∧ (a < z → lastRollupAt j' = Some z)) ∧
    (no_faults w → res = Ok tt).
Proof.
  induction cs as [|[x y] cs IH]; intros a z j tx w r w' Hadj Ha Hn E.
  - cbn in Hadj. subst z. injection E as <- <-. exists j, (Ok tt), a. split; [done|]. split; [apply rolls_none; [done..|lia]|].
    split; [lia|]. split; [done|]. split; [by left|]. split; [intros _; split; lia|done].
  - destruct Hadj as (-> & Hay & _ & Hyz & Hy & Hadj). cbn [catch_up] in E. rewrite bind_run in E. unfold try at 1 in E.
    destruct ((_ ← RunRollup a y; RunAttributionRollup (kinds a) a y) tx w) as [r1 w1] eqn:E1.
    destruct (chunk_rolls _ _ _ _ _ _ _ Ha Hy Hn E1) as (Hch & Hnf).
    destruct r1 as [[]|e].
    + destruct Hch as [Hch|[? _]]; [|done].
      destruct (IH y z (mkRollupJob (Some y) (initialized j)) tx w1 r w' Hadj Hy (normalised_same _ _ (ro_log _ _ _ Hch) Hn) E)
        as (j' & res & u & -> & Hu & Hle & Hi & Hj & Hz & Hnf').
      exists j', res, u. split; [done|]. split.
      { eapply rolls_ext; [|exact (rolls_seq _ _ _ _ _ Hch Hu)]. intros k _. cbn. lia. }
      split; [lia|]. split; [done|].
      split; [right; destruct Hj as [->|(L & EL & HL & HyL)]; [exists y|exists L]; cbn; repeat split; (done || lia)|].
      split; [|intros Hw; apply Hnf', Hnf, Hw]. intros Hres. destruct (Hz Hres) as [H1 H2]. split; [done|]. intros _.
      destruct (Z.lt_ge_cases y z) as [?|?]; [by apply H2|]. assert (y = z) as <- by lia.
      destruct Hj as [->|(L & EL & _ & HyL)]; [done|]. exfalso. destruct cs as [|[x y'] cs]; [|cbn in Hadj; lia].
      cbn in E. injection E as <- <-. cbn in EL. injection EL as <-. lia.
    + injection E as <- <-. assert (∃ u, rolls (λ t, a ≤ t < u) (w_db w) (w_db w1) ∧ a ≤ u ≤ z) as (u & Hu & Hle).
      { destruct Hch as [Hch|[_ ->]]; [exists y|exists a]; (split; [|lia]); [done|apply rolls_none; [done..|lia]]. }
      exists j, (Err e), u. split; [done|]. split; [done|]. split; [done|]. split; [done|]. split; [by left|]. split; [done|].
      intros Hw. by destruct (Hnf Hw).
Qed.

(** ** The job *)

Lemma max_time_Some l m : max_time l = Some m → m ∈ l ∧ ∀ x, x ∈ l → x ≤ m.
Proof.
  destruct l as [|t l]; [done|]. intros [= <-]. induction l as [|y l IH]; cbn [foldr].
  - split; [by left|]. intros x [->|H%elem_of_nil]%elem_of_cons; [lia|done].
  - destruct IH as [Hin Hle]. split.
    + destruct (Z.max_spec y (foldr Z.max t l)) as [[_ ->]|[_ ->]]; [|right; by left].
      apply elem_of_cons in Hin as [Hin|Hin]; [rewrite Hin; by left|right; by right].
    + intros x Hx. apply elem_of_cons in Hx as [->|Hx]; [specialize (Hle t ltac:(by left)); lia|].
      apply elem_of_cons in Hx as [->|Hx]; [lia|]. specialize (Hle x ltac:(by right)). lia.
Qed.

Lemma min_time_Some l m : min_time l = Some m → m ∈ l ∧ ∀ x, x ∈ l → m ≤ x.
Proof.
  destruct l as [|t l]; [done|]. intros [= <-]. induction l as [|y l IH]; cbn [foldr].
  - split; [by left|]. intros x [->|H%elem_of_nil]%elem_of_cons; [lia|done].
  - destruct IH as [Hin Hle]. split.
    + destruct (Z.min_spec y (foldr Z.min t l)) as [[_ ->]|[_ ->]]; [right; by left|].
      apply elem_of_cons in Hin as [Hin|Hin]; [rewrite Hin; by left|right; by right].
    + intros x Hx. apply elem_of_cons in Hx as [->|Hx]; [specialize (Hle t ltac:(by left)); lia|].
      apply elem_of_cons in Hx as [->|Hx]; [lia|]. specialize (Hle x ltac:(by right)). lia.
Qed.

(** The hour a job has rolled up to: its own, or what the database says. *)
Definition last_bucket (d : db) : option time := max_time ((λ kv, traffic_bucket kv.1) <$> map_to_list (hourly_traffic (logs d))).

Definition job_last (j : RollupJob) (d : db) : option time :=
  if initialized j then lastRollupAt j
  else match last_bucket d with Some b => Some (b + Hour) | None => lastRollupAt j end.

(** The hours a job that stands at [o] has still to roll up. *)
Definition open_hour (o : option time) (t : time) : Prop := match o with Some L => L ≤ t | None => True end.

#[export] Instance open_hour_dec o t : Decision (open_hour o t).
Proof. destruct o; cbn; apply _. Defined.

(** It stands at the start of an hour. *)
Definition on_the_hour (o : option time) : Prop := match o with Some L => hour_aligned L | None => True end.

Lemma try_query {A} (f : time → db → A) tx w :
  ∃ r w', try (query f) tx w = (Ok r, w') ∧ w_db w' = w_db w ∧ w_now w' = w_now w ∧
    (r = Ok (f (w_now w) (w_db w)) ∨ ∃ e, r = Err e) ∧ (no_faults w → r = Ok (f (w_now w) (w_db w)) ∧ w' = w).
Proof.
  unfold try, query. destruct (pop_fault w) as [[b|] w1] eqn:E; assert (E' := E); apply pop_fault_db in E' as (Ed & En & _).
  - exists (Err (ErrSQL b)), w1. repeat (split; [done|]). split; [right; by eexists|]. intros Hw. by rewrite pop_fault_none in E.
  - exists (Ok (f (w_now w1) (w_db w1))), w1. rewrite Ed, En. repeat (split; [done|]). split; [by left|]. intros Hw.
    rewrite pop_fault_none in E by done. by injection E as <-.
Qed.

Lemma truncate_aligned t : hour_aligned (truncate Hour t).
Proof. by exists (t / Hour). Qed.

Lemma truncate_mono t u : t ≤ u → truncate Hour t ≤ truncate Hour u.
Proof. intros H. unfold truncate. pose proof Hour_pos. apply Z.mul_le_mono_nonneg_r; [lia|]. apply Z.div_le_mono; lia. Qed.

(** Before where a run got, if it got anywhere. *)
Definition before (u : option time) (t : time) : Prop := match u with Some u => t < u | None => False end.

#[export] Instance before_dec u t : Decision (before u t).
Proof. destruct u; cbn; apply _. Defined.

(** What one run of a job that stands at [o] promises: it rolls up open and
    complete hours and changes nothing else; it passes no open hour it has
    not rolled up; a run that succeeds leaves no complete hour open. *)
Definition run_ok (o : option time) (w : world) (out : result (RollupJob * result unit) * world) : Prop :=
  ∃ j' res u w', out = (Ok (j', res), w') ∧
    rolls (λ t, open_hour o t ∧ before u t) (w_db w) (w_db w') ∧
    (∀ t, open_hour o t → before u t → t < truncate Hour (w_now w)) ∧
    (let o' := job_last j' (w_db w') in
     on_the_hour o' ∧ (∀ t, open_hour o' t → open_hour o t) ∧ (∀ t, open_hour o t → ¬ open_hour o' t → before u t) ∧
     (res = Ok tt → initialized j' = true ∧ ∀ t, t < truncate Hour (w_now w) → ¬ open_hour o' t)) ∧
    (no_faults w → res = Ok tt).

(** A run that stays where it is. *)
Lemma run_ok_idle o w w' j' res :
  w_db w' = w_db w → job_last j' (w_db w) = o → on_the_hour o → (no_faults w → res = Ok tt) →
  (res = Ok tt → initialized j' = true ∧ ∀ t, t < truncate Hour (w_now w) → ¬ open_hour o t) →
  run_ok o w (Ok (j', res), w').
Proof.
  intros Ed Hj Ho Hnf Hres. exists j', res, None, w'. split; [done|]. rewrite Ed, Hj. split; [apply rolls_none; [done..|by intros k []]|].
  split; [by intros t _ []|]. split; [|done]. split; [done|]. split; [done|]. by split.
Qed.

(** Where no open hour that is complete has an entry, it moves on. *)
Lemma run_ok_skip o w j :
  initialized j = true → (∀ L, o = Some L → L < truncate Hour (w_now w)) →
  (∀ k, open_hour o (traffic_bucket k) → traffic_bucket k < truncate Hour (w_now w) → log_group k (w_db w) = []) →
  run_ok o w (Ok (mkRollupJob (Some (truncate Hour (w_now w))) (initialized j), Ok tt), w).
Proof.
  intros Hi Hlt Hn. exists (mkRollupJob (Some (truncate Hour (w_now w))) (initialized j)), (Ok tt), (Some (truncate Hour (w_now w))), w.
  split; [done|]. split; [apply rolls_none; [done..|]; intros k []; by apply Hn|]. split; [done|]. split; [|done].
  unfold job_last. cbn. rewrite Hi. split; [apply truncate_aligned|]. split; [|split; [|split; [done|]]]; intros t; cbn; try lia.
  intros Ht. destruct o as [L|]; [|done]. specialize (Hlt L eq_refl). cbn. lia.
Qed.

(** The entries of the log are of the hour of the earliest one or later. *)
Lemma earliest_groups e d k :
  min_time (log_CreatedAt <$> rows (access_log (logs d))) = Some e → log_group k d ≠ [] → truncate Hour e ≤ traffic_bucket k.
Proof.
  intros [_ Hmin]%min_time_Some Hg. destruct (log_group k d) as [|r l] eqn:E; [done|].
  assert (r ∈ log_group k d) as Hr by (rewrite E; by left). apply log_group_bucket in Hr as [(id & Hr)%elem_of_log_entries ->].
  apply truncate_mono, Hmin, list_elem_of_fmap_2, elem_of_rows. by exists id.
Qed.

Lemma no_entries d k : min_time (log_CreatedAt <$> rows (access_log (logs d))) = None → log_group k d = [].
Proof.
  intros Hm. destruct (log_group k d) as [|r l] eqn:E; [done|]. exfalso. assert (r ∈ log_group k d) as Hr by (rewrite E; by left).
  apply log_group_bucket in Hr as [(id & Hr)%elem_of_log_entries _]. assert (r.1 ∈ rows (access_log (logs d))) as Hin by (apply elem_of_rows; by exists id).
  unfold min_time in Hm. destruct (rows _); [by apply elem_of_nil in Hin|done].
Qed.

(** A job that knows where it stands, behind the current hour. *)
Lemma catch_up_ok kinds j tx w from cs :
  let cur := truncate Hour (w_now w) in
  normalised_log (w_db w) → initialized j = true → on_the_hour (lastRollupAt j) →
  hour_aligned from → from < cur → adjacent from cs cur →
  (∀ t, from ≤ t → open_hour (lastRollupAt j) t) →
  (∀ k, log_group k (w_db w) ≠ [] → open_hour (lastRollupAt j) (traffic_bucket k) → from ≤ traffic_bucket k) →
  run_ok (lastRollupAt j) w (catch_up kinds cs j tx w).
Proof.
  intros cur Hn Hi Ho Ha Hlt Hadj Hopen Hgroups. destruct (catch_up kinds cs j tx w) as [r w'] eqn:E.
  destruct (catch_up_rolls kinds cs _ _ _ _ _ _ _ Hadj Ha Hn E) as (j' & res & u & -> & Hr & Hle & Hi' & Hj' & Hres & Hnf).
  exists j', res, (Some u), w'. split; [done|]. split; [|split; [|split; [|done]]].
  - eapply rolls_ext; [|exact Hr]. intros k Hg. cbn. split; [intros [? ?]; split; [by apply Hopen|done]|intros [? ?]; split; [by apply Hgroups|done]].
  - intros t _. cbn. fold cur. lia.
  - assert (job_last j' (w_db w') = lastRollupAt j') as -> by (unfold job_last; by rewrite Hi', Hi). split; [|split; [|split]].
    + destruct Hj' as [->|(L & -> & HL & _)]; done.
    + destruct Hj' as [->|(L & -> & _ & HL)]; [done|]. intros t Ht. cbn in Ht. apply Hopen. lia.
    + destruct Hj' as [->|(L & -> & _ & HL)]; [done|]. intros t _ Ht. cbn in *. lia.
    + intros Hok. destruct (Hres Hok) as [_ Hz]. rewrite Hi', Hi, (Hz Hlt). split; [done|]. intros t Ht. cbn. fold cur in Ht. lia.
Qed.

Lemma run_ok_world o w w1 out : w_db w1 = w_db w → w_now w1 = w_now w → (no_faults w → no_faults w1) → run_ok o w1 out → run_ok o w out.
Proof.
  intros Ed En Hf (j' & res & u & w' & E & Hr & Hc & Ho & Hnf). rewrite Ed in *. rewrite En in *. exists j', res, u, w'. auto 10.
Qed.

(** The rest of a run of a job that knows where it stands. *)
Definition after_seed (kinds : time → list AttributionKind) (currentHour : time) (j : RollupJob) : M (RollupJob * result unit) :=
  if match lastRollupAt j with Some last => negb (last <? currentHour) | None => false end then mret (j, Ok tt)
  else
    earliest ← try EarliestAccessLogAt;
    match earliest with
    | Err e => mret (j, Err e)
    | Ok None => mret (mkRollupJob (Some currentHour) (initialized j), Ok tt)
    | Ok (Some e) =>
        let earliestHour := truncate Hour e in
        let from := match lastRollupAt j with Some last => if last <? earliestHour then earliestHour else last | None => earliestHour end in
        if negb (from <? currentHour) then mret (mkRollupJob (Some currentHour) (initialized j), Ok tt)
        else match chunks (catch_up_fuel from currentHour) from currentHour with
             | Some cs => catch_up kinds cs j
             | None => mret (j, Ok tt)
             end
    end.

(** The run once the earliest entry is known. *)
Lemma earliest_ok kinds j tx w :
  let cur := truncate Hour (w_now w) in
  normalised_log (w_db w) → initialized j = true → on_the_hour (lastRollupAt j) → (∀ L, lastRollupAt j = Some L → L < cur) →
  run_ok (lastRollupAt j) w
    (match min_time (log_CreatedAt <$> rows (access_log (logs (w_db w)))) with
     | None => (Ok (mkRollupJob (Some cur) (initialized j), Ok tt), w)
     | Some e =>
         let earliestHour := truncate Hour e in
         let from := match lastRollupAt j with Some last => if last <? earliestHour then earliestHour else last | None => earliestHour end in
         if negb (from <? cur) then (Ok (mkRollupJob (Some cur) (initialized j), Ok tt), w)
         else match chunks (catch_up_fuel from cur) from cur with
              | Some cs => catch_up kinds cs j tx w
              | None => (Ok (j, Ok tt), w)
              end
     end).
Proof.
  intros cur Hn Hi Ho HL. destruct (min_time _) as [e|] eqn:Em; [|apply run_ok_skip; [done..|]; intros k _ _; by apply no_entries].
  pose proof (λ k, earliest_groups e (w_db w) k Em) as Hgr. cbv zeta.
  set (from := match lastRollupAt j with Some last => _ | None => _ end).
  assert (hour_aligned from ∧ (∀ t, from ≤ t ↔ open_hour (lastRollupAt j) t ∧ truncate Hour e ≤ t)) as [Ha Hfrom].
  { unfold from. destruct (lastRollupAt j) as [L|]; cbn; [|split; [apply truncate_aligned|tauto]].
    destruct (Z.ltb_spec L (truncate Hour e)); (split; [apply truncate_aligned || done|intros t; lia]). }
  clearbody from. destruct (Z.ltb_spec from cur) as [Hlt|Hge]; cbn [negb].
  - destruct (chunks_enough from cur ltac:(lia) Ha (truncate_aligned _)) as (cs & -> & Hcs).
    apply (catch_up_ok kinds j tx w from cs); try done; [intros t Ht; by apply Hfrom|]. intros k Hg Hk. apply Hfrom. split; [done|by apply Hgr].
  - apply run_ok_skip; [done..|]. intros k Hk Hlt. destruct (decide (log_group k (w_db w) = [])) as [?|Hg]; [done|]. exfalso.
    assert (from ≤ traffic_bucket k) by (apply Hfrom; split; [done|by apply Hgr]). fold cur in Hlt. lia.
Qed.

Lemma after_seed_ok kinds j tx w :
  normalised_log (w_db w) → initialized j = true → on_the_hour (lastRollupAt j) →
  run_ok (lastRollupAt j) w (after_seed kinds (truncate Hour (w_now w)) j tx w).
Proof.
  intros Hn Hi Ho. set (cur := truncate Hour (w_now w)).
  assert (job_last j (w_db w) = lastRollupAt j) as Hj by (unfold job_last; by rewrite Hi).
  assert (match lastRollupAt j with Some last => negb (last <? cur) | None => false end = false → ∀ L, lastRollupAt j = Some L → L < cur) as Hlt.
  { intros E L EL. rewrite EL in E. apply negb_false_iff, Z.ltb_lt in E. done. }
  unfold after_seed. destruct (match lastRollupAt j with Some last => _ | None => _ end) eqn:Ec.
  - rewrite ret_run. apply run_ok_idle; [done|done|done|done|]. intros _. split; [done|]. destruct (lastRollupAt j) as [L|]; [|done].
    apply negb_true_iff, Z.ltb_ge in Ec. intros t Ht. cbn. fold cur in Ht. lia.
  - specialize (Hlt eq_refl). rewrite bind_run. unfold EarliestAccessLogAt.
    destruct (try_query (λ _ d, min_time (log_CreatedAt <$> rows (access_log (logs d)))) tx w) as (r & w1 & -> & Ed & En & Hr & Hnf).
    destruct Hr as [-> | (e & ->)].
    + apply (run_ok_world _ _ w1); [done|done|by intros ?; destruct (Hnf ltac:(done)) as [_ ->]|].
      pose proof (earliest_ok kinds j tx w1) as H. cbv zeta in H. rewrite Ed, En in H. specialize (H Hn Hi Ho Hlt).
      destruct (min_time _) as [e|]; [|exact H]. cbv zeta in *. fold cur in H. destruct (negb _); [exact H|]. by destruct (chunks _ _ _).
    + rewrite ret_run. apply run_ok_idle; [done|done|done| |done]. intros Hw. by destruct (Hnf Hw).
Qed.

(** The first step of a run: the job learns where the aggregates end. *)
Definition seeded (j : RollupJob) (d : db) : RollupJob := mkRollupJob (job_last j d) true.

Lemma RollupJob_Run_eq kinds j tx w :
  ∃ w1, w_db w1 = w_db w ∧ w_now w1 = w_now w ∧ (no_faults w → w1 = w) ∧
    ((¬ no_faults w ∧ ∃ e, RollupJob_Run kinds j tx w = (Ok (j, Err e), w1)) ∨
     RollupJob_Run kinds j tx w = after_seed kinds (truncate Hour (w_now w)) (seeded j (w_db w)) tx w1).
Proof.
  unfold RollupJob_Run. destruct (initialized j) eqn:Ei.
  - exists w. repeat (split; [done|]). right. assert (seeded j (w_db w) = j) as ->.
    { unfold seeded, job_last. rewrite Ei. by destruct j; cbn in *; subst. }
    by rewrite bind_run, now_run, bind_run, ret_run.
  - destruct (try_query (λ _ d, last_bucket d) tx w) as (r & w1 & E & Ed & En & Hr & Hnf). exists w1. split; [done|]. split; [done|].
    split; [by intros ?; apply Hnf|]. rewrite bind_run, now_run, bind_run, bind_run.
    change LastRollupAt with (query (λ _ d, last_bucket d)). rewrite E, ret_run. destruct Hr as [-> | (e & ->)].
    + right. unfold seeded, job_last. rewrite Ei. by destruct (last_bucket (w_db w)) as [b|].
    + left. split; [|by exists e]. intros Hw. by destruct (Hnf Hw).
Qed.

Lemma RollupJob_Run_ok kinds j tx w :
  normalised_log (w_db w) → on_the_hour (job_last j (w_db w)) → run_ok (job_last j (w_db w)) w (RollupJob_Run kinds j tx w).
Proof.
  intros Hn Ho. destruct (RollupJob_Run_eq kinds j tx w) as (w1 & Ed & En & Hnf & [[Hbad [e ->]] | ->]).
  { apply run_ok_idle; [done|done|done|by intros ?|done]. }
  apply (run_ok_world _ _ w1); [done|done|by intros ?; rewrite Hnf|]. rewrite <-En.
  apply (after_seed_ok kinds (seeded j (w_db w)) tx w1); [by rewrite Ed|done|done].
Qed.

(** C7: a run of the rollup job, on a log without empty texts (the handler's
    events have none) and with the job at the start of an hour (where every
    run leaves it), ends, whatever statements fail in it, and without faults
    it succeeds.  It never touches the log, nor any aggregate of an hour
    behind where the job stands or not complete yet; from there on it rolls
    up hours in order, each key with an entry in the log getting exactly what
    the log says at the time of the run, and keys without one are left alone;
    the job never passes an hour it has not rolled up, never goes back, and a
    run that succeeds leaves it past every complete hour. *)
Theorem RollupJob_Run_covers kinds j tx w :
  normalised_log (w_db w) → on_the_hour (job_last j (w_db w)) →
  let o := job_last j (w_db w) in
  ∃ j' res u w', RollupJob_Run kinds j tx w = (Ok (j', res), w') ∧
    rolls (λ t, open_hour o t ∧ before u t) (w_db w) (w_db w') ∧
    (∀ t, open_hour o t → before u t → t < truncate Hour (w_now w)) ∧
    (let o' := job_last j' (w_db w') in
     on_the_hour o' ∧ (∀ t, open_hour o' t → open_hour o t) ∧ (∀ t, open_hour o t → ¬ open_hour o' t → before u t) ∧
     (res = Ok tt → initialized j' = true ∧ ∀ t, t < truncate Hour (w_now w) → ¬ open_hour o' t)) ∧
    (no_faults w → res = Ok tt).
Proof. apply RollupJob_Run_ok. Qed.

(** Hours are closed once: a run never changes the traffic aggregates of an
    hour before the one the job stands at, whatever the log holds by then
    and whatever fails. *)
Theorem closed_hours_stay kinds j tx w L k :
  normalised_log (w_db w) → job_last j (w_db w) = Some L → hour_aligned L → traffic_bucket k < L →
  hourly_traffic (logs (w_db (RollupJob_Run kinds j tx w).2)) !! k = hourly_traffic (logs (w_db w)) !! k.
Proof.
  intros Hn Hj HL Hk. destruct (RollupJob_Run_ok kinds j tx w Hn) as (j' & res & u & w' & -> & Hr & _); rewrite Hj in *; [done|].
  cbn [snd]. apply (ro_rest _ _ _ Hr). cbn. lia.
Qed.

(** ** Storing events *)

Lemma NewDecisionEvent_normalised `{GoUnicode} o r res token ip h geo now us :
  normalised (log_row (NewDecisionEvent o r res (NewVerifyRequest token ip h) geo now us)).
Proof.
  split; cbn; [unfold nilIfEmpty; case_bool_decide; congruence|]. by destruct r as [[]|].
Qed.

(** What the forward-auth handler hands to the sink has no empty texts. *)
Lemma handler_events_normalised `{GoUnicode} s geo now us h clientIP :
  Forall (λ e, normalised (log_row e)) (HandleForwardAuthIP s geo now us h clientIP).2.
Proof.
  assert (∀ token ip, Forall (λ e, normalised (log_row e)) (VerifyAccess s geo now us (NewVerifyRequest token ip h)).2) as Hv.
  { intros token ip. unfold VerifyAccess. repeat case_match; apply Forall_singleton, NewDecisionEvent_normalised. }
  unfold HandleForwardAuthIP. repeat case_match; subst; try by apply Forall_nil_2.
  all: match goal with E : VerifyAccess _ _ _ _ (NewVerifyRequest ?t ?a _) = _ |- _ => specialize (Hv t a); by rewrite E in Hv end.
Qed.

(** Storing a batch appends to the log, and to nothing the aggregates hold. *)
Record appended (es : list DecisionEvent) (d0 d : db) : Prop := mkAppended {
  ap_traffic : hourly_traffic (logs d) = hourly_traffic (logs d0);
  ap_rows : ∃ news, scan (access_log (logs d)) = scan (access_log (logs d0)) ++ news ∧ Forall (λ kv, ∃ e, e ∈ es ∧ kv.2 = log_row e) news;
  ap_geo : ∀ id, is_Some (access_log (logs d0) !! id) → access_log_geoip (logs d) !! id = access_log_geoip (logs d0) !! id;
  ap_grow : access_log (logs d0) ⊆ access_log (logs d);
}.

Lemma appended_refl es d : appended es d d.
Proof. split; [done| |done|done]. exists []. by rewrite app_nil_r. Qed.

Lemma appended_other es d0 d d' :
  hourly_traffic (logs d') = hourly_traffic (logs d) → access_log (logs d') = access_log (logs d) →
  access_log_geoip (logs d') = access_log_geoip (logs d) → appended es d0 d → appended es d0 d'.
Proof. intros E1 E2 E3 [A1 A2 A3 A4]. split; by rewrite ?E1, ?E2, ?E3. Qed.

Lemma insert_log_appends es d0 e tx w id w' :
  e ∈ es → appended es d0 (w_db w) → insert_log e tx w = (Ok id, w') →
  appended es d0 (w_db w') ∧ access_log (logs d0) !! id = None.
Proof.
  intros He [A1 (news & A2 & A2') A3 A4] E. apply (exec_Ok _ tx) in E as (d' & [= <- <-] & -> & _). set (id := fresh_id _).
  assert (access_log (logs (w_db w)) !! id = None) as Hid by apply fresh_id_None.
  split; [|by eapply lookup_weaken_None]. split; [exact A1| |exact A3|].
  - exists (news ++ [(id, log_row e)]). cbn [logs on_logs access_log on_access_log].
    rewrite scan_insert_last by (intros i r Hr; unfold id, fresh_id; apply max_id_ge in Hr; lia). rewrite A2, app_assoc.
    split; [done|]. apply Forall_app. split; [done|]. apply Forall_singleton. eauto.
  - cbn [logs on_logs access_log on_access_log]. etrans; [exact A4|]. by apply insert_subseteq.
Qed.

Lemma insert_geoip_appends es d0 id r : access_log (logs d0) !! id = None → keeps (appended es d0) (insert_geoip id r).
Proof.
  intros Hid. apply keeps_exec. intros t d x d' [A1 A2 A3 A4] [= <- <-]. split; [exact A1|exact A2| |exact A4].
  intros i Hi. cbn [logs on_logs access_log_geoip on_access_log_geoip]. rewrite lookup_insert_ne; [by apply A3|]. intros <-. rewrite Hid in Hi. by destruct Hi.
Qed.

Lemma insert_event_appends es d0 e : e ∈ es → keeps (appended es d0) (insert_event e).
Proof.
  intros He tx w Hw. unfold insert_event. rewrite bind_run. destruct (insert_log e tx w) as [[id|err] w1] eqn:E1.
  - destruct (insert_log_appends _ _ _ _ _ _ _ He Hw E1) as [Hw1 Hid]. revert Hw1.
    assert (keeps (appended es d0) (insert_links id e)) as Hk; [|by apply Hk]. apply keeps_bind.
    + assert (∀ c, keeps (appended es d0) (insert_contributor id c)) as Hc.
      { intros c. apply keeps_exec. intros t d x d' Hd E. cases. by apply (appended_other es d0 d). }
      destruct (ev_MatchSource e) as [[]|]; [by apply keeps_for_each| |by apply keeps_for_each].
      destruct (ev_NetworkPolicyID e) as [p|]; [|apply keeps_ret]. apply keeps_exec. intros t d x d' Hd E.
      destruct (ev_NetworkPolicyName e); [|done]. case_decide; [|done]. injection E as <- <-. by apply (appended_other es d0 d).
    + intros _. destruct (IsEmpty _); [apply keeps_ret|by apply insert_geoip_appends].
  - cbn [snd]. assert (w_db w1 = w_db w) as ->; [|done]. unfold insert_log, exec in E1.
    destruct (pop_fault w) as [[b|] w2] eqn:Ef; apply pop_fault_db in Ef as (Ef & _); [by injection E1 as <- <-|discriminate E1].
Qed.

Lemma keeps_for_each_elem (I : db → Prop) {A} (l : list A) (body : A → M unit) : (∀ x, x ∈ l → keeps I (body x)) → keeps I (for_each l body).
Proof.
  induction l as [|x l IH]; intros Hb; cbn [for_each]; [apply keeps_ret|]. apply keeps_bind; [apply Hb; by left|]. intros _. apply IH. intros y Hy. apply Hb. by right.
Qed.

(** Whatever fails in it. *)
Lemma BatchInsert_appends es w :
  ∃ rs, log_entries (w_db (BatchInsert es false w).2) = log_entries (w_db w) ++ rs ∧
    Forall (λ r, ∃ e, e ∈ es ∧ r.1 = log_row e) rs ∧
    hourly_traffic (logs (w_db (BatchInsert es false w).2)) = hourly_traffic (logs (w_db w)).
Proof.
  assert (appended es (w_db w) (w_db (BatchInsert es false w).2)) as [A1 (news & A2 & A2') A3 _].
  { unfold BatchInsert. case_bool_decide; [apply appended_refl|]. apply (keeps_withinTx (appended es (w_db w))); [|apply appended_refl].
    apply keeps_bind; [apply keeps_query|]. intros _. apply keeps_for_each_elem. intros e He. by apply insert_event_appends. }
  exists (with_geo (w_db (BatchInsert es false w).2) <$> news). split; [|split; [|done]].
  - unfold log_entries. rewrite A2, fmap_app. f_equal. apply list_fmap_ext. intros i [id r] Hi%list_elem_of_lookup_2. apply elem_of_scan in Hi.
    unfold with_geo. cbn. f_equal. apply A3. by eexists.
  - apply Forall_fmap. eapply Forall_impl; [exact A2'|]. intros [id r] (e & He & Er). eauto.
Qed.

(** ** A log of two days *)
Module RollupDemo.
Local Open Scope string_scope.

Definition entry (ip : string) (outcome : bool) (reason : option string) (host : string) (at_ : time) : AccessLogRow :=
  mkAccessLogRow ip outcome reason 0 at_ None (Some host) None None ∅ 100.

Definition r1 := entry "10.0.0.7" true None "wiki.home" (Hour + 5 * Minute).
Definition r2 := entry "10.0.0.7" true None "wiki.home" (Hour + 50 * Minute).
Definition r3 := entry "9.9.9.9" false (Some "ip_not_registered") "wiki.home" (26 * Hour + 1).
Definition late := entry "9.9.9.9" false (Some "ip_not_registered") "wiki.home" (30 * Hour - 1).

Definition with_log (l : list (Z * AccessLogRow)) (d : db) : db := on_logs (on_access_log (λ _, list_to_map l)) d.
Definition log3 : list (Z * AccessLogRow) := [(1, r1); (2, r2); (3, r3)].
Definition w0 : world := world_of (with_log log3 empty_db) (30 * Hour + 5 * Minute) [].
Definition kinds (_ : time) : list AttributionKind := [AttributionKindPolicy; AttributionKindUser; AttributionKindDevice].

Lemma normalised0 : normalised_log (w_db w0).
Proof.
  intros id r Hr. apply elem_of_list_to_map_2 in Hr. set_unfold in Hr. destruct Hr as [E|[E|[E|[]]]]; by injection E as -> ->.
Qed.

(** The first run catches up on both days. *)
Example RollupJob_Run_covers_witness :
  ∃ j' w', RollupJob_Run kinds NewRollupJob false w0 = (Ok (j', Ok tt), w') ∧ size (hourly_traffic (logs (w_db w'))) = 2%nat.
Proof.
  destruct (RollupJob_Run_covers kinds NewRollupJob false w0 normalised0 I) as (j' & res & u & w' & E & _ & _ & _ & Hnf).
  rewrite (Hnf eq_refl) in E. exists j', w'. split; [exact E|].
  assert (w' = (RollupJob_Run kinds NewRollupJob false w0).2) as -> by (by rewrite E). vm_compute. reflexivity.
Defined.

Definition job1 : RollupJob := mkRollupJob (Some (30 * Hour)) true.
Definition d1 : db := w_db (RollupJob_Run kinds NewRollupJob false w0).2.

(** An entry of the hour before is stored after the first run; the run an
    hour later does not count it. *)
Definition w1 : world := world_of (on_logs (on_access_log (<[4 := late]>)) d1) (31 * Hour + 5 * Minute) [].
Definition late_key : TrafficKey := (29 * Hour, "9.9.9.9", "wiki.home", false, "ip_not_registered").

Lemma normalised1 : normalised_log (w_db w1).
Proof.
  intros id r Hr. cbn [w_db world_of logs on_logs access_log on_access_log w1] in Hr. apply lookup_insert_Some in Hr as [[_ <-]|[_ Hr]]; [by split|].
  apply (normalised0 id r). exact Hr.
Qed.

Example closed_hours_stay_witness :
  (RollupJob_Run kinds NewRollupJob false w0).1 = Ok (job1, Ok tt) ∧ log_CreatedAt late < 30 * Hour ∧
  hourly_traffic (logs (w_db (RollupJob_Run kinds job1 false w1).2)) !! late_key = None.
Proof.
  split; [vm_compute; reflexivity|]. split; [vm_compute; reflexivity|].
  rewrite (closed_hours_stay kinds job1 false w1 (30 * Hour) late_key normalised1); [vm_compute; reflexivity|reflexivity|by exists 30|vm_compute; reflexivity].
Defined.

(** The aggregates cover the two days. *)
Lemma covered1 : covered Hour (30 * Hour) d1.
Proof.
  destruct (RollupJob_Run_ok kinds NewRollupJob false w0 normalised0 I) as (j' & res & u & w' & E & [Hs He Hr] & _ & (_ & _ & Hpass & Hres) & Hnf).
  destruct (Hres (Hnf eq_refl)) as [_ Hall]. unfold d1. rewrite E. cbn [snd]. intros k Hk. cbv zeta. rewrite (same_log_entries _ _ Hs).
  fold (log_group k (w_db w0)). case_decide as Hg.
  - rewrite Hr by (by intros [_ ?]). apply (lookup_empty (M := gmap TrafficKey)).
  - apply He; [|done]. split; [exact I|]. apply Hpass; [exact I|]. apply Hall. assert (truncate Hour (w_now w0) = 30 * Hour) as -> by (vm_compute; reflexivity). apply Hk.
Qed.

Definition event (at_ : time) : DecisionEvent :=
  mkDecisionEvent "9.9.9.9" false (Some DenyReasonIPNotRegistered) [] None None None at_ 100 (Some "wiki.home") None None None ∅ emptyGeo.

Definition w2 : world := world_of d1 (30 * Hour + 6 * Minute) [].

(** Stored in its hour an event leaves the two paths of the dashboards in
    agreement about the hours rolled up; stored late it does not. *)
Example stored_late_is_not_counted :
  getAggregateSummaryStats (29 * Hour) (30 * Hour) (w_db (BatchInsert [event (30 * Hour + 1)] false w2).2) =
  getRawSummaryStats (29 * Hour) (30 * Hour) (w_db (BatchInsert [event (30 * Hour + 1)] false w2).2) ∧
  getAggregateSummaryStats (29 * Hour) (30 * Hour) (w_db (BatchInsert [event (30 * Hour - 1)] false w2).2) ≠
  getRawSummaryStats (29 * Hour) (30 * Hour) (w_db (BatchInsert [event (30 * Hour - 1)] false w2).2).
Proof. split; vm_compute; [reflexivity|discriminate]. Qed.

(** Both paths of the dashboards over the two days. *)
Example aggregates_answer_like_log_witness :
  getAggregateSummaryStats Hour (30 * Hour) d1 = mkSummaryStats 3 2 1 1 0 0 2 100 ∧
  getAggregateServiceSplit Hour (30 * Hour) d1 = [mkServiceCount "wiki.home" 2 1].
Proof.
  destruct (aggregates_answer_like_log Hour (30 * Hour) d1 10) as (E1 & _ & _ & E2 & _); [by exists 1|by exists 30|exact covered1|].
  rewrite E1, E2. split; vm_compute; reflexivity.
Defined.

(** A run whose attribution fails after the traffic of its hours is stored,
    then a restart: the new job stands after those hours and never attributes
    them. *)
Definition w3 : world :=
  set_faults [None; None; None; Some false] (world_of (on_logs (on_access_log_policies (<[1 := mkPolicyContributorRow (Some 1) "office"]>)) (w_db w0)) (30 * Hour) []).

Example restart_skips_attribution :
  (RollupJob_Run kinds NewRollupJob false w3).1 = Ok (mkRollupJob None true, Err (ErrSQL false)) ∧
  let w4 := (RollupJob_Run kinds NewRollupJob false w3).2 in
  let w5 := (RollupJob_Run kinds NewRollupJob false w4).2 in
  job_last NewRollupJob (w_db w4) = Some (2 * Hour) ∧ hourly_attribution (logs (w_db w5)) = ∅ ∧
  size (hourly_attribution (logs (w_db (RollupJob_Run kinds NewRollupJob false (set_faults [] w3)).2))) = 1%nat.
Proof. split; [vm_compute; reflexivity|]. cbv zeta. split; [vm_compute; reflexivity|]. split; vm_compute; reflexivity. Qed.
End RollupDemo.
