(* ===== verification/HostSuggestions.v ===== *)
(** * HostSuggestions: hosts worth registering ([internal/queries/host_suggestions.go])

    The hosts that received traffic in the last seven days and are neither
    registered nor ignored: the complete hours from the aggregates, the
    current hour from the log, folded on the normalised name.  The theorem:
    once the rollup has counted the complete hours, the page lists exactly
    the unknown hosts of the log, with the totals of all their spellings, and
    the dashboard counts the same list. *)

From S2P Require Import Prelude GoLib Slicex Compare GroupBy Schema Store HostNames Http Timebucket Rollup RollupSpec.

Local Open Scope string_scope.
Local Open Scope Z_scope.
Local Open Scope list_scope.

Definition hostSuggestionsWindow : Z := 7 * 24 * Hour.

(** ** Rows *)

Record hostSuggestionRow := mkSuggestionRow { hs_FQDN : string; hs_FirstSeen : time; hs_AllowedHits : Z; hs_DeniedHits : Z }.

(** A request, or a count of requests, for a host: its name as the rows
    group it, when, the outcome, how many. *)
Record hit := mkHit { hit_Host : string; hit_At : time; hit_Outcome : bool; hit_Count : Z }.

(** [GROUP BY fqdn] with the minimum of the times and the sums by outcome. *)
Definition suggestion_row (l : list hit) (host : string) : hostSuggestionRow :=
  let g := group hit_Host host l in
  mkSuggestionRow host (default 0 (min_time (hit_At <$> g)))
    (sum_when hit_Outcome hit_Count g) (sum_when (λ x, negb (hit_Outcome x)) hit_Count g).

Definition suggestion_rows (l : list hit) : list hostSuggestionRow := suggestion_row l <$> group_keys hit_Host String.compare l.

(** The log's requests for a host in a window; SQLite's [LOWER] folds ASCII. *)
Definition raw_hits (from to : time) (d : db) : list hit :=
  omap (λ kv, (λ h, mkHit (str_map lower_byte h) (log_CreatedAt kv.2) (log_Outcome kv.2) 1) <$> log_TargetHost kv.2) (window_log from to d).

Definition rawHostSuggestionRows (from to : time) : M (list hostSuggestionRow) := query (λ _ d, suggestion_rows (raw_hits from to d)).

(** The aggregates' counts: requests without a host are stored under the
    empty text. *)
Definition aggregate_hits (from to : time) (d : db) : list hit :=
  (λ kv, mkHit (key_host kv.1) (traffic_bucket kv.1) (key_outcome kv.1) (agg_RequestCount kv.2)) <$>
    filter (λ kv, key_host kv.1 ≠ "") (window_aggregates from to d).

Definition aggregateHostSuggestionRows (from to : time) : M (list hostSuggestionRow) := query (λ _ d, suggestion_rows (aggregate_hits from to d)).

Definition ignoredHostSuggestions : M (list IgnoredHostSuggestion) :=
  query (λ _ d, order_by Suggestion_FQDN String.compare (rows (suggestions d))).

(** ** pendingHostSuggestions *)

Record hostSuggestionAggregate := mkSuggestionAgg { firstSeen : time; allowedHits : Z; deniedHits : Z }.

(** What a row adds to its host's total, created by the first one. *)
Definition absorb (row : hostSuggestionRow) (o : option hostSuggestionAggregate) : hostSuggestionAggregate :=
  let a := match o with
           | None => mkSuggestionAgg (hs_FirstSeen row) 0 0
           | Some a => if hs_FirstSeen row <? firstSeen a then mkSuggestionAgg (hs_FirstSeen row) (allowedHits a) (deniedHits a) else a
           end in
  mkSuggestionAgg (firstSeen a) (allowedHits a + hs_AllowedHits row) (deniedHits a + hs_DeniedHits row).

Section pending.
Context `{GoUnicode}.

(** The registered hosts, by normalised name. *)
Definition known_hosts (d : db) : gset string := list_to_set (NormaliseHost ∘ Host_FQDN <$> rows (hosts d)).

Definition knownHostSet : M (gset string) := query (λ _ d, known_hosts d).

Definition suggestible (known ignored : gset string) (fqdn : string) : bool :=
  match ValidateFQDN fqdn with Ok _ => true | Err _ => false end && negb (bool_decide (fqdn ∈ known)) && negb (bool_decide (fqdn ∈ ignored)).

Definition merge_row (known ignored : gset string) (merged : gmap string hostSuggestionAggregate) (row : hostSuggestionRow) :
    gmap string hostSuggestionAggregate :=
  let fqdn := NormaliseHost (hs_FQDN row) in
  if suggestible known ignored fqdn then <[fqdn := absorb row (merged !! fqdn)]> merged else merged.

Definition pendingHostSuggestions (since : time) (knownHosts ignoredSet : gset string) : M (gmap string hostSuggestionAggregate) :=
  t ← now;
  rws ← (if t - since <=? RawWindowThreshold then rawHostSuggestionRows since t
         else
           let currentHourStart := truncate Hour t in
           aggRows ← aggregateHostSuggestionRows since currentHourStart;
           tailRows ← rawHostSuggestionRows currentHourStart t;
           mret (aggRows ++ tailRows));
  mret (foldl (merge_row knownHosts ignoredSet) ∅ rws).

Definition ignored_set (l : list IgnoredHostSuggestion) : gset string := list_to_set (NormaliseHost ∘ Suggestion_FQDN <$> l).

(** ** The page and the count *)

Record HostSuggestion := mkHostSuggestion { sug_Fqdn : string; sug_FirstSeen : time; sug_AllowedHits : Z; sug_DeniedHits : Z }.
Record HostSuggestionsPage := mkSuggestionsPage { page_Suggestions : list HostSuggestion; page_Ignored : list IgnoredHostSuggestion }.

Definition to_suggestion (kv : string * hostSuggestionAggregate) : HostSuggestion :=
  mkHostSuggestion kv.1 (firstSeen kv.2) (allowedHits kv.2) (deniedHits kv.2).

(** The most denied first, then the most allowed, then by name: a total
    order of the map's entries. *)
Definition rank_suggestions (l : list HostSuggestion) : list HostSuggestion :=
  order_by (λ s, ((sug_DeniedHits s, sug_AllowedHits s), sug_Fqdn s))
    (cmp_pair (cmp_pair (cmp_rev Z.compare) (cmp_rev Z.compare)) String.compare) l.

Definition GetHostSuggestionsPage : M HostSuggestionsPage :=
  rawIgnored ← ignoredHostSuggestions;
  knownHosts ← knownHostSet;
  t ← now;
  merged ← pendingHostSuggestions (t - hostSuggestionsWindow) knownHosts (ignored_set rawIgnored);
  mret (mkSuggestionsPage (rank_suggestions (to_suggestion <$> map_to_list merged)) rawIgnored).

Definition countPendingHostSuggestions : M Z :=
  rawIgnored ← ignoredHostSuggestions;
  knownHosts ← knownHostSet;
  t ← now;
  merged ← pendingHostSuggestions (t - hostSuggestionsWindow) knownHosts (ignored_set rawIgnored);
  mret (Z.of_nat (size merged)).

Definition handler_ListHostSuggestions : M (Response HostSuggestionsPage) :=
  respond GetHostSuggestionsPage (λ p, mkResponse 200 (Some p)) (λ _, 500).
End pending.

(** ** Totals *)

(** Lower bounds determine a minimum. *)
Lemma min_time_least l m : min_time l = Some m ↔ l ≠ [] ∧ ∀ t, t ≤ m ↔ ∀ x, x ∈ l → t ≤ x.
Proof.
  assert (∀ x k t, t ≤ foldr Z.min x k ↔ ∀ y, y ∈ x :: k → t ≤ y) as Hb.
  { intros x k t. induction k as [|y k IH]; cbn.
    - split; [intros H z ->%list_elem_of_singleton; lia|intros H; apply H; by left].
    - rewrite Z.min_glb_iff, IH. setoid_rewrite elem_of_cons. setoid_rewrite elem_of_cons. naive_solver. }
  destruct l as [|x l]; cbn; [split; [done|by intros []]|]. split.
  - intros [= <-]. split; [done|]. apply Hb.
  - intros [_ H]. f_equal. apply Z.le_antisymm; [apply H; by apply Hb|apply Hb; by apply H].
Qed.

(** Rows sum up hits: same totals, same first sighting. *)
Record sums_up (R : list hostSuggestionRow) (L : list hit) : Prop := mkSumsUp {
  su_empty : R = [] ↔ L = [];
  su_first t : (∀ r, r ∈ R → t ≤ hs_FirstSeen r) ↔ (∀ x, x ∈ L → t ≤ hit_At x);
  su_allowed : zsum (hs_AllowedHits <$> R) = sum_when hit_Outcome hit_Count L;
  su_denied : zsum (hs_DeniedHits <$> R) = sum_when (λ x, negb (hit_Outcome x)) hit_Count L;
}.

Lemma sums_up_app R L R' L' : sums_up R L → sums_up R' L' → sums_up (R ++ R') (L ++ L').
Proof.
  intros [E F A D] [E' F' A' D']. split.
  - by rewrite !app_nil, E, E'.
  - intros t. setoid_rewrite elem_of_app. specialize (F t). specialize (F' t). naive_solver.
  - unfold sum_when in *. by rewrite !fmap_app, !zsum_app, A, A'.
  - unfold sum_when in *. by rewrite !fmap_app, !zsum_app, D, D'.
Qed.

(** The grouped query, restricted to some names. *)
Lemma suggestion_rows_sum_up (P : string → Prop) `{∀ s, Decision (P s)} l :
  sums_up (filter (λ r, P (hs_FQDN r)) (suggestion_rows l)) (filter (λ x, P (hit_Host x)) l).
Proof.
  unfold suggestion_rows. rewrite filter_fmap. cbn. set (ks := filter P (group_keys hit_Host String.compare l)). set (l' := filter (λ x, P (hit_Host x)) l).
  assert (∀ k, k ∈ ks → suggestion_row l k = suggestion_row l' k) as Hrow.
  { intros k Hk. apply list_elem_of_filter in Hk as [Hk _]. unfold suggestion_row, group, l'. rewrite list_filter_filter.
    rewrite (list_filter_iff (λ x, hit_Host x = k ∧ P (hit_Host x)) (λ x, hit_Host x = k)); [done|]. intros x. split; [by intros []|]. by intros <-. }
  assert (suggestion_row l <$> ks = suggestion_row l' <$> ks) as ->.
  { apply list_fmap_ext. intros i k Hk. apply Hrow. by eapply list_elem_of_lookup_2. }
  assert (NoDup ks) as Hnd by (apply NoDup_filter, NoDup_group_keys).
  assert (∀ x, x ∈ l' → hit_Host x ∈ ks) as Hin.
  { intros x [Hp Hx]%list_elem_of_filter. apply list_elem_of_filter. split; [done|]. apply elem_of_group_keys. eauto. }
  assert (∀ k, k ∈ ks → ∃ x, x ∈ group hit_Host k l') as Hne.
  { intros k [Hp (x & Hx & <-)%elem_of_group_keys]%list_elem_of_filter. exists x. apply elem_of_group. split; [done|]. by apply list_elem_of_filter. }
  split.
  - destruct ks as [|k ks'] eqn:Ek; [|destruct (Hne k) as (x & [_ Hx]%elem_of_group); [by left|]].
    + split; [|done]. intros _. destruct l' as [|x l'']; [done|]. assert (hit_Host x ∈ []) as Hx; [apply Hin; by left|by apply elem_of_nil in Hx].
    + split; [done|]. intros El. rewrite El in Hx. by apply elem_of_nil in Hx.
  - intros t. setoid_rewrite list_elem_of_fmap. split.
    + intros Ht x Hx. assert (t ≤ hs_FirstSeen (suggestion_row l' (hit_Host x))) as Hr by (apply Ht; eauto). cbn in Hr.
      destruct (min_time _) as [m|] eqn:Em; cbn in Hr.
      * apply min_time_least in Em as [_ Hm]. apply (proj1 (Hm t) Hr). apply list_elem_of_fmap_2, elem_of_group. done.
      * destruct (group hit_Host (hit_Host x) l') as [|y g] eqn:Eg; [|done]. assert (x ∈ []) as Hx0; [|by apply elem_of_nil in Hx0].
        rewrite <-Eg. by apply elem_of_group.
    + intros Ht r (k & -> & Hk). cbn. destruct (Hne k Hk) as [y Hy]. destruct (min_time _) as [m|] eqn:Em; cbn.
      * apply min_time_least in Em as [_ Hm]. apply Hm. intros z (x & -> & [_ Hx]%elem_of_group)%list_elem_of_fmap. by apply Ht.
      * destruct (group hit_Host k l') as [|z g]; [by apply elem_of_nil in Hy|done].
  - rewrite <-list_fmap_compose. exact (zsum_groups hit_Host ks _ l' Hnd Hin).
  - rewrite <-list_fmap_compose. exact (zsum_groups hit_Host ks _ l' Hnd Hin).
Qed.

(** The total of a list of rows. *)
Definition row_total (R : list hostSuggestionRow) : option hostSuggestionAggregate :=
  (λ m, mkSuggestionAgg m (zsum (hs_AllowedHits <$> R)) (zsum (hs_DeniedHits <$> R))) <$> min_time (hs_FirstSeen <$> R).

Lemma min_time_snoc l x : min_time (l ++ [x]) = Some (match min_time l with Some m => Z.min m x | None => x end).
Proof.
  apply min_time_least. split; [by destruct l|]. intros t. destruct (min_time l) as [m|] eqn:Em.
  - apply min_time_least in Em as [_ Hm]. rewrite Z.min_glb_iff, Hm. setoid_rewrite elem_of_app. setoid_rewrite list_elem_of_singleton. naive_solver.
  - destruct l as [|y l]; [|done]. cbn. setoid_rewrite list_elem_of_singleton. naive_solver.
Qed.

Lemma row_total_snoc R r : row_total (R ++ [r]) = Some (absorb r (row_total R)).
Proof.
  unfold row_total. rewrite !fmap_app. cbn [fmap list_fmap]. rewrite min_time_snoc, !zsum_app, !zsum_cons, !zsum_nil. cbn [fmap option_fmap option_map].
  unfold absorb. destruct (min_time (hs_FirstSeen <$> R)) as [m|] eqn:Em; cbn [fmap option_fmap option_map firstSeen allowedHits deniedHits].
  - destruct (Z.ltb_spec (hs_FirstSeen r) m); cbn; repeat f_equal; lia.
  - destruct R as [|y R]; [|done]. cbn. repeat f_equal; lia.
Qed.

Section pending_spec.
Context `{GoUnicode}.

(** The map of the loop: each host that can be suggested, with the total of
    its rows. *)
Lemma merge_lookup known ignored R f :
  foldl (merge_row known ignored) ∅ R !! f =
    if suggestible known ignored f then row_total (filter (λ r, NormaliseHost (hs_FQDN r) = f) R) else None.
Proof.
  induction R as [|r R IH] using rev_ind; [cbn; rewrite lookup_empty; by destruct (suggestible _ _ _)|].
  rewrite foldl_app, filter_app, filter_cons, filter_nil. cbn [foldl]. unfold merge_row at 1.
  set (m := foldl _ ∅ R) in *. destruct (decide (NormaliseHost (hs_FQDN r) = f)) as [E|Hne].
  - rewrite E. destruct (suggestible known ignored f); [|done]. rewrite lookup_insert_eq, row_total_snoc, IH. done.
  - rewrite app_nil_r. destruct (suggestible known ignored (NormaliseHost _)); [|done]. by rewrite lookup_insert_ne.
Qed.

Definition hits_of (f : string) (l : list hit) : list hit := filter (λ x, NormaliseHost (hit_Host x) = f) l.

(** What the seven days up to [t] hold: the aggregates of the complete hours
    and the log of the current one. *)
Definition window_hits (t : time) (d : db) : list hit :=
  aggregate_hits (t - hostSuggestionsWindow) (truncate Hour t) d ++ raw_hits (truncate Hour t) t d.

Lemma pending_run known ignored tx w :
  no_faults w → ∃ m, pendingHostSuggestions (w_now w - hostSuggestionsWindow) known ignored tx w = (Ok m, w) ∧
    ∀ f a, m !! f = Some a ↔ suggestible known ignored f = true ∧ hits_of f (window_hits (w_now w) (w_db w)) ≠ [] ∧
      (let g := hits_of f (window_hits (w_now w) (w_db w)) in
       min_time (hit_At <$> g) = Some (firstSeen a) ∧ allowedHits a = sum_when hit_Outcome hit_Count g ∧
       deniedHits a = sum_when (λ x, negb (hit_Outcome x)) hit_Count g).
Proof.
  intros Hn. unfold pendingHostSuggestions. rewrite bind_run, now_run, bind_run.
  destruct (Z.leb_spec (w_now w - (w_now w - hostSuggestionsWindow)) RawWindowThreshold) as [Hle|_].
  { unfold hostSuggestionsWindow, RawWindowThreshold in Hle. assert (0 < Hour) by (by vm_compute). lia. }
  cbv zeta. unfold aggregateHostSuggestionRows, rawHostSuggestionRows. run. eexists. split; [reflexivity|]. intros f a.
  rewrite merge_lookup. unfold hits_of, window_hits. rewrite !filter_app.
  pose proof (sums_up_app _ _ _ _
    (suggestion_rows_sum_up (λ s, NormaliseHost s = f) (aggregate_hits (w_now w - hostSuggestionsWindow) (truncate Hour (w_now w)) (w_db w)))
    (suggestion_rows_sum_up (λ s, NormaliseHost s = f) (raw_hits (truncate Hour (w_now w)) (w_now w) (w_db w)))) as [E F A D].
  set (R := filter _ (suggestion_rows _) ++ _) in *. set (L := filter _ (aggregate_hits _ _ _) ++ _) in *. clearbody R L.
  destruct (suggestible known ignored f); [|by split; [|intros []]]. unfold row_total. rewrite fmap_Some, A, D.
  assert (∀ m, min_time (hs_FirstSeen <$> R) = Some m ↔ min_time (hit_At <$> L) = Some m) as HM.
  { intros m. rewrite !min_time_least. f_equiv; [destruct R, L; cbn in *; naive_solver|]. apply forall_proper. intros t.
    setoid_rewrite list_elem_of_fmap. specialize (F t). naive_solver. }
  split.
  - intros (m & Hm & ->). cbn. apply HM in Hm. split; [done|]. split; [by intros ->|]. done.
  - intros (_ & _ & Hm & Ha & Hd). exists (firstSeen a). split; [by apply HM|]. destruct a. cbn in *. congruence.
Qed.

(** A name that an administrator may want to register. *)
Definition unregistered (d : db) (f : string) : Prop :=
  ValidateFQDN f = Ok tt ∧ (∀ i h, hosts d !! i = Some h → NormaliseHost (Host_FQDN h) ≠ f) ∧
  (∀ i s, suggestions d !! i = Some s → NormaliseHost (Suggestion_FQDN s) ≠ f).

Definition ignored_rows (d : db) : list IgnoredHostSuggestion := order_by Suggestion_FQDN String.compare (rows (suggestions d)).

Lemma suggestible_unregistered d f : suggestible (known_hosts d) (ignored_set (ignored_rows d)) f = true ↔ unregistered d f.
Proof.
  unfold suggestible, unregistered, known_hosts, ignored_set, ignored_rows. rewrite !andb_true_iff, !negb_true_iff, !bool_decide_eq_false, !elem_of_list_to_set.
  rewrite (order_by_Permutation _ _), !list_elem_of_fmap. setoid_rewrite elem_of_rows.
  assert ((match ValidateFQDN f with Ok _ => true | Err _ => false end = true) ↔ ValidateFQDN f = Ok tt) as -> by (by destruct (ValidateFQDN f) as [[]|]).
  split.
  - intros [[Hv Hk] Hi]. split; [done|]. split; [intros i h Hh E; apply Hk|intros i s Hs E; apply Hi]; (eexists; split; [symmetry; exact E|eauto]).
  - intros (Hv & Hk & Hi). split; [split; [done|]|]; intros (x & E & i & Hx); cbn in E; naive_solver.
Qed.

(** The list of a map of totals. *)
Definition suggestion_list (m : gmap string hostSuggestionAggregate) : list HostSuggestion := rank_suggestions (to_suggestion <$> map_to_list m).

Lemma suggestion_list_names m : NoDup (sug_Fqdn <$> suggestion_list m).
Proof.
  unfold suggestion_list, rank_suggestions. rewrite (order_by_Permutation _ _), <-list_fmap_compose. apply (NoDup_fst_map_to_list m).
Qed.

Lemma elem_of_suggestion_list m f t a dn : mkHostSuggestion f t a dn ∈ suggestion_list m ↔ m !! f = Some (mkSuggestionAgg t a dn).
Proof.
  unfold suggestion_list, rank_suggestions. rewrite (order_by_Permutation _ _), list_elem_of_fmap, <-elem_of_map_to_list. split.
  - intros ([f' [t' a' d']] & [= -> -> -> ->] & Hin). done.
  - intros Hin. by exists (f, mkSuggestionAgg t a dn).
Qed.

Lemma length_suggestion_list m : length (suggestion_list m) = size m.
Proof. unfold suggestion_list, rank_suggestions. rewrite (order_by_Permutation _ _), length_fmap. by rewrite length_map_to_list. Qed.

(** The page in terms of what the two sources hold. *)
Lemma suggestions_page tx w :
  no_faults w → ∃ page, GetHostSuggestionsPage tx w = (Ok page, w) ∧
    countPendingHostSuggestions tx w = (Ok (Z.of_nat (length (page_Suggestions page))), w) ∧
    NoDup (sug_Fqdn <$> page_Suggestions page) ∧
    ∀ f first allowed denied, mkHostSuggestion f first allowed denied ∈ page_Suggestions page ↔
      unregistered (w_db w) f ∧
      (let g := hits_of f (window_hits (w_now w) (w_db w)) in
       min_time (hit_At <$> g) = Some first ∧ allowed = sum_when hit_Outcome hit_Count g ∧ denied = sum_when (λ x, negb (hit_Outcome x)) hit_Count g).
Proof.
  intros Hn. destruct (pending_run (known_hosts (w_db w)) (ignored_set (ignored_rows (w_db w))) tx w Hn) as (m & Hm & HL).
  exists (mkSuggestionsPage (suggestion_list m) (ignored_rows (w_db w))). unfold GetHostSuggestionsPage, countPendingHostSuggestions, ignoredHostSuggestions, knownHostSet.
  fold (ignored_rows). split; [|split; [|split; [apply suggestion_list_names|]]].
  - run. by rewrite Hm.
  - run. rewrite Hm. cbn. by rewrite length_suggestion_list.
  - intros f t a dn. cbn [page_Suggestions]. rewrite elem_of_suggestion_list, HL, suggestible_unregistered. cbn.
    split; [naive_solver|]. intros (Hu & Hmin & -> & ->). split; [done|]. split; [|done]. intros E. by rewrite E in Hmin.
Qed.
(** ** Against the log *)

(** The first hour that is whole in the window; the hours before it are not
    read. *)
Definition first_hour (since : time) : time := bucket_at (since + Hour - 1).

(** The log's requests of the complete hours, each at the start of its hour. *)
Definition complete_hits (since t : time) (d : db) : list hit :=
  (λ r, mkHit (coalesce (log_TargetHost r)) (bucket_at (log_CreatedAt r)) (log_Outcome r) 1) <$>
    filter (λ r, coalesce (log_TargetHost r) ≠ "") (window_log (first_hour since) (truncate Hour t) d).*2.

(** The requests for hosts that the log has of the seven days up to [t]. *)
Definition logged_hits (t : time) (d : db) : list hit :=
  complete_hits (t - hostSuggestionsWindow) t d ++ raw_hits (truncate Hour t) t d.

Lemma min_time_same l l' : (∀ x, x ∈ l ↔ x ∈ l') → min_time l = min_time l'.
Proof.
  intros E. apply option_eq. intros m. rewrite !min_time_least. setoid_rewrite E. f_equiv.
  destruct l as [|x l], l' as [|y l']; try done; exfalso.
  - assert (y ∈ []) as Hy by (apply E; by left). by apply elem_of_nil in Hy.
  - assert (x ∈ []) as Hx by (apply E; by left). by apply elem_of_nil in Hx.
Qed.

Lemma first_hour_bounds since : hour_aligned (first_hour since) ∧ truncate Hour since ≤ since ≤ first_hour since.
Proof.
  split; [apply bucket_at_aligned|]. pose proof (bucket_at_bounds (since + Hour - 1)) as Hb. pose proof (bucket_at_bounds since) as Hs.
  unfold first_hour, bucket_at in *. lia.
Qed.

Lemma aligned_first_hour since b : hour_aligned b → since ≤ b ↔ first_hour since ≤ b.
Proof.
  intros [n ->]. destruct (first_hour_bounds since) as [[m Hm] Hb]. split; [|lia]. intros Hle.
  pose proof (bucket_at_bounds (since + Hour - 1)) as Hs. fold (first_hour since) in Hs. rewrite Hm in *. pose proof Hour_pos as Hp.
  clear Hb Hm. revert Hle Hs Hp. generalize Hour. intros h Hle Hs Hp. destruct (Z.le_gt_cases m n); [nia|]. assert ((n + 1) * h ≤ m * h) by nia. lia.
Qed.

(** Only whole hours are aggregated, so the window of the aggregates starts at
    the first whole one. *)
Lemma covered_window since b d :
  covered (truncate Hour since) b d → window_aggregates since b d = window_aggregates (first_hour since) b d.
Proof.
  intros Hc. unfold window_aggregates. apply filter_ext_in. intros [k g] Hk%elem_of_map_to_list. cbn [fst]. unfold in_window.
  rewrite !andb_true_iff, !Z.leb_le, !Z.ltb_lt. destruct (first_hour_bounds since) as [_ [Ht Hf]]. split; intros [H1 H2]; split; try done; [|lia].
  apply (λ Hal, proj1 (aligned_first_hour since _ Hal) H1). specialize (Hc k). rewrite Hk in Hc. cbv zeta in Hc. specialize (Hc (conj (Z.le_trans _ _ _ Ht H1) H2)).
  case_decide as Hg; [done|]. destruct (group entry_key k (log_entries d)) as [|r rs] eqn:E; [done|].
  assert (r ∈ group entry_key k (log_entries d)) as Hr by (rewrite E; by left). apply elem_of_group in Hr as [<- _]. apply bucket_at_aligned.
Qed.

Lemma covered_sub a a' b d : a ≤ a' → covered a b d → covered a' b d.
Proof. intros Ha Hc k Hk. apply Hc. lia. Qed.

(** The aggregates and the entries they sum up tell the same of a host. *)
Lemma same_host_hits W R f : summarises W R →
  let A := hits_of f ((λ kv, mkHit (key_host kv.1) (traffic_bucket kv.1) (key_outcome kv.1) (agg_RequestCount kv.2)) <$> filter (λ kv, key_host kv.1 ≠ "") W) in
  let L := hits_of f ((λ r, mkHit (key_host (entry_key r)) (traffic_bucket (entry_key r)) (key_outcome (entry_key r)) 1) <$>
                        filter (λ r, key_host (entry_key r) ≠ "") R) in
  (∀ x, x ∈ hit_At <$> A ↔ x ∈ hit_At <$> L) ∧
  sum_when hit_Outcome hit_Count A = sum_when hit_Outcome hit_Count L ∧
  sum_when (λ x, negb (hit_Outcome x)) hit_Count A = sum_when (λ x, negb (hit_Outcome x)) hit_Count L.
Proof.
  intros HS. unfold hits_of. rewrite !filter_fmap. cbv zeta. unfold compose. cbn [hit_Host]. rewrite !list_filter_filter.
  pose proof (summarises_filter _ _ HS (λ k, NormaliseHost (key_host k) = f ∧ key_host k ≠ "")) as HS'. cbv beta in HS'. split; [|split].
  - intros x. rewrite <-!list_fmap_compose. exact (summarises_keys _ _ HS' traffic_bucket x).
  - rewrite !sum_when_fmap. exact (summarises_sum_when _ _ key_outcome HS').
  - rewrite !sum_when_fmap. exact (summarises_sum_when _ _ (λ k, negb (key_outcome k)) HS').
Qed.

Lemma complete_hits_entries since t d :
  complete_hits since t d =
    (λ r, mkHit (key_host (entry_key r)) (traffic_bucket (entry_key r)) (key_outcome (entry_key r)) 1) <$>
      filter (λ r, key_host (entry_key r) ≠ "") (with_geo d <$> window_log (first_hour since) (truncate Hour t) d).
Proof.
  unfold complete_hits. rewrite window_rows, filter_fmap, <-list_fmap_compose. done.
Qed.

Lemma sum_when_app {A} p (q : A → Z) l k : sum_when p q (l ++ k) = sum_when p q l + sum_when p q k.
Proof. unfold sum_when. by rewrite fmap_app, zsum_app. Qed.

Lemma logged_same t d f :
  covered (truncate Hour (t - hostSuggestionsWindow)) (truncate Hour t) d →
  let W := hits_of f (window_hits t d) in let L := hits_of f (logged_hits t d) in
  min_time (hit_At <$> W) = min_time (hit_At <$> L) ∧
  sum_when hit_Outcome hit_Count W = sum_when hit_Outcome hit_Count L ∧
  sum_when (λ x, negb (hit_Outcome x)) hit_Count W = sum_when (λ x, negb (hit_Outcome x)) hit_Count L.
Proof.
  intros Hc. destruct (first_hour_bounds (t - hostSuggestionsWindow)) as (Hal & H1 & H2).
  pose proof (covered_summarises _ (truncate Hour t) _ Hal (bucket_at_aligned t) (covered_sub _ (first_hour (t - hostSuggestionsWindow)) _ _ (Z.le_trans _ _ _ H1 H2) Hc)) as HS.
  destruct (same_host_hits _ _ f HS) as (Hm & Ha & Hd). unfold window_hits, logged_hits, aggregate_hits, hits_of in *.
  rewrite complete_hits_entries, covered_window by done. cbv zeta. rewrite !filter_app, !sum_when_app, Ha, Hd. split; [|done].
  apply min_time_same. intros x. rewrite !fmap_app, !elem_of_app, Hm. done.
Qed.

(** A hit of the log is one request. *)
Lemma logged_hits_ones t d f x : x ∈ hits_of f (logged_hits t d) → hit_Count x = 1.
Proof.
  unfold hits_of, logged_hits, complete_hits, raw_hits. intros [_ [(r & -> & _)%list_elem_of_fmap|(kv & _ & E)%list_elem_of_omap]%elem_of_app]%list_elem_of_filter; [done|].
  destruct (log_TargetHost kv.2); [|done]. by injection E as <-.
Qed.

Lemma sum_when_counts p (l : list hit) : (∀ x, x ∈ l → hit_Count x = 1) → sum_when p hit_Count l = Z.of_nat (length (filter (λ x, p x = true) l)).
Proof.
  intros Hl. rewrite <-sum_when_filter. unfold sum_when. f_equal. apply list_fmap_ext. intros i x Hx%list_elem_of_lookup_2. by rewrite (Hl x Hx).
Qed.

(** C33: where the rollup has counted the complete hours of the last seven
    days (and the log still holds them), the suggestions page lists exactly
    the valid host names that the log has requests for in those days and
    that are neither registered nor ignored, in whatever spelling, the
    requests of the running hour among them; each once, with its first
    sighting (to the hour, for a complete one) and the number of requests of
    all its spellings that were allowed and that were denied; and the
    dashboard counts the same list. *)
Theorem suggestions_are_unknown_traffic tx w :
  no_faults w → covered (truncate Hour (w_now w - hostSuggestionsWindow)) (truncate Hour (w_now w)) (w_db w) →
  ∃ page, GetHostSuggestionsPage tx w = (Ok page, w) ∧
    countPendingHostSuggestions tx w = (Ok (Z.of_nat (length (page_Suggestions page))), w) ∧
    NoDup (sug_Fqdn <$> page_Suggestions page) ∧
    ∀ f first allowed denied, mkHostSuggestion f first allowed denied ∈ page_Suggestions page ↔
      unregistered (w_db w) f ∧
      (let g := hits_of f (logged_hits (w_now w) (w_db w)) in
       min_time (hit_At <$> g) = Some first ∧ allowed = Z.of_nat (length (filter (λ x, hit_Outcome x = true) g)) ∧
       denied = Z.of_nat (length (filter (λ x, hit_Outcome x = false) g))).
Proof.
  intros Hn Hc. destruct (suggestions_page tx w Hn) as (page & Hp & Hcount & Hnd & Hs). exists page. split; [done|]. split; [done|]. split; [done|].
  intros f first allowed denied. rewrite Hs. cbv zeta. destruct (logged_same _ _ f Hc) as (-> & -> & ->). rewrite !sum_when_counts.
  - rewrite (list_filter_iff (λ x, negb (hit_Outcome x) = true) (λ x, hit_Outcome x = false)); [done|]. intros x. apply negb_true_iff.
  - apply logged_hits_ones.
  - apply logged_hits_ones.
Qed.
End pending_spec.

(** ** An hour of traffic *)
Module SuggestionDemo.

Definition request (host : string) (outcome : bool) (at_ : time) : AccessLogRow :=
  mkAccessLogRow "203.0.113.9" outcome (if outcome then None else Some "ip_not_registered") 0 at_ None (Some host) None None ∅ 100.

Definition day : time := 100 * 24 * Hour.

(** A log and its aggregates, one host registered, one ignored. *)
Definition tables (log : list AccessLogRow) (at_ : time) (rolled : gmap TrafficKey TrafficAggregate) : world :=
  world_of (on_hosts (λ _, {[1 := mkHost 1 "wiki.example.org" 0 0]})
    (on_suggestions (λ _, {[1 := mkSuggestion 1 "spam.example.org" 0]})
    (on_logs (λ l, on_hourly_traffic (λ _, rolled) (on_access_log (λ _, list_to_map (imap (λ i r, (Z.of_nat i + 1, r)) log)) l)) empty_db))) at_ [].

(** Four denied requests in the hour before, which the rollup has counted;
    in the running hour another spelling, and three names that are not
    suggested. *)
Definition log : list AccessLogRow :=
  replicate 4 (request "app.example.org" false (day + 2 * Hour + Minute)) ++
  [request "App.example.org:8443" true (day + 3 * Hour); request "wiki.example.org." true (day + 3 * Hour);
   request "SPAM.example.org" false (day + 3 * Hour); request "203.0.113.1" false (day + 3 * Hour)].

Definition w0 : world := tables log (day + 3 * Hour + 5 * Minute) ∅.
Definition from : time := day - 7 * 24 * Hour + 3 * Hour.
Definition w : world := (RunRollup from (day + 3 * Hour) false w0).2.

Lemma log_normalised : normalised_log (w_db w0).
Proof.
  intros id r Hr. assert (Forall (λ kv, normalised kv.2) (map_to_list (access_log (logs (w_db w0))))) as Hall.
  { vm_compute. repeat constructor; discriminate. }
  rewrite Forall_forall in Hall. exact (Hall (id, r) (proj2 (elem_of_map_to_list _ id r) Hr)).
Qed.

Lemma demo_covered : covered (truncate Hour (w_now w - hostSuggestionsWindow)) (truncate Hour (w_now w)) (w_db w).
Proof.
  assert (truncate Hour (w_now w - hostSuggestionsWindow) = from) as -> by (vm_compute; reflexivity).
  assert (truncate Hour (w_now w) = day + 3 * Hour) as -> by (vm_compute; reflexivity).
  apply (RunRollup_covers _ _ false w0); [by exists (100 * 24 - 7 * 24 + 3)|by exists (100 * 24 + 3)|exact log_normalised| |].
  - intros k _ Hk. exfalso. apply Hk. exact (lookup_empty k).
  - unfold w. destruct (RunRollup _ _ _ _) as [r w1] eqn:E. cbn [snd]. f_equal. apply (f_equal fst) in E. cbn in E. by rewrite <-E.
Qed.

(** Two spellings of one host make one suggestion; the registered host, the
    ignored one and the address are left out. *)
Example suggestions_are_unknown_traffic_witness :
  ∃ page, GetHostSuggestionsPage false w = (Ok page, w) ∧
    mkHostSuggestion "app.example.org" (day + 2 * Hour) 1 4 ∈ page_Suggestions page ∧ countPendingHostSuggestions false w = (Ok 1, w).
Proof.
  destruct (suggestions_are_unknown_traffic false w eq_refl demo_covered) as (page & Hp & Hc & _ & Hs). exists page. split; [exact Hp|]. split.
  - apply (proj2 (Hs _ _ _ _)). split; [|cbv zeta; split; [|split]; vm_compute; reflexivity]. split; [vm_compute; reflexivity|]. split.
    + intros i h Hh. change (({[1 := mkHost 1 "wiki.example.org" 0 0]} : gmap Z Host) !! i = Some h) in Hh. apply lookup_singleton_Some in Hh as [_ <-]. vm_compute. discriminate.
    + intros i x Hx. change (({[1 := mkSuggestion 1 "spam.example.org" 0]} : gmap Z IgnoredHostSuggestion) !! i = Some x) in Hx. apply lookup_singleton_Some in Hx as [_ <-]. vm_compute. discriminate.
  - rewrite Hc. f_equal. f_equal. assert (fst (GetHostSuggestionsPage false w) = Ok page) as Hpage by (by rewrite Hp).
    vm_compute in Hpage. injection Hpage as <-. vm_compute. reflexivity.
Defined.

(** A host seen a minute ago, in the hour before, is not suggested until the
    rollup has run. *)
Example just_seen_not_suggested :
  let w' := tables [request "app.example.org" false (day + 3 * Hour - 30 * Second)] (day + 3 * Hour + 30 * Second) ∅ in
  (countPendingHostSuggestions false w').1 = Ok 0 ∧ (countPendingHostSuggestions false (set_now (day + 3 * Hour - 1) w')).1 = Ok 1.
Proof. split; vm_compute; reflexivity. Qed.
End SuggestionDemo.
