(* ===== verification/AccessLogView.v ===== *)
(** * AccessLogView: the views of the decision log ([internal/accesslog])

    The paged list with its filters, the record of one request, the
    histogram and the countries, with their handlers. *)

From S2P Require Import Prelude GoLib Compare GroupBy Schema Store Http Timebucket Like Filterx Rollup.

Local Open Scope string_scope.
Local Open Scope Z_scope.
Local Open Scope list_scope.

(** ** The query (access_log_view.go) *)

Definition defaultSort : string := "created_at".
Definition defaultOrder : string := "desc".
Definition defaultWindow : Z := 24 * Hour.
Definition defaultPageSize : Z := 50.
Definition maxPageSize : Z := 200.

Definition contributorCorrelated : string := "SELECT 1 FROM access_log_contributors c WHERE c.access_log_id = ral.id".

Definition text_ops : list Operator := [OpIn; OpNotIn; OpContains; OpNotContains].
Definition null_ops : list Operator := [OpIsNull; OpNotNull].

Definition accessLogColumns : list (string * ColumnSpec) := [
    ("client_ip", mkColumnSpec "ral.client_ip" false None text_ops);
    ("target_host", mkColumnSpec "ral.target_host" true None (text_ops ++ null_ops));
    ("target_uri", mkColumnSpec "ral.target_uri" true None (text_ops ++ null_ops));
    ("http_method", mkColumnSpec "ral.http_method" true None [OpIn; OpNotIn]);
    ("deny_reason", mkColumnSpec "ral.deny_reason" true None ([OpIn; OpNotIn] ++ null_ops));
    ("country_code", mkColumnSpec "g.country_code" true None ([OpIn; OpNotIn] ++ null_ops));
    ("network_policy", mkColumnSpec "anpc.policy_id" true None ([OpIn; OpNotIn] ++ null_ops));
    ("device", mkColumnSpec "" false (Some (mkRelational contributorCorrelated "c.device_id")) ([OpIn; OpNotIn] ++ null_ops));
    ("user", mkColumnSpec "" false (Some (mkRelational contributorCorrelated "c.user_id")) [OpIn; OpNotIn])].

Definition accessLogSorts : list (string * SortSpec) := [
    ("created_at", mkSortSpec "ral.created_at" KindTime false);
    ("client_ip", mkSortSpec "ral.client_ip" KindString false);
    ("target_host", mkSortSpec "ral.target_host" KindString true);
    ("http_method", mkSortSpec "ral.http_method" KindString true);
    ("deny_reason", mkSortSpec "ral.deny_reason" KindString true);
    ("duration_us", mkSortSpec "ral.duration_us" KindInt false);
    ("outcome", mkSortSpec "ral.outcome" KindInt false)].

Definition accessLogRegistry : Registry := mkRegistry (list_to_map accessLogColumns) (list_to_map accessLogSorts) "ral.id".

Record AccessLogQuery := mkAccessLogQuery {
  query_From : time;
  query_To : time;
  query_Outcome : option bool;
  query_Filters : list Filter;
  query_Sort : string;
  query_Order : string;
  query_Cursor : option Cursor;
  query_Limit : Z;
}.

(** [accessLogFilterParams], as the parameters of both endpoints carry them. *)
Record accessLogFilterParams := mkFilterParams {
  param_From : option time;
  param_To : option time;
  param_Outcome : option bool;
  param_ClientIP : option (list string) * option string;
  param_TargetHost : option (list string) * option string;
  param_TargetURI : option (list string) * option string;
  param_HTTPMethod : option (list string) * option string;
  param_DenyReason : option (list string) * option string;
  param_CountryCode : option (list string) * option string;
  param_DeviceID : option (list Z) * option string;
  param_UserID : option (list Z) * option string;
  param_NetworkPolicyID : option (list Z) * option string;
}.

Definition valueFilters (p : accessLogFilterParams) : list (string * list value * option string) := [
  ("client_ip", StringValues (param_ClientIP p).1, (param_ClientIP p).2);
  ("target_host", StringValues (param_TargetHost p).1, (param_TargetHost p).2);
  ("target_uri", StringValues (param_TargetURI p).1, (param_TargetURI p).2);
  ("http_method", StringValues (param_HTTPMethod p).1, (param_HTTPMethod p).2);
  ("deny_reason", StringValues (param_DenyReason p).1, (param_DenyReason p).2);
  ("country_code", StringValues (param_CountryCode p).1, (param_CountryCode p).2);
  ("device", Int64Values (param_DeviceID p).1, (param_DeviceID p).2);
  ("user", Int64Values (param_UserID p).1, (param_UserID p).2);
  ("network_policy", Int64Values (param_NetworkPolicyID p).1, (param_NetworkPolicyID p).2)].

Definition newAccessLogQuery (now : time) (p : accessLogFilterParams) : result AccessLogQuery :=
  match parse_filters accessLogRegistry (valueFilters p) with
  | Err e => Err e
  | Ok fs => Ok (mkAccessLogQuery (default (now - defaultWindow) (param_From p)) (default now (param_To p)) (param_Outcome p) fs "" "" None 0)
  end.

(** [httpapi.GetAccessLogParams]. *)
Record GetAccessLogParams := mkGetAccessLogParams {
  params_Filter : accessLogFilterParams;
  params_Limit : option Z;
  params_Cursor : option string;
  params_Sort : option string;
  params_Order : option string;
}.

Definition page_size (limit : option Z) : Z :=
  let limit := default defaultPageSize limit in
  let limit := if limit <=? 0 then defaultPageSize else limit in
  if maxPageSize <? limit then maxPageSize else limit.

Section query.
Context `{TokenCodec}.

Definition NewAccessLogQuery (now : time) (params : GetAccessLogParams) : result AccessLogQuery :=
  match newAccessLogQuery now (params_Filter params) with
  | Err e => Err e
  | Ok q =>
      let page sort order cursor :=
        mkAccessLogQuery (query_From q) (query_To q) (query_Outcome q) (query_Filters q) sort order cursor (page_size (params_Limit params)) in
      let fresh :=
        let sort := default defaultSort (params_Sort params) in
        let order := default defaultOrder (params_Order params) in
        match OrderBy accessLogRegistry sort order with Err e => Err e | Ok _ => Ok (page sort order None) end in
      match params_Cursor params with
      | None => fresh
      | Some token =>
          if bool_decide (token = "") then fresh
          else match DecodeCursor accessLogRegistry token with
               | Err e => Err e
               | Ok cur => Ok (page (Cursor_Sort cur) (Cursor_Order cur) (Some cur))
               end
      end
  end.
End query.

(** [httpapi.GetAccessLogHistogramParams]. *)
Definition NewAccessLogHistogramQuery (now : time) (p : accessLogFilterParams) : result AccessLogQuery := newAccessLogQuery now p.

Definition accessLogWindowConditions (from to : time) : list Sqlizer :=
  (if IsZero from then [] else [SqGtOrEq "ral.created_at" (VTime from)]) ++
  (if IsZero to then [] else [SqLtOrEq "ral.created_at" (VTime to)]).

Definition accessLogFilterConditions (q : AccessLogQuery) : result (list Sqlizer) :=
  match map_result (Condition accessLogRegistry) (query_Filters q) with
  | Err e => Err e
  | Ok cs => Ok (match query_Outcome q with Some b => [SqEq "ral.outcome" (VBool b)] | None => [] end ++ cs)
  end.

Definition accessLogConditions (q : AccessLogQuery) : result (list Sqlizer) :=
  match accessLogFilterConditions q with
  | Err e => Err e
  | Ok cond => Ok (accessLogWindowConditions (query_From q) (query_To q) ++ cond)
  end.

(** [accessLogFilterJoins]: whether geolocation and policy must be joined. *)
Definition accessLogFilterJoins (q : AccessLogQuery) : bool * bool :=
  (existsb (λ f, bool_decide (Filter_Column f = "country_code")) (query_Filters q),
   existsb (λ f, bool_decide (Filter_Column f = "network_policy")) (query_Filters q)).

(** ** The joined rows *)

(** A log entry with its geolocation and its policy, where they are joined. *)
Record joined := mkJoined { joined_ID : Z; joined_Row : AccessLogRow; joined_Geo : option GeoRow; joined_Policy : option PolicyContributorRow }.

Definition join (geoip policy : bool) (d : db) (kv : Z * AccessLogRow) : joined :=
  mkJoined kv.1 kv.2 (if geoip then access_log_geoip (logs d) !! kv.1 else None) (if policy then access_log_policies (logs d) !! kv.1 else None).

Definition from_log (geoip policy : bool) (d : db) : list joined := join geoip policy d <$> scan (access_log (logs d)).

Definition accessLogFilteredFrom (q : AccessLogQuery) (d : db) : list joined :=
  from_log (accessLogFilterJoins q).1 (accessLogFilterJoins q).2 d.

(** The SQL expressions of the view. *)
Definition log_columns : list (string * (joined → value)) := [
  ("ral.id", λ r, VInt (joined_ID r));
  ("ral.created_at", λ r, VTime (log_CreatedAt (joined_Row r)));
  ("ral.client_ip", λ r, VString (log_ClientIP (joined_Row r)));
  ("ral.target_host", λ r, text_value (log_TargetHost (joined_Row r)));
  ("ral.target_uri", λ r, text_value (log_TargetURI (joined_Row r)));
  ("ral.http_method", λ r, text_value (log_HTTPMethod (joined_Row r)));
  ("ral.deny_reason", λ r, text_value (log_DenyReason (joined_Row r)));
  ("ral.duration_us", λ r, VInt (log_DurationUs (joined_Row r)));
  ("ral.outcome", λ r, VBool (log_Outcome (joined_Row r)));
  ("g.country_code", λ r, text_value (geo_CountryCode <$> joined_Geo r));
  ("anpc.policy_id", λ r, int_value (joined_Policy r ≫= policy_contributor_PolicyID))].

Definition log_col (e : string) (r : joined) : value := match assoc e log_columns with Some f => f r | None => VNull end.

(** The contributors of an entry, for the relational filters. *)
Definition log_sub (d : db) (correlated : string) (r : joined) : list ContributorRow :=
  if bool_decide (correlated = contributorCorrelated)
  then filter (λ c, contributor_AccessLogID c = joined_ID r) (access_log_contributors (logs d)) else [].

Definition log_ccol (e : string) (c : ContributorRow) : value :=
  if bool_decide (e = "c.device_id") then VInt (contributor_DeviceID c)
  else if bool_decide (e = "c.user_id") then VInt (contributor_UserID c) else VNull.

Definition log_holds (d : db) (c : Sqlizer) (r : joined) : bool := holds log_col (log_sub d) log_ccol c r.

(** [SELECT ... WHERE]. *)
Definition where_log (d : db) (cond : list Sqlizer) (l : list joined) : list joined := filter (λ r, log_holds d (SqAnd cond) r = true) l.

(** ** The list *)

Record AccessLogContributor := mkAccessLogContributor {
  contributor_view_DeviceID : option DeviceID;
  contributor_view_DeviceName : option string;
  contributor_view_UserID : option UserID;
  contributor_view_UserName : option string;
  contributor_view_AddressID : option AddressID;
}.

Record AccessLogView := mkAccessLogView {
  view_ID : Z;
  view_ClientIP : string;
  view_Outcome : bool;
  view_DenyReason : option string;
  view_Contributors : list AccessLogContributor;
  view_ContributorCount : Z;
  view_CreatedAt : time;
  view_DurationUs : Z;
  view_TargetHost : option string;
  view_TargetURI : option string;
  view_HTTPMethod : option string;
  view_CountryCode : option string;
  view_NetworkPolicyID : option Z;
  view_NetworkPolicyName : option string;
}.

(** [dbAccessLogRow.toView]. *)
Definition toView (r : joined) : AccessLogView :=
  let row := joined_Row r in
  mkAccessLogView (joined_ID r) (log_ClientIP row) (log_Outcome row) (log_DenyReason row) [] (log_ContributorCount row) (log_CreatedAt row)
    (log_DurationUs row) (log_TargetHost row) (log_TargetURI row) (log_HTTPMethod row) (geo_CountryCode <$> joined_Geo r)
    (joined_Policy r ≫= policy_contributor_PolicyID) (policy_contributor_PolicyName <$> joined_Policy r).

Definition with_contributors (v : AccessLogView) (l : list AccessLogContributor) : AccessLogView :=
  mkAccessLogView (view_ID v) (view_ClientIP v) (view_Outcome v) (view_DenyReason v) l (view_ContributorCount v) (view_CreatedAt v)
    (view_DurationUs v) (view_TargetHost v) (view_TargetURI v) (view_HTTPMethod v) (view_CountryCode v) (view_NetworkPolicyID v) (view_NetworkPolicyName v).

(** The contributors with their devices and users, ordered by entry and
    device name. *)
Definition contributor_rows (logIDs : list Z) (d : db) : list (Z * string * AccessLogContributor) :=
  order_by fst (cmp_pair Z.compare String.compare)
    (omap (λ c, v ← devices d !! contributor_DeviceID c; u ← users d !! contributor_UserID c;
                Some (contributor_AccessLogID c, Device_Name v,
                      mkAccessLogContributor (Some (contributor_DeviceID c)) (Some (Device_Name v)) (Some (contributor_UserID c))
                        (Some (User_DisplayName u)) (Some (contributor_AddressID c))))
       (filter (λ c, contributor_AccessLogID c ∈ logIDs) (access_log_contributors (logs d)))).

(** [fetchAccessLogContributors]: the map it builds, as a function. *)
Definition fetchAccessLogContributors (logIDs : list Z) : M (Z → list AccessLogContributor) :=
  if bool_decide (logIDs = []) then mret (λ _, [])
  else query (λ _ d id, (filter (λ x, x.1.1 = id) (contributor_rows logIDs d)).*2).

Definition attach (f : Z → list AccessLogContributor) (v : AccessLogView) : AccessLogView := with_contributors v (f (view_ID v)).

(** The rows of one page. *)
Definition page_rows (cond : list Sqlizer) (o : OrderClause) (limit : Z) (d : db) : list joined :=
  take (Z.to_nat limit) (order_rows log_col o (where_log d cond (from_log true true d))).

Definition keyset_conditions (q : AccessLogQuery) : result (list Sqlizer) :=
  match query_Cursor q with
  | None => Ok []
  | Some c => match Keyset accessLogRegistry c with Ok p => Ok [p] | Err e => Err e end
  end.

Definition ListAccessLog (q : AccessLogQuery) : M (list AccessLogView * Z) :=
  cond ← of_result (accessLogConditions q);
  total ← query (λ _ d, Z.of_nat (length (where_log d cond (accessLogFilteredFrom q d))));
  orderBy ← of_result (OrderBy accessLogRegistry (query_Sort q) (query_Order q));
  keyset ← of_result (keyset_conditions q);
  rows ← query (λ _ d, page_rows (cond ++ keyset) orderBy (query_Limit q) d);
  contributors ← fetchAccessLogContributors (joined_ID <$> rows);
  mret (attach contributors ∘ toView <$> rows, total).

(** [AccessLogDetailView]. *)
Record AccessLogDetailView := mkAccessLogDetailView {
  detail_View : AccessLogView;
  detail_XFFChain : option string;
  detail_Headers : gmap string (list string);
  detail_CountryName : option string;
  detail_ContinentCode : option string;
  detail_ASN : option Z;
  detail_ASNOrg : option string;
}.

(** [GetAccessLogEntry]: the stored headers are the JSON the repository
    wrote, so they can be read back. *)
Definition GetAccessLogEntry (id : Z) : M AccessLogDetailView :=
  r ← map_err (no_rows ErrEntryNotFound) (get_row (λ _ d, (λ row, join true true d (id, row)) <$> access_log (logs d) !! id));
  contributors ← fetchAccessLogContributors [id];
  mret (mkAccessLogDetailView (attach contributors (toView r)) (log_XFFChain (joined_Row r)) (log_Headers (joined_Row r))
          (geo_CountryName <$> joined_Geo r) (geo_ContinentCode <$> joined_Geo r) (geo_ASN <$> joined_Geo r) (geo_ASNOrg <$> joined_Geo r)).

(** The sort column's value of a row, for the cursor. *)
Definition accessLogSortValue (row : AccessLogView) (sortKey : string) : value :=
  if bool_decide (sortKey = "client_ip") then VString (view_ClientIP row)
  else if bool_decide (sortKey = "target_host") then text_value (view_TargetHost row)
  else if bool_decide (sortKey = "http_method") then text_value (view_HTTPMethod row)
  else if bool_decide (sortKey = "deny_reason") then text_value (view_DenyReason row)
  else if bool_decide (sortKey = "duration_us") then VInt (view_DurationUs row)
  else if bool_decide (sortKey = "outcome") then VBool (view_Outcome row)
  else VTime (view_CreatedAt row).

(** ** The histogram (access_log_histogram_view.go) *)

Record AccessLogHistogramBucket := mkHistogramBucket { histogram_Timestamp : time; histogram_AllowCount : Z; histogram_DenyCount : Z }.

(** Does the window end inside the bucket? *)
Definition closing (q : AccessLogQuery) (next : time) : bool := negb (IsZero (query_To q)) && (query_To q <? next).

(** [bucketQuery]: the range of one bucket, clipped to the window. *)
Definition bucket_range (q : AccessLogQuery) (g : Granularity) (start : time) : list Sqlizer :=
  let lower := if negb (IsZero (query_From q)) && (start <? query_From q) then query_From q else start in
  let next := Next g start in
  [SqGtOrEq "ral.created_at" (VTime lower);
   if closing q next then SqLtOrEq "ral.created_at" (VTime (query_To q)) else SqLt "ral.created_at" (VTime next)].

Definition bucketQuery (q : AccessLogQuery) (g : Granularity) (cond : list Sqlizer) (start : time) (d : db) : AccessLogHistogramBucket :=
  let l := where_log d (bucket_range q g start ++ cond) (accessLogFilteredFrom q d) in
  mkHistogramBucket start (sum_when (λ r, log_Outcome (joined_Row r)) (λ _, 1) l) (sum_when (λ r, negb (log_Outcome (joined_Row r))) (λ _, 1) l).

(** The loop over the sequence: a statement is prepared the first time its
    text is seen. *)
Fixpoint bucket_queries (q : AccessLogQuery) (g : Granularity) (cond : list Sqlizer) (prepared : list bool) (sequence : list time) : M (list AccessLogHistogramBucket) :=
  match sequence with
  | [] => mret []
  | start :: sequence =>
      let text := closing q (Next g start) in
      _ ← (if bool_decide (text ∈ prepared) then mret tt else query (λ _ _, tt));
      b ← query (λ _ d, bucketQuery q g cond start d);
      bs ← bucket_queries q g cond (text :: prepared) sequence;
      mret (b :: bs)
  end.

(** Enough for every bucket and the step that ends the loop. *)
Definition sequence_fuel (g : Granularity) (from to : time) : nat := S (bucket_count g from to).

Definition trafficBuckets (q : AccessLogQuery) (g : Granularity) : M (list AccessLogHistogramBucket) :=
  cond ← of_result (accessLogFilterConditions q);
  bucket_queries q g cond [] (default [] (Sequence (sequence_fuel g (query_From q) (query_To q)) g (query_From q) (query_To q))).

Definition GetAccessLogHistogram (q : AccessLogQuery) : M (list AccessLogHistogramBucket) :=
  trafficBuckets q (GranularityForWindow (query_To q - query_From q)).

(** ** The countries (country_stats_view.go) *)

Record AccessLogCountryStat := mkCountryStat {
  stat_CountryCode : string; stat_CountryName : string; stat_Total : Z; stat_Allowed : Z; stat_Denied : Z }.

Definition cmp_country : string * string → string * string → comparison := cmp_pair String.compare String.compare.

Definition listRawAccessLogStatsByCountry (from to : time) (d : db) : list AccessLogCountryStat :=
  let l := omap (λ kv, g ← access_log_geoip (logs d) !! kv.1;
                       if (from <=? log_CreatedAt kv.2) && (log_CreatedAt kv.2 <=? to) then Some (g, kv.2) else None)
                (scan (access_log (logs d))) in
  let key (x : GeoRow * AccessLogRow) := (geo_CountryCode x.1, geo_CountryName x.1) in
  order_desc stat_Total
    ((λ k, let b := group key k l in
           mkCountryStat k.1 k.2 (Z.of_nat (length b)) (sum_when (λ x, log_Outcome x.2) (λ _, 1) b)
             (sum_when (λ x, negb (log_Outcome x.2)) (λ _, 1) b)) <$> group_keys key cmp_country l).

Definition listAggregateAccessLogStatsByCountry (from to : time) (d : db) : list AccessLogCountryStat :=
  let l := filter (λ kv, agg_CountryCode kv.2 ≠ "") (window_aggregates from to d) in
  let key (kv : TrafficKey * TrafficAggregate) := (agg_CountryCode kv.2, agg_CountryName kv.2) in
  let count p b := sum_when p (λ kv : TrafficKey * TrafficAggregate, agg_RequestCount kv.2) b in
  order_desc stat_Total
    ((λ k, let b := group key k l in
           mkCountryStat k.1 k.2 (zsum ((λ kv, agg_RequestCount kv.2) <$> b)) (count (λ kv, key_outcome kv.1) b)
             (count (λ kv, negb (key_outcome kv.1)) b)) <$> group_keys key cmp_country l).

Definition ListAccessLogStatsByCountry (from to : time) : M (list AccessLogCountryStat) :=
  query (λ _ d, if to - from <=? RawWindowThreshold then listRawAccessLogStatsByCountry from to d else listAggregateAccessLogStatsByCountry from to d).

(** ** The handlers (handler_access_log.go)

    The generated row types carry the fields of the views. *)

Record AccessLogResponse := mkAccessLogResponse { response_Total : Z; response_NextCursor : option string; response_Rows : list AccessLogView }.

Section handlers.
Context `{TokenCodec}.

(** The cursor of the next page, when this one is full. *)
Definition next_cursor (q : AccessLogQuery) (rows : list AccessLogView) : result (option string) :=
  if bool_decide (Z.of_nat (length rows) = query_Limit q) then
    match last rows with
    | None => Ok None
    | Some r =>
        match EncodeCursor accessLogRegistry (query_Sort q) (query_Order q) (accessLogSortValue r (query_Sort q)) (view_ID r) with
        | Err e => Err e
        | Ok token => Ok (Some token)
        end
    end
  else Ok None.

Definition handler_GetAccessLog (params : GetAccessLogParams) : M (Response AccessLogResponse) :=
  t ← now;
  match NewAccessLogQuery t params with
  | Err e => mret (query_error e)
  | Ok q =>
      r ← try (ListAccessLog q);
      mret match r with
           | Err _ => server_error
           | Ok (rows, total) =>
               match next_cursor q rows with
               | Err _ => server_error
               | Ok next => mkResponse 200 (Some (mkAccessLogResponse total next rows))
               end
           end
  end.
End handlers.

Definition handler_GetAccessLogEntry (id : Z) : M (Response AccessLogDetailView) :=
  respond (GetAccessLogEntry id) (λ e, mkResponse 200 (Some e)) (λ e, if bool_decide (e = ErrEntryNotFound) then 404 else 500).

Definition handler_GetAccessLogHistogram (p : accessLogFilterParams) : M (Response (list AccessLogHistogramBucket)) :=
  t ← now;
  match NewAccessLogHistogramQuery t p with
  | Err e => mret (query_error e)
  | Ok q => respond (GetAccessLogHistogram q) (λ bs, mkResponse 200 (Some bs)) (λ _, 500)
  end.

Definition handler_GetAccessLogByCountry (from to : option time) : M (Response (list AccessLogCountryStat)) :=
  t ← now;
  respond (ListAccessLogStatsByCountry (default (t - defaultWindow) from) (default t to)) (λ l, mkResponse 200 (Some l)) (λ _, 500).
