(* ===== verification/AccessLogViewSpec.v ===== *)
(** * AccessLogViewSpec: what the views of the log show

    An accepted query never fails but in the driver; the total counts the
    rows of the list whatever is joined; following the cursors lists every
    row once; the histogram sums to the list. *)

From S2P Require Import Prelude GoLib Compare GroupBy Schema Store Http Timebucket Like Filterx Rollup AccessLogView.

Local Open Scope string_scope.
Local Open Scope Z_scope.
Local Open Scope list_scope.

(** ** The registry *)

Lemma column_listed name spec : cols accessLogRegistry !! name = Some spec → (name, spec) ∈ accessLogColumns.
Proof. apply elem_of_list_to_map_2. Qed.

Lemma sort_listed name spec : sorts accessLogRegistry !! name = Some spec → (name, spec) ∈ accessLogSorts.
Proof. apply elem_of_list_to_map_2. Qed.

(** One case per entry of a list that is written out. *)
Ltac entry_cases H :=
  repeat (apply elem_of_cons in H as [H|H]; [injection H as -> ->|]); [..|by apply elem_of_nil in H].

(** ** Accepted queries *)

Definition texts (vs : list value) : Prop := ∀ v, v ∈ vs → ∃ s, v = VString s.

Lemma StringValues_texts l : texts (StringValues l).
Proof. destruct l as [l|]; intros v Hv; [|by apply elem_of_nil in Hv]. apply list_elem_of_fmap in Hv as (s & -> & _). by exists s. Qed.

Lemma like_parts_texts mk vs : texts vs → ∃ l, like_parts mk vs = Ok l.
Proof.
  induction vs as [|v vs IH]; intros Ht; [by eexists|]. destruct (Ht v ltac:(by left)) as [s ->]. cbn [like_parts].
  destruct IH as [l ->]; [intros w Hw; apply Ht; by right|]. by eexists.
Qed.

Lemma likeCondition_texts expr vs negate : texts vs → ∃ c, likeCondition expr vs negate = Ok c.
Proof. intros Ht. unfold likeCondition. destruct (like_parts_texts (if negate then SqNotLike expr else SqLike expr) vs Ht) as [l ->]. by eexists. Qed.

(** A filter of the query gives a condition. *)
Definition filter_ok (f : Filter) : Prop := ∃ c, Condition accessLogRegistry f = Ok c.

(** The columns that can be matched as text. *)
Definition text_column (name : string) : bool := bool_decide (name ∈ ["client_ip"; "target_host"; "target_uri"]).

Lemma Validate_ok f :
  Validate accessLogRegistry f = Ok tt → (text_column (Filter_Column f) = true → texts (Filter_Values f)) → filter_ok f.
Proof.
  unfold Validate, filter_ok, Condition. destruct (check accessLogRegistry f) as [spec|e] eqn:Hc; [|done]. intros _ Ht.
  apply check_Ok in Hc as (Hs & Ha & _). apply column_listed in Hs. destruct f as [name op vs]. cbn in *.
  entry_cases Hs; cbn [ColumnSpec_Rel ColumnSpec_Ops] in *; destruct op; try (by eexists);
    try (exfalso; unfold text_ops, null_ops in Ha; rewrite ?elem_of_app, !elem_of_cons, ?elem_of_nil in Ha; naive_solver); specialize (Ht eq_refl); unfold scalarCondition; cbn [Filter_Op];
    cbn [ColumnSpec_Expr ColumnSpec_Nullable Filter_Values];
    match goal with |- context [likeCondition ?e ?v ?n] => destruct (likeCondition_texts e v n Ht) as [c ->] end; by eexists.
Qed.

(** Every refusal is [ErrInvalidFilter]. *)
Lemma ParseFilter_Err c vs op e : ParseFilter c vs op = Err e → e = ErrInvalidFilter.
Proof. unfold ParseFilter, ParseOperator. destruct op as [s|]; [|done]. repeat case_match; congruence. Qed.

Lemma ParseFilter_Some c vs op f : ParseFilter c vs op = Ok (Some f) → Filter_Column f = c ∧ Filter_Values f = vs.
Proof. unfold ParseFilter. repeat case_match; try done; by intros [= <-]. Qed.

Lemma Validate_Err rg f e : Validate rg f = Err e → e = ErrInvalidFilter.
Proof. unfold Validate, check. repeat case_match; congruence. Qed.

Lemma parse_filters_spec l :
  (∀ c vs op, (c, vs, op) ∈ l → text_column c = true → texts vs) →
  match parse_filters accessLogRegistry l with Ok fs => Forall filter_ok fs | Err e => e = ErrInvalidFilter end.
Proof.
  induction l as [|[[c vs] op] l IH]; intros Ht; [apply Forall_nil_2|]. cbn [parse_filters].
  assert (match parse_filters accessLogRegistry l with Ok fs => Forall filter_ok fs | Err e => e = ErrInvalidFilter end) as IH'
    by (apply IH; intros c' vs' op' Hin; apply (Ht c' vs' op'); by right).
  destruct (ParseFilter c vs op) as [[f|]|e] eqn:Ef; [|done|by eapply ParseFilter_Err].
  destruct (Validate accessLogRegistry f) as [[]|e] eqn:Ev; [|by eapply Validate_Err].
  destruct (parse_filters accessLogRegistry l) as [fs|e]; [|done]. apply Forall_cons_2; [|done]. apply Validate_ok; [done|].
  apply ParseFilter_Some in Ef as [-> ->]. apply (Ht c vs op). by left.
Qed.

Lemma valueFilters_texts p c vs op : (c, vs, op) ∈ valueFilters p → text_column c = true → texts vs.
Proof.
  unfold valueFilters. rewrite !elem_of_cons. intros H Hc.
  destruct H as [H|[H|[H|[H|[H|[H|[H|[H|[H|H%elem_of_nil]]]]]]]]]; [..|done]; injection H as -> -> _; try apply StringValues_texts; discriminate Hc.
Qed.

Lemma newAccessLogQuery_spec t p :
  match newAccessLogQuery t p with Ok q => Forall filter_ok (query_Filters q) | Err e => e = ErrInvalidFilter end.
Proof.
  unfold newAccessLogQuery. pose proof (parse_filters_spec (valueFilters p) (valueFilters_texts p)) as H. by destruct (parse_filters _ _).
Qed.

Lemma filter_conditions_ok q : Forall filter_ok (query_Filters q) → ∃ cond, accessLogFilterConditions q = Ok cond.
Proof.
  intros Hf. unfold accessLogFilterConditions. assert (∃ cs, map_result (Condition accessLogRegistry) (query_Filters q) = Ok cs) as [cs ->]; [|by eexists].
  induction Hf as [|f fs [c Hc] _ [cs IH]]; [by eexists|]. cbn. rewrite Hc, IH. by eexists.
Qed.

Lemma page_size_bounds limit : 1 ≤ page_size limit ≤ maxPageSize.
Proof.
  unfold page_size, maxPageSize, defaultPageSize. set (n := default 50 limit). destruct (Z.leb_spec n 0); cbv zeta; [by vm_compute|].
  destruct (Z.ltb_spec 200 n); lia.
Qed.

(** ** Well-formed queries *)

(** What [ListAccessLog] relies on. *)
Record query_ok (q : AccessLogQuery) : Prop := {
  ok_filters : ∃ cond, accessLogConditions q = Ok cond;
  ok_order : ∃ o, OrderBy accessLogRegistry (query_Sort q) (query_Order q) = Ok o;
  ok_keyset : ∃ ks, keyset_conditions q = Ok ks;
  ok_limit : 1 ≤ query_Limit q ≤ maxPageSize;
}.

Lemma OrderBy_Err rg s o e : OrderBy rg s o = Err e → e = ErrInvalidFilter.
Proof. unfold OrderBy, normalizeOrder. repeat case_match; congruence. Qed.

Lemma OrderBy_sorts rg s o spec : sorts rg !! s = Some spec → normalizeOrder o = Ok o → ∃ c, OrderBy rg s o = Ok c.
Proof. intros Hs Ho. unfold OrderBy. rewrite Hs, Ho. by eexists. Qed.

Lemma normalizeOrder_Ok o o' : normalizeOrder o = Ok o' → o' = o.
Proof. unfold normalizeOrder. case_match; congruence. Qed.

Section accepted.
Context `{TokenCodec}.

Lemma DecodeCursor_spec rg token :
  match DecodeCursor rg token with
  | Ok c => (∃ o, OrderBy rg (Cursor_Sort c) (Cursor_Order c) = Ok o) ∧ ∃ p, Keyset rg c = Ok p
  | Err e => e = ErrInvalidFilter
  end.
Proof.
  unfold DecodeCursor. destruct (decode_token token) as [t|]; [|done]. destruct (sorts rg !! cursorToken_Sort t) as [spec|] eqn:Es; [|done].
  destruct (normalizeOrder (cursorToken_Order t)) as [o|e] eqn:Eo; [|unfold normalizeOrder in Eo; case_match; congruence].
  destruct (decodeValue spec (cursorToken_Value t)) as [v|e] eqn:Ev.
  - cbn. split; [apply (OrderBy_sorts _ _ _ spec Es); by rewrite Eo, (normalizeOrder_Ok _ _ Eo)|].
    unfold Keyset. cbn. rewrite Es. repeat case_bool_decide; by eexists.
  - unfold decodeValue, of_option in Ev. repeat case_match; congruence.
Qed.

(** An accepted query is well formed; everything that is refused is refused
    as an invalid filter. *)
Lemma NewAccessLogQuery_spec t params :
  match NewAccessLogQuery t params with Ok q => query_ok q | Err e => e = ErrInvalidFilter end.
Proof.
  unfold NewAccessLogQuery. pose proof (newAccessLogQuery_spec t (params_Filter params)) as Hf.
  destruct (newAccessLogQuery t (params_Filter params)) as [q|e]; [|done]. apply filter_conditions_ok in Hf as [cond Hc].
  assert (∀ s o c, (∃ cl, OrderBy accessLogRegistry s o = Ok cl) → (∃ ks, keyset_conditions (mkAccessLogQuery (query_From q) (query_To q) (query_Outcome q)
      (query_Filters q) s o c (page_size (params_Limit params))) = Ok ks) →
    query_ok (mkAccessLogQuery (query_From q) (query_To q) (query_Outcome q) (query_Filters q) s o c (page_size (params_Limit params)))) as Hq.
  { intros s o c Ho Hk. split; [|done|done|apply page_size_bounds]. unfold accessLogConditions, accessLogFilterConditions in *. cbn [query_Filters query_Outcome] in *.
    destruct (map_result _ _); [|done]. by eexists. }
  assert (match match OrderBy accessLogRegistry (default defaultSort (params_Sort params)) (default defaultOrder (params_Order params)) with
                | Ok _ => Ok (mkAccessLogQuery (query_From q) (query_To q) (query_Outcome q) (query_Filters q)
                    (default defaultSort (params_Sort params)) (default defaultOrder (params_Order params)) None (page_size (params_Limit params)))
                | Err e => Err e end with Ok q => query_ok q | Err e => e = ErrInvalidFilter end) as Hfresh.
  { destruct (OrderBy _ _ _) as [o|e] eqn:Eo; [|by eapply OrderBy_Err]. apply Hq; [by eexists|by eexists]. }
  destruct (params_Cursor params) as [token|]; [|exact Hfresh]. case_bool_decide; [exact Hfresh|].
  pose proof (DecodeCursor_spec accessLogRegistry token) as Hd. destruct (DecodeCursor _ _) as [c|e]; [|done].
  destruct Hd as [Ho [p Hp]]. apply Hq; [done|]. unfold keyset_conditions. cbn [query_Cursor]. rewrite Hp. by eexists.
Qed.
End accepted.

(** ** Joins that do not matter *)

(** The columns a condition mentions. *)
Fixpoint mentions (c : Sqlizer) : list string :=
  match c with
  | SqIn e _ | SqNotIn e _ | SqEq e _ | SqLt e _ | SqGt e _ | SqLtOrEq e _ | SqGtOrEq e _ | SqIsNull e | SqIsNotNull e | SqLike e _ | SqNotLike e _ => [e]
  | SqExists _ _ | SqNotExists _ _ => []
  | SqAnd l | SqOr l => concat (mentions <$> l)
  end.

(** A condition sees a row only through them and the subqueries. *)
Lemma eval_agree {row crow} (col : string → row → value) (sub : string → row → list crow) (ccol : string → crow → value) r r' :
  (∀ corr, sub corr r = sub corr r') →
  ∀ c, (∀ e, e ∈ mentions c → col e r = col e r') → eval col sub ccol c r = eval col sub ccol c r'.
Proof.
  intros Hs. assert (∀ l (op : option bool → option bool → option bool) z,
    Forall (λ c, (∀ e, e ∈ mentions c → col e r = col e r') → eval col sub ccol c r = eval col sub ccol c r') l →
    (∀ e, e ∈ concat (mentions <$> l) → col e r = col e r') →
    foldr (λ c acc, op (eval col sub ccol c r) acc) z l = foldr (λ c acc, op (eval col sub ccol c r') acc) z l) as Hl.
  { intros l op z. induction 1 as [|c l Hc _ IH]; intros He; [done|]. cbn in *. rewrite IH, Hc; [done|..]; intros e Hin; apply He, elem_of_app; auto. }
  fix IH 1. intros c He. destruct c; cbn [eval mentions] in *; rewrite ?He by (by left); try done.
  - by rewrite (Hs correlated).
  - by rewrite (Hs correlated).
  - apply Hl; [|done]. clear He. induction l; constructor; [apply IH|done].
  - apply Hl; [|done]. clear He. induction l; constructor; [apply IH|done].
Qed.

(** What an unjoined table would have provided. *)
Definition joined_column (geoip policy : bool) (e : string) : bool :=
  (geoip || negb (bool_decide (e = "g.country_code"))) && (policy || negb (bool_decide (e = "anpc.policy_id"))).

Lemma log_col_join geoip policy d kv e : joined_column geoip policy e = true → log_col e (join geoip policy d kv) = log_col e (join true true d kv).
Proof.
  intros Hj. unfold log_col, assoc, log_columns. cbn [find fst].
  repeat (case_bool_decide; [subst; cbn; destruct geoip, policy; (done || (exfalso; revert Hj; by vm_compute))|]). done.
Qed.

(** A condition of a filter mentions its column only. *)
Lemma Condition_mentions f c e : Condition accessLogRegistry f = Ok c → e ∈ mentions c →
  ∃ spec, cols accessLogRegistry !! Filter_Column f = Some spec ∧ e = ColumnSpec_Expr spec.
Proof.
  unfold Condition. destruct (check accessLogRegistry f) as [spec|err] eqn:Hc; [|done]. apply check_Ok in Hc as (Hs & _ & _).
  intros Hc He. exists spec. split; [done|]. destruct (ColumnSpec_Rel spec) as [rel|].
  - unfold relationalCondition in Hc. destruct (Filter_Op f); try discriminate; injection Hc as <-; by apply elem_of_nil in He.
  - assert (∀ vs negate k, likeCondition (ColumnSpec_Expr spec) vs negate = Ok k → e ∈ mentions k → e = ColumnSpec_Expr spec) as Hlike.
    { intros vs negate k Hk Hin. unfold likeCondition in Hk. destruct (like_parts _ vs) as [l|] eqn:El; [|done].
      apply like_parts_Ok in El as (qs & _ & ->).
      assert (e ∈ concat (mentions <$> ((λ q, (if negate then SqNotLike (ColumnSpec_Expr spec) else SqLike (ColumnSpec_Expr spec)) ("%" +:+ EscapeLIKE q +:+ "%")) <$> qs))) as Hin'
        by (destruct negate; injection Hk as <-; exact Hin).
      clear Hin Hk. induction qs as [|q qs IH]; [by apply elem_of_nil in Hin'|]. cbn in Hin'. apply elem_of_app in Hin' as [Hq|Hq]; [|by apply IH].
      destruct negate; cbn in Hq; by apply list_elem_of_singleton in Hq. }
    unfold scalarCondition in Hc. destruct (Filter_Op f).
    + injection Hc as <-. by apply list_elem_of_singleton in He.
    + injection Hc as <-. destruct (ColumnSpec_Nullable spec); cbn in He; set_unfold in He; tauto.
    + by eapply Hlike.
    + destruct (likeCondition _ _ true) as [k|] eqn:Hk; [|done]. injection Hc as <-.
      destruct (ColumnSpec_Nullable spec); [|by eapply Hlike]. cbn in He. apply elem_of_cons in He as [?|He]; [done|]. rewrite app_nil_r in He. by eapply Hlike.
    + injection Hc as <-. by apply list_elem_of_singleton in He.
    + injection Hc as <-. by apply list_elem_of_singleton in He.
Qed.

(** The joins a query makes are those its filters need. *)
Lemma filter_columns_joined q f spec : f ∈ query_Filters q → cols accessLogRegistry !! Filter_Column f = Some spec →
  joined_column (accessLogFilterJoins q).1 (accessLogFilterJoins q).2 (ColumnSpec_Expr spec) = true.
Proof.
  intros Hf Hs. apply column_listed in Hs. unfold accessLogFilterJoins. cbn [fst snd].
  assert (∀ name, Filter_Column f = name → existsb (λ f, bool_decide (Filter_Column f = name)) (query_Filters q) = true) as Hex.
  { intros name E. apply existsb_exists. exists f. split; [by apply list_elem_of_In|by apply bool_decide_eq_true]. }
  pose proof (Hex "country_code") as Hg. pose proof (Hex "network_policy") as Hp. clear Hex.
  destruct (existsb (λ f, bool_decide (Filter_Column f = "country_code")) (query_Filters q)),
    (existsb (λ f, bool_decide (Filter_Column f = "network_policy")) (query_Filters q)); try done;
    remember (Filter_Column f) as name eqn:En; entry_cases Hs; try done; exfalso; by (specialize (Hg eq_refl) || specialize (Hp eq_refl)).
Qed.

Definition all_joined (q : AccessLogQuery) (c : Sqlizer) : Prop :=
  ∀ e, e ∈ mentions c → joined_column (accessLogFilterJoins q).1 (accessLogFilterJoins q).2 e = true.

Lemma filter_conditions_joined q cond : accessLogFilterConditions q = Ok cond → Forall (all_joined q) cond.
Proof.
  unfold accessLogFilterConditions. destruct (map_result _ _) as [cs|] eqn:E; [|done]. intros [= <-]. apply Forall_app_2.
  - destruct (query_Outcome q); [apply Forall_singleton|apply Forall_nil_2]. intros e He. apply list_elem_of_singleton in He as ->. unfold joined_column. cbn. by rewrite !orb_true_r.
  - apply map_result_Ok in E. apply Forall_forall. intros c (i & Hi)%list_elem_of_lookup_1 e He.
    destruct (Forall2_lookup_r _ _ _ _ _ E Hi) as (f & Hf & Hc). destruct (Condition_mentions _ _ _ Hc He) as (spec & Hs & ->).
    eapply filter_columns_joined; [by eapply list_elem_of_lookup_2|done].
Qed.

(** The range conditions mention the time only. *)
Definition timed (c : Sqlizer) : Prop := mentions c = ["ral.created_at"].

Lemma timed_joined q c : timed c → all_joined q c.
Proof. intros Ht e He. rewrite Ht in He. apply list_elem_of_singleton in He as ->. unfold joined_column. cbn. by rewrite !orb_true_r. Qed.

Lemma window_timed from to : Forall timed (accessLogWindowConditions from to).
Proof. unfold accessLogWindowConditions. repeat case_match; repeat constructor. Qed.

Lemma conditions_joined q cond : accessLogConditions q = Ok cond → Forall (all_joined q) cond.
Proof.
  unfold accessLogConditions. destruct (accessLogFilterConditions q) as [c|] eqn:E; [|done]. intros [= <-].
  apply Forall_app_2; [|by apply filter_conditions_joined]. eapply Forall_impl; [apply window_timed|]. apply timed_joined.
Qed.

Lemma log_holds_join q d cond kv : Forall (all_joined q) cond →
  log_holds d (SqAnd cond) (join (accessLogFilterJoins q).1 (accessLogFilterJoins q).2 d kv) = log_holds d (SqAnd cond) (join true true d kv).
Proof.
  intros Hc. unfold log_holds, holds. rewrite (eval_agree log_col (log_sub d) log_ccol _ (join true true d kv)); [done|done|].
  intros e He. apply log_col_join. cbn in He. induction Hc as [|c cond Hc _ IH]; [by apply elem_of_nil in He|].
  apply elem_of_app in He as [He|He]; [by apply Hc|by apply IH].
Qed.

(** The entries that pass, joined as asked. *)
Definition matching (d : db) (cond : list Sqlizer) : list (Z * AccessLogRow) :=
  filter (λ kv, log_holds d (SqAnd cond) (join true true d kv) = true) (scan (access_log (logs d))).

Lemma where_filtered q d cond : Forall (all_joined q) cond →
  where_log d cond (accessLogFilteredFrom q d) = join (accessLogFilterJoins q).1 (accessLogFilterJoins q).2 d <$> matching d cond.
Proof.
  intros Hc. unfold where_log, accessLogFilteredFrom, from_log, matching. induction (scan _) as [|kv l IH]; [done|].
  rewrite fmap_cons, !filter_cons, log_holds_join by done. case_decide; [by rewrite fmap_cons, IH|exact IH].
Qed.

Lemma where_all d cond : where_log d cond (from_log true true d) = join true true d <$> matching d cond.
Proof.
  unfold where_log, from_log, matching. induction (scan _) as [|kv l IH]; [done|].
  rewrite fmap_cons, !filter_cons. case_decide; [by rewrite fmap_cons, IH|exact IH].
Qed.

(** ** The list *)

(** All the rows of a query in its order. *)
Definition listing (d : db) (cond : list Sqlizer) (o : OrderClause) : list joined := order_rows log_col o (where_log d cond (from_log true true d)).

Definition contributors_of (d : db) (ids : list Z) (id : Z) : list AccessLogContributor := (filter (λ x, x.1.1 = id) (contributor_rows ids d)).*2.

Lemma fetch_run ids tx w : no_faults w → ∃ f, fetchAccessLogContributors ids tx w = (Ok f, w) ∧ ∀ id, id ∈ ids → f id = contributors_of (w_db w) ids id.
Proof.
  intros Hw. unfold fetchAccessLogContributors. case_bool_decide as Hi.
  - exists (λ _, []). split; [done|]. intros id. rewrite Hi. by intros ?%elem_of_nil.
  - exists (contributors_of (w_db w) ids). rewrite query_run by done. by split.
Qed.

(** The rows of a page with their contributors. *)
Definition page_views (d : db) (rows : list joined) : list AccessLogView :=
  (λ r, attach (contributors_of d (joined_ID <$> rows)) (toView r)) <$> rows.

Lemma ListAccessLog_run q cond o ks tx w :
  no_faults w → accessLogConditions q = Ok cond → OrderBy accessLogRegistry (query_Sort q) (query_Order q) = Ok o → keyset_conditions q = Ok ks →
  ListAccessLog q tx w =
    (Ok (page_views (w_db w) (page_rows (cond ++ ks) o (query_Limit q) (w_db w)), Z.of_nat (length (matching (w_db w) cond))), w).
Proof.
  intros Hw Hc Ho Hk. unfold ListAccessLog. rewrite bind_run, of_result_run, Hc. cbv iota. rewrite bind_run, query_run by done. cbv iota.
  rewrite bind_run, of_result_run, Ho. cbv iota. rewrite bind_run, of_result_run, Hk. cbv iota. rewrite bind_run, query_run by done. cbv iota.
  rewrite bind_run. set (rows := page_rows _ _ _ _). destruct (fetch_run (joined_ID <$> rows) tx w Hw) as (f & -> & Hf). rewrite ret_run.
  rewrite where_filtered, length_fmap by by apply conditions_joined. do 3 f_equal. unfold page_views. apply list_fmap_ext.
  intros i r Hr%list_elem_of_lookup_2. cbn. unfold attach. f_equal. exact (Hf (joined_ID r) (list_elem_of_fmap_2 _ _ _ Hr)).
Qed.

(** The handler answers what was accepted and refuses what was not. *)
Section status.
Context `{TokenCodec}.

Lemma next_cursor_ok q rows : query_ok q → ∃ n, next_cursor q rows = Ok n.
Proof.
  intros Hq. unfold next_cursor. case_bool_decide; [|by eexists]. destruct (last rows) as [r|]; [|by eexists].
  destruct (ok_order _ Hq) as [o Ho]. apply OrderBy_Ok in Ho as (spec & Hs & Hn & _). unfold EncodeCursor. rewrite Hs, Hn. by eexists.
Qed.

Definition first_answer (d : db) (q : AccessLogQuery) (cond ks : list Sqlizer) (o : OrderClause) (next : option string) : AccessLogResponse :=
  mkAccessLogResponse (Z.of_nat (length (matching d cond))) next (page_views d (page_rows (cond ++ ks) o (query_Limit q) d)).

Lemma handler_GetAccessLog_run params q cond o ks tx w :
  no_faults w → NewAccessLogQuery (w_now w) params = Ok q → accessLogConditions q = Ok cond →
  OrderBy accessLogRegistry (query_Sort q) (query_Order q) = Ok o → keyset_conditions q = Ok ks →
  ∃ next, next_cursor q (page_views (w_db w) (page_rows (cond ++ ks) o (query_Limit q) (w_db w))) = Ok next ∧
    handler_GetAccessLog params tx w = (Ok (mkResponse 200 (Some (first_answer (w_db w) q cond ks o next))), w).
Proof.
  intros Hw Hq Hc Ho Hk. pose proof (NewAccessLogQuery_spec (w_now w) params) as Ht. rewrite Hq in Ht.
  destruct (next_cursor_ok q (page_views (w_db w) (page_rows (cond ++ ks) o (query_Limit q) (w_db w))) Ht) as [next Hn]. exists next. split; [done|].
  unfold handler_GetAccessLog. rewrite bind_run, now_run, Hq, bind_run. unfold try. rewrite (ListAccessLog_run _ _ _ _ _ _ Hw Hc Ho Hk), ret_run, Hn. done.
Qed.

(** C12: a query that is accepted is well formed: its filters, its
    ordering and its cursor all become SQL, and its page has between 1 and 200
    rows.  So, while the database works, [GET /access-log] answers 200 to
    every query it accepts and 400 to every other one, never 500, and writes
    nothing. *)
Theorem GetAccessLog_never_500 params tx w :
  no_faults w →
  ∃ resp, handler_GetAccessLog params tx w = (Ok resp, w) ∧
    match NewAccessLogQuery (w_now w) params with Ok q => query_ok q ∧ Status resp = 200 ∧ is_Some (Body resp) | Err _ => Status resp = 400 end.
Proof.
  intros Hw. pose proof (NewAccessLogQuery_spec (w_now w) params) as Ht. destruct (NewAccessLogQuery (w_now w) params) as [q|e] eqn:Hq.
  - destruct (ok_filters _ Ht) as [cond Hc], (ok_order _ Ht) as [o Ho], (ok_keyset _ Ht) as [ks Hk].
    destruct (handler_GetAccessLog_run _ _ _ _ _ tx _ Hw Hq Hc Ho Hk) as (next & _ & E). eexists. split; [exact E|]. split; [done|]. split; [done|]. cbn. eauto.
  - subst e. exists bad_request. split; [|done]. unfold handler_GetAccessLog. by rewrite bind_run, now_run, Hq, ret_run.
Qed.
End status.

(** ** Following the cursors *)

(** The texts, times and numbers of the log survive being written as JSON. *)
Definition text_ok (o : option string) : Prop := match o with Some s => utf8_valid s = true | None => True end.

Definition log_encodable (d : db) : Prop := ∀ id r, access_log (logs d) !! id = Some r →
  encodable (VInt id) = true ∧ encodable (VTime (log_CreatedAt r)) = true ∧ encodable (VInt (log_DurationUs r)) = true ∧
  utf8_valid (log_ClientIP r) = true ∧ text_ok (log_TargetHost r) ∧ text_ok (log_HTTPMethod r) ∧ text_ok (log_DenyReason r).

Lemma encodable_text o : text_ok o → encodable (text_value o) = true.
Proof. by destruct o. Qed.

(** What the sort columns hold. *)
Lemma sort_column_ok d name spec kv :
  sorts accessLogRegistry !! name = Some spec → log_encodable d → access_log (logs d) !! kv.1 = Some kv.2 →
  let r := join true true d kv in
  row_ok log_col accessLogRegistry spec r ∧ of_kind (SortSpec_Kind spec) (log_col (SortSpec_Expr spec) r) ∧
  encodable (log_col (SortSpec_Expr spec) r) = true ∧ utf8_valid name = true ∧
  ∀ f, accessLogSortValue (attach f (toView r)) name = log_col (SortSpec_Expr spec) r.
Proof.
  intros Hs%sort_listed He Hkv r. destruct (He _ _ Hkv) as (_ & Ht & Hd & Hip & Hh & Hm & Hr). subst r. destruct kv as [id row]. cbn [fst snd] in *.
  assert (∀ o, of_kind KindString (text_value o)) as Hk by by intros [s|].
  assert (∀ b, encodable (VBool b) = true) as Hb by by intros [].
  unfold row_ok. entry_cases Hs; cbn [SortSpec_Expr SortSpec_Kind SortSpec_Nullable];
    (split; [split; [by exists id|]; intros Hn; try discriminate Hn; done|]);
    (split; [first [done | apply Hk]|]); (split; [first [exact Ht | exact Hd | exact Hip | exact (encodable_text _ Hh) | exact (encodable_text _ Hm) | exact (encodable_text _ Hr) | exact (Hb (log_Outcome row))]|]);
    by split.
Qed.

Lemma elem_of_listing d cond o r : r ∈ listing d cond o → ∃ kv, r = join true true d kv ∧ access_log (logs d) !! kv.1 = Some kv.2.
Proof.
  unfold listing, order_rows. rewrite (order_by_Permutation _ _), where_all, list_elem_of_fmap. intros (kv & -> & Hkv).
  apply list_elem_of_filter in Hkv as [_ Hkv]. exists kv. split; [done|]. destruct kv. by apply elem_of_scan.
Qed.

Lemma listing_ids d cond : NoDup (log_col (tieBreaker accessLogRegistry) <$> where_log d cond (from_log true true d)).
Proof.
  rewrite where_all, <-list_fmap_compose. unfold matching. apply (NoDup_fmap_1 (λ v, match v with VInt n => n | _ => 0 end)).
  rewrite <-list_fmap_compose. change (NoDup (fst <$> filter (λ kv, log_holds d (SqAnd cond) (join true true d kv) = true) (scan (access_log (logs d))))).
  apply (sublist_NoDup _ (scan (access_log (logs d))).*1); [|f_equiv; apply sublist_filter].
  rewrite scan_Permutation. apply NoDup_fst_map_to_list.
Qed.

(** A page under a cursor. *)
Lemma page_rows_keyset cond p o limit d :
  page_rows (cond ++ [p]) o limit d = take (Z.to_nat limit) (order_rows log_col o (filter (λ r, log_holds d p r = true) (where_log d cond (from_log true true d)))).
Proof.
  unfold page_rows. do 2 f_equal. unfold where_log. rewrite list_filter_filter. apply filter_ext_in. intros r _. unfold log_holds. rewrite !holds_and. setoid_rewrite elem_of_app.
  split; [intros Hall; split; [apply Hall; right; by apply list_elem_of_singleton|auto]|]. intros [Hp Hall] c [Hc|Hc%list_elem_of_singleton]; [by apply Hall|by subst].
Qed.

Definition with_cursor (params : GetAccessLogParams) (token : string) : GetAccessLogParams :=
  mkGetAccessLogParams (params_Filter params) (params_Limit params) (Some token) (params_Sort params) (params_Order params).

(** The row of the list, without its contributors. *)
Definition bare (v : AccessLogView) : AccessLogView := with_contributors v [].

Lemma bare_page_views d rows : bare <$> page_views d rows = toView <$> rows.
Proof. unfold page_views. rewrite <-list_fmap_compose. apply list_fmap_ext. by intros i r _. Qed.

Lemma NewAccessLogQuery_cursor `{TokenCodec} t params q token c :
  NewAccessLogQuery t params = Ok q → token ≠ "" → DecodeCursor accessLogRegistry token = Ok c →
  NewAccessLogQuery t (with_cursor params token) =
    Ok (mkAccessLogQuery (query_From q) (query_To q) (query_Outcome q) (query_Filters q) (Cursor_Sort c) (Cursor_Order c) (Some c) (query_Limit q)).
Proof.
  intros Hq Hne Hd. unfold NewAccessLogQuery in *. cbn [with_cursor params_Filter params_Limit params_Cursor].
  destruct (newAccessLogQuery t (params_Filter params)) as [q0|]; [|done]. rewrite bool_decide_eq_false_2, Hd by done.
  repeat case_match; try discriminate; by injection Hq as <-.
Qed.

Section walk.
Context `{TokenCodec}.

(** A client that follows the cursors; [None] when the fuel ends first or an
    answer is not 200. *)
Fixpoint walk (fuel : nat) (params : GetAccessLogParams) (w : world) : option (list AccessLogView) :=
  match fuel with
  | O => None
  | S fuel =>
      match (handler_GetAccessLog params false w).1 with
      | Ok resp =>
          match Body resp with
          | Some a =>
              match response_NextCursor a with
              | None => Some (response_Rows a)
              | Some token => app (response_Rows a) <$> walk fuel (with_cursor params token) w
              end
          | None => None
          end
      | Err _ => None
      end
  end.

Context (w : world) (q : AccessLogQuery) (cond : list Sqlizer) (o : OrderClause).
Context (Hw : no_faults w) (Henc : log_encodable (w_db w)).
Context (Hcond : accessLogConditions q = Ok cond) (Ho : OrderBy accessLogRegistry (query_Sort q) (query_Order q) = Ok o).
Context (Hlimit : 1 ≤ query_Limit q).

Let L : list joined := listing (w_db w) cond o.

(** A query for the rows of the list from the [n]th on. *)
Definition page_at (n : nat) (params : GetAccessLogParams) (q' : AccessLogQuery) : Prop :=
  NewAccessLogQuery (w_now w) params = Ok q' ∧ accessLogConditions q' = Ok cond ∧
  query_Sort q' = query_Sort q ∧ query_Order q' = query_Order q ∧ query_Limit q' = query_Limit q ∧
  ∃ ks, keyset_conditions q' = Ok ks ∧ page_rows (cond ++ ks) o (query_Limit q) (w_db w) = take (Z.to_nat (query_Limit q)) (drop n L).

(** The query of a cursor that the [n]th row made. *)
Lemma page_at_next n params q' r f token :
  NewAccessLogQuery (w_now w) params = Ok q' → accessLogConditions q' = Ok cond → query_Limit q' = query_Limit q → L !! n = Some r →
  EncodeCursor accessLogRegistry (query_Sort q) (query_Order q) (accessLogSortValue (attach f (toView r)) (query_Sort q)) (joined_ID r) = Ok token →
  ∃ q'', page_at (S n) (with_cursor params token) q''.
Proof.
  intros Hq' Hc' Hl' Hr Htok. destruct (elem_of_listing (w_db w) cond o r) as (kv & -> & Hkv); [by eapply list_elem_of_lookup_2|].
  destruct (OrderBy_Ok _ _ _ _ Ho) as (spec & Hs & Hn & _). destruct (sort_column_ok _ _ _ kv Hs Henc Hkv) as (_ & Hk & Hv & Hu & Hval).
  rewrite Hval in Htok. set (r := join true true (w_db w) kv) in *.
  destruct (paging_continues log_col (log_sub (w_db w)) log_ccol accessLogRegistry (query_Sort q) (query_Order q) o spec
    (where_log (w_db w) cond (from_log true true (w_db w))) n r (joined_ID r) token) as (c & p & Hd & Hcs & Hco & Hp & Hrest); try done.
  { apply listing_ids. }
  { intros r' Hr'. destruct (elem_of_listing (w_db w) cond o r') as (kv' & -> & Hkv'); [unfold listing, order_rows; by rewrite (order_by_Permutation _ _)|].
    by destruct (sort_column_ok _ _ _ kv' Hs Henc Hkv'). }
  { by destruct (Henc _ _ Hkv). }
  assert (token ≠ "") as Hne by (intros ->; unfold EncodeCursor in Htok; rewrite Hs, Hn in Htok; injection Htok as Htok; by apply encode_token_not_empty in Htok).
  eexists. split; [by apply (NewAccessLogQuery_cursor _ _ q')|]. cbn [query_Sort query_Order query_Limit]. split; [exact Hc'|].
  split; [done|]. split; [done|]. split; [done|]. exists [p]. split; [unfold keyset_conditions; cbn [query_Cursor]; by rewrite Hp|].
  rewrite page_rows_keyset. f_equal. exact Hrest.
Qed.

(** From the [n]th row on, with fuel for one row per page. *)
Lemma walk_from fuel n params q' :
  page_at n params q' → (length L - n < fuel)%nat → ∃ vs, walk fuel params w = Some vs ∧ bare <$> vs = toView <$> drop n L.
Proof.
  revert n params q'. induction fuel as [|fuel IH]; intros n params q' Hat Hf; [lia|].
  assert (Hat' := Hat). destruct Hat' as (Hq' & Hc' & Hs' & Ho' & Hl' & ks & Hk & Hrows).
  assert (OrderBy accessLogRegistry (query_Sort q') (query_Order q') = Ok o) as Hob by by rewrite Hs', Ho'.
  destruct (handler_GetAccessLog_run params q' cond o ks false w Hw Hq' Hc' Hob Hk) as (next & Hnext & Hrun).
  cbn [walk]. rewrite Hrun. cbn [fst Body first_answer response_NextCursor response_Rows]. rewrite Hl', Hrows in *.
  set (rows := take (Z.to_nat (query_Limit q)) (drop n L)) in *. set (vs := page_views (w_db w) rows) in *.
  assert (length vs = length rows) as Hlen by (unfold vs, page_views; by rewrite length_fmap).
  unfold next_cursor in Hnext. rewrite Hl' in Hnext. case_bool_decide as Hfull.
  - assert (∃ i r, rows !! i = Some r ∧ L !! (n + i)%nat = Some r ∧ last vs = Some (attach (contributors_of (w_db w) (joined_ID <$> rows)) (toView r)) ∧
      S i = Z.to_nat (query_Limit q)) as (i & r & Hi & HL & Hlast & HSi).
    { destruct (last rows) as [r|] eqn:El; [|apply last_None in El; rewrite Hlen, El in Hfull; cbn in Hfull; lia].
      exists (pred (length rows)), r. rewrite last_lookup in El. split; [done|]. assert (HL := El). unfold rows at 1 in HL.
      apply lookup_take_Some in HL as [HL _]. rewrite lookup_drop in HL. split; [done|].
      split; [unfold vs, page_views; rewrite fmap_last, last_lookup, El; done|]. destruct rows; [done|]. cbn in *. lia. }
    rewrite Hlast in Hnext. rewrite Hs', Ho' in Hnext.
    destruct (EncodeCursor _ _ _ _ _) as [token|] eqn:Htok; [|done]. injection Hnext as <-.
    destruct (page_at_next (n + i) params q' r (contributors_of (w_db w) (joined_ID <$> rows)) token Hq' Hc' Hl' HL Htok) as [q'' Hat''].
    apply lookup_lt_Some in HL as Hlt. destruct (IH (S (n + i))%nat (with_cursor params token) q'' Hat'') as (vs' & -> & Hvs'); [lia|].
    exists (vs ++ vs'). split; [done|]. rewrite fmap_app, Hvs'. unfold vs. rewrite bare_page_views, <-fmap_app. f_equal. unfold rows.
    replace (S (n + i))%nat with (n + Z.to_nat (query_Limit q))%nat by lia. rewrite <-drop_drop. apply take_drop.
  - injection Hnext as <-. exists vs. split; [done|]. unfold vs. rewrite bare_page_views. f_equal. unfold rows. apply take_ge.
    destruct (Nat.le_gt_cases (length (drop n L)) (Z.to_nat (query_Limit q))) as [|Hgt]; [done|]. exfalso. apply Hfull.
    rewrite Hlen. unfold rows. rewrite length_take. lia.
Qed.
End walk.


(** ** The histogram *)

Lemma bucket_queries_run q g cond prepared sequence tx w :
  no_faults w → bucket_queries q g cond prepared sequence tx w = (Ok ((λ start, bucketQuery q g cond start (w_db w)) <$> sequence), w).
Proof.
  intros Hw. revert prepared. induction sequence as [|start sequence IH]; intros prepared; [done|]. cbn [bucket_queries].
  rewrite bind_run. assert ((if bool_decide (closing q (Next g start) ∈ prepared) then mret tt else query (λ _ _, tt)) tx w = (Ok tt, w)) as ->
    by (case_bool_decide; [done|by rewrite query_run]).
  rewrite bind_run, query_run by done. cbv iota. by rewrite bind_run, IH.
Qed.

Section ranges.
Context (d : db) (q : AccessLogQuery) (Hfrom : query_From q ≠ zero_time) (Hto : query_To q ≠ zero_time).

Definition at_ (r : joined) : time := log_CreatedAt (joined_Row r).

Lemma holds_time_ge t r : log_holds d (SqGtOrEq "ral.created_at" (VTime t)) r = true ↔ t ≤ at_ r.
Proof.
  unfold log_holds. rewrite holds_true. cbn [eval]. change (log_col "ral.created_at" r) with (VTime (at_ r)). rewrite sql_cmp_true. cbn.
  unfold at_. destruct (Z.compare_spec (log_CreatedAt (joined_Row r)) t); cbn; split; intros; try lia; try done; destruct_and?; done.
Qed.

Lemma holds_time_le t r : log_holds d (SqLtOrEq "ral.created_at" (VTime t)) r = true ↔ at_ r ≤ t.
Proof.
  unfold log_holds. rewrite holds_true. cbn [eval]. change (log_col "ral.created_at" r) with (VTime (at_ r)). rewrite sql_cmp_true. cbn.
  unfold at_. destruct (Z.compare_spec (log_CreatedAt (joined_Row r)) t); cbn; split; intros; try lia; try done; destruct_and?; done.
Qed.

Lemma holds_time_lt t r : log_holds d (SqLt "ral.created_at" (VTime t)) r = true ↔ at_ r < t.
Proof.
  unfold log_holds. rewrite holds_true. cbn [eval]. change (log_col "ral.created_at" r) with (VTime (at_ r)). rewrite sql_cmp_true. cbn.
  unfold at_. destruct (Z.compare_spec (log_CreatedAt (joined_Row r)) t); cbn; split; intros; try lia; try done; destruct_and?; done.
Qed.

Lemma IsZero_false t : t ≠ zero_time → IsZero t = false.
Proof. apply Z.eqb_neq. Qed.

(** A conjunction that starts with a list of conditions. *)
Lemma holds_prefix l cond r :
  log_holds d (SqAnd (l ++ cond)) r = true ↔ Forall (λ c, log_holds d c r = true) l ∧ log_holds d (SqAnd cond) r = true.
Proof. unfold log_holds. rewrite !holds_and, Forall_forall. setoid_rewrite elem_of_app. naive_solver. Qed.

Lemma window_holds r : Forall (λ c, log_holds d c r = true) (accessLogWindowConditions (query_From q) (query_To q)) ↔ query_From q ≤ at_ r ≤ query_To q.
Proof. unfold accessLogWindowConditions. rewrite !IsZero_false by done. cbn [app]. rewrite !Forall_cons, holds_time_ge, holds_time_le, Forall_nil. lia. Qed.

Lemma range_holds g start r :
  Forall (λ c, log_holds d c r = true) (bucket_range q g start) ↔ start ≤ at_ r < Next g start ∧ query_From q ≤ at_ r ≤ query_To q.
Proof.
  unfold bucket_range, closing. rewrite !IsZero_false by done. cbn [negb andb]. rewrite !Forall_cons, Forall_nil, holds_time_ge.
  destruct (Z.ltb_spec start (query_From q)), (Z.ltb_spec (query_To q) (Next g start)); rewrite ?holds_time_le, ?holds_time_lt; lia.
Qed.

(** The rows of one bucket are those of the list that fall into it. *)
Lemma bucket_rows g start cond l :
  TruncateToBucket g start = start →
  where_log d (bucket_range q g start ++ cond) l =
    filter (λ r, TruncateToBucket g (at_ r) = start) (where_log d (accessLogWindowConditions (query_From q) (query_To q) ++ cond) l).
Proof.
  intros Hs. unfold where_log. rewrite list_filter_filter. apply filter_ext_in. intros r _. rewrite !holds_prefix, range_holds, window_holds.
  assert (start ≤ at_ r < Next g start ↔ TruncateToBucket g (at_ r) = start) as ->; [|tauto].
  rewrite Next_eq. rewrite TruncateToBucket_eq in Hs. split; [intros Ht; rewrite <-Hs; apply TruncateToBucket_unique; lia|].
  intros <-. pose proof (TruncateToBucket_bounds g (at_ r)) as Hb. by rewrite Next_eq in Hb.
Qed.
End ranges.

(** The rows of a list in a bucket with an outcome. *)
Definition in_bucket (g : Granularity) (b : time) (outcome : bool) (l : list (Z * AccessLogRow)) : list (Z * AccessLogRow) :=
  filter (λ kv, TruncateToBucket g (log_CreatedAt kv.2) = b ∧ log_Outcome kv.2 = outcome) l.

Lemma in_bucket_total g b l :
  (length (in_bucket g b true l) + length (in_bucket g b false l) = length (group (λ kv, TruncateToBucket g (log_CreatedAt kv.2)) b l))%nat.
Proof.
  unfold in_bucket, group. induction l as [|kv l IH]; [done|]. destruct (decide (TruncateToBucket g (log_CreatedAt kv.2) = b)) as [E|E].
  - rewrite (filter_cons_True _ kv l E). destruct (log_Outcome kv.2) eqn:Eo.
    + rewrite filter_cons_True, filter_cons_False by (rewrite ?Eo; naive_solver). cbn [length]. lia.
    + rewrite filter_cons_False, filter_cons_True by (rewrite ?Eo; naive_solver). cbn [length]. lia.
  - rewrite !filter_cons_False by tauto. exact IH.
Qed.

(** C13: the histogram shows the list: for the filters of a query over a
    window, one bucket per step of the sequence, empty ones included; each
    counts exactly the rows of the list in its span, by outcome, and together
    they count every row of the list once, the total the list reports. *)
Theorem histogram_is_the_list q cond conds tx w :
  no_faults w → query_From q ≤ query_To q → query_From q ≠ zero_time → query_To q ≠ zero_time →
  accessLogFilterConditions q = Ok cond → accessLogConditions q = Ok conds →
  let g := GranularityForWindow (query_To q - query_From q) in
  ∃ bs, GetAccessLogHistogram q tx w = (Ok bs, w) ∧
    Sequence (sequence_fuel g (query_From q) (query_To q)) g (query_From q) (query_To q) = Some (histogram_Timestamp <$> bs) ∧
    (∀ b, b ∈ bs → histogram_AllowCount b = Z.of_nat (length (in_bucket g (histogram_Timestamp b) true (matching (w_db w) conds))) ∧
                   histogram_DenyCount b = Z.of_nat (length (in_bucket g (histogram_Timestamp b) false (matching (w_db w) conds)))) ∧
    zsum ((λ b, histogram_AllowCount b + histogram_DenyCount b) <$> bs) = Z.of_nat (length (matching (w_db w) conds)).
Proof.
  intros Hw Hle Hf0 Ht0 Hc Hcs g.
  pose proof (Sequence_buckets g (query_From q) (query_To q) (sequence_fuel g (query_From q) (query_To q)) Hle ltac:(unfold sequence_fuel; lia)) as Hseq.
  set (seq := buckets_from g _ _) in Hseq. assert (conds = accessLogWindowConditions (query_From q) (query_To q) ++ cond) as Econds.
  { unfold accessLogConditions in Hcs. rewrite Hc in Hcs. by injection Hcs as <-. }
  assert (∀ start, start ∈ seq → TruncateToBucket g start = start) as Hal.
  { intros start (i & _ & ->)%elem_of_buckets_from. rewrite (TruncateToBucket_eq g (query_From q)). pose proof (width_pos g).
    replace (query_From q / width g * width g + Z.of_nat i * width g) with ((query_From q / width g + Z.of_nat i) * width g) by lia.
    apply TruncateToBucket_unique. lia. }
  set (bucket := λ start, bucketQuery q g cond start (w_db w)).
  exists (bucket <$> seq). split; [|split; [|]].
  - unfold GetAccessLogHistogram, trafficBuckets. fold g. rewrite bind_run, of_result_run, Hc. cbv iota. rewrite Hseq. by apply bucket_queries_run.
  - rewrite Hseq. f_equal. rewrite <-list_fmap_compose. symmetry. apply list_fmap_id.
  - assert (∀ start b, start ∈ seq →
      Z.of_nat (length (filter (λ r, log_Outcome (joined_Row r) = b) (where_log (w_db w) (bucket_range q g start ++ cond) (accessLogFilteredFrom q (w_db w))))) =
      Z.of_nat (length (in_bucket g start b (matching (w_db w) conds)))) as Hcount.
    { intros start b Hin. rewrite (bucket_rows _ _ Hf0 Ht0) by auto. rewrite <-Econds, where_filtered by by apply conditions_joined.
      rewrite list_filter_filter, filter_fmap, length_fmap. unfold in_bucket. do 2 f_equal. apply filter_ext_in. intros kv _. cbn. unfold at_. cbn. tauto. }
    assert (∀ start, start ∈ seq → histogram_AllowCount (bucket start) = Z.of_nat (length (in_bucket g start true (matching (w_db w) conds))) ∧
      histogram_DenyCount (bucket start) = Z.of_nat (length (in_bucket g start false (matching (w_db w) conds)))) as Hb.
    { intros start Hin. cbn. rewrite !sum_when_filter, <-!Hcount by done. split; [done|]. do 2 f_equal. apply filter_ext_in. intros r _. by destruct (log_Outcome _). }
    split; [intros b (start & -> & Hin)%list_elem_of_fmap; by apply Hb|].
    rewrite <-list_fmap_compose. etrans; [|etrans; [apply (zsum_groups (λ kv, TruncateToBucket g (log_CreatedAt kv.2)) seq (λ _, 1) (matching (w_db w) conds))|]].
    + f_equal. apply list_fmap_ext. intros i start Hin%list_elem_of_lookup_2. cbn [compose]. destruct (Hb start Hin) as [Ea Ed]. cbn in Ea, Ed |- *. rewrite Ea, Ed.
      rewrite zsum_const. pose proof (in_bucket_total g start (matching (w_db w) conds)). lia.
    + apply buckets_from_NoDup.
    + intros kv Hkv. apply window_bucket. unfold matching in Hkv. apply list_elem_of_filter in Hkv as [Hkv _].
      rewrite Econds, holds_prefix in Hkv. destruct Hkv as [Hkv _]. by apply (window_holds _ _ Hf0 Ht0) in Hkv.
    + by rewrite zsum_const, Z.mul_1_l.
Qed.

(** ** Three entries *)
Module AccessLogViewDemo.
Import FilterDemo.

Definition entry (ip : string) (outcome : bool) (reason : option string) (host : option string) (t : time) : AccessLogRow :=
  mkAccessLogRow ip outcome reason 0 t None host None None ∅ 100.

Definition e1 : AccessLogRow := entry "10.0.0.7" true None (Some "wiki.home") (5 * Minute).
Definition e2 : AccessLogRow := entry "9.9.9.9" false (Some "ip_not_registered") None (20 * Minute).
Definition e3 : AccessLogRow := entry "10.0.0.7" true None (Some "wiki.home") (70 * Minute).

Definition d0 : db := on_logs (on_access_log (λ _, list_to_map [(1, e1); (2, e2); (3, e3)])) empty_db.
Definition w0 : world := world_of d0 (2 * Hour) [].

Definition no_filters : accessLogFilterParams :=
  mkFilterParams None None None (None, None) (None, None) (None, None) (None, None) (None, None) (None, None) (None, None) (None, None) (None, None).

(** By descending host, two rows to a page. *)
Definition by_host : GetAccessLogParams := mkGetAccessLogParams no_filters (Some 2) None (Some "target_host") (Some "desc").

Example GetAccessLog_never_500_witness :
  no_faults w0 ∧ ∃ resp, handler_GetAccessLog by_host false w0 = (Ok resp, w0) ∧ Status resp = 200.
Proof.
  split; [reflexivity|]. destruct (GetAccessLog_never_500 by_host false w0 eq_refl) as (resp & E & Hs).
  exists resp. split; [exact E|]. destruct (NewAccessLogQuery (w_now w0) by_host) as [q|e] eqn:Hq; [by destruct Hs as (_ & Hs & _)|].
  vm_compute in Hq. discriminate Hq.
Defined.

Lemma encodable0 : log_encodable d0.
Proof.
  intros id r Hr. apply elem_of_list_to_map_2 in Hr. set_unfold in Hr.
  destruct Hr as [E|[E|[E|[]]]]; injection E as -> ->; vm_compute; by repeat split.
Qed.


(** Two hours, in buckets of an hour; the last is empty. *)
Definition two_hours : AccessLogQuery := mkAccessLogQuery 0 (2 * Hour) None [] "" "" None 0.

Example histogram_is_the_list_witness :
  ∃ bs, GetAccessLogHistogram two_hours false w0 = (Ok bs, w0) ∧ histogram_Timestamp <$> bs = [0; Hour; 2 * Hour] ∧
    zsum ((λ b, histogram_AllowCount b + histogram_DenyCount b) <$> bs) = 3.
Proof.
  destruct (accessLogConditions two_hours) as [conds|e] eqn:Hc; [|discriminate Hc].
  destruct (histogram_is_the_list two_hours [] conds false w0 eq_refl) as (bs & E & Hs & _ & Hsum); [vm_compute; discriminate|vm_compute; discriminate|vm_compute; discriminate|reflexivity|exact Hc|].
  exists bs. split; [exact E|]. split; [apply (inj Some); rewrite <-Hs; vm_compute; reflexivity|]. rewrite Hsum. injection Hc as <-. vm_compute. reflexivity.
Defined.
End AccessLogViewDemo.
