(* ===== verification/Device.v ===== *)
(** * Device: devices, their addresses and API keys ([internal/device])

    The domain types' operations (device.go, address.go, events.go), the
    repositories (device_repository.go, address_repository.go), the service
    (service.go, addresses.go) and the API-key middleware (middleware.go).
    Observers are the [AddressObservers] and [DeviceObservers] of the
    context, installed by the application. *)

From S2P Require Import Prelude GoLib Netip Schema Store Crypto.

Local Open Scope string_scope.
Local Open Scope Z_scope.

(** ** Observers: what the service is given, and what it may rely on *)

Class AddressObservers := {
  address_observers : list (AddressEvent → world → world);
  address_observers_inert : inert_observers address_observers;
}.

Class DeviceObservers := {
  device_observers : list (DeviceEvent → world → world);
  device_observers_inert : inert_observers device_observers;
}.

#[export] Hint Resolve address_observers_inert device_observers_inert : pw.

(** ** Domain: device.go *)

Definition APIKeyPrefix : string := "wdk_".

(** [HashAPIKey]. *)
Definition HashAPIKey (rawKey : string) : string := RawURLEncode (sha256 rawKey).

(** [GenerateAPIKey]: the prefixed key, its hash and its display prefix. *)
Definition GenerateAPIKey : M (string * string * string) :=
  b ← read_rand;
  let prefixedKey := APIKeyPrefix +:+ RawURLEncode b in
  mret (prefixedKey, HashAPIKey prefixedKey, str_take (String.length APIKeyPrefix + 8) prefixedKey).

(** [Device.Update]: [None] is a nil pointer; [Some None] clears. *)
Definition Device_Update (d : Device) (name : option string) (description icon : option (option string))
    (ownerID : option UserID) : result Device :=
  let too_long (n : nat) (f : option (option string)) :=
    match f with Some (Some s) => Nat.ltb n (String.length s) | _ => false end in
  if match name with Some n => Nat.ltb (String.length n) 1 || Nat.ltb 50 (String.length n) | None => false end
  then Err ErrInvalidDeviceName
  else if too_long 200%nat description then Err ErrDescriptionTooLong
  else if too_long 80%nat icon then Err ErrIconTooLong
  else Ok (mkDevice (Device_ID d) (default (Device_Name d) name) (default (Device_Description d) description)
             (default (Device_Icon d) icon) (Device_CreatedAt d) (Device_UpdatedAt d) (Device_DeletedAt d)
             (Device_DisabledAt d) (Device_KeyPrefix d) (default (Device_OwnerID d) ownerID)).

Record CreateDeviceParams := mkCreateDeviceParams {
  cdp_Name : string; cdp_OwnerID : UserID; cdp_Description : option string; cdp_Icon : option string;
}.

(** ** Domain: address.go, events.go *)

Definition EventTrigger_of_string (v : string) : option EventTrigger :=
  if bool_decide (v = "user") then Some EventTriggerUser
  else if bool_decide (v = "schedule") then Some EventTriggerSchedule
  else if bool_decide (v = "network_change") then Some EventTriggerNetworkChange
  else if bool_decide (v = "system") then Some EventTriggerSystem
  else None.

(** [ParseEventTrigger]: unknown values and the server's own trigger degrade. *)
Definition ParseEventTrigger (v : string) : EventTrigger * bool :=
  match EventTrigger_of_string v with
  | None | Some EventTriggerSystem => (EventTriggerSchedule, false)
  | Some trigger => (trigger, true)
  end.

Definition ParseAndValidateIP (ipInput : string) : result Addr :=
  match ParseAddr ipInput with
  | Some parsedIP => Ok (Unmap parsedIP)
  | None =>
      match ParseAddrPort ipInput with
      | Some a => Ok (Unmap a)
      | None => Err ErrInvalidIPFormat
      end
  end.

Record CreateAddressParams := mkCreateAddressParams { cap_DeviceID : DeviceID; cap_IP : Addr }.

Definition NewCreateAddressParams (deviceID : DeviceID) (ipAddress : string) (trustedProxy : Addr) : result CreateAddressParams :=
  match ParseAndValidateIP ipAddress with
  | Err e => Err e
  | Ok parsedIP =>
      if IsLoopback parsedIP || IsMulticast parsedIP || IsUnspecified parsedIP || IsLinkLocalUnicast parsedIP
      then Err ErrInvalidDeviceIP
      else if IsValid trustedProxy && Compare_eq0 trustedProxy parsedIP then Err ErrTrustedProxyIPRejected
      else Ok (mkCreateAddressParams deviceID parsedIP)
  end.

Definition NewAddressEvent (a : Address) (t : AddressEventType) (at_ : time) : AddressEvent :=
  mkAddressEvent t (Address_ID a) (Address_DeviceID a) at_.

Definition IsAddressEnabled (e : AddressEvent) : bool :=
  match AddressEvent_Type e with
  | EventTypeAddressCreated | EventTypeAddressEnabled | EventTypeAddressRefreshed => true
  | EventTypeAddressDisabled => false
  end.

(** ** Repository: devices *)

Definition device_active (d : Device) : bool := bool_decide (Device_DeletedAt d = None).

(** A row joined with its key's display prefix. *)
Definition join_key (d : db) (v : Device) : Device :=
  mkDevice (Device_ID v) (Device_Name v) (Device_Description v) (Device_Icon v) (Device_CreatedAt v) (Device_UpdatedAt v)
    (Device_DeletedAt v) (Device_DisabledAt v) (ApiKey_KeyPrefix <$> api_keys d !! Device_ID v) (Device_OwnerID v).

Definition active_device (d : db) (id : DeviceID) : option Device :=
  match devices d !! id with Some v => if device_active v then Some v else None | None => None end.

Definition GetDevice (id : DeviceID) : M Device :=
  map_err (no_rows ErrDeviceNotFound) (get_row (λ _ d, join_key d <$> active_device d id)).

Definition IsDeviceDisabled (id : DeviceID) : M bool :=
  map_err (no_rows ErrDeviceNotFound)
    (get_row (λ _ d, (λ v, negb (bool_decide (Device_DisabledAt v = None))) <$> active_device d id)).

(** The unique index on (name, owner_id) of the rows that are not deleted,
    for a row other than [self]. *)
Definition device_name_taken (d : db) (self : option DeviceID) (name : string) (owner : UserID) : bool :=
  table_exists (λ v, device_active v && negb (bool_decide (self = Some (Device_ID v))) && bool_decide (Device_Name v = name)
                     && (Device_OwnerID v =? owner)) (devices d).

Definition mapDeviceNameUniqueConstraintError (e : error) : option error :=
  match e with
  | ErrUnique cols => if bool_decide (cols = "devices.name, devices.owner_id") then Some ErrDuplicateDeviceName else None
  | _ => None
  end.

Definition mapOwnerFKConstraintError (e : error) : option error :=
  match e with ErrForeignKey => Some ErrOwnerNotFound | _ => None end.

Definition map_device_error (e : error) : error :=
  match mapDeviceNameUniqueConstraintError e with
  | Some e' => e'
  | None => default e (mapOwnerFKConstraintError e)
  end.

Definition CreateDevice (p : CreateDeviceParams) : M Device :=
  map_err map_device_error (exec (λ t d,
    if device_name_taken d None (cdp_Name p) (cdp_OwnerID p) then Err (ErrUnique "devices.name, devices.owner_id")
    else match users d !! cdp_OwnerID p with
         | None => Err ErrForeignKey
         | Some _ =>
             let id := fresh_id (devices d) in
             let v := mkDevice id (cdp_Name p) (cdp_Description p) (cdp_Icon p) t (current_timestamp t) None None None (cdp_OwnerID p) in
             Ok (v, on_devices (<[id := v]>) d)
         end)).

Definition fk_device (e : error) : error := match e with ErrForeignKey => ErrDeviceNotFound | _ => e end.

(** The hash is unique over the table; a device has one key. *)
Definition UpsertAPIKey (deviceID : DeviceID) (keyHash keyPrefix : string) : M unit :=
  map_err fk_device (exec (λ t d,
    if negb (bool_decide (map_Forall (λ i k, ApiKey_KeyHash k = keyHash → i = deviceID) (api_keys d)))
    then Err (ErrUnique "device_api_keys.key_hash")
    else match devices d !! deviceID with
         | None => Err ErrForeignKey
         | Some _ => Ok (tt, on_api_keys (<[deviceID := mkApiKey keyPrefix keyHash (current_timestamp t)]>) d)
         end)).

Definition DeleteAPIKey_row (deviceID : DeviceID) : M unit :=
  n ← exec (λ _ d, match api_keys d !! deviceID with
                   | None => Ok (0, d)
                   | Some _ => Ok (1, on_api_keys (delete deviceID) d)
                   end);
  if n =? 0 then throw ErrNoAPIKey else mret tt.

Definition GetDeviceByAPIKeyHash (keyHash : string) : M Device :=
  map_err (no_rows ErrDeviceNotFound) (get_row (λ _ d,
    '(id, _) ← head (filter (λ ik : DeviceID * ApiKey, ApiKey_KeyHash ik.2 = keyHash ∧ is_Some (active_device d ik.1))
                       (map_to_list (api_keys d)));
    join_key d <$> active_device d id)).

Definition GetDeviceIDsByOwner (ownerID : UserID) : M (list DeviceID) :=
  query (λ _ d, Device_ID <$> filter (λ v, Device_OwnerID v = ownerID ∧ device_active v = true) (rows (devices d))).

(** [UPDATE devices SET ... WHERE id = ? AND deleted_at IS NULL], with the
    number of rows affected. *)
Definition update_device (f : time → Device → Device) (id : DeviceID) : M Z :=
  exec (λ t d, match active_device d id with
               | None => Ok (0, d)
               | Some v => Ok (1, on_devices (<[id := f t v]>) d)
               end).

Definition with_deleted (t : time) (v : Device) : Device :=
  mkDevice (Device_ID v) (Device_Name v) (Device_Description v) (Device_Icon v) (Device_CreatedAt v) (Device_UpdatedAt v)
    (Some t) (Device_DisabledAt v) (Device_KeyPrefix v) (Device_OwnerID v).

Definition with_disabled (o : option time) (v : Device) : Device :=
  mkDevice (Device_ID v) (Device_Name v) (Device_Description v) (Device_Icon v) (Device_CreatedAt v) (Device_UpdatedAt v)
    (Device_DeletedAt v) o (Device_KeyPrefix v) (Device_OwnerID v).

Definition DeleteDevice_row (deviceID : DeviceID) : M unit :=
  n ← update_device with_deleted deviceID; if n =? 0 then throw ErrDeviceNotFound else mret tt.

Definition SetDeviceDisabled (deviceID : DeviceID) (disabled : bool) : M unit :=
  n ← update_device (λ t, with_disabled (if disabled then Some t else None)) deviceID;
  if n =? 0 then throw ErrDeviceNotFound else mret tt.

Definition with_profile (src : Device) (t : time) (v : Device) : Device :=
  mkDevice (Device_ID v) (Device_Name src) (Device_Description src) (Device_Icon src) (Device_CreatedAt v)
    (current_timestamp t) (Device_DeletedAt v) (Device_DisabledAt v) (Device_KeyPrefix v) (Device_OwnerID src).

Definition UpdateDevice_row (device : Device) : M Device :=
  n ← map_err map_device_error (exec (λ t d,
        match active_device d (Device_ID device) with
        | None => Ok (0, d)
        | Some v =>
            if device_name_taken d (Some (Device_ID device)) (Device_Name device) (Device_OwnerID device)
            then Err (ErrUnique "devices.name, devices.owner_id")
            else match users d !! Device_OwnerID device with
                 | None => Err ErrForeignKey
                 | Some _ => Ok (1, on_devices (<[Device_ID device := with_profile device t v]>) d)
                 end
        end));
  if n =? 0 then throw ErrDeviceNotFound else GetDevice (Device_ID device).

(** ** Repository: addresses *)

Definition GetAddress (addressID : AddressID) : M Address :=
  map_err (no_rows ErrAddressNotFound) (get_row (λ _ d, addresses d !! addressID)).

(** A new row under the next id. *)
Definition add_event (r : AddressEventRow) (m : gmap Z AddressEventRow) : gmap Z AddressEventRow := <[fresh_id m := r]> m.

Definition insertAddressEvent (addressID : AddressID) (isEnabled : bool) (source : EventSource) (trigger : EventTrigger)
    (at_ : time) : M unit :=
  exec (λ _ d, match addresses d !! addressID with
               | None => Err ErrForeignKey
               | Some _ => Ok (tt, on_address_events (add_event (mkAddressEventRow addressID isEnabled source trigger at_)) d)
               end).

Definition CreateAddress (p : CreateAddressParams) (source : EventSource) (trigger : EventTrigger) : M Address :=
  withinTx (
    t ← now;
    addressID ← exec (λ _ d,
      let ip := Addr_String (cap_IP p) in
      if table_exists (λ a, (Address_DeviceID a =? cap_DeviceID p) && bool_decide (Address_IP a = ip)) (addresses d)
      then Err (ErrUnique "addresses.device_id, addresses.ip")
      else match devices d !! cap_DeviceID p with
           | None => Err ErrForeignKey
           | Some _ =>
               let id := fresh_id (addresses d) in
               Ok (id, on_addresses (<[id := mkAddress id (cap_DeviceID p) ip true source t t]>) d)
           end);
    _ ← insertAddressEvent addressID true source trigger t;
    GetAddress addressID).

Definition GetAddressForDeviceByIP (deviceID : DeviceID) (ip : Addr) : M Address :=
  map_err (no_rows ErrAddressNotFound) (get_row (λ _ d,
    head (order_desc Address_UpdatedAt
            (filter (λ a, Address_DeviceID a = deviceID ∧ Address_IP a = Addr_String ip) (rows (addresses d)))))).

Definition CheckAddressOwnership (deviceID : DeviceID) (addressID : AddressID) : M unit :=
  map_err (no_rows ErrAddressNotOwnedByDevice) (get_row (λ _ d,
    a ← addresses d !! addressID; if Address_DeviceID a =? deviceID then Some tt else None)).

Definition with_state (isEnabled : bool) (source : EventSource) (t : time) (a : Address) : Address :=
  mkAddress (Address_ID a) (Address_DeviceID a) (Address_IP a) isEnabled source (Address_CreatedAt a) t.

Definition recordAddressEvent (addressID : AddressID) (isEnabled : bool) (source : EventSource) (trigger : EventTrigger)
    : M Address :=
  withinTx (
    t ← now;
    _ ← insertAddressEvent addressID isEnabled source trigger t;
    _ ← exec (λ _ d, Ok (tt, on_addresses (alter (with_state isEnabled source t) addressID) d));
    GetAddress addressID).

Definition DisableAddress_row (addressID : AddressID) : M Address :=
  recordAddressEvent addressID false EventSourceWebUI EventTriggerUser.

Definition DisableAddresses_rows (addressIDs : list AddressID) (source : EventSource) (trigger : EventTrigger) : M (list Address) :=
  match addressIDs with
  | [] => mret []
  | _ => withinTx (map_each addressIDs (λ id, recordAddressEvent id false source trigger))
  end.

Definition EnableAddress (addressID : AddressID) (source : EventSource) (trigger : EventTrigger) : M Address :=
  recordAddressEvent addressID true source trigger.

Definition RefreshAddress (addressID : AddressID) (source : EventSource) (trigger : EventTrigger) : M Address :=
  EnableAddress addressID source trigger.

(** The join of enabled addresses with their live devices. *)
Definition enabled_ip_entries (d : db) : list IPEntry :=
  omap (λ a, v ← active_device d (Address_DeviceID a);
             Some (mkIPEntry (Address_IP a) (Address_DeviceID a) (Address_ID a) (Device_OwnerID v)))
    (order_desc Address_UpdatedAt (filter (λ a, Address_IsEnabled a = true) (rows (addresses d)))).

Definition GetEnabledIPEntries : M (list IPEntry) := query (λ _ d, enabled_ip_entries d).

Definition enabled_addresses_of (d : db) (deviceID : DeviceID) : list Address :=
  order_desc Address_UpdatedAt (filter (λ a, Address_DeviceID a = deviceID ∧ Address_IsEnabled a = true) (rows (addresses d))).

Definition GetEnabledAddressesForDevice (deviceID : DeviceID) : M (list Address) :=
  query (λ _ d, enabled_addresses_of d deviceID).

Definition DeleteAddressEventsOlderThan (before : time) : M Z :=
  exec (λ _ d,
    let old := filter (λ kv : Z * AddressEventRow, aer_CreatedAt kv.2 < before) (address_events d) in
    Ok (Z.of_nat (size old), on_address_events (filter (λ kv : Z * AddressEventRow, ¬ aer_CreatedAt kv.2 < before)) d)).

(** ** Service *)

Section service.
Context `{AddressObservers} `{DeviceObservers}.

Definition notifyObservers (e : AddressEvent) : M unit := notify address_observers e.
Definition notifyDeviceObservers (e : DeviceEvent) : M unit := notify device_observers e.

(** [NewAddressEvent] stamps the event when it is built. *)
Definition notifyAddress (a : Address) (t : AddressEventType) : M unit :=
  at_ ← now; notifyObservers (NewAddressEvent a t at_).

(** [Authenticate]: the principal's device id. *)
Definition Authenticate (rawKey : string) : M DeviceID :=
  match cut_prefix APIKeyPrefix rawKey with
  | None => throw ErrInvalidAPIKey
  | Some _ => Device_ID <$> GetDeviceByAPIKeyHash (HashAPIKey rawKey)
  end.

Record CreateDeviceInput := mkCreateDeviceInput {
  cdi_Name : string; cdi_OwnerID : option UserID; cdi_Description : option string; cdi_Icon : option string;
  cdi_GenerateAPIKey : bool;
}.

Definition CreateDeviceWithOptions (principal : UserID) (input : CreateDeviceInput) : M (Device * string) :=
  let ownerID := default principal (cdi_OwnerID input) in
  withinTx (
    created ← CreateDevice (mkCreateDeviceParams (cdi_Name input) ownerID (cdi_Description input) (cdi_Icon input));
    if cdi_GenerateAPIKey input then
      '(rawKey, keyHash, keyPrefix) ← GenerateAPIKey;
      _ ← UpsertAPIKey (Device_ID created) keyHash keyPrefix;
      created' ← GetDevice (Device_ID created);
      mret (created', rawKey)
    else mret (created, "")).

Definition DeleteDevice (deviceID : DeviceID) : M unit :=
  disabled ← withinTx (
    _ ← DeleteDevice_row deviceID;
    addrs ← GetEnabledAddressesForDevice deviceID;
    disabled ← DisableAddresses_rows (Address_ID <$> addrs) EventSourceWebUI EventTriggerUser;
    _ ← catch (DeleteAPIKey_row deviceID) (λ e, if decide (e = ErrNoAPIKey) then mret tt else throw e);
    mret disabled);
  for_each disabled (λ a, notifyAddress a EventTypeAddressDisabled).

Definition DisableDevice (deviceID : DeviceID) : M Device :=
  '(disabled, device) ← withinTx (
    _ ← GetDevice deviceID;
    addrs ← GetEnabledAddressesForDevice deviceID;
    disabled ← DisableAddresses_rows (Address_ID <$> addrs) EventSourceWebUI EventTriggerUser;
    _ ← SetDeviceDisabled deviceID true;
    device ← GetDevice deviceID;
    mret (disabled, device));
  _ ← for_each disabled (λ a, notifyAddress a EventTypeAddressDisabled);
  mret device.

Definition EnableDevice (deviceID : DeviceID) : M Device :=
  withinTx (_ ← SetDeviceDisabled deviceID false; GetDevice deviceID).

Record UpdateDeviceInput := mkUpdateDeviceInput {
  udi_Name : option string; udi_Description : option (option string); udi_Icon : option (option string);
  udi_OwnerID : option UserID;
}.

Definition UpdateDevice (deviceID : DeviceID) (input : UpdateDeviceInput) : M Device :=
  device ← GetDevice deviceID;
  let ownershipChanged := match udi_OwnerID input with Some o => negb (o =? Device_OwnerID device) | None => false end in
  match Device_Update device (udi_Name input) (udi_Description input) (udi_Icon input) (udi_OwnerID input) with
  | Err e => throw e
  | Ok device' =>
      updated ← UpdateDevice_row device';
      _ ← (if ownershipChanged : bool
           then t ← now; notifyDeviceObservers (mkDeviceEvent DeviceEventTypeOwnershipChanged deviceID t)
           else mret tt);
      mret updated
  end.

Definition RegenerateAPIKey (deviceID : DeviceID) : M (Device * string) :=
  '(rawKey, keyHash, keyPrefix) ← GenerateAPIKey;
  device ← withinTx (
    _ ← GetDevice deviceID;
    _ ← UpsertAPIKey deviceID keyHash keyPrefix;
    GetDevice deviceID);
  mret (device, rawKey).

Definition DeleteAPIKey (deviceID : DeviceID) : M unit :=
  withinTx (_ ← GetDevice deviceID; DeleteAPIKey_row deviceID).

(** [OnUserEvent]: errors are logged and swallowed at every level. *)
Definition device_OnUserEvent (e : UserEvent) : M unit :=
  match UserEvent_Type e with
  | EventTypeUserCreated => mret tt
  | EventTypeUserDeleted =>
      catch (withinTx (
        deviceIDs ← catch (GetDeviceIDsByOwner (UserEvent_UserID e)) (λ _, mret []);
        for_each deviceIDs (λ id, catch (DeleteDevice id) (λ _, mret tt)))) (λ _, mret tt)
  end.

Definition RegisterAddressActivity (trustedProxy : Addr) (deviceID : DeviceID) (inputIP : string)
    (source : EventSource) (trigger : EventTrigger) : M (Address * AddressEventType) :=
  match NewCreateAddressParams deviceID inputIP trustedProxy with
  | Err e => throw e
  | Ok p =>
      '(address, eventType) ← withinTx (
        disabled ← IsDeviceDisabled deviceID;
        if (disabled : bool) then throw ErrDeviceDisabled
        else
          existing ← catch (Some <$> GetAddressForDeviceByIP deviceID (cap_IP p))
                       (λ e, if decide (e = ErrAddressNotFound) then mret None else throw e);
          match existing with
          | None => a ← CreateAddress p source trigger; mret (a, EventTypeAddressCreated)
          | Some x =>
              if negb (Address_IsEnabled x)
              then a ← EnableAddress (Address_ID x) source trigger; mret (a, EventTypeAddressEnabled)
              else a ← RefreshAddress (Address_ID x) source trigger; mret (a, EventTypeAddressRefreshed)
          end);
      _ ← notifyAddress address eventType;
      mret (address, eventType)
  end.

Definition DisableAddress (deviceID : DeviceID) (addressID : AddressID) : M Address :=
  disabled ← withinTx (
    _ ← GetDevice deviceID;
    _ ← CheckAddressOwnership deviceID addressID;
    DisableAddress_row addressID);
  _ ← notifyAddress disabled EventTypeAddressDisabled;
  mret disabled.

Definition DisableAddresses (addressIDs : list AddressID) (source : EventSource) (trigger : EventTrigger) : M unit :=
  disabled ← DisableAddresses_rows addressIDs source trigger;
  for_each disabled (λ a, notifyAddress a EventTypeAddressDisabled).

(** [PrincipalDeviceContextMiddleware]: the principal the request's
    context ends up with. *)
Definition PrincipalDeviceContext (apiKeyHeader : string) : M (option DeviceID) :=
  if bool_decide (apiKeyHeader = "") then mret None
  else catch (Some <$> Authenticate apiKeyHeader) (λ _, mret None).
End service.
