(* ===== verification/DeviceInv.v ===== *)
(** * DeviceInv: the invariant of the device tables, kept by every operation

    [device_inv] collects the integrity constraints of the schema (row ids,
    foreign keys, unique indexes) and the freeze: an address of a disabled
    device is disabled.  Every operation of the device component keeps it,
    whatever statements fail. *)

From S2P Require Import Prelude GoLib Netip Schema Store Crypto Device.

Local Open Scope Z_scope.

Record device_inv (d : db) : Prop := mkDeviceInv {
  di_dev_id : ∀ i v, devices d !! i = Some v → Device_ID v = i ∧ Device_KeyPrefix v = None;
  di_addr_id : ∀ i a, addresses d !! i = Some a → Address_ID a = i;
  di_addr_dev : ∀ i a, addresses d !! i = Some a → is_Some (devices d !! Address_DeviceID a);
  di_addr_uniq : ∀ i j a b, addresses d !! i = Some a → addresses d !! j = Some b →
    Address_DeviceID a = Address_DeviceID b → Address_IP a = Address_IP b → i = j;
  di_owner : ∀ i v, devices d !! i = Some v → is_Some (users d !! Device_OwnerID v);
  di_name_uniq : ∀ i j v w, devices d !! i = Some v → devices d !! j = Some w →
    device_active v = true → device_active w = true →
    Device_Name v = Device_Name w → Device_OwnerID v = Device_OwnerID w → i = j;
  di_keys : ∀ i k, api_keys d !! i = Some k → is_Some (devices d !! i);
  di_key_uniq : ∀ i j k l, api_keys d !! i = Some k → api_keys d !! j = Some l →
    ApiKey_KeyHash k = ApiKey_KeyHash l → i = j;
  di_frozen : ∀ i a v, addresses d !! i = Some a → devices d !! Address_DeviceID a = Some v →
    Device_DisabledAt v ≠ None → Address_IsEnabled a = false;
}.

(** ** Sub-steps *)

Lemma active_device_Some d id v :
  active_device d id = Some v ↔ devices d !! id = Some v ∧ device_active v = true.
Proof.
  unfold active_device. destruct (devices d !! id) as [x|]; [|by split; [|intros []]].
  destruct (device_active x) eqn:E; split; [|by intros [[= ->] _]| |intros [[= ->] ?]; congruence]; naive_solver.
Qed.

Lemma name_taken_false d self name owner :
  device_name_taken d self name owner = false → ∀ i v, devices d !! i = Some v → device_active v = true →
    self ≠ Some (Device_ID v) → Device_Name v = name → Device_OwnerID v = owner → False.
Proof.
  unfold device_name_taken. rewrite table_exists_false. intros Hf i v Hv Ha Hs <- <-. specialize (Hf i v Hv).
  rewrite Ha, (bool_decide_eq_false_2 _ Hs), bool_decide_eq_true_2, Z.eqb_refl in Hf by done. done.
Qed.

Local Ltac inv_cases := constructor; cbn; intros; lookups; eauto.

Section kept.
Implicit Types d : db.

Lemma inv_events d f : device_inv d → device_inv (on_address_events f d).
Proof. intros []. by constructor. Qed.

(** Replacing a device's row by one with the same identity. *)
Lemma inv_set_device d id v v' :
  device_inv d → devices d !! id = Some v →
  Device_ID v' = id → Device_KeyPrefix v' = None → is_Some (users d !! Device_OwnerID v') →
  (device_active v' = true → device_active v = true ∧
     (Device_Name v' = Device_Name v ∧ Device_OwnerID v' = Device_OwnerID v ∨
      device_name_taken d (Some id) (Device_Name v') (Device_OwnerID v') = false)) →
  (Device_DisabledAt v' ≠ None → Device_DisabledAt v = None →
     ∀ i a, addresses d !! i = Some a → Address_DeviceID a = id → Address_IsEnabled a = false) →
  device_inv (on_devices (<[id := v']>) d).
Proof.
  intros [] Hv Hid Hkp Ho Hname Hfr. constructor; cbn; try done.
  - intros i w Hw. lookups; eauto.
  - intros i a Ha. apply lookup_insert_is_Some. destruct (decide (id = Address_DeviceID a)); [by left|right]. eauto.
  - intros i w Hw. lookups; eauto.
  - intros i j x y Hx Hy Ax Ay Hn Hw. lookups; [done| | |by eauto].
    + destruct (Hname Ay) as [Av [[En Eo]|Ht]].
      * rewrite En in Hn. rewrite Eo in Hw. eauto.
      * exfalso. eapply name_taken_false; [exact Ht|exact Hx|done| |done|done]. rewrite (proj1 (di_dev_id0 _ _ Hx)). congruence.
    + destruct (Hname Ax) as [Av [[En Eo]|Ht]].
      * rewrite En in Hn. rewrite Eo in Hw. eauto.
      * exfalso. eapply name_taken_false; [exact Ht|exact Hy|done| |done|done]. rewrite (proj1 (di_dev_id0 _ _ Hy)). congruence.
  - intros i k Hk. apply lookup_insert_is_Some. destruct (decide (id = i)); [by left|right]. eauto.
  - intros i a w Ha Hw Hd. lookups; [|by eauto]. destruct (decide (Device_DisabledAt v = None)) as [E|E]; [by eapply Hfr|].
    eapply di_frozen0; [exact Ha| |exact E]. by match goal with E' : _ = Address_DeviceID a |- _ => rewrite <-E' end.
Qed.

(** Replacing an address's row by one with the same identity. *)
Lemma inv_alter_address d id f :
  device_inv d →
  (∀ a, addresses d !! id = Some a → Address_ID (f a) = Address_ID a ∧ Address_DeviceID (f a) = Address_DeviceID a ∧
     Address_IP (f a) = Address_IP a ∧
     (Address_IsEnabled (f a) = true → ∀ v, devices d !! Address_DeviceID a = Some v → Device_DisabledAt v = None)) →
  device_inv (on_addresses (alter f id) d).
Proof.
  intros [] Hf. constructor; cbn; try done.
  - intros i a Ha. lookups; [|by eauto]. destruct (Hf _ ltac:(eassumption)) as (-> & _). eauto.
  - intros i a Ha. lookups; [|by eauto]. destruct (Hf _ ltac:(eassumption)) as (_ & -> & _). eauto.
  - assert (∀ k x, alter f id (addresses d) !! k = Some x → ∃ x0, addresses d !! k = Some x0 ∧
      Address_DeviceID x = Address_DeviceID x0 ∧ Address_IP x = Address_IP x0) as Hx.
    { intros k x Hk. lookups; [|by eauto]. destruct (Hf _ ltac:(eassumption)) as (_ & ? & ? & _). eauto. }
    intros i j a b (a0 & Ha & Da & Ia)%Hx (b0 & Hb & Db & Ib)%Hx. rewrite Da, Db, Ia, Ib. eauto.
  - intros i a v Ha Hv Hd. lookups; [|by eauto]. destruct (Hf _ ltac:(eassumption)) as (_ & E & _ & He).
    rewrite E in Hv. apply not_true_iff_false. intros Hen. by rewrite (He Hen _ Hv) in Hd.
Qed.
End kept.

(** ** Repository operations *)

Lemma keeps_CreateDevice p : keeps device_inv (CreateDevice p).
Proof.
  apply keeps_map_err, keeps_exec. intros t d v d' [] Hf. write_cases Hf.
  constructor; cbn; try done.
  - intros i w Hw. lookups; eauto.
  - intros i a Ha. apply lookup_insert_is_Some. destruct (decide (fresh_id (devices d) = Address_DeviceID a)); [by left|right]. eauto.
  - intros i w Hw. lookups; eauto.
  - intros i j x y Hx Hy Ax Ay Hn Ho.
    assert (∀ k z, devices d !! k = Some z → device_active z = true → Device_Name z = cdp_Name p → Device_OwnerID z = cdp_OwnerID p → False) as Hno.
    { intros. by eapply name_taken_false. }
    lookups; [done| | |by eauto]; exfalso; (eapply Hno; [eassumption..|congruence|congruence]).
  - intros i k Hk. apply lookup_insert_is_Some. destruct (decide (fresh_id (devices d) = i)); [by left|right]. eauto.
  - intros i a w Ha Hw Hd. lookups. eauto.
Qed.

Lemma update_device_keeps f id :
  (∀ d t v, device_inv d → active_device d id = Some v → device_inv (on_devices (<[id := f t v]>) d)) →
  keeps device_inv (update_device f id).
Proof. intros Hf. apply keeps_exec. intros t d n d' I E. write_cases E; eauto. Qed.

Lemma keeps_GetDevice id : keeps device_inv (GetDevice id).
Proof. unfold GetDevice. structural. Qed.

Lemma keeps_DeleteDevice_row id : keeps device_inv (DeleteDevice_row id).
Proof.
  apply keeps_bind; [|structural]. apply update_device_keeps. intros d t v I [Hv Ha]%active_device_Some.
  pose proof (di_dev_id _ I _ _ Hv) as [? ?].
  eapply inv_set_device; [done|exact Hv|done|done|exact (di_owner _ I _ _ Hv)| |]; cbn; [|congruence].
  intros [=].
Qed.

Lemma keeps_SetDeviceEnabled id : keeps device_inv (SetDeviceDisabled id false).
Proof.
  apply keeps_bind; [|structural]. apply update_device_keeps. intros d t v I [Hv Ha]%active_device_Some.
  pose proof (di_dev_id _ I _ _ Hv) as [? ?].
  eapply inv_set_device; [done|exact Hv|done|done|exact (di_owner _ I _ _ Hv)|by auto|done].
Qed.

Lemma keeps_UpdateDevice_row v : keeps device_inv (UpdateDevice_row v).
Proof.
  apply keeps_bind; [|intros n; case_match; [apply keeps_throw|apply keeps_GetDevice]].
  apply keeps_map_err, keeps_exec. intros t d n d' I Hf. write_cases Hf; [|done].
  match goal with H : active_device _ _ = Some _ |- _ => apply active_device_Some in H as [Hv Ha] end.
  pose proof (di_dev_id _ I _ _ Hv) as [? ?].
  eapply inv_set_device; [done|exact Hv|done|done|done| |done]. cbn. by auto.
Qed.

Lemma keeps_UpsertAPIKey id h p : keeps device_inv (UpsertAPIKey id h p).
Proof.
  apply keeps_map_err, keeps_exec. intros t d [] d' I Hf. write_cases Hf. bool_prop.
  match goal with H : map_Forall _ _ |- _ => rename H into Hall end. destruct I.
  constructor; cbn; try done; [intros i k Hk; lookups; eauto|].
  intros i j k l Hk Hl Hh. rewrite map_Forall_lookup in Hall.
  lookups; [done| |symmetry|by eauto]; (eapply Hall; [eassumption|congruence]).
Qed.

Lemma keeps_DeleteAPIKey_row id : keeps device_inv (DeleteAPIKey_row id).
Proof.
  apply keeps_bind; [|structural]. apply keeps_exec. intros t d n d' I Hf. write_cases Hf; [|done].
  destruct I. constructor; cbn; try done; intros; lookups; eauto.
Qed.

Lemma keeps_insertAddressEvent id en src trg t : keeps device_inv (insertAddressEvent id en src trg t).
Proof. apply keeps_exec. intros t' d [] d' I Hf. write_cases Hf. by apply inv_events. Qed.

Lemma keeps_GetAddress id : keeps device_inv (GetAddress id).
Proof. unfold GetAddress. structural. Qed.

#[export] Hint Resolve keeps_CreateDevice keeps_GetDevice keeps_DeleteDevice_row keeps_SetDeviceEnabled keeps_UpdateDevice_row
  keeps_UpsertAPIKey keeps_DeleteAPIKey_row keeps_insertAddressEvent keeps_GetAddress : pw.

(** Disabling an address keeps the invariant whatever its device. *)
Lemma keeps_recordDisable id src trg : keeps device_inv (recordAddressEvent id false src trg).
Proof.
  unfold recordAddressEvent. structural. apply keeps_exec. intros t d [] d' I Hf. write_cases Hf.
  by apply inv_alter_address.
Qed.

#[export] Hint Resolve keeps_recordDisable : pw.

Lemma keeps_DisableAddresses_rows ids src trg : keeps device_inv (DisableAddresses_rows ids src trg).
Proof. unfold DisableAddresses_rows. structural. Qed.

#[export] Hint Resolve keeps_DisableAddresses_rows : pw.

(** ** What the statements of an address write do *)

(** A write that touches only addresses and their events. *)
Definition address_write (d d' : db) : Prop := ∃ f g, d' = on_addresses f (on_address_events g d).

Lemma address_write_refl d : address_write d d.
Proof. exists id, id. by destruct d. Qed.

Lemma address_write_trans d1 d2 d3 : address_write d1 d2 → address_write d2 d3 → address_write d1 d3.
Proof. intros (f & g & ->) (f' & g' & ->). exists (f' ∘ f), (g' ∘ g). done. Qed.

Lemma recordAddressEvent_Ok id en src trg w a w' :
  recordAddressEvent id en src trg true w = (Ok a, w') →
  ∃ old, addresses (w_db w) !! id = Some old ∧ a = with_state en src (w_now w) old ∧
    w_db w' = on_addresses (alter (with_state en src (w_now w)) id)
                (on_address_events (add_event (mkAddressEventRow id en src trg (w_now w))) (w_db w)) ∧
    w_now w' = w_now w.
Proof.
  unfold recordAddressEvent, insertAddressEvent, GetAddress, now. intros Hr. rewrite withinTx_nested in Hr.
  apply bind_Ok in Hr as (t & w1 & [= <- <-] & Hr). inv_run. write_cases H.
  match goal with H : addresses (w_db w) !! id = Some ?o |- _ => rename H into Hold, o into a0 end.
  assert (w_db w' = on_addresses (alter (with_state en src (w_now w)) id)
                (on_address_events (add_event (mkAddressEventRow id en src trg (w_now w))) (w_db w))) as E by congruence.
  match goal with H : addresses (w_db ?x) !! id = Some a, H' : w_db w' = w_db ?x |- _ => rewrite <-H', E in H; rename H into Hnew end.
  cbn in Hnew. rewrite lookup_alter_eq, Hold in Hnew. injection Hnew as <-.
  exists a0. split; [done|]. split; [done|]. split; [exact E|congruence].
Qed.

(** A batch of them: every listed address is rewritten, no other is. *)
Lemma map_each_record ids en src trg w l w' :
  map_each ids (λ id, recordAddressEvent id en src trg) true w = (Ok l, w') →
  address_write (w_db w) (w_db w') ∧ w_now w' = w_now w ∧
  (∀ i, addresses (w_db w') !! i =
     if decide (i ∈ ids) then with_state en src (w_now w) <$> addresses (w_db w) !! i else addresses (w_db w) !! i) ∧
  Forall2 (λ id a, ∃ old, addresses (w_db w) !! id = Some old ∧ a = with_state en src (w_now w) old) ids l.
Proof.
  revert w l. induction ids as [|id ids IH]; intros w l Hr; cbn [map_each] in Hr.
  { injection Hr as <- <-. split; [apply address_write_refl|]. split; [done|]. split; [|constructor]. intros i.
    rewrite decide_False by set_solver. done. }
  apply bind_Ok in Hr as (a & w1 & H1 & Hr). apply bind_Ok in Hr as (l' & w2 & H2 & [= <- <-]).
  apply recordAddressEvent_Ok in H1 as (old & Hold & -> & E & N). apply IH in H2 as (Hw & N' & Hl & Hf).
  assert (∀ i, addresses (w_db w1) !! i = alter (with_state en src (w_now w)) id (addresses (w_db w)) !! i) as Ha by (by rewrite E).
  assert (∀ x, with_state en src (w_now w) (with_state en src (w_now w) x) = with_state en src (w_now w) x) as Hidem by done.
  split; [eapply address_write_trans; [|exact Hw]; rewrite E; by eexists _, _|]. split; [congruence|]. split.
  - intros i. rewrite Hl, Ha, N. destruct (decide (i = id)) as [->|Hne].
    + rewrite (decide_True (P := id ∈ id :: ids)) by (by left). rewrite lookup_alter_eq.
      destruct (decide (id ∈ ids)); [|done]. rewrite <-option_fmap_compose. by destruct (_ !! id).
    + rewrite lookup_alter_ne by done. destruct (decide (i ∈ ids)).
      * rewrite decide_True by (by right). done.
      * rewrite decide_False by (rewrite elem_of_cons; naive_solver). done.
  - constructor; [by eauto|]. eapply Forall2_impl; [exact Hf|]. intros i a (o & Ho & ->). rewrite Ha in Ho. rewrite N.
    destruct (decide (i = id)) as [->|Hne].
    + rewrite lookup_alter_eq, Hold in Ho. injection Ho as <-. eauto.
    + rewrite lookup_alter_ne in Ho by done. eauto.
Qed.

Lemma DisableAddresses_rows_Ok ids src trg w l w' :
  DisableAddresses_rows ids src trg true w = (Ok l, w') →
  address_write (w_db w) (w_db w') ∧ w_now w' = w_now w ∧
  (∀ i, addresses (w_db w') !! i =
     if decide (i ∈ ids) then with_state false src (w_now w) <$> addresses (w_db w) !! i else addresses (w_db w) !! i) ∧
  Forall2 (λ id a, ∃ old, addresses (w_db w) !! id = Some old ∧ a = with_state false src (w_now w) old) ids l.
Proof.
  intros Hr. apply (map_each_record ids false src trg). unfold DisableAddresses_rows in Hr. by destruct ids.
Qed.

Lemma elem_of_enabled_addresses d id a :
  a ∈ enabled_addresses_of d id ↔ Address_DeviceID a = id ∧ Address_IsEnabled a = true ∧ ∃ i, addresses d !! i = Some a.
Proof. unfold enabled_addresses_of. rewrite elem_of_order_desc, elem_of_filter_rows. tauto. Qed.

(** Disabling every enabled address of a device leaves none. *)
Lemma disable_all_Ok d d' id src t :
  device_inv d →
  (∀ i, addresses d' !! i =
     if decide (i ∈ Address_ID <$> enabled_addresses_of d id) then with_state false src t <$> addresses d !! i else addresses d !! i) →
  ∀ i a, addresses d' !! i = Some a → Address_DeviceID a = id → Address_IsEnabled a = false.
Proof.
  intros I Hl i a Ha Hd. rewrite Hl in Ha. case_decide as Hin.
  - destruct (addresses d !! i) as [o|]; [|done]. by injection Ha as <-.
  - apply not_true_iff_false. intros He. apply Hin. apply list_elem_of_fmap. exists a.
    split; [by rewrite (di_addr_id _ I _ _ Ha)|]. apply elem_of_enabled_addresses. eauto.
Qed.

(** ** Service operations *)

Section kept_service.
Context `{AddressObservers} `{DeviceObservers}.

Lemma keeps_notifyAddress a t : keeps device_inv (notifyAddress a t).
Proof. unfold notifyAddress, notifyObservers. structural. Qed.

Lemma keeps_notifyDevice e : keeps device_inv (notifyDeviceObservers e).
Proof. apply keeps_notify, device_observers_inert. Qed.

Hint Resolve keeps_notifyAddress keeps_notifyDevice : pw.

Lemma keeps_CreateDeviceWithOptions p i : keeps device_inv (CreateDeviceWithOptions p i).
Proof. unfold CreateDeviceWithOptions, GenerateAPIKey. structural. Qed.

Lemma keeps_DeleteDevice id : keeps device_inv (DeleteDevice id).
Proof. unfold DeleteDevice, GetEnabledAddressesForDevice. structural. Qed.

Hint Resolve keeps_DeleteDevice : pw.

Lemma keeps_EnableDevice id : keeps device_inv (EnableDevice id).
Proof. unfold EnableDevice. structural. Qed.

Lemma keeps_UpdateDevice id i : keeps device_inv (UpdateDevice id i).
Proof. unfold UpdateDevice. structural. Qed.

Lemma keeps_RegenerateAPIKey id : keeps device_inv (RegenerateAPIKey id).
Proof. unfold RegenerateAPIKey, GenerateAPIKey. structural. Qed.

Lemma keeps_DeleteAPIKey id : keeps device_inv (DeleteAPIKey id).
Proof. unfold DeleteAPIKey. structural. Qed.

Lemma keeps_device_OnUserEvent e : keeps device_inv (device_OnUserEvent e).
Proof. unfold device_OnUserEvent, GetDeviceIDsByOwner. structural. Qed.

Lemma keeps_DisableAddress d a : keeps device_inv (DisableAddress d a).
Proof. unfold DisableAddress, CheckAddressOwnership, DisableAddress_row. structural. Qed.

Lemma keeps_DisableAddresses ids src trg : keeps device_inv (DisableAddresses ids src trg).
Proof. unfold DisableAddresses. structural. Qed.
End kept_service.
