(* ===== verification/DeviceSpec.v ===== *)
(** * DeviceSpec: what the device operations do

    Exact outcomes of the address and device operations, the freeze, and
    atomicity. *)

From S2P Require Import Prelude GoLib Netip Schema Store Crypto Device DeviceInv.

Local Open Scope string_scope.
Local Open Scope Z_scope.

(** ** Address writes, run without faults *)

Definition event_row (a : Address) (trigger : EventTrigger) (t : time) : AddressEventRow :=
  mkAddressEventRow (Address_ID a) (Address_IsEnabled a) (Address_Source a) trigger t.

(** The database after an address is written together with its event. *)
Definition put_address (a : Address) (trigger : EventTrigger) (t : time) (d : db) : db :=
  on_addresses (<[Address_ID a := a]>) (on_address_events (add_event (event_row a trigger t)) d).

Lemma recordAddressEvent_run id en src trg w old :
  no_faults w → addresses (w_db w) !! id = Some old → Address_ID old = id →
  recordAddressEvent id en src trg true w =
    let a := with_state en src (w_now w) old in
    (Ok a, set_db (put_address a trg (w_now w) (w_db w)) w).
Proof.
  intros Hnf Hold Hid. unfold recordAddressEvent. rewrite withinTx_nested. unfold now. rewrite bind_run. cbv beta iota.
  unfold insertAddressEvent. rewrite bind_run, exec_run by done. rewrite Hold. cbv beta iota.
  rewrite bind_run, exec_run by (by apply no_faults_set_db). cbv beta iota.
  unfold GetAddress. rewrite map_err_run, get_row_run by (by repeat apply no_faults_set_db).
  cbn [w_db set_db addresses on_addresses on_address_events]. rewrite lookup_alter_eq, Hold. cbn [fmap option_fmap option_map].
  f_equal. unfold put_address, event_row. cbn [Address_ID with_state Address_IsEnabled Address_Source]. rewrite Hid.
  unfold set_db, on_addresses, on_address_events. cbn. by rewrite (alter_as_insert _ _ _ old).
Qed.

Lemma CreateAddress_run p src trg w v :
  no_faults w → devices (w_db w) !! cap_DeviceID p = Some v →
  (∀ i a, addresses (w_db w) !! i = Some a → Address_DeviceID a = cap_DeviceID p → Address_IP a ≠ Addr_String (cap_IP p)) →
  CreateAddress p src trg true w =
    let a := mkAddress (fresh_id (addresses (w_db w))) (cap_DeviceID p) (Addr_String (cap_IP p)) true src (w_now w) (w_now w) in
    (Ok a, set_db (put_address a trg (w_now w) (w_db w)) w).
Proof.
  intros Hnf Hv Hnew. unfold CreateAddress. rewrite withinTx_nested. unfold now. rewrite bind_run. cbv beta iota.
  rewrite bind_run, exec_run by done. cbv beta zeta.
  assert (table_exists (λ a, (Address_DeviceID a =? cap_DeviceID p) && bool_decide (Address_IP a = Addr_String (cap_IP p)))
            (addresses (w_db w)) = false) as ->.
  { apply table_exists_false. intros i a Ha. destruct (Z.eqb_spec (Address_DeviceID a) (cap_DeviceID p)); [|done].
    cbn. apply bool_decide_eq_false_2. by eapply Hnew. }
  rewrite Hv. cbv beta iota.
  rewrite bind_run. unfold insertAddressEvent. rewrite exec_run by (by apply no_faults_set_db).
  cbn [w_db set_db addresses on_addresses]. rewrite lookup_insert_eq. cbv beta iota.
  unfold GetAddress. rewrite map_err_run, get_row_run by (by repeat apply no_faults_set_db).
  cbn [w_db set_db addresses on_addresses on_address_events]. rewrite lookup_insert_eq. done.
Qed.

(** The row a device has for an IP, if any. *)
Definition address_of (d : db) (deviceID : DeviceID) (ip : Addr) : option Address :=
  head (order_desc Address_UpdatedAt
          (filter (λ a, Address_DeviceID a = deviceID ∧ Address_IP a = Addr_String ip) (rows (addresses d)))).

Lemma address_of_Some d dev ip a :
  address_of d dev ip = Some a → (∃ i, addresses d !! i = Some a) ∧ Address_DeviceID a = dev ∧ Address_IP a = Addr_String ip.
Proof.
  unfold address_of. intros Hh. assert (a ∈ order_desc Address_UpdatedAt
    (filter (λ a, Address_DeviceID a = dev ∧ Address_IP a = Addr_String ip) (rows (addresses d)))) as Hin.
  { destruct (order_desc _ _); [done|]. injection Hh as ->. by left. }
  rewrite elem_of_order_desc, elem_of_filter_rows in Hin. tauto.
Qed.

Lemma address_of_None d dev ip :
  address_of d dev ip = None → ∀ i a, addresses d !! i = Some a → Address_DeviceID a = dev → Address_IP a ≠ Addr_String ip.
Proof.
  unfold address_of. intros Hh i a Ha Hd Hip.
  assert (a ∈ order_desc Address_UpdatedAt
    (filter (λ a, Address_DeviceID a = dev ∧ Address_IP a = Addr_String ip) (rows (addresses d)))) as Hin.
  { rewrite elem_of_order_desc, elem_of_filter_rows. eauto. }
  destruct (order_desc _ _); [by apply elem_of_nil in Hin|done].
Qed.

Section device_spec.
Context `{AddressObservers} `{DeviceObservers}.

(** ** RegisterAddressActivity *)

(** What an activity report does, as a function of the state. *)
Definition activity (d : db) (now : time) (p : CreateAddressParams) (src : EventSource) : Address * AddressEventType :=
  match address_of d (cap_DeviceID p) (cap_IP p) with
  | None => (mkAddress (fresh_id (addresses d)) (cap_DeviceID p) (Addr_String (cap_IP p)) true src now now, EventTypeAddressCreated)
  | Some old => (with_state true src now old,
                 if Address_IsEnabled old then EventTypeAddressRefreshed else EventTypeAddressEnabled)
  end.

Definition activity_outcome (d : db) (now : time) (proxy : Addr) (dev : DeviceID) (ip : string) (src : EventSource)
    : result (Address * AddressEventType) :=
  match NewCreateAddressParams dev ip proxy with
  | Err e => Err e
  | Ok p =>
      match active_device d dev with
      | None => Err ErrDeviceNotFound
      | Some v => if decide (Device_DisabledAt v = None) then Ok (activity d now p src) else Err ErrDeviceDisabled
      end
  end.

Lemma NewCreateAddressParams_device dev ip proxy p : NewCreateAddressParams dev ip proxy = Ok p → cap_DeviceID p = dev.
Proof. unfold NewCreateAddressParams. repeat case_match; intros [=]; by subst. Qed.

(** C29: in a sound database and without faults, an activity report is
    rejected with the parser's, the range check's or the proxy check's
    error, with [ErrDeviceNotFound] for a missing or deleted device, with
    [ErrDeviceDisabled] for a frozen one, changing nothing; otherwise it
    creates the address, or enables it, or refreshes it, according to the
    row the device has for that IP, writes exactly that row and one audit
    event, and notifies the observers of it once. *)
Theorem RegisterAddressActivity_spec proxy dev ip src trg w :
  no_faults w → device_inv (w_db w) →
  RegisterAddressActivity proxy dev ip src trg false w =
    match activity_outcome (w_db w) (w_now w) proxy dev ip src with
    | Err e => (Err e, w)
    | Ok (a, ty) =>
        let w1 := set_db (put_address a trg (w_now w) (w_db w)) w in
        (Ok (a, ty), foldl (λ w o, o (NewAddressEvent a ty (w_now w1)) w) w1 address_observers)
    end.
Proof.
  intros Hnf I. unfold RegisterAddressActivity, activity_outcome.
  destruct (NewCreateAddressParams dev ip proxy) as [p|e] eqn:Ep; [|done].
  pose proof (NewCreateAddressParams_device _ _ _ _ Ep) as Hdev.
  rewrite bind_run, withinTx_run; [|done|].
  2:{ unfold IsDeviceDisabled, GetAddressForDeviceByIP, CreateAddress, RefreshAddress, EnableAddress,
        recordAddressEvent, insertAddressEvent, GetAddress.
      match goal with |- no_faults (?m true w).2 => assert (quiet m) as Hq; [structural|by apply Hq] end. }
  rewrite bind_run. unfold IsDeviceDisabled. rewrite map_err_run, get_row_run by done.
  destruct (active_device (w_db w) dev) as [v|] eqn:Ev; [|by destruct w].
  cbn [fmap option_fmap option_map]. rewrite decide_bool_decide. case_bool_decide as Hdis; cbn [negb]; [|by destruct w].
  rewrite bind_run, catch_run, fmap_run. unfold GetAddressForDeviceByIP. rewrite map_err_run, get_row_run by done.
  fold (address_of (w_db w) dev (cap_IP p)). unfold activity. rewrite Hdev.
  apply active_device_Some in Ev as [Hv _].
  destruct (address_of (w_db w) dev (cap_IP p)) as [old|] eqn:Eo.
  - apply address_of_Some in Eo as ([i Hi] & Hod & Hoip). pose proof (di_addr_id _ I _ _ Hi) as Hid. subst i.
    destruct (Address_IsEnabled old) eqn:Een; cbn [negb]; unfold RefreshAddress, EnableAddress;
      rewrite bind_run, (recordAddressEvent_run _ _ _ _ _ old) by done; cbv zeta;
      unfold notifyAddress, notifyObservers; run; done.
  - cbn [no_rows]. rewrite decide_True by done. run.
    rewrite (CreateAddress_run _ _ _ _ v); [|done|by rewrite Hdev|by rewrite Hdev; apply address_of_None].
    cbv zeta. unfold notifyAddress, notifyObservers. run. by rewrite Hdev.
Qed.

(** ** The freeze *)

(** Enabling an address of a device that is active and not disabled. *)
Lemma inv_enable d id src t trg :
  device_inv d →
  (∀ a, addresses d !! id = Some a → ∀ v, devices d !! Address_DeviceID a = Some v → Device_DisabledAt v = None) →
  device_inv (on_addresses (alter (with_state true src t) id) (on_address_events trg d)).
Proof. intros I Hf. apply inv_alter_address; [by apply inv_events|]. cbn. intros a Ha. eauto 10. Qed.

Lemma inv_insert_address d a :
  device_inv d → addresses d !! Address_ID a = None →
  (∃ v, devices d !! Address_DeviceID a = Some v ∧ Device_DisabledAt v = None) →
  (∀ i b, addresses d !! i = Some b → Address_DeviceID b = Address_DeviceID a → Address_IP b ≠ Address_IP a) →
  device_inv (on_addresses (<[Address_ID a := a]>) d).
Proof.
  intros [] Hnone (v & Hv & Hd) Hnew. constructor; cbn; try done.
  - intros i b Hb. lookups; eauto.
  - intros i b Hb. lookups; eauto.
  - intros i j b c Hb Hc E1 E2. lookups; [done| | |by eauto]; exfalso; (eapply Hnew; [eassumption|congruence|congruence]).
  - intros i b x Hb Hx Hdx. lookups; eauto.
Qed.

Lemma IsDeviceDisabled_Ok dev w b w' tx :
  IsDeviceDisabled dev tx w = (Ok b, w') →
  w_db w' = w_db w ∧ w_now w' = w_now w ∧ ∃ v, active_device (w_db w) dev = Some v ∧ b = negb (bool_decide (Device_DisabledAt v = None)).
Proof.
  unfold IsDeviceDisabled. intros Hr. inv_run. split; [done|]. split; [done|].
  destruct (active_device (w_db w) dev) as [v|]; [|done]. eexists. split; [done|]. by simplify_eq/=.
Qed.

Lemma CreateAddress_Ok p src trg w a w' :
  CreateAddress p src trg true w = (Ok a, w') →
  is_Some (devices (w_db w) !! cap_DeviceID p) ∧
  (∀ i b, addresses (w_db w) !! i = Some b → Address_DeviceID b = cap_DeviceID p → Address_IP b ≠ Addr_String (cap_IP p)) ∧
  ∃ n, w_db w' = put_address (mkAddress n (cap_DeviceID p) (Addr_String (cap_IP p)) true src (w_now w) (w_now w)) trg (w_now w) (w_db w) ∧
    addresses (w_db w) !! n = None.
Proof.
  unfold CreateAddress, insertAddressEvent, GetAddress, now. intros Hr. rewrite withinTx_nested in Hr.
  apply bind_Ok in Hr as (t & w1 & [= <- <-] & Hr). apply bind_Ok in Hr as (n & w1 & Hr1 & Hr).
  apply exec_Ok in Hr1 as (d1 & Hr1 & E1 & N1 & _). write_cases Hr1.
  apply bind_Ok in Hr as ([] & w2 & Hr2 & Hr). apply exec_Ok in Hr2 as (d2 & Hr2 & E2 & N2 & _). write_cases Hr2.
  inv_run. split; [eauto|]. split.
  - intros i b Hb Hd Hip.
    match goal with Ht : table_exists _ _ = false |- _ => rewrite table_exists_false in Ht; specialize (Ht i b Hb); rename Ht into Hte end.
    rewrite Hd, Hip, Z.eqb_refl, bool_decide_eq_true_2 in Hte by done. done.
  - exists (fresh_id (addresses (w_db w))). split; [|apply fresh_id_None].
    transitivity (w_db w2); [done|]. match goal with E : on_address_events _ _ = w_db w2 |- _ => rewrite <-E end.
    match goal with E : on_addresses _ _ = w_db w1 |- _ => rewrite <-E end. done.
Qed.

Lemma RegisterAddressActivity_keeps proxy dev ip src trg : keeps_out device_inv (RegisterAddressActivity proxy dev ip src trg).
Proof.
  unfold RegisterAddressActivity. destruct (NewCreateAddressParams dev ip proxy) as [p|e] eqn:Ep; [|apply keeps_keeps_out, keeps_throw].
  pose proof (NewCreateAddressParams_device _ _ _ _ Ep) as Hdev.
  apply keeps_out_bind; [|intros [a ty]; apply keeps_keeps_out; apply keeps_bind; [apply keeps_notifyAddress|intros; apply keeps_ret]].
  apply keeps_out_withinTx. intros w r w' Hr I.
  apply bind_Ok in Hr as (b & w1 & (E1 & N1 & v & Hv & ->)%IsDeviceDisabled_Ok & Hr).
  destruct (bool_decide (Device_DisabledAt v = None)) eqn:Hd; cbn [negb] in Hr; [|discriminate Hr]. apply bool_decide_eq_true_1 in Hd.
  rewrite <-E1 in Hv, I. apply active_device_Some in Hv as [Hv _].
  apply bind_Ok in Hr as (ex & w2 & Hex & Hr).
  assert (w_db w2 = w_db w1 ∧ (∀ x, ex = Some x → address_of (w_db w1) dev (cap_IP p) = Some x)) as [E2 Hx].
  { apply catch_Ok in Hex as [Hex|(e & w3 & Hex & Hh)].
    - unfold GetAddressForDeviceByIP in Hex. apply fmap_Ok in Hex as (x & Hex & ->). inv_run. split; [done|]. by intros y [= <-].
    - case_decide; [|done]. injection Hh as <- <-. split; [|done].
      pose proof (keeps_map_err (λ d, d = w_db w1) (no_rows ErrAddressNotFound) (get_row (λ _ d, address_of d dev (cap_IP p)))
        (keeps_get_row _ _) true w1 eq_refl) as Hk.
      rewrite fmap_run in Hex. unfold GetAddressForDeviceByIP in Hex. unfold address_of in Hk. destruct (map_err _ _ _ _) as [[?|?] ?]; [done|].
      injection Hex as _ <-. done. }
  destruct ex as [x|].
  - specialize (Hx x eq_refl). apply address_of_Some in Hx as ([i Hi] & Hdx & _).
    pose proof (di_addr_id _ I _ _ Hi) as Hid. subst i.
    assert (∃ a w3, recordAddressEvent (Address_ID x) true src trg true w2 = (Ok a, w3) ∧ w_db w' = w_db w3) as (a & w3 & Hrec & ->).
    { destruct (negb (Address_IsEnabled x)); unfold RefreshAddress, EnableAddress in Hr;
        apply bind_Ok in Hr as (a & w3 & Hrec & [= _ <-]); eauto. }
    apply recordAddressEvent_Ok in Hrec as (old & Ho & _ & -> & _). rewrite E2 in *.
    apply inv_enable; [done|]. intros a' Ha' v' Hv'. rewrite Hi in Ha'. injection Ha' as <-. congruence.
  - apply bind_Ok in Hr as (a & w3 & Hc & [= _ <-]). apply CreateAddress_Ok in Hc as (_ & Hnew & n & -> & Hn).
    rewrite E2 in *. unfold put_address.
    match goal with |- device_inv (on_addresses (<[Address_ID ?a := ?a]>) _) => apply (inv_insert_address _ a) end;
      [by apply inv_events|done| |done]. exists v. by rewrite <-Hdev in Hv.
Qed.

Lemma DisableDevice_keeps id : keeps_out device_inv (DisableDevice id).
Proof.
  unfold DisableDevice. apply keeps_out_bind.
  2:{ intros [l v]. apply keeps_keeps_out. apply keeps_bind; [|intros; apply keeps_ret].
      apply keeps_for_each. intros a. apply keeps_notifyAddress. }
  apply keeps_out_withinTx. intros w [l v] w' Hr I. unfold GetEnabledAddressesForDevice, GetDevice in Hr.
  apply bind_Ok in Hr as (v0 & w1 & Hget & Hr). apply bind_Ok in Hr as (l0 & w2 & Hlist & Hr).
  apply bind_Ok in Hr as (l1 & w3 & Hdis & Hr). apply bind_Ok in Hr as ([] & w4 & Hset & Hr). inv_run. subst l0.
  assert (w_db w' = w_db w4) as -> by congruence. assert (w_db w2 = w_db w) as E2 by congruence.
  assert (w_db w1 = w_db w) as E1 by congruence. rewrite E1 in Hdis.
  assert (device_inv (w_db w3)) as I3.
  { replace w3 with (Ok l, w3).2 by done. rewrite <-Hdis. apply keeps_DisableAddresses_rows. by rewrite E2. }
  apply DisableAddresses_rows_Ok in Hdis as (_ & _ & Hl & _).
  rewrite E2 in Hl. pose proof (disable_all_Ok _ (w_db w3) _ _ _ I Hl) as Hoff.
  unfold SetDeviceDisabled, update_device in Hset. apply bind_Ok in Hset as (n & w5 & Hset & Hn).
  assert (w5 = w4) as -> by (case_match; by injection Hn).
  apply exec_Ok in Hset as (d' & Hset & E4 & _). write_cases Hset.
  match goal with Hx : active_device (w_db w3) id = Some ?o |- _ => rename o into v3; apply active_device_Some in Hx as [Hv3 Ha3] end.
  match goal with Hx : on_devices _ _ = w_db w4 |- _ => rewrite <-Hx end. pose proof (di_dev_id _ I3 _ _ Hv3) as [? ?].
  eapply inv_set_device; [done|exact Hv3|done|done|exact (di_owner _ I3 _ _ Hv3)|by auto|]. intros _ _. exact Hoff.
Qed.

(** ** Every operation *)

Inductive device_op :=
  | OpCreateDevice (principal : UserID) (input : CreateDeviceInput)
  | OpDeleteDevice (id : DeviceID)
  | OpDisableDevice (id : DeviceID)
  | OpEnableDevice (id : DeviceID)
  | OpUpdateDevice (id : DeviceID) (input : UpdateDeviceInput)
  | OpRegenerateAPIKey (id : DeviceID)
  | OpDeleteAPIKey (id : DeviceID)
  | OpRegister (proxy : Addr) (id : DeviceID) (ip : string) (source : EventSource) (trigger : EventTrigger)
  | OpDisableAddress (id : DeviceID) (address : AddressID)
  | OpDisableAddresses (ids : list AddressID) (source : EventSource) (trigger : EventTrigger)
  | OpUserEvent (e : UserEvent)
  | OpPruneEvents (before : time).

Definition run_device_op (op : device_op) : M unit :=
  match op with
  | OpCreateDevice p i => _ ← CreateDeviceWithOptions p i; mret tt
  | OpDeleteDevice id => DeleteDevice id
  | OpDisableDevice id => _ ← DisableDevice id; mret tt
  | OpEnableDevice id => _ ← EnableDevice id; mret tt
  | OpUpdateDevice id i => _ ← UpdateDevice id i; mret tt
  | OpRegenerateAPIKey id => _ ← RegenerateAPIKey id; mret tt
  | OpDeleteAPIKey id => DeleteAPIKey id
  | OpRegister proxy id ip src trg => _ ← RegisterAddressActivity proxy id ip src trg; mret tt
  | OpDisableAddress id a => _ ← DisableAddress id a; mret tt
  | OpDisableAddresses ids src trg => DisableAddresses ids src trg
  | OpUserEvent e => device_OnUserEvent e
  | OpPruneEvents before => _ ← DeleteAddressEventsOlderThan before; mret tt
  end.

Lemma run_device_op_keeps op : keeps_out device_inv (run_device_op op).
Proof.
  destruct op; cbn [run_device_op]; try apply keeps_out_discard.
  - apply keeps_keeps_out, keeps_CreateDeviceWithOptions.
  - apply keeps_keeps_out, keeps_DeleteDevice.
  - apply DisableDevice_keeps.
  - apply keeps_keeps_out, keeps_EnableDevice.
  - apply keeps_keeps_out, keeps_UpdateDevice.
  - apply keeps_keeps_out, keeps_RegenerateAPIKey.
  - apply keeps_keeps_out, keeps_DeleteAPIKey.
  - apply RegisterAddressActivity_keeps.
  - apply keeps_keeps_out, keeps_DisableAddress.
  - apply keeps_keeps_out, keeps_DisableAddresses.
  - apply keeps_keeps_out, keeps_device_OnUserEvent.
  - apply keeps_keeps_out, keeps_exec. intros t d n d' I [= _ <-]. by apply inv_events.
Qed.

(** C10: whatever sequence of device operations runs, with whatever
    arguments and statement failures, the device tables stay sound; in
    particular no disabled device ever has an enabled address, a device
    has each IP once, and no two live devices of an owner share a name. *)
Theorem device_ops_keep_invariant (ops : list (device_op * (world → world))) w :
  Forall (λ oe, ∀ w, w_db (oe.2 w) = w_db w) ops →
  device_inv (w_db w) →
  device_inv (w_db (foldl (λ w oe, (run_device_op oe.1 false (oe.2 w)).2) w ops)).
Proof.
  intros Henv. revert w. induction Henv as [|[op env] ops Hop _ IH]; intros w I; [done|]. cbn. apply IH.
  apply run_device_op_keeps. cbn in Hop. by rewrite Hop.
Qed.

(** ** Deletion *)

Lemma no_faults_same {A} (m : M A) tx w : quiet m → no_faults w → no_faults (m tx w).2.
Proof. intros Hq. apply Hq. Qed.

(** A deleted device has no enabled address and no key. *)
Definition device_gone (d : db) (id : DeviceID) : Prop :=
  active_device d id = None ∧ api_keys d !! id = None ∧
  ∀ i a, addresses d !! i = Some a → Address_DeviceID a = id → Address_IsEnabled a = false.

Lemma for_each_notify_db (l : list Address) ty tx w : w_db (for_each l (λ a, notifyAddress a ty) tx w).2 = w_db w.
Proof.
  revert w. induction l as [|a l IH]; intros w; [done|]. cbn [for_each]. rewrite bind_run. unfold notifyAddress.
  rewrite bind_run, now_run. unfold notifyObservers. rewrite notify_run. rewrite IH. by apply foldl_inert, address_observers_inert.
Qed.

Lemma for_each_notify_Ok (l : list Address) ty tx w : ∃ w', for_each l (λ a, notifyAddress a ty) tx w = (Ok tt, w').
Proof.
  revert w. induction l as [|a l IH]; intros w; [by eexists|]. cbn [for_each]. rewrite bind_run. unfold notifyAddress.
  rewrite bind_run, now_run. unfold notifyObservers. rewrite notify_run. apply IH.
Qed.

Lemma DeleteDevice_row_Ok id tx w w' :
  DeleteDevice_row id tx w = (Ok tt, w') →
  ∃ v, active_device (w_db w) id = Some v ∧ w_db w' = on_devices (<[id := with_deleted (w_now w) v]>) (w_db w).
Proof.
  unfold DeleteDevice_row, update_device. intros (n & w1 & Hx & Hn)%bind_Ok.
  apply exec_Ok in Hx as (d' & Hx & E & _). destruct (active_device (w_db w) id) as [v|]; injection Hx as <- <-; [|done].
  injection Hn as <-. eauto.
Qed.

Lemma DeleteAPIKey_row_ignored id tx w w' :
  catch (DeleteAPIKey_row id) (λ e, if decide (e = ErrNoAPIKey) then mret tt else throw e) tx w = (Ok tt, w') →
  w_db w' = on_api_keys (delete id) (w_db w).
Proof.
  assert (∀ d, api_keys d !! id = None → d = on_api_keys (delete id) d) as Hid.
  { intros d Hd. destruct d. unfold on_api_keys. cbn in *. by rewrite delete_id. }
  unfold DeleteAPIKey_row. rewrite catch_run, bind_run. unfold exec. destruct (pop_fault w) as [[b|] w0] eqn:Ef; [by case_decide|].
  apply pop_fault_db in Ef as (Ef & _). destruct (api_keys (w_db w0) !! id) eqn:Ek; cbn -[on_api_keys].
  - intros [= <-]. cbn -[on_api_keys]. by rewrite Ef.
  - rewrite decide_True by done. intros [= <-]. cbn -[on_api_keys]. rewrite <-Ef. by apply Hid.
Qed.

(** Deleting a device is all or nothing: on success the device is no
    longer found, its API key is gone and every one of its addresses is
    disabled, so that it contributes nothing to the policy; on any error,
    a failed statement or commit included, the database is unchanged. *)
Theorem DeleteDevice_atomic id w r w' :
  device_inv (w_db w) → DeleteDevice id false w = (r, w') →
  match r with Ok _ => device_gone (w_db w') id | Err _ => w_db w' = w_db w end.
Proof.
  intros I. unfold DeleteDevice. rewrite bind_run. destruct (withinTx _ false w) as [[l|e] w1] eqn:Etx.
  2:{ intros [= <- <-]. by eapply withinTx_rollback. }
  destruct (for_each_notify_Ok l EventTypeAddressDisabled false w1) as [w2 En].
  pose proof (for_each_notify_db l EventTypeAddressDisabled false w1) as Edb. rewrite En in Edb |- *. cbn in Edb.
  intros [= <- <-]. rewrite Edb. apply withinTx_Ok in Etx as (w0 & w3 & E0 & _ & _ & Hr & ->). rewrite <-E0 in I.
  apply bind_Ok in Hr as ([] & wa & Hdel & Hr). apply bind_Ok in Hr as (la & wb & Hlist & Hr).
  apply bind_Ok in Hr as (lb & wc & Hdis & Hr). apply bind_Ok in Hr as ([] & wd & Hkey & Hr). injection Hr as _ <-.
  pose proof Hdel as Hdel0. apply DeleteDevice_row_Ok in Hdel as (v & Hv & Ea).
  unfold GetEnabledAddressesForDevice in Hlist. apply query_Ok in Hlist as (Eb & _ & _ & ->).
  apply DisableAddresses_rows_Ok in Hdis as ((f & g & Ec) & _ & Hl & _). apply DeleteAPIKey_row_ignored in Hkey as ->.
  assert (device_inv (w_db wb)) as Ib.
  { rewrite Eb. replace wa with (DeleteDevice_row id true w0).2 by (by rewrite Hdel0). by apply keeps_DeleteDevice_row. }
  rewrite <-Eb in Hl. pose proof (disable_all_Ok _ _ _ _ _ Ib Hl) as Hoff.
  split; [|split; [apply lookup_delete_eq|exact Hoff]].
  unfold active_device. rewrite Ec, Eb, Ea. cbn. by rewrite lookup_insert_eq.
Qed.
End device_spec.

(** ** The theorems at a concrete database

    A user, her laptop with one enabled address, and no observers. *)
Module Demo.
#[local] Instance no_address_observers : AddressObservers := { address_observers_inert := List.Forall_nil _ }.
#[local] Instance no_device_observers : DeviceObservers := { device_observers_inert := List.Forall_nil _ }.

Definition admin : User := mkUser 1 "admin" "Admin" None None AdminRole false None 0 None.
Definition start : world := world_of (on_users (<[1 := admin]>) empty_db) (100 * Second) ["random-block"].

Definition op_laptop : device_op := OpCreateDevice 1 (mkCreateDeviceInput "laptop" None None None true).
Definition op_report : device_op := OpRegister AddrZero 1 "198.51.100.7" EventSourceHeartbeat EventTriggerUser.
Definition ready : world := (run_device_op op_report false (run_device_op op_laptop false start).2).2.

Lemma start_inv : device_inv (w_db start).
Proof. constructor; cbn; try (intros *; rewrite lookup_empty; done). all: intros *; rewrite lookup_empty; done. Qed.

Lemma ready_inv : device_inv (w_db ready).
Proof. do 2 apply run_device_op_keeps. exact start_inv. Qed.
End Demo.

(** A second report of the same address refreshes it. *)
Example RegisterAddressActivity_spec_witness :
  let '(r, w') := @RegisterAddressActivity Demo.no_address_observers AddrZero 1 "198.51.100.7" EventSourceHeartbeat EventTriggerUser false Demo.ready in
  r = Ok (mkAddress 1 1 "198.51.100.7" true EventSourceHeartbeat (100 * Second) (100 * Second), EventTypeAddressRefreshed).
Proof.
  rewrite (RegisterAddressActivity_spec (H := Demo.no_address_observers)); [|vm_compute; reflexivity|exact Demo.ready_inv].
  vm_compute. reflexivity.
Defined.

Example device_ops_keep_invariant_witness :
  device_inv (w_db (foldl (λ w oe, (@run_device_op Demo.no_address_observers Demo.no_device_observers oe.1 false (oe.2 w)).2)
    Demo.start [(Demo.op_laptop, id); (Demo.op_report, set_now (200 * Second)); (OpDisableDevice 1, set_faults [None; Some true])])).
Proof.
  apply (device_ops_keep_invariant (H := Demo.no_address_observers) (H0 := Demo.no_device_observers)); [|exact Demo.start_inv].
  repeat constructor.
Defined.

Example DeleteDevice_atomic_witness :
  device_gone (w_db (@DeleteDevice Demo.no_address_observers 1 false Demo.ready).2) 1.
Proof.
  pose proof (DeleteDevice_atomic (H := Demo.no_address_observers) 1 Demo.ready _ _ Demo.ready_inv (surjective_pairing _)) as H.
  vm_compute in H |- *. exact H.
Defined.
