(* ===== verification/DeviceHttp.v ===== *)
(** * DeviceHttp: the device endpoints ([internal/device], handlers and lists)

    The handlers of handler.go, with the answers a request gets for every
    error of the service, and the read views behind the device pages
    (address_view.go, device_refs_view.go, fleet_view.go). *)

From S2P Require Import Prelude GoLib Netip Compare Schema Store Http Geoip Device DeviceInv.

Local Open Scope string_scope.
Local Open Scope Z_scope.
Local Open Scope list_scope.

(** ** Answers (handler.go, handler_addresses.go) *)

(** [httpapi.Device]. *)
Record DeviceResponse := mkDeviceResponse {
  dr_Id : Z; dr_Name : string; dr_Description : option string; dr_Icon : option string; dr_CreatedAt : time; dr_UpdatedAt : time;
  dr_DisabledAt : option time; dr_ApiKeyPrefix : option string; dr_OwnerId : Z }.

Definition toDeviceResponse (d : Device) : DeviceResponse :=
  mkDeviceResponse (Device_ID d) (Device_Name d) (Device_Description d) (Device_Icon d) (Device_CreatedAt d) (Device_UpdatedAt d)
    (Device_DisabledAt d) (Device_KeyPrefix d) (Device_OwnerID d).

(** [httpapi.Address]: the expiry and the geolocation only in the list. *)
Record AddressResponse := mkAddressResponse {
  ar_Id : Z; ar_DeviceId : Z; ar_Ip : string; ar_IsEnabled : bool; ar_Source : EventSource; ar_CreatedAt : time; ar_UpdatedAt : time;
  ar_ExpiresAt : option time; ar_Geo : option GeoInfo }.

Definition toAddressResponse (a : Address) : AddressResponse :=
  mkAddressResponse (Address_ID a) (Address_DeviceID a) (Address_IP a) (Address_IsEnabled a) (Address_Source a) (Address_CreatedAt a)
    (Address_UpdatedAt a) None None.

(** [httpapi.CreateDeviceResult]: the device, and its key when one was made. *)
Record CreateDeviceResult := mkCreateDeviceResult { result_Device : DeviceResponse; result_ApiKey : option string }.

(** A field of a request body that can be absent or null. *)
Record nullable (A : Type) := mkNullable { IsSet : bool; Value : option A }.
Arguments mkNullable {A} IsSet Value.
Arguments IsSet {A} n.
Arguments Value {A} n.

Record CreateDeviceBody := mkCreateDeviceBody {
  cb_Name : string; cb_OwnerId : option Z; cb_Description : nullable string; cb_Icon : nullable string; cb_GenerateApiKey : option bool }.

Record UpdateDeviceBody := mkUpdateDeviceBody {
  ub_Name : option string; ub_Description : nullable string; ub_Icon : nullable string; ub_OwnerId : option Z }.

Section handlers.
Context `{AddressObservers} `{DeviceObservers}.

Definition create_input (b : CreateDeviceBody) : CreateDeviceInput :=
  mkCreateDeviceInput (cb_Name b) (cb_OwnerId b) (if IsSet (cb_Description b) then Value (cb_Description b) else None)
    (if IsSet (cb_Icon b) then Value (cb_Icon b) else None) (default false (cb_GenerateApiKey b)).

Definition handler_CreateDevice (principal : option UserID) (b : CreateDeviceBody) : M (Response CreateDeviceResult) :=
  match principal with
  | None => mret (mkResponse 500 None)
  | Some p =>
      respond (CreateDeviceWithOptions p (create_input b))
        (λ dk, mkResponse 201 (Some (mkCreateDeviceResult (toDeviceResponse dk.1) (if bool_decide (dk.2 = "") then None else Some dk.2))))
        (λ e, match e with ErrDuplicateDeviceName => 409 | ErrOwnerNotFound => 400 | _ => 500 end)
  end.

(** 404 for a device that does not exist, 500 for everything else. *)
Definition device_status (e : error) : Z := match e with ErrDeviceNotFound => 404 | _ => 500 end.

Definition handler_DeleteDevice (id : DeviceID) : M (Response unit) := respond (DeleteDevice id) (λ _, mkResponse 204 None) device_status.

Definition handler_DisableDevice (id : DeviceID) : M (Response DeviceResponse) :=
  respond (DisableDevice id) (λ d, mkResponse 200 (Some (toDeviceResponse d))) device_status.

Definition handler_EnableDevice (id : DeviceID) : M (Response DeviceResponse) :=
  respond (EnableDevice id) (λ d, mkResponse 200 (Some (toDeviceResponse d))) device_status.

Definition handler_RegenerateDeviceAPIKey (id : DeviceID) : M (Response (DeviceResponse * string)) :=
  respond (RegenerateAPIKey id) (λ dk, mkResponse 200 (Some (toDeviceResponse dk.1, dk.2))) device_status.

Definition handler_DeleteDeviceAPIKey (id : DeviceID) : M (Response unit) :=
  respond (DeleteAPIKey id) (λ _, mkResponse 204 None) (λ e, match e with ErrDeviceNotFound | ErrNoAPIKey => 404 | _ => 500 end).

(** The answer to a reported address, the same for the three endpoints that
    report one. *)
Definition report_status (e : error) : Z :=
  match e with
  | ErrInvalidIPFormat | ErrInvalidDeviceIP | ErrTrustedProxyIPRejected => 400
  | ErrDeviceDisabled => 409
  | ErrDeviceNotFound => 404
  | _ => 500
  end.

Definition report_ok (at_ : Address * AddressEventType) : Response AddressResponse :=
  mkResponse (match at_.2 with EventTypeAddressCreated => 201 | _ => 200 end) (Some (toAddressResponse at_.1)).

Definition handler_AddAddress (trustedProxy : Addr) (id : DeviceID) (ip : string) : M (Response AddressResponse) :=
  respond (RegisterAddressActivity trustedProxy id ip EventSourceWebUI EventTriggerUser) report_ok report_status.

Definition handler_DeviceHeartbeat (trustedProxy : Addr) (clientIP : option string) (id : DeviceID) : M (Response AddressResponse) :=
  match clientIP with
  | None => mret (mkResponse 500 None)
  | Some ip => respond (RegisterAddressActivity trustedProxy id ip EventSourceWebUI EventTriggerUser) report_ok report_status
  end.

(** A trigger that cannot be used is recorded as the schedule's. *)
Definition heartbeat_trigger (raw : option string) : EventTrigger :=
  match raw with Some v => (ParseEventTrigger v).1 | None => EventTriggerSchedule end.

Definition handler_DeviceHeartbeatByAPIKey (trustedProxy : Addr) (principal : option DeviceID) (clientIP : option string) (raw : option string) :
    M (Response AddressResponse) :=
  match principal, clientIP with
  | Some id, Some ip => respond (RegisterAddressActivity trustedProxy id ip EventSourceHeartbeat (heartbeat_trigger raw)) report_ok report_status
  | _, _ => mret (mkResponse 500 None)
  end.

Definition handler_DisableAddress (id : DeviceID) (addressID : AddressID) : M (Response AddressResponse) :=
  respond (DisableAddress id addressID) (λ a, mkResponse 200 (Some (toAddressResponse a)))
    (λ e, match e with ErrDeviceNotFound | ErrAddressNotFound | ErrAddressNotOwnedByDevice => 404 | _ => 500 end).

Definition update_input (b : UpdateDeviceBody) : UpdateDeviceInput :=
  mkUpdateDeviceInput (ub_Name b) (if IsSet (ub_Description b) then Some (Value (ub_Description b)) else None)
    (if IsSet (ub_Icon b) then Some (Value (ub_Icon b)) else None) (ub_OwnerId b).

Definition handler_UpdateDevice (id : DeviceID) (b : UpdateDeviceBody) : M (Response DeviceResponse) :=
  respond (UpdateDevice id (update_input b)) (λ d, mkResponse 200 (Some (toDeviceResponse d)))
    (λ e, match e with
          | ErrDeviceNotFound => 404
          | ErrDuplicateDeviceName => 409
          | ErrInvalidDeviceName | ErrDescriptionTooLong | ErrIconTooLong | ErrOwnerNotFound => 400
          | ErrAdminCredentialsRequired => 403
          | _ => 500
          end).
End handlers.

(** ** Lists *)

(** [AddressView]: an address with the expiry of its lease. *)
Definition address_views (d : db) (deviceID : DeviceID) : list (Address * option time) :=
  (λ a, (a, leases d !! Address_ID a ≫= AddressLease_ExpiresAt)) <$>
    order_desc Address_UpdatedAt (filter (λ a, Address_DeviceID a = deviceID) (rows (addresses d))).

Definition GetDeviceAddresses (deviceID : DeviceID) : M (list (Address * option time)) :=
  _ ← map_err (no_rows ErrDeviceNotFound) (get_row (λ _ d, active_device d deviceID));
  query (λ _ d, address_views d deviceID).

Definition toAddressViewResponse (geo : option (string → GeoResult)) (v : Address * option time) : AddressResponse :=
  let a := v.1 in
  mkAddressResponse (Address_ID a) (Address_DeviceID a) (Address_IP a) (Address_IsEnabled a) (Address_Source a) (Address_CreatedAt a)
    (Address_UpdatedAt a) v.2 (geo ≫= λ resolve, GeoInfoFromResult (resolve (Address_IP a))).

Definition handler_GetDeviceAddresses (geo : option (string → GeoResult)) (deviceID : DeviceID) : M (Response (list AddressResponse)) :=
  respond (GetDeviceAddresses deviceID) (λ l, mkResponse 200 (Some (toAddressViewResponse geo <$> l))) device_status.

Record DeviceRef := mkDeviceRef { ref_Id : DeviceID; ref_Name : string; ref_OwnerId : UserID }.

(** The devices that are not deleted, by name. *)
Definition devices_by_name (d : db) : list Device := order_by Device_Name String.compare (filter (λ v, Device_DeletedAt v = None) (rows (devices d))).

Definition GetDeviceRefs : M (list DeviceRef) :=
  query (λ _ d, (λ v, mkDeviceRef (Device_ID v) (Device_Name v) (Device_OwnerID v)) <$> devices_by_name d).

Definition handler_ListDeviceRefs : M (Response (list DeviceRef)) := respond GetDeviceRefs (λ l, mkResponse 200 (Some l)) (λ _, 500).

(** ** The fleet (fleet_view.go) *)

Inductive DeviceState := DeviceStateDisabled | DeviceStateHealthy | DeviceStateStale.

Definition deviceListState (liveAddressCount : Z) (disabled : bool) : DeviceState :=
  if disabled then DeviceStateDisabled else if 0 <? liveAddressCount then DeviceStateHealthy else DeviceStateStale.

(** [httpapi.FleetDevice], before rules and pairing are attached. *)
Record FleetDevice := mkFleetDevice {
  fleet_Id : DeviceID; fleet_Name : string; fleet_Icon : option string; fleet_Description : option string; fleet_ApiKeyPrefix : option string;
  fleet_CreatedAt : time; fleet_LiveAddressCount : Z; fleet_State : DeviceState; fleet_LastSeenAt : option time }.

Record FleetRow := mkFleetRow { FleetRow_OwnerID : UserID; FleetRow_Device : FleetDevice }.

Definition addresses_of (d : db) (id : DeviceID) : list Address := filter (λ a, Address_DeviceID a = id) (rows (addresses d)).

(** [MAX] of a column: NULL without rows. *)
Definition latest (l : list time) : option time := foldr (λ t acc, Some (match acc with Some m => Z.max t m | None => t end)) None l.

Definition fleet_device (d : db) (v : Device) : FleetDevice :=
  let l := addresses_of d (Device_ID v) in
  let live := Z.of_nat (length (filter (λ a, Address_IsEnabled a = true) l)) in
  mkFleetDevice (Device_ID v) (Device_Name v) (Device_Icon v) (Device_Description v) (ApiKey_KeyPrefix <$> api_keys d !! Device_ID v)
    (Device_CreatedAt v) live (deviceListState live (bool_decide (is_Some (Device_DisabledAt v)))) (latest (Address_UpdatedAt <$> l)).

Definition FleetRows (ownerID : option UserID) : M (list FleetRow) :=
  query (λ _ d, (λ v, mkFleetRow (Device_OwnerID v) (fleet_device d v)) <$>
    filter (λ v, ownerID = None ∨ ownerID = Some (Device_OwnerID v)) (devices_by_name d)).

(** ** Lemmas *)

(** The trigger of a heartbeat is one a client may use. *)
Lemma heartbeat_trigger_client raw : heartbeat_trigger raw ≠ EventTriggerSystem.
Proof. unfold heartbeat_trigger, ParseEventTrigger, EventTrigger_of_string. destruct raw as [v|]; [|done]. by repeat case_bool_decide. Qed.

(** A device the fleet calls healthy has an enabled address. *)
Lemma fleet_healthy d v : fleet_State (fleet_device d v) = DeviceStateHealthy ↔
  Device_DisabledAt v = None ∧ ∃ i a, addresses d !! i = Some a ∧ Address_DeviceID a = Device_ID v ∧ Address_IsEnabled a = true.
Proof.
  unfold fleet_device, deviceListState, addresses_of. cbn [fleet_State].
  set (l := filter (λ a, Address_IsEnabled a = true) (filter (λ a, Address_DeviceID a = Device_ID v) (rows (addresses d)))).
  assert ((∃ i a, addresses d !! i = Some a ∧ Address_DeviceID a = Device_ID v ∧ Address_IsEnabled a = true) ↔ l ≠ []) as ->.
  { split.
    - intros (i & a & Ha & Hd & He) E. assert (a ∈ l) as Hin; [|rewrite E in Hin; by apply elem_of_nil in Hin].
      apply list_elem_of_filter. split; [done|]. apply elem_of_filter_rows. eauto.
    - intros Hne. destruct l as [|a l'] eqn:E; [done|]. assert (a ∈ l) as Hin by (rewrite E; by left).
      apply list_elem_of_filter in Hin as [He (Hd & i & Ha)%elem_of_filter_rows]. eauto. }
  destruct (Device_DisabledAt v); [rewrite bool_decide_eq_true_2 by eauto; split; [done|by intros []]|].
  rewrite bool_decide_eq_false_2 by (by intros []). destruct l as [|a l']; cbn; [split; [done|by intros []]|]. done.
Qed.
