(* ===== verification/AddressHistory.v ===== *)
(** * AddressHistory: the history of addresses ([internal/device])

    Every report, change and expiry of an address leaves an event.  The
    views classify each event against its predecessors and against the
    lease rule of its device (address_history_view.go), list and count them
    (handler_address_history.go), and rank the devices whose leases are too
    short (address_history_tuning_view.go). *)

From Stdlib Require Import QArith Qcanon.
From S2P Require Import Prelude GoLib Compare GroupBy Schema Store Http Geoip Timebucket Filterx Device.

Local Open Scope string_scope.
Local Open Scope Z_scope.
Local Open Scope list_scope.

(** SQLite's [CAST((julianday(a) - julianday(b)) * 86400 AS INTEGER)], a
    floating-point subtraction of days: the seconds between two times, give
    or take one. *)
Class JulianDay := {
  julian_gap : time → time → Z;
  julian_gap_near a b : b ≤ a → Z.abs (julian_gap a b - (a - b) / Second) ≤ 1;
}.

(** ** Kinds and risks (address_history_enum_map.go) *)

Inductive AddressEventKind := AddressEventKindCreated | AddressEventKindEnabled | AddressEventKindDisabled | AddressEventKindRefresh.
Inductive TTLRisk := TTLRiskUnknown | TTLRiskOK | TTLRiskApproaching | TTLRiskCritical | TTLRiskBreached.

#[export] Instance AddressEventKind_eq_dec : EqDecision AddressEventKind.
Proof. solve_decision. Defined.
#[export] Instance TTLRisk_eq_dec : EqDecision TTLRisk.
Proof. solve_decision. Defined.

Definition AddressEventKindToAPI (k : AddressEventKind) : string :=
  match k with
  | AddressEventKindCreated => "created" | AddressEventKindEnabled => "enabled"
  | AddressEventKindDisabled => "disabled" | AddressEventKindRefresh => "refresh"
  end.

Definition TTLRiskToAPI (r : TTLRisk) : string :=
  match r with
  | TTLRiskUnknown => "unknown" | TTLRiskOK => "ok" | TTLRiskApproaching => "approaching"
  | TTLRiskCritical => "critical" | TTLRiskBreached => "breached"
  end.

Definition source_text (s : EventSource) : string :=
  match s with
  | EventSourceHeartbeat => "heartbeat" | EventSourceWebUI => "web_ui"
  | EventSourceExpiry => "expiry" | EventSourceLimitExceeded => "limit_exceeded"
  end.

Definition trigger_text (t : EventTrigger) : string :=
  match t with
  | EventTriggerUser => "user" | EventTriggerSchedule => "schedule"
  | EventTriggerNetworkChange => "network_change" | EventTriggerSystem => "system"
  end.

(** ** The classification of events *)

(** A row of the enriched table. *)
Record history_row := mkHistoryRow {
  hr_ID : Z; hr_AddressID : AddressID; hr_CreatedAt : time; hr_IP : string; hr_IsEnabled : bool; hr_Source : EventSource;
  hr_Trigger : EventTrigger; hr_DeviceID : DeviceID; hr_DeviceName : string; hr_OwnerID : UserID; hr_TTL : option Z;
  hr_Gap : option Z; hr_Kind : AddressEventKind; hr_Risk : TTLRisk }.

(** Does the event renew a lease?  An expiry or an eviction ends one. *)
Definition renewal (s : EventSource) : bool :=
  match s with EventSourceExpiry | EventSourceLimitExceeded => false | _ => true end.

(** [eventKindCase]: against the event of the same address before it. *)
Definition eventKindCase (l : list (Z * AddressEventRow)) (e : Z * AddressEventRow) : AddressEventKind :=
  match last (filter (λ p, aer_AddressID p.2 = aer_AddressID e.2 ∧ p.1 < e.1) l) with
  | None => AddressEventKindCreated
  | Some p =>
      if bool_decide (aer_IsEnabled e.2 = aer_IsEnabled p.2) then AddressEventKindRefresh
      else if aer_IsEnabled e.2 then AddressEventKindEnabled else AddressEventKindDisabled
  end.

(** [CAST(gap AS REAL) / ttl], exactly; NULL for a TTL of zero. *)
Definition ratio (gap ttl : Z) : option Qc := if ttl =? 0 then None else Some (Q2Qc (inject_Z gap / inject_Z ttl)).

Definition ttlRiskBreachedRatio : Q := 1.
Definition ttlRiskCriticalRatio : Q := 9 # 10.
Definition ttlRiskApproachingRatio : Q := 7 # 10.

(** [ttlRiskCase]: a comparison with NULL does not hold. *)
Definition ttlRiskCase (ttl gap : option Z) : TTLRisk :=
  match ttl, gap with
  | Some ttl, Some gap =>
      match ratio gap ttl with
      | None => TTLRiskOK
      | Some r =>
          if Qle_bool ttlRiskBreachedRatio r then TTLRiskBreached
          else if negb (Qle_bool r ttlRiskCriticalRatio) then TTLRiskCritical
          else if negb (Qle_bool r ttlRiskApproachingRatio) then TTLRiskApproaching
          else TTLRiskOK
      end
  | _, _ => TTLRiskUnknown
  end.

(** [json_extract(config, '$.ttl_seconds')]; the service writes integers. *)
Definition json_ttl (config : option json) : option Z :=
  match config with
  | Some (JObj fields) => match snd <$> find (λ kv : string * json, bool_decide (kv.1 = "ttl_seconds")) fields with Some (JNum n) => Some n | _ => None end
  | _ => None
  end.

(** The TTL of a device: its enabled lease rule's. *)
Definition device_ttl (d : db) (id : DeviceID) : option Z :=
  r ← rules d !! (id, RuleTypeDeviceAddressLease); if Rule_Enabled r then json_ttl (Rule_Config r) else None.

Section history.
Context `{JulianDay}.

(** The order of the window function: [created_at, id]. *)
Definition event_key (e : Z * AddressEventRow) : time * Z := (aer_CreatedAt e.2, e.1).
Definition cmp_event : time * Z → time * Z → comparison := cmp_pair Z.compare Z.compare.

Definition event_device (d : db) (e : Z * AddressEventRow) : option DeviceID := Address_DeviceID <$> addresses d !! aer_AddressID e.2.

(** [renewalGapCTE]: when the device renewed last, before a renewal. *)
Definition prev_renewal (d : db) (e : Z * AddressEventRow) : option time :=
  if renewal (aer_Source e.2) then
    aer_CreatedAt ∘ snd <$>
      last (order_by event_key cmp_event
        (filter (λ p, renewal (aer_Source p.2) = true ∧ event_device d p = event_device d e ∧ cmp_event (event_key p) (event_key e) = Lt)
           (scan (address_events d))))
  else None.

Definition enrich (d : db) (e : Z * AddressEventRow) : option history_row :=
  a ← addresses d !! aer_AddressID e.2;
  v ← active_device d (Address_DeviceID a);
  let ttl := device_ttl d (Address_DeviceID a) in
  let gap := julian_gap (aer_CreatedAt e.2) <$> prev_renewal d e in
  Some (mkHistoryRow e.1 (aer_AddressID e.2) (aer_CreatedAt e.2) (Address_IP a) (aer_IsEnabled e.2) (aer_Source e.2) (aer_Trigger e.2)
          (Address_DeviceID a) (Device_Name v) (Device_OwnerID v) ttl gap (eventKindCase (scan (address_events d)) e) (ttlRiskCase ttl gap)).

Definition addressHistoryEnriched (d : db) : list history_row := omap (enrich d) (scan (address_events d)).
End history.

(** ** The query *)

Definition defaultHistoryLimit : Z := 50.
Definition maxHistoryLimit : Z := 200.
Definition defaultHistoryRange : Z := 24 * Hour.

Definition in_ops : list Operator := [OpIn; OpNotIn].

Definition addressHistoryColumns : list (string * ColumnSpec) := [
    ("device_id", mkColumnSpec "e.device_id" false None in_ops);
    ("user_id", mkColumnSpec "e.owner_id" false None in_ops);
    ("ip", mkColumnSpec "e.ip" false None (in_ops ++ [OpContains; OpNotContains]));
    ("source", mkColumnSpec "e.source" false None in_ops);
    ("trigger_type", mkColumnSpec "e.trigger_type" false None in_ops);
    ("event_kind", mkColumnSpec "e.event_kind" false None in_ops);
    ("ttl_risk", mkColumnSpec "e.ttl_risk" false None in_ops)].

Definition addressHistoryRegistry : Registry := mkRegistry (list_to_map addressHistoryColumns) ∅ "e.id".

(** The SQL expressions of the enriched table. *)
Definition history_columns : list (string * (history_row → value)) := [
  ("e.id", λ r, VInt (hr_ID r));
  ("e.created_at", λ r, VTime (hr_CreatedAt r));
  ("e.device_id", λ r, VInt (hr_DeviceID r));
  ("e.owner_id", λ r, VInt (hr_OwnerID r));
  ("e.ip", λ r, VString (hr_IP r));
  ("e.source", λ r, VString (source_text (hr_Source r)));
  ("e.trigger_type", λ r, VString (trigger_text (hr_Trigger r)));
  ("e.event_kind", λ r, VString (AddressEventKindToAPI (hr_Kind r)));
  ("e.ttl_risk", λ r, VString (TTLRiskToAPI (hr_Risk r)))].

Definition history_col (e : string) (r : history_row) : value := match assoc e history_columns with Some f => f r | None => VNull end.

(** No relational columns. *)
Definition history_holds (c : Sqlizer) (r : history_row) : bool := holds history_col (λ _ _, @nil unit) (λ _ _, VNull) c r.

Record AddressHistoryQuery := mkAddressHistoryQuery {
  history_From : time; history_To : time; history_Filters : list Filter; history_BeforeID : option Z; history_Limit : Z }.

(** [addressHistoryFilterParams]: the parameters of both endpoints. *)
Record addressHistoryFilterParams := mkHistoryParams {
  hp_From : option time; hp_To : option time;
  hp_DeviceID : option (list Z) * option string; hp_UserID : option (list Z) * option string; hp_IP : option (list string) * option string;
  hp_Source : option (list string) * option string; hp_TriggerType : option (list string) * option string;
  hp_EventKind : option (list string) * option string; hp_TTLRisk : option (list string) * option string }.

Definition history_filters (p : addressHistoryFilterParams) : list (string * list value * option string) := [
  ("device_id", Int64Values (hp_DeviceID p).1, (hp_DeviceID p).2);
  ("user_id", Int64Values (hp_UserID p).1, (hp_UserID p).2);
  ("ip", StringValues (hp_IP p).1, (hp_IP p).2);
  ("source", StringValues (hp_Source p).1, (hp_Source p).2);
  ("trigger_type", StringValues (hp_TriggerType p).1, (hp_TriggerType p).2);
  ("event_kind", StringValues (hp_EventKind p).1, (hp_EventKind p).2);
  ("ttl_risk", StringValues (hp_TTLRisk p).1, (hp_TTLRisk p).2)].

Definition newAddressHistoryQuery (now : time) (p : addressHistoryFilterParams) : result AddressHistoryQuery :=
  match parse_filters addressHistoryRegistry (history_filters p) with
  | Err e => Err e
  | Ok fs => Ok (mkAddressHistoryQuery (default (now - defaultHistoryRange) (hp_From p)) (default now (hp_To p)) fs None 0)
  end.

Record GetAddressHistoryParams := mkGetAddressHistoryParams {
  ghp_Filter : addressHistoryFilterParams; ghp_Limit : option Z; ghp_BeforeId : option Z }.

Definition history_limit (limit : option Z) : Z :=
  let limit := default defaultHistoryLimit limit in
  let limit := if limit <=? 0 then defaultHistoryLimit else limit in
  if maxHistoryLimit <? limit then maxHistoryLimit else limit.

Definition NewAddressHistoryQuery (now : time) (params : GetAddressHistoryParams) : result AddressHistoryQuery :=
  match newAddressHistoryQuery now (ghp_Filter params) with
  | Err e => Err e
  | Ok q => Ok (mkAddressHistoryQuery (history_From q) (history_To q) (history_Filters q) (ghp_BeforeId params) (history_limit (ghp_Limit params)))
  end.

Definition NewAddressHistoryHistogramQuery (now : time) (p : addressHistoryFilterParams) : result AddressHistoryQuery := newAddressHistoryQuery now p.

Definition addressHistoryConditions (q : AddressHistoryQuery) : result (list Sqlizer) :=
  match map_result (Condition addressHistoryRegistry) (history_Filters q) with
  | Err e => Err e
  | Ok cs => Ok ([SqGtOrEq "e.created_at" (VTime (history_From q)); SqLtOrEq "e.created_at" (VTime (history_To q))] ++ cs)
  end.

Section views.
Context `{JulianDay}.

(** [addressHistoryBase]: the rows the conditions select. *)
Definition addressHistoryBase (cond : list Sqlizer) (d : db) : list history_row :=
  filter (λ r, history_holds (SqAnd cond) r = true) (addressHistoryEnriched d).

(** ** The page *)

Definition before_id (before : option Z) (r : history_row) : bool := match before with Some id => hr_ID r <? id | None => true end.

Definition history_page (cond : list Sqlizer) (before : option Z) (limit : Z) (d : db) : list history_row :=
  take (Z.to_nat limit) (order_by hr_ID (cmp_rev Z.compare) (filter (λ r, before_id before r = true) (addressHistoryBase cond d))).

Record AddressHistoryEvents := mkAddressHistoryEvents { history_Events : list history_row; history_Total : Z }.

Definition GetAddressHistoryEvents (q : AddressHistoryQuery) : M AddressHistoryEvents :=
  cond ← of_result (addressHistoryConditions q);
  total ← query (λ _ d, Z.of_nat (length (addressHistoryBase cond d)));
  events ← query (λ _ d, history_page cond (history_BeforeID q) (history_Limit q) d);
  mret (mkAddressHistoryEvents events total).

(** ** The histogram *)

(** [ttlRiskOrder] and the rank of a risk in it. *)
Definition ttlRiskOrder : list TTLRisk := [TTLRiskUnknown; TTLRiskOK; TTLRiskApproaching; TTLRiskCritical; TTLRiskBreached].

Definition ttlRiskRank (r : TTLRisk) : Z := match list_find (λ x, x = r) ttlRiskOrder with Some (i, _) => Z.of_nat i | None => -1 end.

Definition ttlRiskOKRank : Z := ttlRiskRank TTLRiskOK.

Record addressHistoryRiskBucketRow := mkRiskBucketRow { risk_Timestamp : time; risk_Rank : Z; risk_DeviceCount : Z }.

(** The worst rank of each device in each bucket. *)
Definition per_device_bucket (g : Granularity) (l : list history_row) : list (time * DeviceID * Z) :=
  let key r := (BucketExpr g (hr_CreatedAt r), hr_DeviceID r) in
  (λ k, (k, zmax ((λ r, ttlRiskRank (hr_Risk r)) <$> group key k l))) <$> group_keys key (cmp_pair Z.compare Z.compare) l.

(** [riskDeviceBuckets]: how many devices have each rank as their worst. *)
Definition risk_buckets (g : Granularity) (l : list history_row) : list addressHistoryRiskBucketRow :=
  let rows := filter (λ x, ttlRiskOKRank ≤ x.2) (per_device_bucket g l) in
  let key (x : time * DeviceID * Z) := (x.1.1, x.2) in
  (λ k, mkRiskBucketRow k.1 k.2 (Z.of_nat (length (group key k rows)))) <$> group_keys key (cmp_pair Z.compare Z.compare) rows.

Definition riskDeviceBuckets (q : AddressHistoryQuery) (g : Granularity) : M (list addressHistoryRiskBucketRow) :=
  cond ← of_result (addressHistoryConditions q);
  query (λ _ d, risk_buckets g (addressHistoryBase cond d)).

(** [httpapi.AddressHistoryBucket]. *)
Record AddressHistoryBucket := mkHistoryBucket {
  bucket_Timestamp : time; bucket_Ok : Z; bucket_Approaching : Z; bucket_Critical : Z; bucket_Breached : Z }.

(** The bands by bucket, a band by its rank: the map [foldRiskBuckets]
    fills. *)
Definition bands (rows : list addressHistoryRiskBucketRow) : gmap Z (gmap Z Z) :=
  foldl (λ m rb, let key := risk_Timestamp rb / Second in
                 <[key := <[risk_Rank rb := risk_DeviceCount rb]> (default ∅ (m !! key))]> m) ∅ rows.

Definition foldRiskBuckets (sequence : list time) (rows : list addressHistoryRiskBucketRow) : list AddressHistoryBucket :=
  (λ ts, let b r := default 0 (default ∅ (bands rows !! (ts / Second)) !! ttlRiskRank r) in
         mkHistoryBucket ts (b TTLRiskOK) (b TTLRiskApproaching) (b TTLRiskCritical) (b TTLRiskBreached)) <$> sequence.

Definition GetAddressHistoryHistogram (q : AddressHistoryQuery) : M (list AddressHistoryBucket) :=
  let g := GranularityForWindow (history_To q - history_From q) in
  rows ← riskDeviceBuckets q g;
  mret (foldRiskBuckets (default [] (Sequence (S (bucket_count g (history_From q) (history_To q))) g (history_From q) (history_To q))) rows).

(** ** Tuning (address_history_tuning_view.go) *)

Definition addressHistoryTuningLimit : nat := 5.
Definition tuningMinRenewals : Z := 10.

Record AddressHistoryTuningQuery := mkTuningQuery { tuning_From : time; tuning_To : time; tuning_DeviceID : option DeviceID }.

Definition NewAddressHistoryTuningQuery (now : time) (from to : option time) (deviceID : option DeviceID) : AddressHistoryTuningQuery :=
  mkTuningQuery (default (now - defaultHistoryRange) from) (default now to) deviceID.

Record tuningCandidateRow := mkTuningRow {
  tuning_Device : DeviceID; tuning_DeviceName : string; tuning_TTLSeconds : Z; tuning_RenewalCount : Z; tuning_LateRenewalCount : Z;
  tuning_P95GapSeconds : Z }.

(** The renewals of the window that could be measured. *)
Definition tuning_renewals (q : AddressHistoryTuningQuery) (d : db) : list history_row :=
  filter (λ r, tuning_From q ≤ hr_CreatedAt r ∧ hr_CreatedAt r ≤ tuning_To q ∧ hr_Risk r ≠ TTLRiskUnknown ∧
               (tuning_DeviceID q = None ∨ tuning_DeviceID q = Some (hr_DeviceID r))) (addressHistoryEnriched d).

Definition gap_of (r : history_row) : Z := default 0 (hr_Gap r).

(** [ROW_NUMBER() OVER (ORDER BY gap)]. *)
Definition ranked (gaps : list Z) : list (Z * Z) := imap (λ i g, (Z.of_nat i + 1, g)) (order_by id Z.compare gaps).

(** [MIN] of a column. *)
Definition zmin (l : list Z) : Z := match l with [] => 0 | x :: l => foldr Z.min x l end.

(** The least gap ranked at or past 95%. *)
Definition p95_gap (gaps : list Z) : Z :=
  zmin (filter (λ x : Z * Z, Z.of_nat (length gaps) * 95 ≤ x.1 * 100) (ranked gaps)).*2.

Definition tuning_row (id : DeviceID) (l : list history_row) : tuningCandidateRow :=
  mkTuningRow id (text_max (hr_DeviceName <$> l)) (zmax ((λ r, default 0 (hr_TTL r)) <$> l)) (Z.of_nat (length l))
    (sum_when (λ r, bool_decide (hr_Risk r = TTLRiskBreached)) (λ _, 1) l) (p95_gap (gap_of <$> l)).

Definition addressHistoryTuningPerDevice (q : AddressHistoryTuningQuery) (d : db) : list tuningCandidateRow :=
  let l := tuning_renewals q d in (λ id, tuning_row id (group hr_DeviceID id l)) <$> group_keys hr_DeviceID Z.compare l.

(** The ranking: the ratio of the gap to the TTL, NULL last, then the late
    renewals, then the device. *)
Definition cmp_Qc (x y : Qc) : comparison := Qccompare x y.

#[export] Instance cmp_Qc_order : CmpOrder cmp_Qc.
Proof.
  split; unfold cmp_Qc.
  - intros x y. symmetry. apply Qceq_alt.
  - intros x y. unfold Qccompare. symmetry. apply Qcompare_antisym.
  - intros x y z. rewrite <-!Qclt_alt. apply Qclt_trans.
Qed.

Definition candidate_key (x : tuningCandidateRow) : option Qc * Z * DeviceID :=
  (ratio (tuning_P95GapSeconds x) (tuning_TTLSeconds x), tuning_LateRenewalCount x, tuning_Device x).

Definition cmp_candidate : option Qc * Z * DeviceID → option Qc * Z * DeviceID → comparison :=
  cmp_pair (cmp_pair (cmp_rev (cmp_option cmp_Qc)) (cmp_rev Z.compare)) Z.compare.

#[export] Instance cmp_candidate_order : CmpOrder cmp_candidate.
Proof. unfold cmp_candidate. apply _. Qed.

Definition too_short (x : tuningCandidateRow) : Prop := tuning_TTLSeconds x < tuning_P95GapSeconds x ∧ tuningMinRenewals ≤ tuning_RenewalCount x.

#[export] Instance too_short_dec x : Decision (too_short x).
Proof. unfold too_short. apply _. Defined.

(** The rows with the count of all of them, which the limit does not trim. *)
Definition tuning_candidates (q : AddressHistoryTuningQuery) (d : db) : list tuningCandidateRow * Z :=
  let l := addressHistoryTuningPerDevice q d in
  match tuning_DeviceID q with
  | Some _ => (l, Z.of_nat (length l))
  | None => let l := filter too_short l in (take addressHistoryTuningLimit (order_by candidate_key cmp_candidate l), Z.of_nat (length l))
  end.

(** [httpapi.AddressHistoryTuningResponse]. *)
Record TuningResponse := mkTuningResponse { tuning_Devices : list tuningCandidateRow; tuning_Total : Z; tuning_MinRenewals : Z }.

(** The total is that of the first row. *)
Definition GetAddressHistoryTuning (q : AddressHistoryTuningQuery) : M TuningResponse :=
  '(rows, total) ← query (λ _ d, tuning_candidates q d);
  mret (mkTuningResponse rows (match rows with [] => 0 | _ => total end) tuningMinRenewals).

(** ** The handlers (handler_address_history.go) *)

Record AddressHistoryResponse := mkHistoryResponse {
  hres_Events : list (history_row * option GeoInfo); hres_Total : Z; hres_NextCursor : option Z }.

Definition toAddressHistoryResponse (r : AddressHistoryEvents) (limit : Z) (geo : option (string → GeoResult)) : AddressHistoryResponse :=
  mkHistoryResponse ((λ e, (e, geo ≫= λ resolve, GeoInfoFromResult (resolve (hr_IP e)))) <$> history_Events r) (history_Total r)
    (if bool_decide (Z.of_nat (length (history_Events r)) = limit) && (0 <? limit) then hr_ID <$> last (history_Events r) else None).

Definition handler_GetAddressHistory (geo : option (string → GeoResult)) (params : GetAddressHistoryParams) : M (Response AddressHistoryResponse) :=
  t ← now;
  match NewAddressHistoryQuery t params with
  | Err e => mret (query_error e)
  | Ok q => respond (GetAddressHistoryEvents q) (λ r, mkResponse 200 (Some (toAddressHistoryResponse r (history_Limit q) geo))) (λ _, 500)
  end.

Definition handler_GetAddressHistoryHistogram (p : addressHistoryFilterParams) : M (Response (list AddressHistoryBucket)) :=
  t ← now;
  match NewAddressHistoryHistogramQuery t p with
  | Err e => mret (query_error e)
  | Ok q => respond (GetAddressHistoryHistogram q) (λ bs, mkResponse 200 (Some bs)) (λ _, 500)
  end.

Definition handler_GetAddressHistoryTuning (from to : option time) (deviceID : option DeviceID) : M (Response TuningResponse) :=
  t ← now;
  respond (GetAddressHistoryTuning (NewAddressHistoryTuningQuery t from to deviceID)) (λ r, mkResponse 200 (Some r)) (λ _, 500).
End views.
