(* ===== verification/AddressHistorySpec.v ===== *)
(** * AddressHistorySpec: what the history of addresses shows

    The 95th percentile of the tuning view is the share of late renewals it
    is taken for; a device is counted once in a bucket of the histogram,
    under its worst renewal there; the kinds of events replay the state of
    an address; the pages list every event. *)

From Stdlib Require Import QArith Qcanon.
From S2P Require Import Prelude GoLib Compare GroupBy Schema Store Http Timebucket Filterx Device AddressHistory.

Local Open Scope string_scope.
Local Open Scope Z_scope.
Local Open Scope list_scope.

(** ** The 95th percentile *)

Lemma zmin_above t l : l ≠ [] → t < zmin l ↔ ∀ x, x ∈ l → t < x.
Proof.
  destruct l as [|x l]; [done|]. intros _. cbn [zmin]. induction l as [|y l IH]; cbn [foldr]; [set_solver by lia|].
  rewrite Z.min_glb_lt_iff, IH. set_solver by lia.
Qed.

(** A sorted list is what is at most [t], then what is above. *)
Lemma sorted_cut t (s : list Z) : StronglySorted Z.le s →
  ∃ a b, s = a ++ b ∧ (∀ x, x ∈ a → x ≤ t) ∧ (∀ x, x ∈ b → t < x).
Proof.
  induction 1 as [|x s Hs IH Hx]; [exists [], []; set_solver|]. destruct (Z.le_gt_cases x t) as [Hle|Hgt].
  - destruct IH as (a & b & -> & Ha & Hb). exists (x :: a), b. split; [done|]. split; [set_solver|done].
  - exists [], (x :: s). split; [done|]. split; [set_solver|]. rewrite Forall_forall in Hx. intros y [->|Hy]%elem_of_cons; [lia|]. specialize (Hx y Hy). lia.
Qed.

Lemma order_by_id_sorted (l : list Z) : StronglySorted Z.le (order_by id Z.compare l).
Proof.
  unfold order_by. pose proof (StronglySorted_merge_sort (not_after id Z.compare) l) as H.
  induction H as [|x s Hs IH Hx]; constructor; [exact IH|]. eapply Forall_impl; [exact Hx|]. intros y. unfold not_after. cbn. by rewrite Z.compare_gt_iff, Z.nlt_ge.
Qed.

(** The 95th percentile is above a threshold exactly when more than 5% of
    the values are. *)
Lemma p95_share t gaps : gaps ≠ [] →
  t < p95_gap gaps ↔ 5 * Z.of_nat (length gaps) < 100 * Z.of_nat (length (filter (λ g, t < g) gaps)).
Proof.
  intros Hne. unfold p95_gap, ranked. set (s := order_by id Z.compare gaps).
  assert (s ≡ₚ gaps) as Hp by apply order_by_Permutation. rewrite <-(Permutation_length Hp). rewrite <-Hp.
  destruct (sorted_cut t s (order_by_id_sorted gaps)) as (a & b & E & Ha & Hb).
  assert (filter (λ g, t < g) s = b) as ->.
  { rewrite E, filter_app, (filter_none _ a), (filter_all _ b); [done|exact Hb|]. intros x Hx. specialize (Ha x Hx). lia. }
  set (n := length s). assert (0 < n)%nat as Hn by (unfold n; destruct s; [by apply Permutation_nil in Hp|cbn; lia]).
  assert (∀ x, x ∈ (filter (λ x : Z * Z, Z.of_nat n * 95 ≤ x.1 * 100) (imap (λ i g, (Z.of_nat i + 1, g)) s)).*2 ↔
               ∃ i, s !! i = Some x ∧ Z.of_nat n * 95 ≤ (Z.of_nat i + 1) * 100) as Hin.
  { intros x. rewrite list_elem_of_fmap. split.
    - intros ((r, g) & -> & [Hr (i & g' & [= -> ->] & Hi)%elem_of_lookup_imap]%list_elem_of_filter). eauto.
    - intros (i & Hi & Hr). exists (Z.of_nat i + 1, x). split; [done|]. apply list_elem_of_filter. split; [done|]. apply elem_of_lookup_imap. eauto. }
  assert (length a + length b = n)%nat as Hlen by (unfold n; by rewrite E, length_app).
  rewrite zmin_above.
  2:{ destruct (lookup_lt_is_Some_2 s (n - 1)) as [x Hx]; [unfold n in *; lia|]. intros Hnil. assert (x ∈ @nil Z) as H; [|by apply elem_of_nil in H].
      rewrite <-Hnil. apply Hin. exists (n - 1)%nat. split; [done|lia]. }
  setoid_rewrite Hin. split.
  - intros Hall. destruct a as [|x0 a0] eqn:Ea; [cbn in Hlen; lia|]. rewrite <-Ea in *. assert (length a = S (length a0)) as Hla by (by rewrite Ea).
    destruct (lookup_lt_is_Some_2 a (length a - 1)) as [x Hx]; [lia|].
    destruct (Z.le_gt_cases (Z.of_nat n * 95) (Z.of_nat (length a) * 100)) as [Hle|]; [|lia]. exfalso.
    assert (t < x) as Ht by (apply Hall; exists (length a - 1)%nat; rewrite E, lookup_app_l by lia; split; [done|lia]).
    specialize (Ha x (list_elem_of_lookup_2 _ _ _ Hx)). lia.
  - intros Hshare x (i & Hi & Hr). rewrite E, lookup_app_r in Hi by lia. apply Hb. by eapply list_elem_of_lookup_2.
Qed.

(** ** Risks *)

Lemma ratio_exact q gap ttl : 0 < ttl → ((q <= Q2Qc (inject_Z gap / inject_Z ttl))%Q ↔ Qnum q * ttl ≤ gap * QDen q) ∧
  ((Q2Qc (inject_Z gap / inject_Z ttl) <= q)%Q ↔ gap * QDen q ≤ Qnum q * ttl).
Proof.
  intros Ht. cbn [Q2Qc this]. rewrite !Qred_correct. destruct ttl as [|p|p]; try lia. unfold Qdiv, Qle, Qmult, Qinv, inject_Z. cbn. split; split; lia.
Qed.

(** The bands, without dividing. *)
Lemma ttlRiskCase_spec ttl gap : 0 < ttl →
  ttlRiskCase (Some ttl) (Some gap) =
    if decide (ttl ≤ gap) then TTLRiskBreached
    else if decide (9 * ttl < 10 * gap) then TTLRiskCritical
    else if decide (7 * ttl < 10 * gap) then TTLRiskApproaching else TTLRiskOK.
Proof.
  intros Ht. unfold ttlRiskCase, ratio. rewrite (proj2 (Z.eqb_neq _ _)) by lia.
  assert (∀ q, Qle_bool q (Q2Qc (inject_Z gap / inject_Z ttl)) = bool_decide (Qnum q * ttl ≤ gap * QDen q)) as Hl.
  { intros q. apply Bool.eq_iff_eq_true. rewrite Qle_bool_iff, bool_decide_eq_true. apply (ratio_exact q gap ttl Ht). }
  assert (∀ q, Qle_bool (Q2Qc (inject_Z gap / inject_Z ttl)) q = bool_decide (gap * QDen q ≤ Qnum q * ttl)) as Hr.
  { intros q. apply Bool.eq_iff_eq_true. rewrite Qle_bool_iff, bool_decide_eq_true. apply (ratio_exact q gap ttl Ht). }
  rewrite Hl, !Hr. cbn [Qnum Qden ttlRiskBreachedRatio ttlRiskCriticalRatio ttlRiskApproachingRatio].
  repeat (case_bool_decide || case_decide); cbn [negb]; try done; lia.
Qed.

Section history_spec.
Context `{JulianDay}.

Lemma elem_of_enriched d r : r ∈ addressHistoryEnriched d ↔ ∃ id e, address_events d !! id = Some e ∧ enrich d (id, e) = Some r.
Proof.
  unfold addressHistoryEnriched. rewrite list_elem_of_omap. split.
  - intros ([id e] & Hin & Hr). exists id, e. split; [by apply elem_of_scan|done].
  - intros (id & e & Hin & Hr). exists (id, e). split; [by apply elem_of_scan|done].
Qed.

(** What a row of the enriched table carries. *)
Lemma enriched_row d r : r ∈ addressHistoryEnriched d →
  hr_TTL r = device_ttl d (hr_DeviceID r) ∧ hr_Risk r = ttlRiskCase (hr_TTL r) (hr_Gap r) ∧
  ∃ v, active_device d (hr_DeviceID r) = Some v ∧ hr_DeviceName r = Device_Name v.
Proof.
  rewrite elem_of_enriched. intros (id & e & _ & Hr). unfold enrich in Hr. cbn in Hr. destruct (addresses d !! aer_AddressID e) as [a|]; [|done]. cbn in Hr.
  destruct (active_device d (Address_DeviceID a)) as [v|] eqn:Ev; [|done]. cbn in Hr. injection Hr as <-. cbn. eauto.
Qed.

(** A renewal that could be measured has a TTL and a gap. *)
Lemma known_risk d r : r ∈ addressHistoryEnriched d → hr_Risk r ≠ TTLRiskUnknown →
  ∃ ttl, hr_TTL r = Some ttl ∧ device_ttl d (hr_DeviceID r) = Some ttl ∧ hr_Gap r = Some (gap_of r).
Proof.
  intros (Ht & Hr & _)%enriched_row Hk. unfold gap_of. rewrite <-Ht. destruct (hr_TTL r) as [ttl|], (hr_Gap r) as [gap|]; try (by rewrite Hr in Hk). eauto.
Qed.

(** The rounding of the gap costs at most a second: a renewal within 70% of
    the TTL, less a second, is never at risk, and one more than a second
    after it is a breach. *)
Lemma risk_of_times ttl a b : 0 < ttl → b ≤ a →
  (10 * ((a - b) / Second + 1) ≤ 7 * ttl → ttlRiskCase (Some ttl) (Some (julian_gap a b)) = TTLRiskOK) ∧
  (ttl + 1 ≤ (a - b) / Second → ttlRiskCase (Some ttl) (Some (julian_gap a b)) = TTLRiskBreached).
Proof. intros Ht Hab. pose proof (julian_gap_near a b Hab). rewrite ttlRiskCase_spec by done. split; intros; repeat case_decide; done || lia. Qed.

Lemma zmax_const (c : Z) (l : list Z) : l ≠ [] → (∀ x, x ∈ l → x = c) → zmax l = c.
Proof.
  destruct l as [|x l]; [done|]. intros _ Hall. rewrite (Hall x) by (by left). unfold zmax. assert (∀ y, y ∈ l → y = c) as Hl by (intros y Hy; apply Hall; by right).
  clear Hall. induction l as [|y l IH]; [done|]. cbn. rewrite IH, (Hl y) by set_solver. apply Z.max_id.
Qed.

(** A row of the tuning view.  A TTL of zero is a rule like another, and
    under it no renewal is late. *)
Lemma tuning_row_measured q d x :
  x ∈ addressHistoryTuningPerDevice q d →
  let l := group hr_DeviceID (tuning_Device x) (tuning_renewals q d) in
  let ttl := tuning_TTLSeconds x in
  device_ttl d (tuning_Device x) = Some ttl ∧ tuning_RenewalCount x = Z.of_nat (length l) ∧ 0 < tuning_RenewalCount x ∧
  (ttl < tuning_P95GapSeconds x ↔ 5 * Z.of_nat (length l) < 100 * Z.of_nat (length (filter (λ r, ttl < gap_of r) l))) ∧
  (0 < ttl → tuning_LateRenewalCount x = Z.of_nat (length (filter (λ r, ttl ≤ gap_of r) l))).
Proof.
  unfold addressHistoryTuningPerDevice. intros (id & -> & (r0 & Hr0 & <-)%elem_of_group_keys)%list_elem_of_fmap.
  set (l := group hr_DeviceID (hr_DeviceID r0) (tuning_renewals q d)). cbn [tuning_row tuning_Device tuning_TTLSeconds tuning_RenewalCount tuning_P95GapSeconds tuning_LateRenewalCount].
  assert (r0 ∈ l) as Hin by (by apply elem_of_group). assert (l ≠ []) as Hne by (intros E; rewrite E in Hin; by apply elem_of_nil in Hin).
  assert (∀ r, r ∈ l → hr_DeviceID r = hr_DeviceID r0 ∧ r ∈ addressHistoryEnriched d ∧ hr_Risk r ≠ TTLRiskUnknown) as Hl.
  { intros r [Hd [(_ & _ & Hk & _) He]%list_elem_of_filter]%elem_of_group. done. }
  destruct (known_risk d r0 (proj1 (proj2 (Hl r0 Hin))) (proj2 (proj2 (Hl r0 Hin)))) as (ttl & _ & Httl & _).
  assert (∀ r, r ∈ l → hr_TTL r = Some ttl ∧ hr_Gap r = Some (gap_of r)) as Hk.
  { intros r Hr. destruct (Hl r Hr) as (Hd & He & Hk). destruct (known_risk d r He Hk) as (t & Ht & Ht' & Hg). rewrite Hd in Ht'. split; [congruence|done]. }
  assert (zmax ((λ r, default 0 (hr_TTL r)) <$> l) = ttl) as ->.
  { apply zmax_const; [by intros ?%fmap_nil_inv|]. intros y (r & -> & Hr)%list_elem_of_fmap. by rewrite (proj1 (Hk r Hr)). }
  split; [done|]. split; [done|]. split; [destruct l; [done|cbn; lia]|]. split.
  - rewrite p95_share by (by intros ?%fmap_nil_inv). by rewrite filter_fmap, !length_fmap.
  - intros Hpos. rewrite sum_when_filter. do 2 f_equal. apply filter_ext_in. intros r Hr. rewrite bool_decide_eq_true.
    destruct (Hl r Hr) as (_ & He & _), (Hk r Hr) as [Ht Hg]. destruct (enriched_row d r He) as (_ & -> & _). rewrite Ht, Hg, ttlRiskCase_spec by done.
    repeat case_decide; naive_solver lia.
Qed.

(** C31: the tuning view measures what it says.  For each device it
    lists, the renewals counted are those of the window whose gap and TTL
    are known, all under the TTL of the device's lease rule, and the 95th
    percentile of their gaps is beyond that TTL exactly when more than 5% of
    them came later than it.  When the TTL is positive and no renewal came at
    the very second it ran out, the late renewals are those that came later
    than the TTL, and the comparison of the percentile with the TTL is itself
    the test for more than 5% late renewals. *)
Theorem tuning_measures_lateness q d x :
  x ∈ addressHistoryTuningPerDevice q d →
  let l := group hr_DeviceID (tuning_Device x) (tuning_renewals q d) in
  let ttl := tuning_TTLSeconds x in
  device_ttl d (tuning_Device x) = Some ttl ∧ tuning_RenewalCount x = Z.of_nat (length l) ∧ 0 < tuning_RenewalCount x ∧
  (ttl < tuning_P95GapSeconds x ↔ 5 * Z.of_nat (length l) < 100 * Z.of_nat (length (filter (λ r, ttl < gap_of r) l))) ∧
  (0 < ttl → (∀ r, r ∈ l → gap_of r ≠ ttl) →
   tuning_LateRenewalCount x = Z.of_nat (length (filter (λ r, ttl < gap_of r) l)) ∧
   (ttl < tuning_P95GapSeconds x ↔ 5 * tuning_RenewalCount x < 100 * tuning_LateRenewalCount x)).
Proof.
  intros Hx l ttl. destruct (tuning_row_measured q d x Hx) as (H1 & H2 & H3 & H4 & H5). repeat (split; [done|]).
  intros Hpos Hne. fold l ttl in H2, H4, H5. specialize (H5 Hpos).
  assert (filter (λ r, ttl ≤ gap_of r) l = filter (λ r, ttl < gap_of r) l) as Hf.
  { apply filter_ext_in. intros r Hr. specialize (Hne r Hr). lia. }
  rewrite Hf in H5. split; [exact H5|]. by rewrite H2, H5.
Qed.

(** ** The histogram *)

(** The count of a bucket and a rank in the map of bands. *)
Definition band_at (m : gmap Z (gmap Z Z)) (key rank : Z) : Z := default 0 (default ∅ (m !! key) !! rank).

Lemma bands_keys (f : time * Z → Z) ks key rank :
  NoDup ((λ k : time * Z, (k.1 / Second, k.2)) <$> ks) →
  band_at (bands ((λ k, mkRiskBucketRow k.1 k.2 (f k)) <$> ks)) key rank =
    match filter (λ k, k.1 / Second = key ∧ k.2 = rank) ks with k :: _ => f k | [] => 0 end.
Proof.
  induction ks as [|k ks IH] using rev_ind; intros Hnd; [done|]. rewrite fmap_app in Hnd. apply NoDup_app in Hnd as (Hnd & Hd & _). specialize (IH Hnd).
  unfold bands, band_at in *. rewrite fmap_app, foldl_app, filter_app. cbn [foldl fmap list_fmap risk_Timestamp risk_Rank risk_DeviceCount].
  destruct (decide (k.1 / Second = key ∧ k.2 = rank)) as [[<- <-]|Hne].
  - rewrite filter_cons_True, filter_nil by done. rewrite lookup_insert_eq. cbn. rewrite lookup_insert_eq. rewrite (filter_none _ ks); [done|].
    intros k' Hk' [E1 E2]. apply (Hd (k.1 / Second, k.2)); [|by left]. apply list_elem_of_fmap. exists k'. by rewrite E1, E2.
  - rewrite filter_cons_False, filter_nil, app_nil_r by done. rewrite <-IH. destruct (decide (k.1 / Second = key)) as [<-|Hk].
    + rewrite lookup_insert_eq. cbn. rewrite lookup_insert_ne by tauto. done.
    + by rewrite lookup_insert_ne by done.
Qed.

Section histogram.
Context (g : Granularity) (l : list history_row).

Notation bucket_key := (λ r, (BucketExpr g (hr_CreatedAt r), hr_DeviceID r)).

(** The rows of a bucket, its devices, and the worst rank of one. *)
Definition bucket_rows (ts : time) : list history_row := filter (λ r, TruncateToBucket g (hr_CreatedAt r) = ts) l.
Definition devices_of (rs : list history_row) : list DeviceID := remove_dups (hr_DeviceID <$> rs).
Definition worst (rs : list history_row) (dev : DeviceID) : Z := zmax ((λ r, ttlRiskRank (hr_Risk r)) <$> group hr_DeviceID dev rs).

(** The devices of a bucket whose worst rank is the given one. *)
Definition devices_at (ts : time) (rank : Z) : list DeviceID := filter (λ dev, worst (bucket_rows ts) dev = rank) (devices_of (bucket_rows ts)).

Lemma elem_of_devices_of rs dev : dev ∈ devices_of rs ↔ ∃ r, r ∈ rs ∧ hr_DeviceID r = dev.
Proof. unfold devices_of. rewrite elem_of_remove_dups, list_elem_of_fmap. naive_solver. Qed.

Lemma group_bucket ts dev : group bucket_key (ts, dev) l = group hr_DeviceID dev (bucket_rows ts).
Proof.
  unfold group, bucket_rows. rewrite list_filter_filter. apply filter_ext_in. intros r _. rewrite BucketExpr_TruncateToBucket.
  split; [by intros [= -> ->]|by intros [-> ->]].
Qed.

Lemma elem_of_per_device x : x ∈ per_device_bucket g l ↔ x.1.2 ∈ devices_of (bucket_rows x.1.1) ∧ x.2 = worst (bucket_rows x.1.1) x.1.2.
Proof.
  destruct x as [[ts dev] rank]. unfold per_device_bucket. rewrite list_elem_of_fmap, elem_of_devices_of. cbn [fst snd]. unfold worst. split.
  - intros ([ts' dev'] & [= -> -> ->] & (r & Hr & E)%elem_of_group_keys). rewrite <-group_bucket. split; [|done]. exists r. rewrite BucketExpr_TruncateToBucket in E.
    injection E as <- <-. split; [|done]. by apply list_elem_of_filter.
  - intros [(r & [Hts Hr]%list_elem_of_filter & Hd) ->]. exists (ts, dev). rewrite <-group_bucket. split; [done|]. apply elem_of_group_keys. exists r.
    rewrite BucketExpr_TruncateToBucket, Hts, Hd. done.
Qed.

Lemma per_device_NoDup : NoDup (per_device_bucket g l).*1.
Proof. unfold per_device_bucket. rewrite <-list_fmap_compose. rewrite list_fmap_id. apply NoDup_group_keys. Qed.

(** The rows of a bucket and a rank, each with a device of it. *)
Lemma rank_group ts rank : ttlRiskOKRank ≤ rank →
  length (group (λ x : time * DeviceID * Z, (x.1.1, x.2)) (ts, rank) (filter (λ x, ttlRiskOKRank ≤ x.2) (per_device_bucket g l))) = length (devices_at ts rank).
Proof.
  intros Hr. rewrite <-(length_fmap (λ x : time * DeviceID * Z, x.1.2)). apply Permutation_length. apply NoDup_Permutation.
  - apply NoDup_fmap_2_strong.
    + intros [[t1 d1] r1] [[t2 d2] r2] [[= -> ->] _]%elem_of_group [[= -> ->] _]%elem_of_group. cbn. by intros ->.
    + apply NoDup_filter, NoDup_filter. eapply NoDup_fmap_1, per_device_NoDup.
  - apply NoDup_filter, NoDup_remove_dups.
  - intros dev. unfold devices_at. rewrite list_elem_of_fmap, list_elem_of_filter. split.
    + intros ([[t d] r] & -> & [[= -> ->] [_ [Hd Hw]%elem_of_per_device]%list_elem_of_filter]%elem_of_group). cbn in *. done.
    + intros [Hw Hd]. exists (ts, dev, rank). split; [done|]. apply elem_of_group. split; [done|]. apply list_elem_of_filter. split; [done|].
      apply elem_of_per_device. split; [done|]. done.
Qed.

Lemma width_seconds : ∃ k, width g = k * Second ∧ 0 < k.
Proof. destruct g; [exists 60|exists 300|exists 3600|exists 86400]; split; done. Qed.

Lemma aligned_seconds t t' : TruncateToBucket g t / Second = TruncateToBucket g t' / Second → TruncateToBucket g t = TruncateToBucket g t'.
Proof.
  destruct width_seconds as (k & E & Hk). rewrite !TruncateToBucket_eq, E. rewrite !Z.mul_assoc, !Z.div_mul by done. intros ->. done.
Qed.

(** What the histogram shows for a bucket and a rank. *)
Lemma band_devices t rank : ttlRiskOKRank ≤ rank →
  band_at (bands (risk_buckets g l)) (TruncateToBucket g t / Second) rank = Z.of_nat (length (devices_at (TruncateToBucket g t) rank)).
Proof.
  intros Hr. unfold risk_buckets. set (rows := filter _ _). set (key := λ x : time * DeviceID * Z, (x.1.1, x.2)).
  assert (∀ k, k ∈ group_keys key (cmp_pair Z.compare Z.compare) rows → ∃ t', k.1 = TruncateToBucket g t') as Hal.
  { intros k (x & [_ [(r & [Hb _]%list_elem_of_filter & _)%elem_of_devices_of _]%elem_of_per_device]%list_elem_of_filter & <-)%elem_of_group_keys. by exists (hr_CreatedAt r). }
  rewrite (bands_keys (λ k, Z.of_nat (length (group key k rows)))).
  2:{ apply NoDup_fmap_2_strong; [|apply NoDup_group_keys]. intros [a b] [a' b'] Ha Ha'. cbn. intros [= E ->].
      destruct (Hal _ Ha) as [t1 E1], (Hal _ Ha') as [t2 E2]. cbn in E1, E2. subst. f_equal. by apply aligned_seconds. }
  rewrite <-rank_group by done. fold rows. change (λ x : time * DeviceID * Z, (x.1.1, x.2)) with key.
  destruct (filter (λ k : time * Z, k.1 / Second = _ ∧ k.2 = rank) _) as [|k ks] eqn:Ef.
  - destruct (group key (TruncateToBucket g t, rank) rows) as [|x xs] eqn:Eg; [done|]. exfalso.
    assert (x ∈ group key (TruncateToBucket g t, rank) rows) as Hx by (rewrite Eg; by left). apply elem_of_group in Hx as [Hk Hx].
    assert ((TruncateToBucket g t, rank) ∈ filter (λ k : time * Z, k.1 / Second = TruncateToBucket g t / Second ∧ k.2 = rank) (group_keys key (cmp_pair Z.compare Z.compare) rows)) as Hin.
    { apply list_elem_of_filter. split; [done|]. apply elem_of_group_keys. by exists x. }
    rewrite Ef in Hin. by apply elem_of_nil in Hin.
  - assert (k ∈ filter (λ k : time * Z, k.1 / Second = TruncateToBucket g t / Second ∧ k.2 = rank) (group_keys key (cmp_pair Z.compare Z.compare) rows)) as Hk by (rewrite Ef; by left).
    apply list_elem_of_filter in Hk as [[E1 E2] Hk]. destruct (Hal k Hk) as [t' Et]. destruct k as [a b]. cbn in *. subst. rewrite (aligned_seconds _ _ E1). done.
Qed.
End histogram.

Definition band (b : AddressHistoryBucket) (r : TTLRisk) : Z :=
  match r with
  | TTLRiskUnknown => 0 | TTLRiskOK => bucket_Ok b | TTLRiskApproaching => bucket_Approaching b
  | TTLRiskCritical => bucket_Critical b | TTLRiskBreached => bucket_Breached b
  end.

(** A rank is at most the worst. *)
Lemma zmax_ge x l : x ∈ l → x ≤ zmax l.
Proof.
  destruct l as [|y l]; [by intros ?%elem_of_nil|]. unfold zmax. intros Hx. assert (∀ z, z = y ∨ z ∈ l → z ≤ foldr Z.max y l) as Hall; [|apply Hall; by apply elem_of_cons in Hx].
  clear Hx. induction l as [|u l IH]; cbn; [intros z [->|?%elem_of_nil]; done|]. intros z [->|[->|Hz]%elem_of_cons]; [pose proof (IH y (or_introl eq_refl)); lia|lia|pose proof (IH z (or_intror Hz)); lia].
Qed.

Lemma zmax_in l : l ≠ [] → zmax l ∈ l.
Proof.
  destruct l as [|y l]; [done|]. intros _. unfold zmax. induction l as [|u l IH]; cbn; [by left|]. destruct (Z.max_spec u (foldr Z.max y l)) as [[_ ->]|[_ ->]]; set_solver.
Qed.

Lemma rank_known r : 1 ≤ ttlRiskRank r ↔ r ≠ TTLRiskUnknown.
Proof. by destruct r. Qed.

(** The worst rank of a device of a list is one of its rows'. *)
Lemma worst_row rs dev : dev ∈ devices_of rs → ∃ r, r ∈ rs ∧ hr_DeviceID r = dev ∧ worst rs dev = ttlRiskRank (hr_Risk r).
Proof.
  intros (r0 & Hr0 & Hd)%elem_of_devices_of. unfold worst. set (k := (λ r, ttlRiskRank (hr_Risk r)) <$> group hr_DeviceID dev rs).
  assert (zmax k ∈ k) as (r & -> & [Hr Hin]%elem_of_group)%list_elem_of_fmap; [|eauto]. apply zmax_in. unfold k. intros E%fmap_nil_inv.
  assert (r0 ∈ group hr_DeviceID dev rs) as Hg by (by apply elem_of_group). rewrite E in Hg. by apply elem_of_nil in Hg.
Qed.

Lemma worst_ge rs r : r ∈ rs → ttlRiskRank (hr_Risk r) ≤ worst rs (hr_DeviceID r).
Proof. intros Hr. apply zmax_ge, list_elem_of_fmap. exists r. split; [done|]. by apply elem_of_group. Qed.

(** The bands of a bucket add up to the devices with a measured renewal. *)
Lemma bands_total rs :
  zsum ((λ rank, Z.of_nat (length (filter (λ dev, worst rs dev = rank) (devices_of rs)))) <$> [1; 2; 3; 4]) =
    Z.of_nat (length (devices_of (filter (λ r, hr_Risk r ≠ TTLRiskUnknown) rs))).
Proof.
  assert (filter (λ dev, 1 ≤ worst rs dev) (devices_of rs) ≡ₚ devices_of (filter (λ r, hr_Risk r ≠ TTLRiskUnknown) rs)) as <-.
  { apply NoDup_Permutation; [apply NoDup_filter, NoDup_remove_dups|apply NoDup_remove_dups|]. intros dev. rewrite list_elem_of_filter, (elem_of_devices_of (filter _ _)). split.
    - intros [Hw Hd]. destruct (worst_row rs dev Hd) as (r & Hr & Hdev & E). exists r. split; [|done]. apply list_elem_of_filter. split; [|done]. apply rank_known. lia.
    - intros (r & [Hk Hr]%list_elem_of_filter & <-). split; [|apply elem_of_devices_of; eauto]. apply rank_known in Hk. pose proof (worst_ge rs r Hr). lia. }
  assert (∀ dev, dev ∈ devices_of rs → worst rs dev ≤ 4) as Hle by (intros dev (r & _ & _ & ->)%worst_row; by destruct (hr_Risk r)).
  induction (devices_of rs) as [|dev l IH]; [done|]. specialize (IH ltac:(intros; apply Hle; by right)). specialize (Hle dev ltac:(by left)).
  cbn [fmap list_fmap] in IH |- *. rewrite !zsum_cons, zsum_nil, !filter_cons in *. repeat (case_decide; cbn [length] in *); lia.
Qed.

(** The rows a query selects lie in its window. *)
Lemma conditions_window q cond d r : addressHistoryConditions q = Ok cond → r ∈ addressHistoryBase cond d → history_From q ≤ hr_CreatedAt r ≤ history_To q.
Proof.
  unfold addressHistoryConditions, addressHistoryBase, history_holds. destruct (map_result _ _) as [cs|]; [|done]. intros [= <-] [Hr _]%list_elem_of_filter.
  rewrite holds_and in Hr. pose proof (Hr (SqGtOrEq "e.created_at" (VTime (history_From q))) ltac:(by left)) as H1.
  pose proof (Hr (SqLtOrEq "e.created_at" (VTime (history_To q))) ltac:(right; by left)) as H2.
  apply holds_true in H1, H2. apply sql_cmp_true in H1 as (_ & _ & H1), H2 as (_ & _ & H2).
  change (history_col "e.created_at" r) with (VTime (hr_CreatedAt r)) in H1, H2. cbn [value_cmp] in H1, H2.
  destruct (Z.compare_spec (hr_CreatedAt r) (history_From q)), (Z.compare_spec (hr_CreatedAt r) (history_To q)); try done; lia.
Qed.

(** C30: the histogram counts a device once in a bucket, under its worst
    renewal there.  A bucket's four bands are the numbers of devices whose
    worst measured renewal among the selected events of the bucket has that
    risk; together they are the devices with a measured renewal in it.  The
    buckets are contiguous over the window, with one for every selected
    event. *)
Theorem histogram_counts_worst_once q cond tx w :
  no_faults w → history_From q ≤ history_To q → addressHistoryConditions q = Ok cond →
  let g := GranularityForWindow (history_To q - history_From q) in
  let l := addressHistoryBase cond (w_db w) in
  ∃ bs, GetAddressHistoryHistogram q tx w = (Ok bs, w) ∧
    bucket_Timestamp <$> bs = buckets_from g (TruncateToBucket g (history_From q)) (bucket_count g (history_From q) (history_To q)) ∧
    (∀ b, b ∈ bs →
       let rs := bucket_rows g l (bucket_Timestamp b) in
       (∀ risk, risk ≠ TTLRiskUnknown → band b risk = Z.of_nat (length (filter (λ dev, worst rs dev = ttlRiskRank risk) (devices_of rs)))) ∧
       band b TTLRiskOK + band b TTLRiskApproaching + band b TTLRiskCritical + band b TTLRiskBreached =
         Z.of_nat (length (devices_of (filter (λ r, hr_Risk r ≠ TTLRiskUnknown) rs)))) ∧
    (∀ r, r ∈ l → ∃ b, b ∈ bs ∧ r ∈ bucket_rows g l (bucket_Timestamp b)).
Proof.
  intros Hw Hle Hc g l. pose proof (Sequence_buckets g (history_From q) (history_To q) (S (bucket_count g (history_From q) (history_To q))) Hle ltac:(lia)) as Hseq.
  set (sequence := buckets_from _ _ _) in *. exists (foldRiskBuckets sequence (risk_buckets g l)).
  assert (∀ ts, ts ∈ sequence → ∃ t, ts = TruncateToBucket g t) as Hal.
  { intros ts (i & _ & ->)%elem_of_buckets_from. exists (history_From q + Z.of_nat i * width g). rewrite !TruncateToBucket_eq, Z.div_add by (pose proof (width_pos g); lia). ring. }
  assert (bucket_Timestamp <$> foldRiskBuckets sequence (risk_buckets g l) = sequence) as Hts by (unfold foldRiskBuckets; rewrite <-list_fmap_compose; apply list_fmap_id).
  split; [|split; [exact Hts|split]].
  - unfold GetAddressHistoryHistogram, riskDeviceBuckets. fold g. rewrite bind_run, bind_run, of_result_run, Hc. rewrite query_run by done. cbv beta iota zeta. by rewrite Hseq.
  - intros b (ts & -> & Hin)%list_elem_of_fmap. destruct (Hal ts Hin) as [t ->]. cbn [bucket_Timestamp]. set (rs := bucket_rows g l (TruncateToBucket g t)).
    assert (∀ rank, ttlRiskOKRank ≤ rank → default 0 (default ∅ (bands (risk_buckets g l) !! (TruncateToBucket g t / Second)) !! rank) =
              Z.of_nat (length (filter (λ dev, worst rs dev = rank) (devices_of rs)))) as Hb by (intros rank Hr; exact (band_devices g l t rank Hr)).
    split; [intros []; try done; intros _; cbn [band]; by apply Hb|]. rewrite <-bands_total. cbn [fmap list_fmap]. rewrite !zsum_cons, zsum_nil. cbn [band bucket_Ok bucket_Approaching bucket_Critical bucket_Breached].
    rewrite !Hb by done. change (ttlRiskRank TTLRiskOK) with 1. change (ttlRiskRank TTLRiskApproaching) with 2.
    change (ttlRiskRank TTLRiskCritical) with 3. change (ttlRiskRank TTLRiskBreached) with 4. lia.
  - intros r Hr. pose proof (conditions_window q cond (w_db w) r Hc Hr) as Hwin. pose proof (window_bucket g _ _ _ Hwin) as Hin. fold sequence in Hin. rewrite <-Hts in Hin.
    apply list_elem_of_fmap in Hin as (b & Eb & Hb). exists b. split; [exact Hb|]. apply list_elem_of_filter. by rewrite <-Eb.
Qed.

(** ** The kinds *)

(** An address, replayed: its first event creates it, an event that changes
    its state enables or disables it, and the others refresh it. *)
Fixpoint replay (state : option bool) (l : list AddressEventRow) : list AddressEventKind :=
  match l with
  | [] => []
  | e :: l =>
      match state with
      | None => AddressEventKindCreated
      | Some b => if bool_decide (aer_IsEnabled e = b) then AddressEventKindRefresh
                  else if aer_IsEnabled e then AddressEventKindEnabled else AddressEventKindDisabled
      end :: replay (Some (aer_IsEnabled e)) l
  end.

Definition events_of (l : list (Z * AddressEventRow)) (id : AddressID) : list (Z * AddressEventRow) := filter (λ e, aer_AddressID e.2 = id) l.

(** The subquery of every event sees what a replay of its address does. *)
Lemma kinds_replay id pre l : StronglySorted (before fst Z.compare) (pre ++ l) →
  eventKindCase (pre ++ l) <$> events_of l id = replay (aer_IsEnabled ∘ snd <$> last (events_of pre id)) (snd <$> events_of l id).
Proof.
  revert pre. induction l as [|e l IH]; intros pre Hs; [done|]. unfold events_of at 1 3. rewrite filter_cons.
  replace (pre ++ e :: l) with ((pre ++ [e]) ++ l) in * by (by rewrite <-app_assoc). specialize (IH (pre ++ [e]) Hs).
  unfold events_of in IH at 2. rewrite filter_app in IH. destruct (decide (aer_AddressID e.2 = id)) as [<-|Hne].
  - rewrite !fmap_cons. cbn [replay]. rewrite filter_cons_True, filter_nil, last_snoc in IH by done. cbn [fmap option_fmap option_map compose] in IH. unfold events_of in IH. rewrite IH. f_equal.
    unfold eventKindCase. rewrite !filter_app, <-app_assoc. cbn [app].
    assert (filter (λ p, aer_AddressID p.2 = aer_AddressID e.2 ∧ p.1 < e.1) pre = events_of pre (aer_AddressID e.2)) as ->.
    { apply filter_ext_in. intros p Hp. assert (before fst Z.compare p e) as Hb%Z.compare_lt_iff; [|tauto].
      rewrite <-app_assoc in Hs. apply (StronglySorted_app_order _ pre ([e] ++ l)); [exact Hs|exact Hp|by left]. }
    rewrite filter_none by (intros p ->%list_elem_of_singleton [_ ?]; lia). rewrite filter_none, app_nil_r.
    2:{ intros p Hp. assert (before fst Z.compare e p) as Hb by (apply (StronglySorted_app_order _ (pre ++ [e]) l); [exact Hs|set_solver|exact Hp]).
        unfold before in Hb. rewrite Z.compare_lt_iff in Hb. intros [_ Hlt]. cbn in *. lia. }
    unfold events_of. by destruct (last _).
  - rewrite filter_cons_False, filter_nil, app_nil_r in IH by done. exact IH.
Qed.
End history_spec.

(** ** The pages *)

Section pages.
Context `{JulianDay}.

Lemma enriched_NoDup d : NoDup (hr_ID <$> addressHistoryEnriched d).
Proof.
  unfold addressHistoryEnriched. pose proof (NoDup_scan_fst (address_events d)) as Hnd. induction (scan (address_events d)) as [|e l IH]; [constructor|].
  rewrite fmap_cons in Hnd. apply NoDup_cons in Hnd as [Hn Hnd]. specialize (IH Hnd). cbn [omap list_omap]. destruct (enrich d e) as [r|] eqn:Er; [|exact IH].
  rewrite fmap_cons. apply NoDup_cons. split; [|exact IH]. assert (∀ e r, enrich d e = Some r → hr_ID r = e.1) as Hid.
  { intros e' r' Hr. unfold enrich in Hr. destruct (addresses d !! _) as [a|]; [|done]. cbn in Hr. destruct (active_device d _); [|done]. cbn in Hr. by injection Hr as <-. }
  rewrite (Hid _ _ Er). intros (r' & E & Hr')%list_elem_of_fmap. apply list_elem_of_omap in Hr' as (e' & He' & Hr'). apply Hn, list_elem_of_fmap. exists e'.
  by rewrite E, (Hid _ _ Hr').
Qed.

Definition history_sorted (cond : list Sqlizer) (d : db) : list history_row := order_by hr_ID (cmp_rev Z.compare) (addressHistoryBase cond d).

Lemma first_page cond n d : history_page cond None n d = take (Z.to_nat n) (history_sorted cond d).
Proof. unfold history_page, history_sorted. by rewrite filter_all. Qed.

(** The page after an event goes on where the list, newest first, left
    off, so full pages visit every event once. *)
Lemma next_page cond i n d r : history_sorted cond d !! i = Some r →
  history_page cond (Some (hr_ID r)) n d = take (Z.to_nat n) (drop (S i) (history_sorted cond d)).
Proof.
  intros Hi. unfold history_page. f_equal. unfold history_sorted in *. assert (NoDup (hr_ID <$> addressHistoryBase cond d)) as Hnd.
  { eapply sublist_NoDup; [apply (enriched_NoDup d)|]. apply fmap_sublist, sublist_filter. }
  rewrite <-(order_by_after _ _ _ _ _ Hnd Hi). f_equal. apply filter_ext_in. intros r' _. unfold before_id, before, cmp_rev. by rewrite Z.ltb_lt, Z.compare_lt_iff.
Qed.
End pages.

(** ** A device that renews every minute *)

Module HistoryDemo.
Lemma seconds_near a b : b ≤ a → Z.abs ((a - b) / Second - (a - b) / Second) ≤ 1.
Proof. intros _. by rewrite Z.sub_diag. Qed.

#[local] Instance seconds : JulianDay := {| julian_gap := λ a b, (a - b) / Second; julian_gap_near := seconds_near |}.

Definition laptop : Device := mkDevice 1 "laptop" None None 0 0 None None None 10.
Definition home : Address := mkAddress 1 1 "198.51.100.7" true EventSourceHeartbeat 0 0.
Definition lease (ttl : Z) : Rule := mkRule 1 1 RuleTypeDeviceAddressLease true (Some (JObj [("ttl_seconds", JNum ttl)])) 0 0.

Definition beat (seconds : Z) : AddressEventRow := mkAddressEventRow 1 true EventSourceHeartbeat EventTriggerSchedule (seconds * Second).

Definition events (times : list Z) : gmap Z AddressEventRow := list_to_map (imap (λ i t, (Z.of_nat i + 1, beat t)) times).

Definition tables (ttl : Z) (times : list Z) : db :=
  on_rules (λ _, {[(1, RuleTypeDeviceAddressLease) := lease ttl]}) (on_address_events (λ _, events times)
    (on_addresses (λ _, {[1 := home]}) (on_devices (λ _, {[1 := laptop]}) empty_db))).

(** Eleven renewals, the last one late. *)
Definition d0 : db := tables 60 [0; 50; 100; 150; 200; 250; 300; 350; 400; 450; 500; 600].
Definition w0 : world := world_of d0 (Hour) [].
Definition hour : AddressHistoryQuery := mkAddressHistoryQuery 0 Hour [] None 0.
Definition whole : AddressHistoryTuningQuery := mkTuningQuery 0 Hour None.
Definition row0 : tuningCandidateRow := nth 0 (addressHistoryTuningPerDevice whole d0) (mkTuningRow 0 "" 0 0 0 0).

Example tuning_measures_lateness_witness :
  tuning_TTLSeconds row0 < tuning_P95GapSeconds row0 ∧ tuning_RenewalCount row0 = 11 ∧
  device_ttl d0 1 = Some 60 ∧ tuning_LateRenewalCount row0 = 1.
Proof.
  assert (row0 ∈ addressHistoryTuningPerDevice whole d0) as Hin by (apply list_elem_of_In; vm_compute; left; reflexivity).
  assert (Forall (λ r, gap_of r ≠ 60) (group hr_DeviceID (tuning_Device row0) (tuning_renewals whole d0))) as Hne.
  { vm_compute. repeat constructor; discriminate. }
  rewrite Forall_forall in Hne. destruct (tuning_measures_lateness whole d0 row0 Hin) as (H1 & H2 & _ & H3 & H4).
  assert (tuning_TTLSeconds row0 = 60) as Et by (vm_compute; reflexivity). rewrite Et in H4. destruct (H4 ltac:(lia) Hne) as [H5 _].
  split; [apply H3; vm_compute; reflexivity|]. split; [rewrite H2; vm_compute; reflexivity|]. split.
  - assert (tuning_Device row0 = 1) as E by (vm_compute; reflexivity). rewrite E in H1. rewrite H1. vm_compute. reflexivity.
  - rewrite H5. vm_compute. reflexivity.
Defined.

Example histogram_counts_worst_once_witness :
  ∃ bs, GetAddressHistoryHistogram hour false w0 = (Ok bs, w0) ∧ length bs = 13%nat ∧
    band (nth 1 bs (mkHistoryBucket 0 0 0 0 0)) TTLRiskCritical = 0 ∧ band (nth 2 bs (mkHistoryBucket 0 0 0 0 0)) TTLRiskBreached = 1.
Proof.
  destruct (addressHistoryConditions hour) as [cond|e] eqn:Hc; [|discriminate Hc].
  destruct (histogram_counts_worst_once hour cond false w0 eq_refl ltac:(vm_compute; discriminate) Hc) as (bs & E & Hts & _ & _).
  exists bs. split; [exact E|]. split; [rewrite <-(length_fmap bucket_Timestamp), Hts; vm_compute; reflexivity|].
  vm_compute in E. injection E as <-. split; reflexivity.
Defined.

(** Renewals that come exactly at the TTL: each is late and at risk, and
    the device is not ranked. *)
Example late_at_the_ttl_not_ranked :
  let d := tables 60 [0; 60; 120; 180; 240; 300; 360; 420; 480; 540; 600; 660] in
  (tuning_LateRenewalCount <$> addressHistoryTuningPerDevice whole d) = [11] ∧ (tuning_candidates whole d).1 = [].
Proof. split; vm_compute; reflexivity. Qed.

(** The kind of an event is not independent of the retention: once the
    events before it are pruned, a renewal creates the address. *)
Example pruned_renewal_creates :
  let kinds d := hr_Kind <$> addressHistoryEnriched d in
  let pruned := (DeleteAddressEventsOlderThan (100 * Second) false w0).2 in
  take 3 (drop 2 (kinds d0)) = [AddressEventKindRefresh; AddressEventKindRefresh; AddressEventKindRefresh] ∧
  take 3 (kinds (w_db pruned)) = [AddressEventKindCreated; AddressEventKindRefresh; AddressEventKindRefresh].
Proof. split; vm_compute; reflexivity. Qed.
End HistoryDemo.
