(* ===== verification/Interfaces.v ===== *)
(** * Interfaces: what the event-driven services require of the others

    [internal/lease] and [internal/maxaddr] are given a rule reader, an
    address reader and an address writer as Go interfaces
    ([TTLConfigRetriever], [MaxAddressesProvider], [EnabledAddressFetcher],
    [AddressDisabler]).  Each is a class here, with the contract its clients
    rely on; App.v discharges the contracts with the rule and device
    services. *)

From S2P Require Import Prelude GoLib Schema Store Crypto Device DeviceInv.

Local Open Scope Z_scope.

(** Reading a rule's value is a function of the rules and changes nothing. *)
Class TTLConfigRetriever := {
  GetTTLSeconds : DeviceID → M (option Z);
  ttl_of : gmap (DeviceID * RuleType) Rule → DeviceID → result (option Z);
  GetTTLSeconds_run dev tx w : no_faults w → GetTTLSeconds dev tx w = (ttl_of (rules (w_db w)) dev, w);
  GetTTLSeconds_keeps I dev : keeps I (GetTTLSeconds dev);
}.

Class MaxAddressesProvider := {
  GetMaxAddresses : DeviceID → M (option Z);
  max_of : gmap (DeviceID * RuleType) Rule → DeviceID → result (option Z);
  GetMaxAddresses_run dev tx w : no_faults w → GetMaxAddresses dev tx w = (max_of (rules (w_db w)) dev, w);
  GetMaxAddresses_keeps I dev : keeps I (GetMaxAddresses dev);
  max_of_positive rs dev n : max_of rs dev = Ok (Some n) → 1 ≤ n;
}.

(** The enabled addresses of a device, most recently updated first. *)
Class EnabledAddressFetcher := {
  FetchEnabled : DeviceID → M (list Address);
  FetchEnabled_run dev tx w : no_faults w → FetchEnabled dev tx w = (Ok (enabled_addresses_of (w_db w) dev), w);
  FetchEnabled_keeps I dev : keeps I (FetchEnabled dev);
}.

(** Addresses stored under their own ids. *)
Definition addresses_keyed (d : db) : Prop := ∀ i a, addresses d !! i = Some a → Address_ID a = i.

(** The table of addresses after disabling some of them at [t]. *)
Definition disabled_in (ids : list AddressID) (source : EventSource) (t : time) (d d' : db) : Prop :=
  address_write d d' ∧
  ∀ i, addresses d' !! i = if decide (i ∈ ids) then with_state false source t <$> addresses d !! i else addresses d !! i.

(** Disabling a batch of existing addresses succeeds and disables exactly
    those; it keeps the invariant of the device tables even when it fails. *)
Class AddressDisabler := {
  Disable : list AddressID → EventSource → EventTrigger → M unit;
  Disable_run ids src trg w :
    no_faults w → addresses_keyed (w_db w) → Forall (λ i, is_Some (addresses (w_db w) !! i)) ids →
    ∃ w', Disable ids src trg false w = (Ok tt, w') ∧ no_faults w' ∧ disabled_in ids src (w_now w) (w_db w) (w_db w');
  Disable_keeps ids src trg : keeps device_inv (Disable ids src trg);
}.

#[export] Hint Resolve GetTTLSeconds_keeps GetMaxAddresses_keeps FetchEnabled_keeps Disable_keeps : pw.
