(* ===== verification/Rule.v ===== *)
(** * Rule: the per-device rules ([internal/rule])

    A device has at most one rule of each type, with its configuration kept
    as JSON: a lease rule gives its addresses a time to live, a
    max-active-addresses rule bounds how many are enabled.  The domain
    (rule.go), the repository, the service and the HTTP handlers, with what
    each operation does and which of its failures a handler can report. *)

From S2P Require Import Prelude GoLib Schema Store Http.

Local Open Scope string_scope.
Local Open Scope Z_scope.

Class RuleObservers := {
  rule_observers : list (RuleEvent → world → world);
  rule_observers_inert : inert_observers rule_observers;
}.

#[export] Hint Resolve rule_observers_inert : pw.

(** ** JSON

    [encoding/json] into a struct with one [int] field: names match up to
    simple case folding (two non-ASCII runes fold to ASCII letters, U+017F to
    [s] and U+212A to [k]), the last match wins, [null] leaves the field
    alone, a value of another kind is an error. *)
Fixpoint fold_name (s : string) : string :=
  match s with
  | "" => ""
  | String a ((String b ((String c r') as r2)) as r) =>
      if (byte_val a =? 197) && (byte_val b =? 191) then String "s" (fold_name r2)
      else if (byte_val a =? 226) && (byte_val b =? 132) && (byte_val c =? 170) then String "k" (fold_name r')
      else String (lower_byte a) (fold_name r)
  | String a ((String b r2) as r) =>
      if (byte_val a =? 197) && (byte_val b =? 191) then String "s" (fold_name r2)
      else String (lower_byte a) (fold_name r)
  | String a r => String (lower_byte a) (fold_name r)
  end.

Definition unmarshal_fields (name : string) (fields : list (string * json)) : option Z :=
  foldl (λ acc kv,
    if bool_decide (fold_name kv.1 = name) then
      match acc, kv.2 with
      | None, _ => None
      | Some _, JNum n => if (- 2 ^ 63 <=? n) && (n <? 2 ^ 63) then Some n else None
      | Some v, JNull => Some v
      | Some _, _ => None
      end
    else acc) (Some 0) fields.

Definition unmarshal_int (name : string) (raw : option json) : option Z :=
  match raw with
  | None => None
  | Some JNull => Some 0
  | Some (JObj fields) => unmarshal_fields name fields
  | Some _ => None
  end.

(** [json.Marshal] of the same struct. *)
Definition marshal_int (name : string) (n : Z) : json := JObj [(name, JNum n)].

(** ** Domain: rule.go *)

Record DeviceAddressLeaseConfig := mkDeviceAddressLeaseConfig { TTLSeconds : Z }.

Record DeviceAddressLeaseRule := mkDeviceAddressLeaseRule {
  dalr_ID : RuleID; dalr_DeviceID : DeviceID; dalr_Enabled : bool; dalr_Config : DeviceAddressLeaseConfig;
  dalr_CreatedAt : time; dalr_UpdatedAt : time;
}.

Record MaxActiveAddressesConfig := mkMaxActiveAddressesConfig { MaxAddresses : Z }.

Record MaxActiveAddressesRule := mkMaxActiveAddressesRule {
  maar_ID : RuleID; maar_DeviceID : DeviceID; maar_Enabled : bool; maar_Config : MaxActiveAddressesConfig;
  maar_CreatedAt : time; maar_UpdatedAt : time; maar_ActiveAddressCount : Z;
}.

Definition parseDeviceAddressLeaseConfig (raw : option json) : result DeviceAddressLeaseConfig :=
  match unmarshal_int "ttl_seconds" raw with
  | None => Err ErrInvalidRuleConfig
  | Some n => if n <? 0 then Err ErrInvalidRuleConfig else Ok (mkDeviceAddressLeaseConfig n)
  end.

Definition ToDeviceAddressLeaseRule (r : Rule) : result DeviceAddressLeaseRule :=
  if negb (bool_decide (Rule_RuleType r = RuleTypeDeviceAddressLease)) then Err ErrInvalidRuleConfig
  else match parseDeviceAddressLeaseConfig (Rule_Config r) with
       | Err e => Err e
       | Ok config => Ok (mkDeviceAddressLeaseRule (Rule_ID r) (Rule_DeviceID r) (Rule_Enabled r) config
                            (Rule_CreatedAt r) (Rule_UpdatedAt r))
       end.

Definition NewDeviceAddressLeaseConfig (addressTTLSeconds : Z) : result DeviceAddressLeaseConfig :=
  if addressTTLSeconds <? 0 then Err ErrInvalidRuleConfig else Ok (mkDeviceAddressLeaseConfig addressTTLSeconds).

Definition NewMaxActiveAddressesConfig (maxAddresses : Z) : result MaxActiveAddressesConfig :=
  if maxAddresses <? 1 then Err ErrInvalidMaxAddresses else Ok (mkMaxActiveAddressesConfig maxAddresses).

Definition parseMaxActiveAddressesConfig (raw : option json) : result MaxActiveAddressesConfig :=
  match unmarshal_int "max_addresses" raw with
  | None => Err ErrInvalidRuleConfig
  | Some n => if n <? 1 then Err ErrInvalidRuleConfig else Ok (mkMaxActiveAddressesConfig n)
  end.

Definition ToMaxActiveAddressesRule (r : Rule) : result MaxActiveAddressesRule :=
  if negb (bool_decide (Rule_RuleType r = RuleTypeMaxActiveAddresses)) then Err ErrInvalidRuleConfig
  else match parseMaxActiveAddressesConfig (Rule_Config r) with
       | Err e => Err e
       | Ok config => Ok (mkMaxActiveAddressesRule (Rule_ID r) (Rule_DeviceID r) (Rule_Enabled r) config
                            (Rule_CreatedAt r) (Rule_UpdatedAt r) 0)
       end.

(** ** Repository *)

Definition GetRuleByDeviceAndType (deviceID : DeviceID) (ruleType : RuleType) : M Rule :=
  map_err (no_rows ErrRuleNotFound) (get_row (λ _ d, rules d !! (deviceID, ruleType))).

(** [mapRepositoryError]. *)
Definition mapRepositoryError (e : error) : error := match e with ErrForeignKey => ErrDeviceNotFound | _ => e end.

Definition with_rule (enabled : bool) (config : option json) (t : time) (r : Rule) : Rule :=
  mkRule (Rule_ID r) (Rule_DeviceID r) (Rule_RuleType r) enabled config (Rule_CreatedAt r) t.

Definition DisableRule (deviceID : DeviceID) (ruleType : RuleType) : M Rule :=
  map_err (λ e, mapRepositoryError (no_rows ErrRuleNotFound e)) (exec (λ t d,
    match rules d !! (deviceID, ruleType) with
    | None => Err ErrNoRows
    | Some r => let r' := with_rule false (Rule_Config r) t r in
                Ok (r', on_rules (<[(deviceID, ruleType) := r']>) d)
    end)).

Definition next_rule_id (d : db) : RuleID := 1 + map_fold (λ _ r acc, Z.max (Rule_ID r) acc) 0 (rules d).

(** The upsert both [Enable...RuleConfig] statements are. *)
Definition upsert_rule (deviceID : DeviceID) (ruleType : RuleType) (config : json) : M Rule :=
  map_err mapRepositoryError (exec (λ t d,
    match devices d !! deviceID with
    | None => Err ErrForeignKey
    | Some _ =>
        let r := match rules d !! (deviceID, ruleType) with
                 | Some r => with_rule true (Some config) t r
                 | None => mkRule (next_rule_id d) deviceID ruleType true (Some config) t t
                 end in
        Ok (r, on_rules (<[(deviceID, ruleType) := r]>) d)
    end)).

Definition EnableDeviceAddressLeaseRuleConfig (deviceID : DeviceID) (config : DeviceAddressLeaseConfig) : M Rule :=
  upsert_rule deviceID RuleTypeDeviceAddressLease (marshal_int "ttl_seconds" (TTLSeconds config)).

Definition EnableMaxActiveAddressesRuleConfig (deviceID : DeviceID) (config : MaxActiveAddressesConfig) : M Rule :=
  upsert_rule deviceID RuleTypeMaxActiveAddresses (marshal_int "max_addresses" (MaxAddresses config)).

Definition CountEnabledAddresses (deviceID : DeviceID) : M Z :=
  query (λ _ d, Z.of_nat (length (filter (λ a, Address_DeviceID a = deviceID ∧ Address_IsEnabled a = true) (rows (addresses d))))).

(** ** The rules of a page of devices: device_rules_view.go *)

Inductive DeviceRuleSummary :=
  | AutoExpiry (enabled : bool) (ttlSeconds : Z)
  | MaxActive (enabled : bool) (limit : Z).

Definition ruleSummaryFromRow (ruleType : RuleType) (enabled : bool) (config : option json) : option DeviceRuleSummary :=
  let raw := mkRule 0 0 ruleType enabled config 0 0 in
  match ruleType with
  | RuleTypeDeviceAddressLease =>
      match ToDeviceAddressLeaseRule raw with
      | Ok lease => Some (AutoExpiry (dalr_Enabled lease) (TTLSeconds (dalr_Config lease)))
      | Err _ => None
      end
  | RuleTypeMaxActiveAddresses =>
      match ToMaxActiveAddressesRule raw with
      | Ok maxRule => Some (MaxActive (maar_Enabled maxRule) (MaxAddresses (maar_Config maxRule)))
      | Err _ => None
      end
  end.

(** [ORDER BY device_id, rule_type]: "device_lease" sorts first. *)
Definition rule_rank (t : RuleType) : Z := match t with RuleTypeDeviceAddressLease => 0 | RuleTypeMaxActiveAddresses => 1 end.
Definition rule_before (x y : Rule) : Prop :=
  2 * Rule_DeviceID x + rule_rank (Rule_RuleType x) ≤ 2 * Rule_DeviceID y + rule_rank (Rule_RuleType y).
#[export] Instance rule_before_dec x y : Decision (rule_before x y).
Proof. unfold rule_before. apply _. Defined.

Definition RulesForDevices (deviceIDs : list DeviceID) : M (gmap DeviceID (list DeviceRuleSummary)) :=
  match deviceIDs with
  | [] => mret ∅
  | _ =>
      rws ← query (λ _ d, merge_sort rule_before (filter (λ r, Rule_DeviceID r ∈ deviceIDs) (map_to_list (rules d)).*2));
      mret (foldl (λ byDevice r,
        match ruleSummaryFromRow (Rule_RuleType r) (Rule_Enabled r) (Rule_Config r) with
        | None => byDevice
        | Some summary => <[Rule_DeviceID r := (default [] (byDevice !! Rule_DeviceID r) ++ [summary])%list]> byDevice
        end) ∅ rws)
  end.

(** ** Service and handlers *)

Section service.
Context `{RuleObservers}.

Definition notifyRuleObservers (e : RuleEvent) : M unit := notify rule_observers e.

Definition find_rule (deviceID : DeviceID) (ruleType : RuleType) : M (option Rule) :=
  catch (Some <$> GetRuleByDeviceAndType deviceID ruleType)
    (λ e, if decide (e = ErrRuleNotFound) then mret None else throw e).

Definition GetDeviceAddressLeaseTTLSeconds (deviceID : DeviceID) : M (option Z) :=
  rule ← find_rule deviceID RuleTypeDeviceAddressLease;
  match rule with
  | None => mret None
  | Some rule =>
      if negb (Rule_Enabled rule) then mret None
      else match ToDeviceAddressLeaseRule rule with
           | Err _ => throw ErrInvalidRuleConfig
           | Ok r => mret (Some (TTLSeconds (dalr_Config r)))
           end
  end.

Definition GetDeviceAddressLeaseRule (deviceID : DeviceID) : M DeviceAddressLeaseRule :=
  rule ← find_rule deviceID RuleTypeDeviceAddressLease;
  match rule with
  | None => mret (mkDeviceAddressLeaseRule 0 deviceID false (mkDeviceAddressLeaseConfig 0) 0 0)
  | Some rule => of_result (ToDeviceAddressLeaseRule rule)
  end.

Definition EnableDeviceAddressLeaseRule (deviceID : DeviceID) (ttlSeconds : Z) : M DeviceAddressLeaseRule :=
  config ← of_result (NewDeviceAddressLeaseConfig ttlSeconds);
  newRule ← EnableDeviceAddressLeaseRuleConfig deviceID config;
  t ← now;
  _ ← notifyRuleObservers (mkRuleEvent RuleEventTypeEnabled deviceID RuleTypeDeviceAddressLease (Some (TTLSeconds config)) t);
  of_result (ToDeviceAddressLeaseRule newRule).

Definition DisableDeviceAddressLeaseRule (deviceID : DeviceID) : M DeviceAddressLeaseRule :=
  rule ← DisableRule deviceID RuleTypeDeviceAddressLease;
  t ← now;
  _ ← notifyRuleObservers (mkRuleEvent RuleEventTypeDisabled deviceID RuleTypeDeviceAddressLease None t);
  of_result (ToDeviceAddressLeaseRule rule).

Definition with_count (count : Z) (r : MaxActiveAddressesRule) : MaxActiveAddressesRule :=
  mkMaxActiveAddressesRule (maar_ID r) (maar_DeviceID r) (maar_Enabled r) (maar_Config r) (maar_CreatedAt r)
    (maar_UpdatedAt r) count.

Definition GetMaxActiveAddressesRule (deviceID : DeviceID) : M MaxActiveAddressesRule :=
  rule ← find_rule deviceID RuleTypeMaxActiveAddresses;
  result ← match rule with
           | None => mret (mkMaxActiveAddressesRule 0 deviceID false (mkMaxActiveAddressesConfig 0) 0 0 0)
           | Some rule => of_result (ToMaxActiveAddressesRule rule)
           end;
  count ← CountEnabledAddresses deviceID;
  mret (with_count count result).

Definition GetMaxActiveAddresses (deviceID : DeviceID) : M (option Z) :=
  rule ← find_rule deviceID RuleTypeMaxActiveAddresses;
  match rule with
  | None => mret None
  | Some rule =>
      if negb (Rule_Enabled rule) then mret None
      else match ToMaxActiveAddressesRule rule with
           | Err _ => throw ErrInvalidRuleConfig
           | Ok r => mret (Some (MaxAddresses (maar_Config r)))
           end
  end.

Definition EnableMaxActiveAddressesRule (deviceID : DeviceID) (maxAddresses : Z) : M MaxActiveAddressesRule :=
  config ← of_result (NewMaxActiveAddressesConfig maxAddresses);
  newRule ← EnableMaxActiveAddressesRuleConfig deviceID config;
  t ← now;
  _ ← notifyRuleObservers (mkRuleEvent RuleEventTypeEnabled deviceID RuleTypeMaxActiveAddresses None t);
  result ← of_result (ToMaxActiveAddressesRule newRule);
  count ← CountEnabledAddresses deviceID;
  mret (with_count count result).

Definition DisableMaxActiveAddressesRule (deviceID : DeviceID) : M MaxActiveAddressesRule :=
  rule ← DisableRule deviceID RuleTypeMaxActiveAddresses;
  of_result (ToMaxActiveAddressesRule rule).

(** *** handler.go: a body is ([enabled], the optional limit, the count) *)

Definition lease_rule_toResponse (r : DeviceAddressLeaseRule) : bool * option Z :=
  (dalr_Enabled r, if dalr_ID r =? 0 then None else Some (TTLSeconds (dalr_Config r))).

Definition max_rule_toResponse (r : MaxActiveAddressesRule) : bool * option Z * Z :=
  (maar_Enabled r, if maar_ID r =? 0 then None else Some (MaxAddresses (maar_Config r)), maar_ActiveAddressCount r).

Definition handler_GetDeviceAddressLeaseRule (deviceID : DeviceID) : M (Response (bool * option Z)) :=
  respond (GetDeviceAddressLeaseRule deviceID) (λ r, mkResponse 200 (Some (lease_rule_toResponse r))) (λ _, 500).

Definition handler_PutDeviceAddressLeaseRule (deviceID : DeviceID) (ttlSeconds : Z) : M (Response (bool * option Z)) :=
  respond (EnableDeviceAddressLeaseRule deviceID ttlSeconds) (λ r, mkResponse 200 (Some (lease_rule_toResponse r)))
    (λ e, if decide (e = ErrDeviceNotFound) then 404 else if decide (e = ErrInvalidTTL) then 400 else 500).

Definition handler_DisableDeviceAddressLeaseRule (deviceID : DeviceID) : M (Response unit) :=
  respond (DisableDeviceAddressLeaseRule deviceID) (λ _, mkResponse 204 None)
    (λ e, if decide (e = ErrRuleNotFound) then 204 else 500).

Definition handler_GetMaxActiveAddressesRule (deviceID : DeviceID) : M (Response (bool * option Z * Z)) :=
  respond (GetMaxActiveAddressesRule deviceID) (λ r, mkResponse 200 (Some (max_rule_toResponse r))) (λ _, 500).

Definition handler_PutMaxActiveAddressesRule (deviceID : DeviceID) (maxAddresses : Z) : M (Response (bool * option Z * Z)) :=
  respond (EnableMaxActiveAddressesRule deviceID maxAddresses) (λ r, mkResponse 200 (Some (max_rule_toResponse r)))
    (λ e, if decide (e = ErrDeviceNotFound) then 404 else if decide (e = ErrInvalidMaxAddresses) then 400 else 500).

Definition handler_DisableMaxActiveAddressesRule (deviceID : DeviceID) : M (Response unit) :=
  respond (DisableMaxActiveAddressesRule deviceID) (λ _, mkResponse 204 None)
    (λ e, if decide (e = ErrRuleNotFound) then 204 else 500).
End service.

(** ** What the rule operations do *)

Lemma unmarshal_marshal name n :
  fold_name name = name → in_int64 n → unmarshal_int name (Some (marshal_int name n)) = Some n.
Proof.
  intros Hname [Hlo Hhi]. cbn. rewrite bool_decide_eq_true_2 by done.
  by rewrite (proj2 (Z.leb_le _ _) Hlo), (proj2 (Z.ltb_lt _ _) Hhi).
Qed.

Lemma parse_lease n : 0 ≤ n < 2 ^ 63 →
  parseDeviceAddressLeaseConfig (Some (marshal_int "ttl_seconds" n)) = Ok (mkDeviceAddressLeaseConfig n).
Proof.
  intros Hn. unfold parseDeviceAddressLeaseConfig. rewrite unmarshal_marshal by (done || (unfold in_int64; lia)).
  by rewrite (proj2 (Z.ltb_ge _ _)) by lia.
Qed.

Lemma parse_max n : 1 ≤ n < 2 ^ 63 →
  parseMaxActiveAddressesConfig (Some (marshal_int "max_addresses" n)) = Ok (mkMaxActiveAddressesConfig n).
Proof.
  intros Hn. unfold parseMaxActiveAddressesConfig. rewrite unmarshal_marshal by (done || (unfold in_int64; lia)).
  by rewrite (proj2 (Z.ltb_ge _ _)) by lia.
Qed.

(** The row an upsert writes. *)
Definition upserted (d : db) (dev : DeviceID) (ty : RuleType) (config : json) (t : time) : Rule :=
  match rules d !! (dev, ty) with
  | Some r => with_rule true (Some config) t r
  | None => mkRule (next_rule_id d) dev ty true (Some config) t t
  end.

Lemma upsert_rule_run dev ty config tx w :
  no_faults w →
  upsert_rule dev ty config tx w =
    match devices (w_db w) !! dev with
    | None => (Err ErrDeviceNotFound, w)
    | Some _ => let r := upserted (w_db w) dev ty config (w_now w) in
                (Ok r, set_db (on_rules (<[(dev, ty) := r]>) (w_db w)) w)
    end.
Proof. intros Hnf. unfold upsert_rule. rewrite map_err_run, exec_run by done. by destruct (devices (w_db w) !! dev). Qed.

Lemma find_rule_run dev ty tx w : no_faults w → find_rule dev ty tx w = (Ok (rules (w_db w) !! (dev, ty)), w).
Proof.
  intros Hnf. unfold find_rule, GetRuleByDeviceAndType. rewrite catch_run, fmap_run, map_err_run, get_row_run by done.
  destruct (rules (w_db w) !! (dev, ty)); [done|]. cbn [no_rows]. by rewrite decide_True.
Qed.

(** The rules of a sound table are of the type and device they are keyed by. *)
Definition rules_keyed (d : db) : Prop :=
  ∀ dev ty r, rules d !! (dev, ty) = Some r → Rule_DeviceID r = dev ∧ Rule_RuleType r = ty.

Lemma upserted_type d dev ty config t : rules_keyed d → Rule_RuleType (upserted d dev ty config t) = ty.
Proof. intros Hk. unfold upserted. destruct (rules d !! (dev, ty)) eqn:E; [|done]. by apply Hk in E as []. Qed.

Lemma upserted_config d dev ty config t :
  Rule_Config (upserted d dev ty config t) = Some config ∧ Rule_Enabled (upserted d dev ty config t) = true.
Proof. unfold upserted. by destruct (rules d !! (dev, ty)). Qed.

Section rule_spec.
Context `{RuleObservers}.

(** The outcome of enabling the lease rule, observers included. *)
Lemma EnableDeviceAddressLeaseRule_run dev ttl tx w :
  no_faults w → rules_keyed (w_db w) → ttl < 2 ^ 63 →
  EnableDeviceAddressLeaseRule dev ttl tx w =
    if ttl <? 0 then (Err ErrInvalidRuleConfig, w)
    else match devices (w_db w) !! dev with
         | None => (Err ErrDeviceNotFound, w)
         | Some _ =>
             let r := upserted (w_db w) dev RuleTypeDeviceAddressLease (marshal_int "ttl_seconds" ttl) (w_now w) in
             let w1 := set_db (on_rules (<[(dev, RuleTypeDeviceAddressLease) := r]>) (w_db w)) w in
             (Ok (mkDeviceAddressLeaseRule (Rule_ID r) (Rule_DeviceID r) true (mkDeviceAddressLeaseConfig ttl) (Rule_CreatedAt r) (Rule_UpdatedAt r)),
              foldl (λ w o, o (mkRuleEvent RuleEventTypeEnabled dev RuleTypeDeviceAddressLease (Some ttl) (w_now w1)) w) w1 rule_observers)
         end.
Proof.
  intros Hnf Hk Hlt. unfold EnableDeviceAddressLeaseRule, NewDeviceAddressLeaseConfig. rewrite bind_run.
  destruct (ttl <? 0) eqn:Hneg; [done|]. apply Z.ltb_ge in Hneg. cbn [of_result]. rewrite ret_run.
  unfold EnableDeviceAddressLeaseRuleConfig. rewrite bind_run, upsert_rule_run by done. cbn [TTLSeconds].
  destruct (devices (w_db w) !! dev); [|done]. cbv zeta. rewrite bind_run, now_run, bind_run.
  unfold notifyRuleObservers. rewrite notify_run. unfold ToDeviceAddressLeaseRule.
  rewrite upserted_type, bool_decide_eq_true_2 by done. cbn [negb].
  destruct (upserted_config (w_db w) dev RuleTypeDeviceAddressLease (marshal_int "ttl_seconds" ttl) (w_now w)) as [-> ->].
  by rewrite parse_lease by lia.
Qed.

Lemma EnableMaxActiveAddressesRule_status dev n tx w :
  no_faults w → rules_keyed (w_db w) → n < 2 ^ 63 →
  ∃ w', w_db w' = (if n <? 1 then w_db w else match devices (w_db w) !! dev with
                   | None => w_db w
                   | Some _ => on_rules (<[(dev, RuleTypeMaxActiveAddresses) :=
                                  upserted (w_db w) dev RuleTypeMaxActiveAddresses (marshal_int "max_addresses" n) (w_now w)]>) (w_db w)
                   end) ∧
    ∃ r, EnableMaxActiveAddressesRule dev n tx w = (r, w') ∧
      match r with
      | Ok m => 1 ≤ n ∧ is_Some (devices (w_db w) !! dev) ∧ maar_Config m = mkMaxActiveAddressesConfig n ∧ maar_Enabled m = true
      | Err e => if n <? 1 then e = ErrInvalidMaxAddresses else devices (w_db w) !! dev = None ∧ e = ErrDeviceNotFound
      end.
Proof.
  intros Hnf Hk Hlt. unfold EnableMaxActiveAddressesRule, NewMaxActiveAddressesConfig. rewrite bind_run.
  destruct (n <? 1) eqn:Hneg; [by eexists; split; [|eexists]|]. apply Z.ltb_ge in Hneg. cbn [of_result]. rewrite ret_run.
  unfold EnableMaxActiveAddressesRuleConfig. rewrite bind_run, upsert_rule_run by done. cbn [MaxAddresses].
  destruct (devices (w_db w) !! dev) as [v|]; [|by eexists; split; [|eexists]]. cbv zeta. rewrite bind_run, now_run, bind_run.
  unfold notifyRuleObservers. rewrite notify_run. unfold ToMaxActiveAddressesRule.
  rewrite upserted_type, bool_decide_eq_true_2 by done. cbn [negb].
  destruct (upserted_config (w_db w) dev RuleTypeMaxActiveAddresses (marshal_int "max_addresses" n) (w_now w)) as [-> ->].
  rewrite parse_max by lia. rewrite bind_run. cbn [of_result]. rewrite ret_run, bind_run. unfold CountEnabledAddresses.
  set (e := mkRuleEvent _ _ _ _ _). set (w1 := set_db _ w).
  destruct (foldl_inert rule_observers e rule_observers_inert w1) as (Edb & Ef & _).
  rewrite query_run by (unfold no_faults; by rewrite Ef). eexists. split; [exact Edb|]. eexists. by split; [|repeat split].
Qed.

(** A lease rule round-trips.  In a fault-free world, enabling it
    for an existing device with any TTL that is not negative succeeds, and
    the TTL that the lease service then reads is exactly that one, and is
    [None] again once the rule is disabled, which keeps the stored TTL and
    the rule's id; no other rule is touched. *)
Theorem lease_rule_roundtrip dev ttl tx w :
  no_faults w → rules_keyed (w_db w) → is_Some (devices (w_db w) !! dev) → 0 ≤ ttl < 2 ^ 63 →
  ∃ r1 w1 r2 w2,
    EnableDeviceAddressLeaseRule dev ttl tx w = (Ok r1, w1) ∧ GetDeviceAddressLeaseTTLSeconds dev tx w1 = (Ok (Some ttl), w1) ∧
    DisableDeviceAddressLeaseRule dev tx w1 = (Ok r2, w2) ∧ GetDeviceAddressLeaseTTLSeconds dev tx w2 = (Ok None, w2) ∧
    dalr_Config r2 = dalr_Config r1 ∧ dalr_ID r2 = dalr_ID r1 ∧
    ∀ k, k ≠ (dev, RuleTypeDeviceAddressLease) →
      rules (w_db w1) !! k = rules (w_db w) !! k ∧ rules (w_db w2) !! k = rules (w_db w) !! k.
Proof.
  intros Hnf Hk [v Hv] Httl. rewrite EnableDeviceAddressLeaseRule_run by (done || lia).
  rewrite (proj2 (Z.ltb_ge _ _)), Hv by lia. cbv zeta.
  set (r := upserted _ _ _ _ _). set (e := mkRuleEvent _ _ _ _ _). set (w0 := set_db _ w).
  destruct (foldl_inert rule_observers e rule_observers_inert w0) as (Edb & Ef & En & _).
  set (w1 := foldl _ w0 rule_observers) in *. assert (no_faults w1) as Hnf1 by (unfold no_faults; by rewrite Ef).
  destruct (upserted_config (w_db w) dev RuleTypeDeviceAddressLease (marshal_int "ttl_seconds" ttl) (w_now w)) as [Ec Ee].
  fold r in Ec, Ee. pose proof (upserted_type (w_db w) dev RuleTypeDeviceAddressLease (marshal_int "ttl_seconds" ttl) (w_now w) Hk) as Et.
  fold r in Et.
  assert (rules (w_db w1) !! (dev, RuleTypeDeviceAddressLease) = Some r) as Hr by (rewrite Edb; apply lookup_insert_eq).
  unfold DisableDeviceAddressLeaseRule, DisableRule.
  set (r2 := with_rule false (Rule_Config r) (w_now w1) r). set (e2 := mkRuleEvent RuleEventTypeDisabled dev RuleTypeDeviceAddressLease None (w_now w1)).
  set (w2 := set_db (on_rules <[(dev, RuleTypeDeviceAddressLease) := r2]> (w_db w1)) w1).
  destruct (foldl_inert rule_observers e2 rule_observers_inert w2) as (Edb2 & Ef2 & _).
  eexists _, w1, (mkDeviceAddressLeaseRule (Rule_ID r) (Rule_DeviceID r) false (mkDeviceAddressLeaseConfig ttl) (Rule_CreatedAt r) (w_now w1)), (foldl (λ w o, o e2 w) w2 rule_observers).
  set (w3 := foldl _ w2 rule_observers) in *.
  assert (no_faults w3) as Hnf3 by (unfold no_faults; by rewrite Ef2).
  split; [done|]. split; [|split; [|split; [|split; [done|split; [done|]]]]].
  - unfold GetDeviceAddressLeaseTTLSeconds. rewrite bind_run, find_rule_run, Hr by done. cbv iota beta. rewrite Ee. cbn [negb].
    unfold ToDeviceAddressLeaseRule. rewrite Et, bool_decide_eq_true_2 by done. cbn [negb]. by rewrite Ec, parse_lease.
  - rewrite bind_run, map_err_run, exec_run by done. rewrite Hr. cbv beta iota zeta. rewrite bind_run, now_run, bind_run.
    unfold notifyRuleObservers. rewrite notify_run. fold r2 w2. unfold ToDeviceAddressLeaseRule. change (Rule_RuleType r2) with (Rule_RuleType r).
    change (Rule_Config r2) with (Rule_Config r). rewrite Et, bool_decide_eq_true_2 by done. cbn [negb]. by rewrite Ec, parse_lease.
  - unfold GetDeviceAddressLeaseTTLSeconds. rewrite bind_run, find_rule_run by done. rewrite Edb2. cbn. by rewrite lookup_insert_eq.
  - intros k Hne. rewrite Edb2. cbn. rewrite Edb. cbn. by rewrite !lookup_insert_ne.
Qed.

(** The status of a PUT of a rule.  For the lease rule: 200, 404
    for an unknown device, and 500 for a negative TTL; never the 400 the
    handler has for an invalid TTL, and a TTL of 0 is accepted.  For the
    max-active-addresses rule: 200, 404, and 400 for a limit below 1. *)
Theorem put_rule_status dev n tx w :
  no_faults w → rules_keyed (w_db w) → n < 2 ^ 63 →
  (Status <$> handler_PutDeviceAddressLeaseRule dev n) tx w =
    (Ok (if n <? 0 then 500 else if devices (w_db w) !! dev then 200 else 404), (handler_PutDeviceAddressLeaseRule dev n tx w).2) ∧
  (Status <$> handler_PutMaxActiveAddressesRule dev n) tx w =
    (Ok (if n <? 1 then 400 else if devices (w_db w) !! dev then 200 else 404), (handler_PutMaxActiveAddressesRule dev n tx w).2).
Proof.
  intros Hnf Hk Hlt. split.
  - rewrite fmap_run. unfold handler_PutDeviceAddressLeaseRule, respond. rewrite bind_run. unfold try.
    rewrite EnableDeviceAddressLeaseRule_run by done. by destruct (n <? 0), (devices (w_db w) !! dev).
  - rewrite fmap_run. unfold handler_PutMaxActiveAddressesRule, respond. rewrite bind_run. unfold try.
    destruct (EnableMaxActiveAddressesRule_status dev n tx w Hnf Hk Hlt) as (w' & _ & [m|e] & -> & Hr); cbv beta iota; rewrite ret_run.
    + destruct Hr as (Hn & [v ->] & _). by rewrite (proj2 (Z.ltb_ge _ _)) by lia.
    + destruct (n <? 1); [by subst|]. destruct Hr as (-> & ->). done.
Qed.
End rule_spec.

(** ** The theorems at a concrete database *)
Module RuleDemo.
#[local] Instance no_rule_observers : RuleObservers := { rule_observers_inert := List.Forall_nil _ }.

Definition laptop : Device := mkDevice 1 "laptop" None None 0 0 None None None 1.
Definition start : world := world_of (on_devices (<[1 := laptop]>) empty_db) (100 * Second) [].

Lemma keyed : rules_keyed (w_db start).
Proof. intros dev ty r Hr. cbn in Hr. by rewrite lookup_empty in Hr. Qed.
End RuleDemo.

Example lease_rule_roundtrip_witness :
  let '(_, w1) := @EnableDeviceAddressLeaseRule RuleDemo.no_rule_observers 1 3600 false RuleDemo.start in
  (GetDeviceAddressLeaseTTLSeconds 1 false w1).1 = Ok (Some 3600).
Proof.
  destruct (lease_rule_roundtrip (H := RuleDemo.no_rule_observers) 1 3600 false RuleDemo.start eq_refl RuleDemo.keyed)
    as (r1 & w1 & _ & _ & E & G & _); [by eexists|lia|]. rewrite E, G. reflexivity.
Defined.

Example put_rule_status_witness :
  ((Status <$> @handler_PutDeviceAddressLeaseRule RuleDemo.no_rule_observers 1 (-1)) false RuleDemo.start).1 = Ok 500.
Proof.
  rewrite (proj1 (put_rule_status (H := RuleDemo.no_rule_observers) 1 (-1) false RuleDemo.start eq_refl RuleDemo.keyed
    ltac:(vm_compute; reflexivity))). reflexivity.
Defined.
