(* ===== verification/Lease.v ===== *)
(** * Lease: expiry of addresses ([internal/lease])

    A listener keeps one lease row per enabled address, from the address
    events it receives; a job disables the addresses whose lease has
    expired.  The events reach the listener through two bounded queues,
    [w_lease_events] and [w_lease_rule_events]. *)

From S2P Require Import Prelude GoLib Schema Store Crypto Device DeviceInv Interfaces.

Local Open Scope Z_scope.

(** ** address_lease.go *)

(** [time.Duration(ttl) * time.Second] is a product of 64-bit integers. *)
Definition expiresAtFromTTL (now : time) (addressTTL : option Z) : option time :=
  match addressTTL with
  | Some ttl => let duration := wrap64 (ttl * Second) in Some (now + duration)
  | None => None
  end.

Definition NewAddressLease (now : time) (addressID : AddressID) (deviceID : DeviceID) (addressTTL : option Z) : AddressLease :=
  mkAddressLease 0 deviceID addressID (expiresAtFromTTL now addressTTL) now now.

(** ** repository.go *)

Definition next_lease_id (d : db) : AddressLeaseID := 1 + map_fold (λ _ l acc, Z.max (AddressLease_ID l) acc) 0 (leases d).

Definition UpsertAddressLease (l : AddressLease) : M AddressLease :=
  exec (λ _ d,
    match devices d !! AddressLease_DeviceID l, addresses d !! AddressLease_AddressID l with
    | Some _, Some _ =>
        let row := match leases d !! AddressLease_AddressID l with
                   | Some o => mkAddressLease (AddressLease_ID o) (AddressLease_DeviceID l) (AddressLease_AddressID l)
                                 (AddressLease_ExpiresAt l) (AddressLease_UpdatedAt l) (AddressLease_CreatedAt o)
                   | None => mkAddressLease (next_lease_id d) (AddressLease_DeviceID l) (AddressLease_AddressID l)
                                 (AddressLease_ExpiresAt l) (AddressLease_UpdatedAt l) (AddressLease_CreatedAt l)
                   end in
        Ok (row, on_leases (<[AddressLease_AddressID l := row]>) d)
    | _, _ => Err ErrForeignKey
    end).

Definition DeleteAddressLease (addressID : AddressID) : M unit :=
  exec (λ _ d, Ok (tt, on_leases (delete addressID) d)).

Definition lease_expired (t : time) (l : AddressLease) : bool :=
  match AddressLease_ExpiresAt l with Some e => e <=? t | None => false end.

(** The scan is in rowid order. *)
Definition lease_before (x y : AddressLease) : Prop := AddressLease_ID x ≤ AddressLease_ID y.
#[export] Instance lease_before_dec x y : Decision (lease_before x y).
Proof. unfold lease_before. apply _. Defined.

Definition expired_ids (t : time) (d : db) : list AddressID :=
  AddressLease_AddressID <$> filter (λ l, lease_expired t l = true) (merge_sort lease_before (map_to_list (leases d)).*2).

Definition GetExpiredAddressIDs : M (list AddressID) := query expired_ids.

Definition SetDeviceAddressLeasesExpiry (deviceID : DeviceID) (expiresAt : option time) (updatedAt : time) : M unit :=
  exec (λ _ d, Ok (tt, on_leases (update_where (λ l, AddressLease_DeviceID l =? deviceID)
    (λ l, mkAddressLease (AddressLease_ID l) (AddressLease_DeviceID l) (AddressLease_AddressID l) expiresAt updatedAt
            (AddressLease_CreatedAt l))) d)).

(** ** service.go, expiry_job.go *)

(** [OnAddressEvent], [OnRuleEvent]: a non-blocking send; a full queue or a
    cancelled request drops the event. *)
Definition lease_OnAddressEvent (e : AddressEvent) (w : world) : world :=
  if w_cancelled w then w else set_lease_events (try_send 500 e (w_lease_events w)) w.

Definition lease_OnRuleEvent (e : RuleEvent) (w : world) : world :=
  if w_cancelled w then w else set_lease_rule_events (try_send 500 e (w_lease_rule_events w)) w.

Section service.
Context `{TTLConfigRetriever} `{AddressDisabler}.

Definition AddAddressLease (deviceID : DeviceID) (addressID : AddressID) : M AddressLease :=
  addressTTL ← GetTTLSeconds deviceID;
  t ← now;
  UpsertAddressLease (NewAddressLease t addressID deviceID addressTTL).

Definition ClearAddressLease (deviceID : DeviceID) (addressID : AddressID) : M unit := DeleteAddressLease addressID.

(** The body of [RunListener] for an address event: errors are logged. *)
Definition lease_handle_address (e : AddressEvent) : M unit :=
  if IsAddressEnabled e
  then catch (_ ← AddAddressLease (AddressEvent_DeviceID e) (AddressEvent_AddressID e); mret tt) (λ _, mret tt)
  else catch (ClearAddressLease (AddressEvent_DeviceID e) (AddressEvent_AddressID e)) (λ _, mret tt).

Definition handleLeaseRuleEvent (e : RuleEvent) : M unit :=
  if negb (bool_decide (RuleEvent_RuleType e = RuleTypeDeviceAddressLease)) then mret tt
  else
    let expiresAt := expiresAtFromTTL (RuleEvent_OccurredAt e) (RuleEvent_TTLSeconds e) in
    catch (SetDeviceAddressLeasesExpiry (RuleEvent_DeviceID e) expiresAt (RuleEvent_OccurredAt e)) (λ _, mret tt).

(** One iteration of [RunListener] for each of its two channels; an empty
    channel blocks, which is a step that does nothing. *)
Definition lease_recv_address : M unit := λ tx w,
  match w_lease_events w with
  | [] => (Ok tt, w)
  | e :: q => lease_handle_address e tx (set_lease_events q w)
  end.

Definition lease_recv_rule : M unit := λ tx w,
  match w_lease_rule_events w with
  | [] => (Ok tt, w)
  | e :: q => handleLeaseRuleEvent e tx (set_lease_rule_events q w)
  end.

(** [ExpiryJob.Run]. *)
Definition ExpiryJob_Run : M unit :=
  ids ← GetExpiredAddressIDs;
  match ids with
  | [] => mret tt
  | _ => Disable ids EventSourceExpiry EventTriggerSystem
  end.
End service.
