(* ===== verification/LeaseSpec.v ===== *)
(** * LeaseSpec: what the lease service does

    The listener brings the lease table in line with the last event of each
    address; the expiry job disables exactly the addresses whose lease has
    expired; the arithmetic of a TTL and where it overflows. *)

From S2P Require Import Prelude GoLib Schema Store Crypto Device DeviceInv Interfaces Lease.

Local Open Scope Z_scope.

(** ** TTL arithmetic *)

(** A TTL of up to 9223372036 seconds (the 292 years a 64-bit duration
    holds) gives exactly that many seconds of lease; one more second, and up
    to twice as many, wraps around and gives a lease that has expired before
    it starts, so that the next run of the job disables the address. *)
Theorem expiresAtFromTTL_bounds now ttl :
  (0 ≤ ttl ≤ 9223372036 → expiresAtFromTTL now (Some ttl) = Some (now + ttl * Second)) ∧
  (9223372037 ≤ ttl ≤ 18446744073 → ∃ e, expiresAtFromTTL now (Some ttl) = Some e ∧ e < now).
Proof.
  unfold expiresAtFromTTL, Second. split; intros Hr.
  - rewrite wrap64_id; [done|]. unfold in_int64. lia.
  - eexists. split; [done|]. unfold wrap64.
    replace (ttl * 1000000000 + 2 ^ 63) with ((ttl * 1000000000 + 2 ^ 63 - 2 ^ 64) + 1 * 2 ^ 64) by lia.
    rewrite Z.mod_add, Z.mod_small by lia. lia.
Qed.

Example expiresAtFromTTL_bounds_witness :
  expiresAtFromTTL 0 (Some 3600) = Some (3600 * Second) ∧ ∃ e, expiresAtFromTTL 0 (Some 9223372037) = Some e ∧ e < 0.
Proof.
  split; [apply (proj1 (expiresAtFromTTL_bounds 0 3600)); lia|apply (proj2 (expiresAtFromTTL_bounds 0 9223372037)); lia].
Defined.

(** ** The expired leases *)

Lemma elem_of_expired t d i :
  i ∈ expired_ids t d ↔ ∃ k l, leases d !! k = Some l ∧ lease_expired t l = true ∧ AddressLease_AddressID l = i.
Proof.
  unfold expired_ids. rewrite list_elem_of_fmap. setoid_rewrite list_elem_of_filter. setoid_rewrite merge_sort_Permutation.
  setoid_rewrite list_elem_of_fmap. split.
  - intros (l & -> & He & [k l'] & -> & Hin). apply elem_of_map_to_list in Hin. eauto 10.
  - intros (k & l & Hk & He & <-). exists l. split; [done|]. split; [done|]. exists (k, l).
    by rewrite elem_of_map_to_list.
Qed.

(** The lease table: a row per existing address, under its id. *)
Definition lease_inv (d : db) : Prop :=
  ∀ a l, leases d !! a = Some l → AddressLease_AddressID l = a ∧ is_Some (addresses d !! a) ∧ is_Some (devices d !! AddressLease_DeviceID l).

(** Has the address a lease that ends at [t] or before? *)
Definition has_expired (t : time) (d : db) (a : AddressID) : bool :=
  match AddressLease_ExpiresAt <$> leases d !! a with Some (Some e) => bool_decide (e ≤ t) | _ => false end.

Lemma expired_ids_has t d i : lease_inv d → i ∈ expired_ids t d ↔ has_expired t d i = true.
Proof.
  intros I. rewrite elem_of_expired. unfold has_expired. split.
  - intros (k & l & Hk & He & <-). destruct (I k l Hk) as [-> _]. rewrite Hk. cbn. unfold lease_expired in He.
    destruct (AddressLease_ExpiresAt l); [|done]. by apply bool_decide_eq_true_2, Z.leb_le.
  - destruct (leases d !! i) as [l|] eqn:Hl; [|done]. cbn. destruct (AddressLease_ExpiresAt l) as [e|] eqn:Ee; [|done].
    intros He%bool_decide_eq_true_1. exists i, l. destruct (I i l Hl) as [-> _]. split; [done|]. split; [|done].
    unfold lease_expired. rewrite Ee. by apply Z.leb_le.
Qed.

Section lease_spec.
Context `{TTLConfigRetriever} `{AddressDisabler}.

(** C27: without faults, one run of the expiry job succeeds and disables
    exactly the addresses whose lease expired by now, stamping them with
    the expiry source; every other address keeps its row, and no table but
    the addresses and their audit trail changes. *)
Theorem ExpiryJob_disables_exactly_expired w :
  no_faults w → addresses_keyed (w_db w) → lease_inv (w_db w) →
  ∃ w', ExpiryJob_Run false w = (Ok tt, w') ∧ address_write (w_db w) (w_db w') ∧
    ∀ i, addresses (w_db w') !! i =
      if has_expired (w_now w) (w_db w) i then with_state false EventSourceExpiry (w_now w) <$> addresses (w_db w) !! i
      else addresses (w_db w) !! i.
Proof.
  intros Hnf Hk I. unfold ExpiryJob_Run, GetExpiredAddressIDs. rewrite bind_run, query_run by done.
  pose proof (λ i, expired_ids_has (w_now w) (w_db w) i I) as Hin.
  destruct (expired_ids (w_now w) (w_db w)) as [|x ids] eqn:E.
  { exists w. split; [done|]. split; [apply address_write_refl|]. intros i.
    destruct (has_expired _ _ i) eqn:Hi; [|done]. apply Hin, elem_of_nil in Hi. done. }
  destruct (Disable_run (x :: ids) EventSourceExpiry EventTriggerSystem w Hnf Hk) as (w' & Hrun & _ & Hw & Hl).
  { rewrite Forall_forall. intros i Hi%Hin. unfold has_expired in Hi.
    destruct (leases (w_db w) !! i) as [l|] eqn:Hlease; [|done]. by destruct (I i l Hlease) as (_ & ? & _). }
  exists w'. split; [exact Hrun|]. split; [exact Hw|]. intros i. rewrite Hl. specialize (Hin i).
  destruct (has_expired _ _ i); case_decide as Hd; try done; [destruct Hd; by apply Hin|by apply Hin in Hd].
Qed.

(** ** The listener *)

(** The row an enabling event gives its address. *)
Definition leased (d : db) (t : time) (e : AddressEvent) (ttl : option Z) : AddressLease :=
  let id := match leases d !! AddressEvent_AddressID e with Some o => AddressLease_ID o | None => next_lease_id d end in
  let created := match leases d !! AddressEvent_AddressID e with Some o => AddressLease_CreatedAt o | None => t end in
  mkAddressLease id (AddressEvent_DeviceID e) (AddressEvent_AddressID e) (expiresAtFromTTL t ttl) t created.

(** An event the listener can act on: its rows exist, its rule parses. *)
Definition event_ok (d : db) (e : AddressEvent) : Prop :=
  is_Some (devices d !! AddressEvent_DeviceID e) ∧ is_Some (addresses d !! AddressEvent_AddressID e) ∧
  ∃ ttl, ttl_of (rules d) (AddressEvent_DeviceID e) = Ok ttl.

Lemma handle_address_run e w :
  no_faults w → event_ok (w_db w) e →
  ∃ ttl, ttl_of (rules (w_db w)) (AddressEvent_DeviceID e) = Ok ttl ∧
    lease_handle_address e false w = (Ok tt, set_db (on_leases
      (if IsAddressEnabled e then <[AddressEvent_AddressID e := leased (w_db w) (w_now w) e ttl]> else delete (AddressEvent_AddressID e)) (w_db w)) w).
Proof.
  intros Hnf ([v Hv] & [a Ha] & ttl & Httl). exists ttl. split; [done|]. unfold lease_handle_address. destruct (IsAddressEnabled e).
  - rewrite catch_run, bind_run. unfold AddAddressLease. rewrite bind_run, GetTTLSeconds_run, Httl by done.
    rewrite bind_run, now_run. unfold UpsertAddressLease, NewAddressLease. rewrite exec_run by done.
    cbn [AddressLease_DeviceID AddressLease_AddressID AddressLease_ExpiresAt AddressLease_UpdatedAt AddressLease_CreatedAt].
    rewrite Hv, Ha. unfold leased. by destruct (leases (w_db w) !! AddressEvent_AddressID e).
  - rewrite catch_run. unfold ClearAddressLease, DeleteAddressLease. by rewrite exec_run.
Qed.

(** Receive every pending address event. *)
Fixpoint lease_drain (n : nat) : M unit :=
  match n with
  | O => mret tt
  | S n => lease_recv_address ≫= λ _, lease_drain n
  end.

Definition last_event (q : list AddressEvent) (a : AddressID) : option AddressEvent :=
  last (filter (λ e, AddressEvent_AddressID e = a) q).

Lemma last_event_cons e q a :
  last_event (e :: q) a =
    match last_event q a with
    | Some x => Some x
    | None => if decide (AddressEvent_AddressID e = a) then Some e else None
    end.
Proof.
  unfold last_event. rewrite filter_cons. case_decide; [|by destruct (last _)].
  rewrite last_cons. done.
Qed.

(** The listener brings the lease table in line with the addresses.
    Draining its queue without faults leaves, for every address with a
    pending event, a lease if and only if the last of its events enables
    it, with the expiry its device's rule gives from the moment of
    handling; leases of other addresses and all other tables are kept. *)
Theorem lease_drain_last_event_wins w :
  no_faults w → Forall (event_ok (w_db w)) (w_lease_events w) →
  ∃ w', lease_drain (length (w_lease_events w)) false w = (Ok tt, w') ∧ w_lease_events w' = [] ∧ no_faults w' ∧
    (∃ f, w_db w' = on_leases f (w_db w)) ∧
    ∀ a, match last_event (w_lease_events w) a with
         | None => leases (w_db w') !! a = leases (w_db w) !! a
         | Some e =>
             if IsAddressEnabled e
             then ∃ l ttl, leases (w_db w') !! a = Some l ∧ ttl_of (rules (w_db w)) (AddressEvent_DeviceID e) = Ok ttl ∧
                    AddressLease_AddressID l = a ∧ AddressLease_DeviceID l = AddressEvent_DeviceID e ∧
                    AddressLease_ExpiresAt l = expiresAtFromTTL (w_now w) ttl
             else leases (w_db w') !! a = None
         end.
Proof.
  remember (w_lease_events w) as q eqn:Eq. revert w Eq. induction q as [|e q IH]; intros w Eq Hnf Hok.
  { exists w. split; [done|]. split; [done|]. split; [done|]. split; [exists id; by destruct (w_db w)|done]. }
  apply Forall_cons_1 in Hok as [He Hok]. cbn [length lease_drain]. rewrite bind_run. unfold lease_recv_address. rewrite <-Eq.
  destruct (handle_address_run e (set_lease_events q w) Hnf He) as (ttl & Httl & ->). cbn [w_db set_lease_events] in *.
  set (g := if IsAddressEnabled e then _ else _). set (w1 := set_db _ _).
  destruct (IH w1 eq_refl Hnf Hok) as (w' & Hrun & Hq & Hnf' & (f & Hf) & Hl). exists w'.
  split; [exact Hrun|]. split; [done|]. split; [done|]. split; [exists (f ∘ g); rewrite Hf; by destruct (w_db w)|].
  intros a. specialize (Hl a). rewrite last_event_cons. destruct (last_event q a) as [x|]; [exact Hl|].
  rewrite Hl. subst w1 g. cbn [w_db set_db leases on_leases w_now set_lease_events].
  case_decide as Ha; destruct (IsAddressEnabled e).
  - subst a. rewrite lookup_insert_eq. by eexists _, ttl.
  - subst a. apply lookup_delete_eq.
  - by rewrite lookup_insert_ne.
  - by rewrite lookup_delete_ne.
Qed.

(** A lease rule event re-arms every lease of its device, from the
    moment of the event: to that moment plus the new TTL when the rule is
    enabled, to no expiry when it is disabled; every other lease, and any
    event of another rule type, leaves the table as it is. *)
Theorem lease_rule_event_rearms e tx w :
  no_faults w →
  ∃ w', handleLeaseRuleEvent e tx w = (Ok tt, w') ∧ (∃ f, w_db w' = on_leases f (w_db w)) ∧
    ∀ a, leases (w_db w') !! a =
      (λ l, if bool_decide (RuleEvent_RuleType e = RuleTypeDeviceAddressLease) && (AddressLease_DeviceID l =? RuleEvent_DeviceID e)
            then mkAddressLease (AddressLease_ID l) (AddressLease_DeviceID l) (AddressLease_AddressID l)
                   (expiresAtFromTTL (RuleEvent_OccurredAt e) (RuleEvent_TTLSeconds e)) (RuleEvent_OccurredAt e) (AddressLease_CreatedAt l)
            else l) <$> leases (w_db w) !! a.
Proof.
  intros Hnf. unfold handleLeaseRuleEvent. case_bool_decide as Ht; cbn [negb andb].
  - rewrite catch_run. unfold SetDeviceAddressLeasesExpiry. rewrite exec_run by done. eexists. split; [done|].
    split; [by eexists|]. intros a. cbn. by rewrite lookup_update_where.
  - exists w. split; [done|]. split; [exists id; by destruct (w_db w)|]. intros a. by destruct (leases (w_db w) !! a).
Qed.
End lease_spec.
