(* ===== verification/MaxAddr.v ===== *)
(** * MaxAddr: the bound on enabled addresses ([internal/maxaddr])

    A listener that, when a device gets a new enabled address or a new
    limit, disables its least recently updated addresses beyond the limit,
    never the one just registered. *)

From S2P Require Import Prelude GoLib Schema Store Crypto Device DeviceInv Interfaces.

Local Open Scope Z_scope.

(** [OnAddressEvent]: only creations and enablings are queued. *)
Definition maxaddr_OnAddressEvent (e : AddressEvent) (w : world) : world :=
  if negb (bool_decide (AddressEvent_Type e = EventTypeAddressCreated)) && negb (bool_decide (AddressEvent_Type e = EventTypeAddressEnabled))
  then w
  else set_maxaddr_events (try_send 500 e (w_maxaddr_events w)) w.

Definition maxaddr_OnRuleEvent (e : RuleEvent) (w : world) : world :=
  if negb (bool_decide (RuleEvent_RuleType e = RuleTypeMaxActiveAddresses)) || negb (bool_decide (RuleEvent_Type e = RuleEventTypeEnabled))
  then w
  else set_maxaddr_rule_events (try_send 100 e (w_maxaddr_rule_events w)) w.

(** The loop over the enabled addresses, from the last to the first: skip
    the protected one, stop when [excess] are collected.  [l] is the slice
    reversed, [acc] is [toDisable]. *)
Fixpoint collect_evicted (justRegisteredID : AddressID) (excess : nat) (l : list Address) (acc : list AddressID) : list AddressID :=
  match l with
  | [] => acc
  | a :: l =>
      if Address_ID a =? justRegisteredID then collect_evicted justRegisteredID excess l acc
      else
        let acc := (acc ++ [Address_ID a])%list in
        if Nat.eqb (length acc) excess then acc else collect_evicted justRegisteredID excess l acc
  end.

Section service.
Context `{MaxAddressesProvider} `{EnabledAddressFetcher} `{AddressDisabler}.

(** [enforce]: every error is logged and ends it. *)
Definition enforce (deviceID : DeviceID) (justRegisteredID : AddressID) : M unit :=
  r ← try (GetMaxAddresses deviceID);
  match r with
  | Err _ => mret tt
  | Ok None => mret tt
  | Ok (Some maxAddresses) =>
      r ← try (FetchEnabled deviceID);
      match r with
      | Err _ => mret tt
      | Ok enabledAddresses =>
          let excess := Z.of_nat (length enabledAddresses) - maxAddresses in
          if excess <=? 0 then mret tt
          else
            let toDisable := collect_evicted justRegisteredID (Z.to_nat excess) (reverse enabledAddresses) [] in
            match toDisable with
            | [] => mret tt
            | _ => catch (Disable toDisable EventSourceLimitExceeded EventTriggerSystem) (λ _, mret tt)
            end
      end
  end.

(** One iteration of [RunListener] for each of its channels. *)
Definition maxaddr_recv_address : M unit := λ tx w,
  match w_maxaddr_events w with
  | [] => (Ok tt, w)
  | e :: q => enforce (AddressEvent_DeviceID e) (AddressEvent_AddressID e) tx (set_maxaddr_events q w)
  end.

Definition maxaddr_recv_rule : M unit := λ tx w,
  match w_maxaddr_rule_events w with
  | [] => (Ok tt, w)
  | e :: q => enforce (RuleEvent_DeviceID e) 0 tx (set_maxaddr_rule_events q w)
  end.

Lemma enforce_keeps dev id : keeps device_inv (enforce dev id).
Proof. unfold enforce. structural. Qed.

(** ** What enforcement does *)

(** The evicted: the first [excess] of the others, oldest first. *)
Lemma collect_evicted_take id excess l acc :
  (length acc < excess)%nat →
  collect_evicted id excess l acc = acc ++ take (excess - length acc) (Address_ID <$> filter (λ a, Address_ID a ≠ id) l).
Proof.
  revert acc. induction l as [|a l IH]; intros acc Hlt; cbn [collect_evicted].
  { rewrite filter_nil. cbn [fmap list_fmap]. by rewrite take_nil, app_nil_r. }
  destruct (Z.eqb_spec (Address_ID a) id) as [E|E].
  { rewrite filter_cons_False by tauto. by apply IH. }
  rewrite filter_cons_True by done. cbn [fmap list_fmap].
  assert (excess - length acc = S (excess - length (acc ++ [Address_ID a])))%nat as -> by (rewrite length_app; cbn; lia).
  cbn [take]. destruct (Nat.eqb_spec (length (acc ++ [Address_ID a])) excess) as [En|En].
  - by rewrite En, Nat.sub_diag.
  - rewrite IH by (rewrite length_app in *; cbn in *; lia). by rewrite <-app_assoc.
Qed.

(** The addresses evicted from a slice of enabled ones. *)
Definition evicted (id : AddressID) (n : Z) (l : list Address) : list AddressID :=
  take (Z.to_nat (Z.of_nat (length l) - n)) (Address_ID <$> filter (λ a, Address_ID a ≠ id) (reverse l)).

Lemma enforce_run dev id n w :
  no_faults w → addresses_keyed (w_db w) → max_of (rules (w_db w)) dev = Ok (Some n) →
  ∃ w', enforce dev id false w = (Ok tt, w') ∧
    disabled_in (evicted id n (enabled_addresses_of (w_db w) dev)) EventSourceLimitExceeded (w_now w) (w_db w) (w_db w').
Proof.
  intros Hnf Hk Hmax. unfold enforce. rewrite bind_run. unfold try at 1. rewrite GetMaxAddresses_run, Hmax by done.
  rewrite bind_run. unfold try. rewrite FetchEnabled_run by done. set (l := enabled_addresses_of (w_db w) dev).
  cbv zeta. unfold evicted. destruct (Z.leb_spec (Z.of_nat (length l) - n) 0) as [Hle|Hlt].
  { exists w. split; [done|]. replace (Z.to_nat _) with 0%nat by lia. split; [apply address_write_refl|]. intros i. cbn. by rewrite decide_False by apply not_elem_of_nil. }
  rewrite collect_evicted_take by (cbn; lia). cbn [app length]. rewrite Nat.sub_0_r.
  set (ids := take _ _). destruct ids as [|x ids'] eqn:E.
  { exists w. split; [done|]. split; [apply address_write_refl|]. intros i. by rewrite decide_False by apply not_elem_of_nil. }
  rewrite catch_run, <-E. destruct (Disable_run ids EventSourceLimitExceeded EventTriggerSystem w Hnf Hk) as (w' & -> & _ & Hd); [|by exists w'].
  rewrite Forall_forall. intros i Hi%subseteq_take. apply list_elem_of_fmap in Hi as (a & -> & Ha).
  apply list_elem_of_filter in Ha as [_ Ha]. rewrite elem_of_reverse in Ha. apply elem_of_enabled_addresses in Ha as (_ & _ & j & Hj).
  by rewrite (Hk _ _ Hj), Hj.
Qed.

Lemma NoDup_enabled_ids d dev : addresses_keyed d → NoDup (Address_ID <$> enabled_addresses_of d dev).
Proof.
  intros Hk. unfold enabled_addresses_of. rewrite order_desc_Permutation. eapply sublist_NoDup; [by apply (NoDup_rows_on _ _ Hk)|].
  apply fmap_sublist, sublist_filter.
Qed.

Lemma evicted_NoDup id n d dev : addresses_keyed d → NoDup (evicted id n (enabled_addresses_of d dev)).
Proof.
  intros Hk. unfold evicted. eapply sublist_NoDup; [|apply sublist_take]. eapply sublist_NoDup; [|apply fmap_sublist, sublist_filter].
  rewrite reverse_Permutation. by apply NoDup_enabled_ids.
Qed.

Lemma evicted_enabled id n l i : i ∈ evicted id n l → i ≠ id ∧ i ∈ Address_ID <$> l.
Proof.
  intros Hi%subseteq_take. apply list_elem_of_fmap in Hi as (a & -> & [Hne Ha]%list_elem_of_filter).
  rewrite elem_of_reverse in Ha. split; [done|]. by apply list_elem_of_fmap_2.
Qed.

(** All but the protected one can be evicted, so a limit of at least one
    is always reached. *)
Lemma evicted_length id n l :
  NoDup (Address_ID <$> l) → 1 ≤ n → Z.of_nat (length (evicted id n l)) = Z.max 0 (Z.of_nat (length l) - n).
Proof.
  intros Hnd Hn. unfold evicted. rewrite length_take, length_fmap.
  assert (length l ≤ S (length (filter (λ a, Address_ID a ≠ id) (reverse l))))%nat; [|lia].
  rewrite <-(length_reverse l). assert (NoDup (Address_ID <$> reverse l)) as Hr by (by rewrite reverse_Permutation).
  clear -Hr. induction (reverse l) as [|a k IH]; [cbn; lia|]. apply NoDup_cons in Hr as [Ha Hr]. rewrite filter_cons.
  case_decide as Hd; [cbn; specialize (IH Hr); lia|]. subst id.
  cut (filter (λ b, Address_ID b ≠ Address_ID a) k = k); [by intros ->|]. clear -Ha. induction k as [|b k IH]; [done|].
  cbn in Ha. apply not_elem_of_cons in Ha as [Hne Ha]. rewrite filter_cons_True by congruence. by rewrite IH.
Qed.

(** The evicted are the least recently updated of the others. *)
Lemma evicted_oldest id n d dev a b :
  addresses_keyed d → a ∈ enabled_addresses_of d dev → b ∈ enabled_addresses_of d dev →
  Address_ID a ∈ evicted id n (enabled_addresses_of d dev) → Address_ID b ∉ evicted id n (enabled_addresses_of d dev) →
  Address_ID b ≠ id → Address_UpdatedAt a ≤ Address_UpdatedAt b.
Proof.
  intros Hk Ha Hb Hai Hbi Hne. pose proof (NoDup_enabled_ids d dev Hk) as Hnd.
  set (l := enabled_addresses_of d dev) in *. unfold evicted in *. set (k := Z.to_nat _) in *.
  set (F := filter (λ a, Address_ID a ≠ id) (reverse l)) in *.
  assert (StronglySorted (λ x y, Address_UpdatedAt x ≤ Address_UpdatedAt y) F) as Hs.
  { apply StronglySorted_filter. unfold l, enabled_addresses_of. eapply StronglySorted_reverse, order_desc_sorted. done. }
  rewrite <-(take_drop k F) in Hs. assert (∀ x, x ∈ l → Address_ID x ∈ Address_ID <$> take k F → x ∈ take k F) as Hinj.
  { intros x Hx (y & E & Hy)%list_elem_of_fmap. enough (y = x) as <- by done.
    assert (y ∈ l) as Hyl by (apply subseteq_take, list_elem_of_filter in Hy as [_ Hy]; by rewrite elem_of_reverse in Hy).
    apply elem_of_enabled_addresses in Hx as (_ & _ & i & Hi), Hyl as (_ & _ & j & Hj).
    rewrite (Hk _ _ Hi), (Hk _ _ Hj) in E. congruence. }
  rewrite <-fmap_take in Hai, Hbi. eapply (StronglySorted_app_order _ _ _ _ _ Hs); [by apply Hinj|].
  assert (b ∈ take k F ++ drop k F) as [Hbt|Hbd]%elem_of_app; [|exfalso; apply Hbi; by apply list_elem_of_fmap_2|done].
  rewrite take_drop. apply list_elem_of_filter. by rewrite elem_of_reverse.
Qed.

(** The enabled addresses that are left. *)
Lemma enabled_after ids src t d d' dev :
  addresses_keyed d → disabled_in ids src t d d' →
  enabled_addresses_of d' dev ≡ₚ filter (λ a, Address_ID a ∉ ids) (enabled_addresses_of d dev).
Proof.
  intros Hk [_ Hl].
  assert (addresses_keyed d') as Hk'.
  { intros i a Ha. rewrite Hl in Ha. case_decide; [|by apply Hk]. destruct (addresses d !! i) as [o|] eqn:Ho; [|done].
    injection Ha as <-. exact (Hk _ _ Ho). }
  apply NoDup_Permutation.
  - eapply NoDup_fmap_1, NoDup_enabled_ids, Hk'.
  - apply NoDup_filter. eapply NoDup_fmap_1, NoDup_enabled_ids, Hk.
  - intros a. rewrite list_elem_of_filter, !elem_of_enabled_addresses. split.
    + intros (Hd & He & i & Hi). rewrite Hl in Hi. case_decide as Hin; [by destruct (addresses d !! i); [injection Hi as <-|]|].
      rewrite (Hk _ _ Hi). split; [done|]. eauto.
    + intros (Hni & Hd & He & i & Hi). split; [done|]. split; [done|]. exists i. rewrite Hl, <-(Hk _ _ Hi).
      rewrite decide_False by done. by rewrite (Hk _ _ Hi).
Qed.

(** C26: without faults, enforcing a limit of [n] on a device leaves it
    with [min(before, n)] enabled addresses; the address just registered
    stays enabled; whatever is evicted was updated no later than whatever
    else is kept; the evicted rows are disabled with the limit's source
    and no other row of the table changes. *)
Theorem enforce_limit dev id n w :
  no_faults w → addresses_keyed (w_db w) → max_of (rules (w_db w)) dev = Ok (Some n) →
  ∃ w', enforce dev id false w = (Ok tt, w') ∧
    let before := enabled_addresses_of (w_db w) dev in
    let after := enabled_addresses_of (w_db w') dev in
    Z.of_nat (length after) = Z.min (Z.of_nat (length before)) n ∧
    (∀ a, a ∈ before → Address_ID a = id → a ∈ after) ∧
    (∀ a b, a ∈ before → a ∉ after → b ∈ after → Address_ID b ≠ id → Address_UpdatedAt a ≤ Address_UpdatedAt b) ∧
    ∀ i a, addresses (w_db w) !! i = Some a →
      addresses (w_db w') !! i = Some (if decide (a ∈ before ∧ a ∉ after) then with_state false EventSourceLimitExceeded (w_now w) a else a).
Proof.
  intros Hnf Hk Hmax. destruct (enforce_run dev id n w Hnf Hk Hmax) as (w' & Hrun & Hdis). exists w'. split; [exact Hrun|]. cbv zeta.
  pose proof (enabled_after _ _ _ _ _ dev Hk Hdis) as Hafter. destruct Hdis as [_ Hl].
  set (before := enabled_addresses_of (w_db w) dev) in *. pose proof (NoDup_enabled_ids (w_db w) dev Hk) as Hnd. fold before in Hnd.
  set (ids := evicted id n before) in *. pose proof (evicted_NoDup id n (w_db w) dev Hk) as Hids. fold before ids in Hids.
  pose proof (max_of_positive _ _ _ Hmax) as Hn.
  assert (∀ a, a ∈ before → (a ∈ enabled_addresses_of (w_db w') dev ↔ Address_ID a ∉ ids)) as Hin.
  { intros a Ha. rewrite Hafter, list_elem_of_filter. tauto. }
  split; [|split; [|split]].
  - pose proof (length_filter_notin Address_ID before ids Hnd Hids (λ k Hin, proj2 (evicted_enabled _ _ _ _ Hin))) as Hlen.
    pose proof (evicted_length id n before Hnd Hn) as Hev. fold ids in Hev. rewrite Hafter. lia.
  - intros a Ha Hid. apply Hin; [done|]. intros [Hne _]%evicted_enabled. done.
  - intros a b Ha Hna Hb Hbid. rewrite Hafter, list_elem_of_filter in Hb. destruct Hb as [Hbn Hb].
    assert (Address_ID a ∈ ids) as Hai by (apply dec_stable; rewrite <-Hin; done). clear Hna.
    by eapply evicted_oldest.
  - intros i a Ha. rewrite Hl, Ha. pose proof (Hk _ _ Ha) as Hi. destruct (decide (i ∈ ids)) as [Hii|Hii]; cbn.
    + rewrite decide_True; [done|]. subst i. pose proof (evicted_enabled _ _ _ _ Hii) as [_ Hf].
      apply list_elem_of_fmap in Hf as (a' & E & Ha'). assert (a' = a) as ->; [|split; [done|]; rewrite Hin by done; tauto].
      apply elem_of_enabled_addresses in Ha' as (_ & _ & j & Hj). rewrite (Hk _ _ Hj) in E. congruence.
    + rewrite decide_False; [done|]. intros [Hb Hnb]. apply Hnb, Hin; [done|]. by subst i.
Qed.
End service.
