(* ===== verification/Hosts.v ===== *)
(** * Hosts: hosts and host groups ([internal/hosts])

    The reconcilers take the full desired image of the hosts or of the
    groups, diff it against the tables and make them converge in one
    transaction; the repository's statements with their cascades; ignored
    suggestions; the read models of the list pages; the handlers. *)

From S2P Require Import Prelude GoLib Schema Store Slicex HostNames Http.

Local Open Scope string_scope.
Local Open Scope Z_scope.

(** [hosts.Observer], and [useraccess.Observer] of the same shape. *)
Class HostAccessObservers := {
  host_access_observers : list (unit → world → world);
  host_access_observers_inert : inert_observers host_access_observers;
}.

#[export] Hint Resolve host_access_observers_inert : pw.

(** ** repository.go *)

Definition isUniqueViolation (e : error) : bool := match e with ErrUnique _ => true | _ => false end.
Definition isFKViolation (e : error) : bool := match e with ErrForeignKey => true | _ => false end.

Definition ListHosts : M (list Host) := query (λ _ d, rows (hosts d)).

Record HostDraft := mkHostDraft { HostDraft_FQDN : string; HostDraft_GroupIDs : list HostGroupID }.

Definition CreateHost (draft : HostDraft) : M HostID :=
  map_err (λ e, if isUniqueViolation e then ErrHostConflict else e) (exec (λ t d,
    if table_exists (λ h, bool_decide (Host_FQDN h = HostDraft_FQDN draft)) (hosts d) then Err (ErrUnique "hosts.fqdn")
    else let id := fresh_id (hosts d) in
         Ok (id, on_hosts (<[id := mkHost id (HostDraft_FQDN draft) (current_timestamp t) (current_timestamp t)]>) d))).

(** [ON DELETE CASCADE] on the memberships. *)
Definition DeleteHost (id : HostID) : M unit :=
  n ← exec (λ _ d, match hosts d !! id with
                   | None => Ok (0, d)
                   | Some _ => Ok (1, on_group_members (filter (λ p, p.2 ≠ id)) (on_hosts (delete id) d))
                   end);
  if n =? 0 then throw ErrHostNotFound else mret tt.

Definition ListHostsByIDs (hostIDs : list HostID) : M (list Host) :=
  match hostIDs with
  | [] => mret []
  | _ => query (λ _ d, filter (λ h, Host_ID h ∈ hostIDs) (rows (hosts d)))
  end.

(** [INSERT INTO host_group_members]. *)
Definition insert_member (groupID : HostGroupID) (hostID : HostID) : M unit :=
  map_err (λ e, if isFKViolation e then ErrReferenceNotFound else e) (exec (λ _ d,
    if decide ((groupID, hostID) ∈ group_members d) then Err (ErrUnique "host_group_members.host_group_id, host_group_members.host_id")
    else match host_groups d !! groupID, hosts d !! hostID with
         | Some _, Some _ => Ok (tt, on_group_members ({[(groupID, hostID)]} ∪.) d)
         | _, _ => Err ErrForeignKey
         end)).

Definition SetHostGroupMembership (hostID : HostID) (groupIDs : list HostGroupID) : M unit :=
  withinTx (
    _ ← exec (λ _ d, Ok (tt, on_group_members (filter (λ p, p.2 ≠ hostID)) d));
    for_each groupIDs (λ groupID, insert_member groupID hostID)).

(** The members of a group, in the order of the covering unique index on
    (host_group_id, host_id). *)
Definition members_of (d : db) (g : HostGroupID) : list HostID :=
  merge_sort Z.le (elements (set_map snd (filter (λ p, p.1 = g) (group_members d)) : gset HostID)).

Definition with_members (hostIDs : list HostID) (g : HostGroup) : HostGroup :=
  mkHostGroup (HostGroup_ID g) (HostGroup_Name g) (HostGroup_Color g) (HostGroup_Icon g) (HostGroup_Description g)
    (HostGroup_UpdatedAt g) (HostGroup_CreatedAt g) hostIDs.

(** Two queries: the groups, without their timestamps, and the members. *)
Definition ListHostGroups : M (list HostGroup) :=
  groups ← query (λ _ d, (λ g, mkHostGroup (HostGroup_ID g) (HostGroup_Name g) (HostGroup_Color g) (HostGroup_Icon g)
                                 (HostGroup_Description g) 0 0 []) <$> rows (host_groups d));
  hostIDsByGroup ← query (λ _ d, members_of d);
  mret ((λ g, with_members (hostIDsByGroup (HostGroup_ID g)) g) <$> groups).

Definition replaceHostGroupMembers (groupID : HostGroupID) (hostIDs : list HostID) : M unit :=
  withinTx (
    _ ← exec (λ _ d, Ok (tt, on_group_members (filter (λ p, p.1 ≠ groupID)) d));
    for_each hostIDs (λ hostID, insert_member groupID hostID)).

Record HostGroupDraft := mkHostGroupDraft {
  hgd_Name : string; hgd_Color : string; hgd_Icon : string; hgd_Description : option string; hgd_HostIDs : list HostID;
}.

Definition group_name_taken (d : db) (self : option HostGroupID) (name : string) : bool :=
  table_exists (λ g, negb (bool_decide (self = Some (HostGroup_ID g))) && bool_decide (HostGroup_Name g = name)) (host_groups d).

Definition map_group_error (e : error) : error := if isUniqueViolation e then ErrHostGroupConflict else e.

Definition CreateHostGroup (draft : HostGroupDraft) : M HostGroupID :=
  withinTx (
    groupID ← map_err map_group_error (exec (λ t d,
      if group_name_taken d None (hgd_Name draft) then Err (ErrUnique "host_groups.name")
      else let id := fresh_id (host_groups d) in
           Ok (id, on_host_groups (<[id := mkHostGroup id (hgd_Name draft) (hgd_Color draft) (hgd_Icon draft) (hgd_Description draft)
                                             (current_timestamp t) (current_timestamp t) []]>) d)));
    _ ← replaceHostGroupMembers groupID (hgd_HostIDs draft);
    mret groupID).

Definition UpdateHostGroup (group : HostGroup) : M unit :=
  withinTx (
    n ← map_err map_group_error (exec (λ t d,
      match host_groups d !! HostGroup_ID group with
      | None => Ok (0, d)
      | Some g =>
          if group_name_taken d (Some (HostGroup_ID group)) (HostGroup_Name group) then Err (ErrUnique "host_groups.name")
          else Ok (1, on_host_groups (<[HostGroup_ID group :=
                 mkHostGroup (HostGroup_ID g) (HostGroup_Name group) (HostGroup_Color group) (HostGroup_Icon group)
                   (HostGroup_Description group) (current_timestamp t) (HostGroup_CreatedAt g) []]>) d)
      end));
    if n =? 0 then throw ErrHostGroupNotFound else replaceHostGroupMembers (HostGroup_ID group) (HostGroup_HostIDs group)).

(** [ON DELETE CASCADE] on the members, the user grants and the policy grants. *)
Definition DeleteHostGroup (id : HostGroupID) : M unit :=
  n ← exec (λ _ d, match host_groups d !! id with
                   | None => Ok (0, d)
                   | Some _ => Ok (1, on_group_members (filter (λ p, p.1 ≠ id)) (on_user_groups (filter (λ p, p.2 ≠ id))
                                   (on_policy_groups (filter (λ p, p.2 ≠ id)) (on_host_groups (delete id) d))))
                   end);
  if n =? 0 then throw ErrHostGroupNotFound else mret tt.

(** ** host_group.go *)

Definition sameHostIDs (a b : list HostID) : bool :=
  if negb (Nat.eqb (length a) (length b)) then false
  else forallb (λ p, p.1 =? p.2) (zip a b).

Definition equalStringPtr (a b : option string) : bool :=
  match a, b with
  | None, None => true
  | None, _ | _, None => false
  | Some a, Some b => bool_decide (a = b)
  end.

Definition SameDefinitionAs (g other : HostGroup) : bool :=
  if negb (bool_decide (HostGroup_Name g = HostGroup_Name other)) then false
  else if negb (bool_decide (HostGroup_Color g = HostGroup_Color other)) then false
  else if negb (bool_decide (HostGroup_Icon g = HostGroup_Icon other)) then false
  else if negb (equalStringPtr (HostGroup_Description g) (HostGroup_Description other)) then false
  else sameHostIDs (HostGroup_HostIDs g) (HostGroup_HostIDs other).

(** ** Desired images *)

Record DesiredHost := mkDesiredHost {
  DesiredHost_ID : option HostID; DesiredHost_FQDN : string; DesiredHost_GroupIDs : list HostGroupID;
}.

Record DesiredHostGroup := mkDesiredHostGroup {
  dhg_ID : option HostGroupID; dhg_Name : string; dhg_Color : string; dhg_Icon : string;
  dhg_Description : option string; dhg_HostIDs : list HostID;
}.

(** A loop over a seen set that stops at the first repetition. *)
Definition has_duplicate {A} `{Countable A} (l : list A) : bool := negb (bool_decide (NoDup l)).

(** [hexColorRE]: [^#[0-9a-fA-F]{6}$]. *)
Definition is_hex (c : ascii) : bool :=
  is_digit c || ((97 <=? byte_val c) && (byte_val c <=? 102)) || ((65 <=? byte_val c) && (byte_val c <=? 70)).

Definition hexColorRE (s : string) : bool :=
  match s with
  | String "#" r => Nat.eqb (String.length r) 6 && str_all is_hex r
  | _ => false
  end.

Record hostReconcilePlan := mkHostPlan {
  hp_toCreate : list HostDraft; hp_toDelete : list HostID; hp_toSetGroups : list (HostID * list HostGroupID);
}.

(** One desired host of [buildHostReconcilePlan]'s loop. *)
Definition plan_host (current : list Host) (plan : hostReconcilePlan) (h : DesiredHost) : result hostReconcilePlan :=
  match DesiredHost_ID h with
  | None =>
      if decide (DesiredHost_FQDN h ∈ Host_FQDN <$> current) then Err ErrHostConflict
      else Ok (mkHostPlan (hp_toCreate plan ++ [mkHostDraft (DesiredHost_FQDN h) (DesiredHost_GroupIDs h)])
                 (hp_toDelete plan) (hp_toSetGroups plan))
  | Some id =>
      match last (filter (λ c, Host_ID c = id) current) with
      | None => Err ErrHostNotFound
      | Some existing =>
          if bool_decide (Host_FQDN existing = DesiredHost_FQDN h)
          then Ok (mkHostPlan (hp_toCreate plan) (hp_toDelete plan) (hp_toSetGroups plan ++ [(id, DesiredHost_GroupIDs h)]))
          else Err ErrHostFQDNImmutable
      end
  end.

Fixpoint plan_hosts (current : list Host) (plan : hostReconcilePlan) (desired : list DesiredHost) : result hostReconcilePlan :=
  match desired with
  | [] => Ok plan
  | h :: desired =>
      match plan_host current plan h with
      | Err e => Err e
      | Ok plan => plan_hosts current plan desired
      end
  end.

Definition buildHostReconcilePlan (current : list Host) (desired : list DesiredHost) : result hostReconcilePlan :=
  match plan_hosts current (mkHostPlan [] [] []) desired with
  | Err e => Err e
  | Ok plan =>
      let desiredIDs := omap DesiredHost_ID desired in
      Ok (mkHostPlan (hp_toCreate plan) (filter (λ id, id ∉ desiredIDs) (Host_ID <$> current)) (hp_toSetGroups plan))
  end.

Record groupReconcilePlan := mkGroupPlan {
  gp_toCreate : list HostGroupDraft; gp_toUpdate : list HostGroup; gp_toDelete : list HostGroupID;
}.

Definition plan_group (current : list HostGroup) (plan : groupReconcilePlan) (g : DesiredHostGroup) : result groupReconcilePlan :=
  match dhg_ID g with
  | None => Ok (mkGroupPlan (gp_toCreate plan ++ [mkHostGroupDraft (dhg_Name g) (dhg_Color g) (dhg_Icon g) (dhg_Description g) (dhg_HostIDs g)])
                  (gp_toUpdate plan) (gp_toDelete plan))
  | Some id =>
      match last (filter (λ c, HostGroup_ID c = id) current) with
      | None => Err ErrHostGroupNotFound
      | Some currentGroup =>
          let candidate := mkHostGroup id (dhg_Name g) (dhg_Color g) (dhg_Icon g) (dhg_Description g) 0 0 (dhg_HostIDs g) in
          Ok (if SameDefinitionAs currentGroup candidate then plan
              else mkGroupPlan (gp_toCreate plan) (gp_toUpdate plan ++ [candidate]) (gp_toDelete plan))
      end
  end.

Fixpoint plan_groups (current : list HostGroup) (plan : groupReconcilePlan) (desired : list DesiredHostGroup) : result groupReconcilePlan :=
  match desired with
  | [] => Ok plan
  | g :: desired =>
      match plan_group current plan g with
      | Err e => Err e
      | Ok plan => plan_groups current plan desired
      end
  end.

Definition buildGroupReconcilePlan (current : list HostGroup) (desired : list DesiredHostGroup) : result groupReconcilePlan :=
  match plan_groups current (mkGroupPlan [] [] []) desired with
  | Err e => Err e
  | Ok plan =>
      let desiredIDs := omap dhg_ID desired in
      Ok (mkGroupPlan (gp_toCreate plan) (gp_toUpdate plan) (filter (λ id, id ∉ desiredIDs) (HostGroup_ID <$> current)))
  end.

(** ** Service and handlers *)

Section service.
Context `{GoUnicode} `{HostAccessObservers}.

Definition prepare_host (h : DesiredHost) : result DesiredHost :=
  let fqdn := NormaliseHost (DesiredHost_FQDN h) in
  match ValidateFQDN fqdn with
  | Err e => Err e
  | Ok _ => Ok (mkDesiredHost (DesiredHost_ID h) fqdn (Dedup (DesiredHost_GroupIDs h)))
  end.

(** [ReconcileHostsInput.prepare]. *)
Definition prepare_hosts (hs : list DesiredHost) : result (list DesiredHost) :=
  match map_result prepare_host hs with
  | Err e => Err e
  | Ok hs =>
      if has_duplicate (omap DesiredHost_ID hs) then Err ErrDuplicateHostID
      else if has_duplicate (DesiredHost_FQDN <$> hs) then Err ErrDuplicateHostFQDN
      else Ok hs
  end.

Definition prepare_group (g : DesiredHostGroup) : result DesiredHostGroup :=
  let g := mkDesiredHostGroup (dhg_ID g) (TrimSpace (dhg_Name g)) (dhg_Color g) (dhg_Icon g) (dhg_Description g) (Dedup (dhg_HostIDs g)) in
  if bool_decide (dhg_Name g = "") then Err ErrGroupNameRequired
  else if negb (hexColorRE (dhg_Color g)) then Err ErrInvalidGroupColor
  else Ok g.

(** [ReconcileHostGroupsInput.prepare]. *)
Definition prepare_groups (gs : list DesiredHostGroup) : result (list DesiredHostGroup) :=
  match map_result prepare_group gs with
  | Err e => Err e
  | Ok gs => if has_duplicate (omap dhg_ID gs) then Err ErrDuplicateGroupID else Ok gs
  end.

Definition notifyHostAccess : M unit := notify host_access_observers tt.

Definition ReconcileHosts (hs : list DesiredHost) : M unit :=
  desired ← of_result (prepare_hosts hs);
  currentHosts ← ListHosts;
  plan ← of_result (buildHostReconcilePlan currentHosts desired);
  _ ← withinTx (
    _ ← for_each (hp_toDelete plan) DeleteHost;
    _ ← for_each (hp_toCreate plan) (λ draft, newID ← CreateHost draft; SetHostGroupMembership newID (HostDraft_GroupIDs draft));
    for_each (hp_toSetGroups plan) (λ gs, SetHostGroupMembership gs.1 gs.2));
  notifyHostAccess.

(** The keys of [hostSet] are ranged over in an order Go does not fix; the
    outcome does not depend on it. *)
Definition validateReferencedHosts (groups : list DesiredHostGroup) : M unit :=
  let hostIDs := Dedup (concat (dhg_HostIDs <$> groups)) in
  match hostIDs with
  | [] => mret tt
  | _ =>
      foundHosts ← ListHostsByIDs hostIDs;
      if forallb (λ id, bool_decide (id ∈ Host_ID <$> foundHosts)) hostIDs then mret tt else throw ErrReferenceNotFound
  end.

Definition ReconcileHostGroups (gs : list DesiredHostGroup) : M unit :=
  desired ← of_result (prepare_groups gs);
  _ ← validateReferencedHosts desired;
  currentGroups ← ListHostGroups;
  plan ← of_result (buildGroupReconcilePlan currentGroups desired);
  _ ← withinTx (
    _ ← for_each (gp_toDelete plan) DeleteHostGroup;
    _ ← for_each (gp_toUpdate plan) UpdateHostGroup;
    for_each (gp_toCreate plan) (λ draft, _ ← CreateHostGroup draft; mret tt));
  notifyHostAccess.

(** Ignored suggestions. *)
Definition AddIgnoredSuggestion_row (fqdn : string) : M IgnoredHostSuggestion :=
  map_err (λ e, if isUniqueViolation e then ErrSuggestionConflict else e) (exec (λ t d,
    if table_exists (λ s, bool_decide (Suggestion_FQDN s = ToLower fqdn)) (suggestions d)
    then Err (ErrUnique "ignored_host_suggestions.fqdn")
    else let id := fresh_id (suggestions d) in
         let s := mkSuggestion id (ToLower fqdn) (current_timestamp t) in
         Ok (s, on_suggestions (<[id := s]>) d))).

Definition RemoveIgnoredSuggestionByFQDN (fqdn : string) : M unit :=
  n ← exec (λ _ d,
    let gone := table_list (λ s, bool_decide (Suggestion_FQDN s = ToLower fqdn)) (suggestions d) in
    Ok (Z.of_nat (length gone), on_suggestions (delete_where (λ s, bool_decide (Suggestion_FQDN s = ToLower fqdn))) d));
  if n =? 0 then throw ErrSuggestionNotFound else mret tt.

Definition AddIgnoredSuggestion (fqdn : string) : M IgnoredHostSuggestion :=
  let normalised := NormaliseHost fqdn in
  _ ← of_result (ValidateFQDN normalised);
  AddIgnoredSuggestion_row normalised.

(** *** handler.go *)

Definition handler_ReconcileHosts (hs : list DesiredHost) : M (Response unit) :=
  respond (ReconcileHosts hs) (λ _, mkResponse 204 None)
    (λ e, if decide (e = ErrBadRequest ∨ e = ErrDuplicateHostID ∨ e = ErrDuplicateHostFQDN ∨ e = ErrHostFQDNImmutable) then 400
          else if decide (e = ErrHostNotFound ∨ e = ErrReferenceNotFound) then 404
          else if decide (e = ErrHostConflict) then 409 else 500).

Definition handler_ReconcileHostGroups (gs : list DesiredHostGroup) : M (Response unit) :=
  respond (ReconcileHostGroups gs) (λ _, mkResponse 204 None)
    (λ e, if decide (e = ErrGroupNameRequired ∨ e = ErrInvalidGroupColor ∨ e = ErrDuplicateGroupID) then 400
          else if decide (e = ErrHostGroupNotFound ∨ e = ErrReferenceNotFound) then 404
          else if decide (e = ErrHostGroupConflict) then 409 else 500).

Definition handler_IgnoreSuggestion (fqdn : string) : M (Response IgnoredHostSuggestion) :=
  respond (AddIgnoredSuggestion fqdn) (λ s, mkResponse 201 (Some s)) (λ e, if decide (e = ErrSuggestionConflict) then 409 else 500).

Definition handler_UnignoreSuggestion (fqdn : string) : M (Response unit) :=
  respond (RemoveIgnoredSuggestionByFQDN fqdn) (λ _, mkResponse 204 None) (λ e, if decide (e = ErrSuggestionNotFound) then 404 else 500).
End service.
