(* ===== verification/HostsSpec.v ===== *)
(** * HostsSpec: the reconcilers converge

    A successful reconcile makes the tables the desired image, no more and
    no less, keeping the rows and the grants it names by id; a failed one
    changes nothing. *)

From S2P Require Import Prelude GoLib Schema Store Slicex HostNames Http Hosts.

Local Open Scope string_scope.
Local Open Scope Z_scope.

(** ** The invariant of the host tables *)

Record hosts_inv (d : db) : Prop := mkHostsInv {
  hi_host_id : ∀ i h, hosts d !! i = Some h → Host_ID h = i;
  hi_fqdn_uniq : ∀ i j h k, hosts d !! i = Some h → hosts d !! j = Some k → Host_FQDN h = Host_FQDN k → i = j;
  hi_group_id : ∀ i g, host_groups d !! i = Some g → HostGroup_ID g = i;
  hi_name_uniq : ∀ i j g k, host_groups d !! i = Some g → host_groups d !! j = Some k → HostGroup_Name g = HostGroup_Name k → i = j;
  hi_members : ∀ g h, (g, h) ∈ group_members d → is_Some (host_groups d !! g) ∧ is_Some (hosts d !! h);
}.

(** ** Statements, run without faults in a transaction *)

Section runs.
Implicit Types (w : world) (d : db).

Lemma DeleteHost_run id w h :
  no_faults w → hosts (w_db w) !! id = Some h →
  DeleteHost id true w = (Ok tt, set_db (on_group_members (filter (λ p, p.2 ≠ id)) (on_hosts (delete id) (w_db w))) w).
Proof. intros Hnf Hh. unfold DeleteHost. rewrite bind_run, exec_run, Hh by done. done. Qed.

Definition host_tables_only d d' : Prop := ∃ f g, d' = on_group_members f (on_hosts g d).

Lemma host_tables_refl d : host_tables_only d d.
Proof. exists id, id. by destruct d. Qed.

Lemma host_tables_trans d1 d2 d3 : host_tables_only d1 d2 → host_tables_only d2 d3 → host_tables_only d1 d3.
Proof. intros (f & g & ->) (f' & g' & ->). by exists (f' ∘ f), (g' ∘ g). Qed.

Lemma host_tables_groups d d' : host_tables_only d d' → host_groups d' = host_groups d.
Proof. by intros (f & g & ->). Qed.

Lemma delete_hosts_run ids w :
  no_faults w → NoDup ids → Forall (λ i, is_Some (hosts (w_db w) !! i)) ids →
  ∃ d', for_each ids DeleteHost true w = (Ok tt, set_db d' w) ∧ host_tables_only (w_db w) d' ∧
    (∀ i, hosts d' !! i = if decide (i ∈ ids) then None else hosts (w_db w) !! i) ∧
    ∀ g i, (g, i) ∈ group_members d' ↔ (g, i) ∈ group_members (w_db w) ∧ i ∉ ids.
Proof.
  revert w. induction ids as [|id ids IH]; intros w Hnf Hnd Hall.
  { exists (w_db w). split; [by destruct w|]. split; [apply host_tables_refl|]. split; [|intros g i]; intros; rewrite ?decide_False; set_solver. }
  apply NoDup_cons in Hnd as [Hid Hnd]. apply Forall_cons_1 in Hall as [[h Hh] Hall]. cbn [for_each].
  rewrite bind_run, (DeleteHost_run _ _ h) by done. set (d1 := on_group_members _ _).
  destruct (IH (set_db d1 w)) as (d' & -> & Ht & Hh' & Hm); [done|done| |].
  { rewrite Forall_forall in *. intros i Hi. cbn. rewrite lookup_delete_ne by (intros ->; done). by apply Hall. }
  exists d'. split; [done|]. split; [eapply host_tables_trans; [|exact Ht]; by eexists _, _|]. split.
  - intros i. rewrite Hh'. cbn. destruct (decide (i = id)) as [->|Hne].
    + rewrite (decide_True (P := id ∈ id :: ids)) by (by left). rewrite lookup_delete_eq. by destruct (decide (id ∈ ids)).
    + rewrite lookup_delete_ne by done. destruct (decide (i ∈ ids)); [rewrite decide_True by (by right)|rewrite decide_False by (rewrite elem_of_cons; tauto)]; done.
  - intros g i. rewrite Hm. cbn. rewrite elem_of_filter, not_elem_of_cons. cbn. tauto.
Qed.

Lemma insert_member_run g h w :
  no_faults w → is_Some (hosts (w_db w) !! h) → (g, h) ∉ group_members (w_db w) →
  insert_member g h true w =
    match host_groups (w_db w) !! g with
    | Some _ => (Ok tt, set_db (on_group_members ({[(g, h)]} ∪.) (w_db w)) w)
    | None => (Err ErrReferenceNotFound, w)
    end.
Proof.
  intros Hnf [x Hx] Hm. unfold insert_member. rewrite map_err_run, exec_run by done. rewrite decide_False by done.
  destruct (host_groups (w_db w) !! g); [|done]. by rewrite Hx.
Qed.

Lemma insert_groups_run h gs w :
  no_faults w → is_Some (hosts (w_db w) !! h) → NoDup gs → (∀ g, g ∈ gs → (g, h) ∉ group_members (w_db w)) →
  if decide (Forall (λ g, is_Some (host_groups (w_db w) !! g)) gs)
  then ∃ f, for_each gs (λ g, insert_member g h) true w = (Ok tt, set_db (on_group_members f (w_db w)) w) ∧
         ∀ p, p ∈ f (group_members (w_db w)) ↔ p ∈ group_members (w_db w) ∨ (p.1 ∈ gs ∧ p.2 = h)
  else ∃ d', for_each gs (λ g, insert_member g h) true w = (Err ErrReferenceNotFound, set_db d' w).
Proof.
  revert w. induction gs as [|g gs IH]; intros w Hnf Hh Hnd Hnew.
  { rewrite decide_True by constructor. exists id. split; [by destruct w as [[]]|]. intros p. set_solver. }
  apply NoDup_cons in Hnd as [Hg Hnd]. cbn [for_each]. rewrite bind_run, insert_member_run by (done || (apply Hnew; by left)).
  destruct (host_groups (w_db w) !! g) as [x|] eqn:Hx.
  2:{ rewrite decide_False; [exists (w_db w); by destruct w|]. intros [[? Hs] _]%Forall_cons_1. congruence. }
  specialize (IH (set_db (on_group_members ({[(g, h)]} ∪.) (w_db w)) w) Hnf Hh Hnd). cbn in IH.
  destruct (decide (Forall (λ g, is_Some (host_groups (w_db w) !! g)) gs)) as [Hall|Hall].
  - rewrite decide_True by (constructor; [by eexists|done]). destruct IH as (f & -> & Hf); [set_solver|].
    exists (λ s, f ({[(g, h)]} ∪ s)). split; [done|]. intros [p q]. rewrite Hf. set_solver.
  - rewrite decide_False by (intros [_ ?]%Forall_cons_1; done). destruct IH as (d' & Hd'); [set_solver|]. by exists d'.
Qed.

(** Replacing a host's memberships. *)
Lemma SetHostGroupMembership_run h gs w :
  no_faults w → is_Some (hosts (w_db w) !! h) → NoDup gs →
  if decide (Forall (λ g, is_Some (host_groups (w_db w) !! g)) gs)
  then ∃ f, SetHostGroupMembership h gs true w = (Ok tt, set_db (on_group_members f (w_db w)) w) ∧
         ∀ g i, (g, i) ∈ f (group_members (w_db w)) ↔ (if decide (i = h) then g ∈ gs else (g, i) ∈ group_members (w_db w))
  else ∃ d', SetHostGroupMembership h gs true w = (Err ErrReferenceNotFound, set_db d' w).
Proof.
  intros Hnf Hh Hnd. unfold SetHostGroupMembership. rewrite withinTx_nested, bind_run, exec_run by done.
  set (w1 := set_db _ w). pose proof (insert_groups_run h gs w1 Hnf Hh Hnd) as Hr. cbn in Hr.
  assert (∀ g, g ∈ gs → (g, h) ∉ group_members (w_db w1)) as Hnew by (intros g _; cbn; rewrite elem_of_filter; cbn; tauto). specialize (Hr Hnew).
  case_decide as Hall; [|destruct Hr as (d' & ->); by exists d']. destruct Hr as (x & -> & Hx).
  exists (λ s, x (filter (λ p, p.2 ≠ h) s)). split; [done|]. intros g i. rewrite Hx, elem_of_filter. cbn.
  destruct (decide (i = h)) as [->|]; tauto.
Qed.
End runs.

(** ** The create and the set loops *)

Section loops.
Implicit Types (w : world) (d : db).

(** The rows of the drafts are new, the others are as they were. *)
Record created d d' (drafts : list HostDraft) : Prop := mkCreated {
  cr_old : ∀ i h, hosts d !! i = Some h → hosts d' !! i = Some h ∧ ∀ g, (g, i) ∈ group_members d' ↔ (g, i) ∈ group_members d;
  cr_new : ∀ dr, dr ∈ drafts → ∃ i h, hosts d !! i = None ∧ hosts d' !! i = Some h ∧ Host_FQDN h = HostDraft_FQDN dr ∧
    ∀ g, (g, i) ∈ group_members d' ↔ g ∈ HostDraft_GroupIDs dr;
  cr_only : ∀ i h, hosts d' !! i = Some h → hosts d !! i = Some h ∨ ∃ dr, dr ∈ drafts ∧ HostDraft_FQDN dr = Host_FQDN h;
  cr_tables : host_tables_only d d';
}.

Lemma CreateHost_run dr w :
  no_faults w → (∀ i h, hosts (w_db w) !! i = Some h → Host_FQDN h ≠ HostDraft_FQDN dr) →
  CreateHost dr true w =
    let id := fresh_id (hosts (w_db w)) in
    (Ok id, set_db (on_hosts (<[id := mkHost id (HostDraft_FQDN dr) (current_timestamp (w_now w)) (current_timestamp (w_now w))]>) (w_db w)) w).
Proof.
  intros Hnf Hnew. unfold CreateHost. rewrite map_err_run, exec_run by done.
  assert (table_exists (λ h, bool_decide (Host_FQDN h = HostDraft_FQDN dr)) (hosts (w_db w)) = false) as ->; [|done].
  apply table_exists_false. intros i h Hh. by apply bool_decide_eq_false_2, (Hnew i).
Qed.

Definition create_host (dr : HostDraft) : M unit := newID ← CreateHost dr; SetHostGroupMembership newID (HostDraft_GroupIDs dr).

Definition groups_exist d (gs : list HostGroupID) : Prop := Forall (λ g, is_Some (host_groups d !! g)) gs.

Lemma create_host_run dr w :
  no_faults w → (∀ i h, hosts (w_db w) !! i = Some h → Host_FQDN h ≠ HostDraft_FQDN dr) → NoDup (HostDraft_GroupIDs dr) →
  if decide (groups_exist (w_db w) (HostDraft_GroupIDs dr))
  then ∃ d', create_host dr true w = (Ok tt, set_db d' w) ∧ created (w_db w) d' [dr]
  else ∃ d', create_host dr true w = (Err ErrReferenceNotFound, set_db d' w).
Proof.
  intros Hnf Hnew Hnd. unfold create_host. rewrite bind_run, CreateHost_run by done. cbv zeta.
  set (id := fresh_id _). set (row := mkHost _ _ _ _). set (w1 := set_db _ w).
  pose proof (SetHostGroupMembership_run id (HostDraft_GroupIDs dr) w1 Hnf) as Hr. cbn [w_db set_db on_hosts hosts w1 host_groups] in Hr.
  specialize (Hr ltac:(rewrite lookup_insert_eq; by eexists) Hnd). unfold groups_exist. cbn [w_db set_db on_hosts host_groups w1].
  case_decide as Hall; [|exact Hr]. destruct Hr as (f & -> & Hf). eexists. split; [reflexivity|].
  pose proof (fresh_id_None (hosts (w_db w))) as Hnone. fold id in Hnone. split; cbn [hosts on_hosts on_group_members group_members set_db w_db w1].
  - intros i h Hh. assert (i ≠ id) as Hne by congruence. rewrite lookup_insert_ne by done. split; [done|]. intros g.
    rewrite Hf, decide_False by done. done.
  - intros dr' ->%list_elem_of_singleton. exists id, row. rewrite lookup_insert_eq. repeat split; try done; rewrite Hf, decide_True by done; tauto.
  - intros i h [[<- <-]|[_ Hh]]%lookup_insert_Some; [|by left]. right. exists dr. split; [by left|done].
  - by eexists _, _.
Qed.

Lemma created_trans d d1 d2 dr drs : created d d1 [dr] → created d1 d2 drs → created d d2 (dr :: drs).
Proof.
  intros H1 H2. split.
  - intros i h Hh. destruct (cr_old _ _ _ H1 i h Hh) as [Hh1 Hm1]. destruct (cr_old _ _ _ H2 i h Hh1) as [Hh2 Hm2].
    split; [done|]. intros g. by rewrite Hm2.
  - intros x [->|Hx]%elem_of_cons.
    + destruct (cr_new _ _ _ H1 dr) as (i & h & Hn & Hh & Hf & Hm); [by left|]. destruct (cr_old _ _ _ H2 i h Hh) as [Hh2 Hm2].
      exists i, h. repeat split; try done; rewrite Hm2, Hm; tauto.
    + destruct (cr_new _ _ _ H2 x Hx) as (i & h & Hn & Hh & Hf & Hm). exists i, h. split; [|done].
      destruct (hosts d !! i) as [h0|] eqn:E; [|done]. destruct (cr_old _ _ _ H1 i h0 E). congruence.
  - intros i h Hh. destruct (cr_only _ _ _ H2 i h Hh) as [Hh1|(x & Hx & E)]; [|right; exists x; split; [by right|done]].
    destruct (cr_only _ _ _ H1 i h Hh1) as [?|(x & ->%list_elem_of_singleton & E)]; [by left|]. right. exists dr. split; [by left|done].
  - eapply host_tables_trans; [apply (cr_tables _ _ _ H1)|apply (cr_tables _ _ _ H2)].
Qed.

Lemma create_hosts_run drs w :
  no_faults w → NoDup (HostDraft_FQDN <$> drs) →
  (∀ dr i h, dr ∈ drs → hosts (w_db w) !! i = Some h → Host_FQDN h ≠ HostDraft_FQDN dr) →
  Forall (λ dr, NoDup (HostDraft_GroupIDs dr)) drs →
  if decide (Forall (λ dr, groups_exist (w_db w) (HostDraft_GroupIDs dr)) drs)
  then ∃ d', for_each drs create_host true w = (Ok tt, set_db d' w) ∧ created (w_db w) d' drs
  else ∃ d', for_each drs create_host true w = (Err ErrReferenceNotFound, set_db d' w).
Proof.
  revert w. induction drs as [|dr drs IH]; intros w Hnf Hnd Hnew Hgs.
  { rewrite decide_True by constructor. exists (w_db w). split; [by destruct w|]. split; try done; [set_solver|by left|apply host_tables_refl]. }
  cbn [fmap list_fmap] in Hnd. apply NoDup_cons in Hnd as [Hdr Hnd]. apply Forall_cons_1 in Hgs as [Hg Hgs]. cbn [for_each].
  pose proof (create_host_run dr w Hnf) as Hc. specialize (Hc ltac:(intros i h; apply Hnew; by left) Hg).
  rewrite bind_run. destruct (decide (groups_exist (w_db w) (HostDraft_GroupIDs dr))) as [He|He].
  2:{ rewrite decide_False by (intros [? _]%Forall_cons_1; done). destruct Hc as (d' & ->). by exists d'. }
  destruct Hc as (d1 & -> & Hc). pose proof (host_tables_groups _ _ (cr_tables _ _ _ Hc)) as Eg.
  specialize (IH (set_db d1 w) Hnf Hnd). cbn [w_db set_db] in IH.
  assert (∀ x i h, x ∈ drs → hosts d1 !! i = Some h → Host_FQDN h ≠ HostDraft_FQDN x) as Hnew1.
  { intros x i h Hx Hh. destruct (cr_only _ _ _ Hc i h Hh) as [?|(y & ->%list_elem_of_singleton & E)]; [by eapply Hnew; [right|]|].
    rewrite <-E. intros E'. apply Hdr. rewrite E'. by apply list_elem_of_fmap_2. }
  specialize (IH Hnew1 Hgs). unfold groups_exist in *. rewrite Eg in IH.
  destruct (decide (Forall (λ dr, Forall (λ g, is_Some (host_groups (w_db w) !! g)) (HostDraft_GroupIDs dr)) drs)) as [Hall|Hall].
  - rewrite decide_True by (by constructor). destruct IH as (d' & -> & Hd). exists d'. split; [done|]. by eapply created_trans.
  - rewrite decide_False by (intros [_ ?]%Forall_cons_1; done). exact IH.
Qed.

Lemma set_groups_run (l : list (HostID * list HostGroupID)) w :
  no_faults w → NoDup l.*1 → Forall (λ p, is_Some (hosts (w_db w) !! p.1) ∧ NoDup p.2) l →
  if decide (Forall (λ p, groups_exist (w_db w) p.2) l)
  then ∃ f, for_each l (λ gs, SetHostGroupMembership gs.1 gs.2) true w = (Ok tt, set_db (on_group_members f (w_db w)) w) ∧
         (∀ i gs g, (i, gs) ∈ l → (g, i) ∈ f (group_members (w_db w)) ↔ g ∈ gs) ∧
         (∀ i g, i ∉ l.*1 → (g, i) ∈ f (group_members (w_db w)) ↔ (g, i) ∈ group_members (w_db w))
  else ∃ d', for_each l (λ gs, SetHostGroupMembership gs.1 gs.2) true w = (Err ErrReferenceNotFound, set_db d' w).
Proof.
  revert w. induction l as [|[h gs] l IH]; intros w Hnf Hnd Hall.
  { rewrite decide_True by constructor. exists id. split; [by destruct w as [[]]|]. split; [set_solver|done]. }
  cbn [fmap list_fmap fst] in Hnd. apply NoDup_cons in Hnd as [Hh Hnd]. apply Forall_cons_1 in Hall as [[Hex Hgs] Hall]. cbn [for_each fst snd] in *.
  pose proof (SetHostGroupMembership_run h gs w Hnf Hex Hgs) as Hs. rewrite bind_run. fold (groups_exist (w_db w) gs) in Hs.
  destruct (decide (groups_exist (w_db w) gs)) as [He|He].
  2:{ rewrite decide_False by (intros [? _]%Forall_cons_1; done). destruct Hs as (d' & ->). by exists d'. }
  destruct Hs as (f & -> & Hf). specialize (IH (set_db (on_group_members f (w_db w)) w) Hnf Hnd Hall). cbn [w_db set_db] in IH.
  unfold groups_exist in *. cbn [host_groups on_group_members group_members] in IH.
  destruct (decide (Forall (λ p, Forall (λ g, is_Some (host_groups (w_db w) !! g)) p.2) l)) as [Hl|Hl].
  - rewrite decide_True by (by constructor). destruct IH as (f' & -> & Hin & Hout). exists (f' ∘ f). split; [done|]. split.
    + intros i gs' g [[= -> ->]|Hl']%elem_of_cons; [|by apply Hin]. cbn. rewrite Hout, Hf, decide_True by done. done.
    + intros i g Hi. cbn in Hi. apply not_elem_of_cons in Hi as [Hne Hi]. cbn. rewrite Hout, Hf, decide_False by done. done.
  - rewrite decide_False by (intros [_ ?]%Forall_cons_1; done). exact IH.
Qed.
End loops.

(** ** The plan *)

Section plan.
(** What a desired host must satisfy to be planned. *)
Definition check_host (d : db) (h : DesiredHost) : result unit :=
  match DesiredHost_ID h with
  | None => if table_exists (λ x, bool_decide (Host_FQDN x = DesiredHost_FQDN h)) (hosts d) then Err ErrHostConflict else Ok tt
  | Some id =>
      match hosts d !! id with
      | None => Err ErrHostNotFound
      | Some row => if bool_decide (Host_FQDN row = DesiredHost_FQDN h) then Ok tt else Err ErrHostFQDNImmutable
      end
  end.

Definition new_hosts (desired : list DesiredHost) : list HostDraft :=
  omap (λ h, match DesiredHost_ID h with None => Some (mkHostDraft (DesiredHost_FQDN h) (DesiredHost_GroupIDs h)) | _ => None end) desired.
Definition old_hosts (desired : list DesiredHost) : list (HostID * list HostGroupID) :=
  omap (λ h, match DesiredHost_ID h with Some i => Some (i, DesiredHost_GroupIDs h) | _ => None end) desired.

Lemma plan_lookup d id :
  hosts_inv d → last (filter (λ c, Host_ID c = id) (rows (hosts d))) = hosts d !! id.
Proof.
  intros I. destruct (last _) as [c|] eqn:E.
  - apply last_Some_elem_of, list_elem_of_filter in E as [<- (i & Hi)%elem_of_rows]. by rewrite (hi_host_id _ I _ _ Hi), Hi.
  - apply last_None in E. destruct (hosts d !! id) as [h|] eqn:Hh; [|done]. exfalso.
    assert (h ∈ filter (λ c, Host_ID c = id) (rows (hosts d))) as Hin; [|rewrite E in Hin; by apply elem_of_nil in Hin].
    apply list_elem_of_filter. rewrite elem_of_rows. split; [by apply (hi_host_id _ I)|by eexists].
Qed.

Lemma plan_host_check d plan h :
  hosts_inv d →
  plan_host (rows (hosts d)) plan h =
    match check_host d h with
    | Err e => Err e
    | Ok _ => Ok (mkHostPlan (hp_toCreate plan ++ new_hosts [h]) (hp_toDelete plan) (hp_toSetGroups plan ++ old_hosts [h]))
    end.
Proof.
  intros I. unfold plan_host, check_host, new_hosts, old_hosts. cbn. destruct (DesiredHost_ID h) as [id|].
  - rewrite plan_lookup by done. destruct (hosts d !! id) as [row|]; [|done]. case_bool_decide; [|done]. by rewrite app_nil_r.
  - destruct (table_exists _ (hosts d)) eqn:E.
    + rewrite decide_True; [done|]. apply table_exists_true in E as (k & v & Hk & Hv). bool_prop. rewrite <-Hv.
      apply list_elem_of_fmap_2, elem_of_rows. by exists k.
    + rewrite decide_False; [by rewrite app_nil_r|]. intros (x & Ex & (k & Hk)%elem_of_rows)%list_elem_of_fmap.
      rewrite table_exists_false in E. specialize (E k x Hk). bool_prop. by rewrite Ex in E.
Qed.

Lemma plan_hosts_check d plan desired :
  hosts_inv d →
  plan_hosts (rows (hosts d)) plan desired =
    match map_result (check_host d) desired with
    | Err e => Err e
    | Ok _ => Ok (mkHostPlan (hp_toCreate plan ++ new_hosts desired) (hp_toDelete plan) (hp_toSetGroups plan ++ old_hosts desired))
    end.
Proof.
  intros I. revert plan. induction desired as [|h l IH]; intros plan.
  { cbn. rewrite !app_nil_r. by destruct plan. }
  cbn [plan_hosts map_result]. rewrite plan_host_check by done. destruct (check_host d h); [|done].
  rewrite IH. destruct (map_result (check_host d) l); [|done]. cbn [hp_toCreate hp_toDelete hp_toSetGroups]. do 2 f_equal;
    rewrite <-app_assoc; f_equal; unfold new_hosts, old_hosts; cbn; by destruct (DesiredHost_ID h).
Qed.

Lemma elem_of_new_hosts desired dr :
  dr ∈ new_hosts desired ↔ ∃ h, h ∈ desired ∧ DesiredHost_ID h = None ∧ dr = mkHostDraft (DesiredHost_FQDN h) (DesiredHost_GroupIDs h).
Proof.
  unfold new_hosts. rewrite list_elem_of_omap. split.
  - intros (h & Hh & E). exists h. destruct (DesiredHost_ID h); [done|]. by injection E as <-.
  - intros (h & Hh & E & ->). exists h. by rewrite E.
Qed.

Lemma elem_of_old_hosts desired i gs :
  (i, gs) ∈ old_hosts desired ↔ ∃ h, h ∈ desired ∧ DesiredHost_ID h = Some i ∧ gs = DesiredHost_GroupIDs h.
Proof.
  unfold old_hosts. rewrite list_elem_of_omap. split.
  - intros (h & Hh & E). exists h. destruct (DesiredHost_ID h); [|done]. by injection E as -> ->.
  - intros (h & Hh & E & ->). exists h. by rewrite E.
Qed.

Lemma old_hosts_ids desired : (old_hosts desired).*1 = omap DesiredHost_ID desired.
Proof. unfold old_hosts. induction desired as [|h l IH]; [done|]. cbn. destruct (DesiredHost_ID h); cbn; by rewrite <-IH. Qed.

Lemma new_hosts_fqdns desired : NoDup (DesiredHost_FQDN <$> desired) → NoDup (HostDraft_FQDN <$> new_hosts desired).
Proof.
  induction desired as [|h l IH]; [constructor|]. cbn. intros [Hh Hl]%NoDup_cons. unfold new_hosts in *. cbn.
  destruct (DesiredHost_ID h); [by apply IH|]. cbn. constructor; [|by apply IH].
  intros (dr & E & Hdr)%list_elem_of_fmap. apply elem_of_new_hosts in Hdr as (x & Hx & _ & ->). cbn in E. apply Hh.
  rewrite E. by apply list_elem_of_fmap_2.
Qed.
End plan.

(** ** The reconciler *)

(** The tables [d'] are the image of the desired hosts on [d]: a row for
    each, the one it names if it names one, with exactly its groups, and no
    other row. *)
Record host_image (d d' : db) (desired : list DesiredHost) : Prop := mkHostImage {
  im_host : ∀ h, h ∈ desired → ∃ i row, hosts d' !! i = Some row ∧ Host_FQDN row = DesiredHost_FQDN h ∧
    (∀ g, (g, i) ∈ group_members d' ↔ g ∈ DesiredHost_GroupIDs h) ∧
    ∀ j, DesiredHost_ID h = Some j → i = j ∧ hosts d !! j = Some row;
  im_only : ∀ i row, hosts d' !! i = Some row → ∃ h, h ∈ desired ∧ DesiredHost_FQDN h = Host_FQDN row;
  im_tables : host_tables_only d d';
}.

Section reconcile.
Context `{GoUnicode} `{HostAccessObservers}.

(** Everything that can be wrong with a request, in the order the code
    finds it. *)
Definition reconcile_check (d : db) (hs : list DesiredHost) : result (list DesiredHost) :=
  match prepare_hosts hs with
  | Err e => Err e
  | Ok desired =>
      match map_result (check_host d) desired with
      | Err e => Err e
      | Ok _ => if decide (Forall (λ h, groups_exist d (DesiredHost_GroupIDs h)) desired) then Ok desired else Err ErrReferenceNotFound
      end
  end.

Lemma prepare_hosts_Ok hs desired :
  prepare_hosts hs = Ok desired →
  Forall (λ h, NoDup (DesiredHost_GroupIDs h) ∧ ValidateFQDN (DesiredHost_FQDN h) = Ok tt) desired ∧
  NoDup (omap DesiredHost_ID desired) ∧ NoDup (DesiredHost_FQDN <$> desired).
Proof.
  unfold prepare_hosts. destruct (map_result prepare_host hs) as [l|e] eqn:E; [|done]. unfold has_duplicate.
  destruct (bool_decide (NoDup (omap DesiredHost_ID l))) eqn:E1; [|done]. cbn [negb].
  destruct (bool_decide (NoDup (DesiredHost_FQDN <$> l))) eqn:E2; [|done]. intros [= <-]. bool_prop. split; [|done].
  apply map_result_Ok in E. clear E1 E2. induction E as [|h h' hs' l' Eh _ IH]; constructor; [|done].
  unfold prepare_host in Eh. destruct (ValidateFQDN _) as [[]|] eqn:Ev; [|done]. injection Eh as <-. cbn. split; [apply NoDup_Dedup|done].
Qed.

Lemma check_host_all d desired l :
  map_result (check_host d) desired = Ok l → ∀ h, h ∈ desired → check_host d h = Ok tt.
Proof.
  intros Hc%map_result_Ok h Hh. induction Hc as [|x [] xs l E _ IH]; [by apply elem_of_nil in Hh|].
  apply elem_of_cons in Hh as [->|Hh]; [done|by apply IH].
Qed.

(** Deleting the hosts that are not named leaves those that are. *)
Definition survivors (d d1 : db) (desired : list DesiredHost) : Prop :=
  host_tables_only d d1 ∧ (∀ i, hosts d1 !! i = if decide (i ∈ omap DesiredHost_ID desired) then hosts d !! i else None).

Lemma delete_tx d desired w :
  hosts_inv d → w_db w = d → no_faults w →
  ∃ d1, for_each (filter (λ id, id ∉ omap DesiredHost_ID desired) (Host_ID <$> rows (hosts d))) DeleteHost true w = (Ok tt, set_db d1 w) ∧
    survivors d d1 desired.
Proof.
  intros I Ed Hnf. set (gone := filter _ _).
  assert (∀ i, i ∈ gone ↔ is_Some (hosts d !! i) ∧ i ∉ omap DesiredHost_ID desired) as Hgone.
  { intros i. unfold gone. rewrite list_elem_of_filter, list_elem_of_fmap. setoid_rewrite elem_of_rows. split.
    - intros (Hn & h & -> & k & Hk). by rewrite (hi_host_id _ I _ _ Hk), Hk in *.
    - intros ([h Hh] & Hn). split; [done|]. exists h. by rewrite (hi_host_id _ I _ _ Hh); split; [|exists i]. }
  destruct (delete_hosts_run gone w) as (d1 & -> & Ht1 & Hh1 & _); [done| | |].
  { apply NoDup_filter, NoDup_rows_on. intros k v Hk. by apply (hi_host_id _ I). }
  { rewrite Forall_forall, Ed. intros i Hi. by apply Hgone in Hi as [? _]. }
  rewrite Ed in *. exists d1. split; [done|]. split; [done|]. intros i. rewrite Hh1.
  destruct (decide (i ∈ gone)) as [Hg|Hg]; [apply Hgone in Hg as [_ ?]; by rewrite decide_False|].
  case_decide; [done|]. destruct (hosts d !! i) eqn:E; [|done]. destruct Hg. apply Hgone. by rewrite E.
Qed.

Lemma elem_of_desired_ids (desired : list DesiredHost) i : i ∈ omap DesiredHost_ID desired ↔ ∃ h, h ∈ desired ∧ DesiredHost_ID h = Some i.
Proof. apply list_elem_of_omap. Qed.

Lemma check_old d h i : check_host d h = Ok tt → DesiredHost_ID h = Some i → ∃ row, hosts d !! i = Some row ∧ Host_FQDN row = DesiredHost_FQDN h.
Proof. unfold check_host. intros Hc Hi. rewrite Hi in Hc. destruct (hosts d !! i) as [row|]; [|done]. case_bool_decide; [eauto|done]. Qed.

Lemma check_new d h : check_host d h = Ok tt → DesiredHost_ID h = None → ∀ i row, hosts d !! i = Some row → Host_FQDN row ≠ DesiredHost_FQDN h.
Proof.
  unfold check_host. intros Hc Hi i row Hrow. rewrite Hi in Hc. destruct (table_exists _ _) eqn:E; [done|].
  rewrite table_exists_false in E. specialize (E i row Hrow). by bool_prop.
Qed.

Section image.
Context (d d1 : db) (desired : list DesiredHost).
Context (Hck : ∀ h, h ∈ desired → check_host d h = Ok tt) (Hs : survivors d d1 desired).

Lemma survivor_row h i : h ∈ desired → DesiredHost_ID h = Some i → ∃ row, hosts d !! i = Some row ∧ hosts d1 !! i = Some row ∧ Host_FQDN row = DesiredHost_FQDN h.
Proof.
  intros Hh Hi. destruct (check_old d h i (Hck h Hh) Hi) as (row & Hrow & Hf). exists row. split; [done|]. split; [|done].
  rewrite (proj2 Hs), decide_True; [done|]. apply elem_of_desired_ids. by exists h.
Qed.

Lemma drafts_new dr i h : dr ∈ new_hosts desired → hosts d1 !! i = Some h → Host_FQDN h ≠ HostDraft_FQDN dr.
Proof.
  intros (x & Hx & Hid & ->)%elem_of_new_hosts Hh. rewrite (proj2 Hs) in Hh. case_decide; [|done].
  by eapply (check_new d x); [apply Hck| |].
Qed.

(** Putting the three loops together. *)
Lemma image_of_loops d2 f :
  created d1 d2 (new_hosts desired) →
  (∀ i gs g, (i, gs) ∈ old_hosts desired → (g, i) ∈ f (group_members d2) ↔ g ∈ gs) →
  (∀ i g, i ∉ (old_hosts desired).*1 → (g, i) ∈ f (group_members d2) ↔ (g, i) ∈ group_members d2) →
  host_image d (on_group_members f d2) desired.
Proof.
  intros Hc Hin Hout. split; cbn.
  - intros h Hh. destruct (DesiredHost_ID h) as [j|] eqn:E.
    + destruct (survivor_row h j Hh E) as (row & Hrow & Hrow1 & Hf). exists j, row.
      destruct (cr_old _ _ _ Hc j row Hrow1) as [Hrow2 _]. split; [done|]. split; [done|]. split; [|by intros k [= <-]].
      intros g. apply Hin, elem_of_old_hosts. by exists h.
    + destruct (cr_new _ _ _ Hc (mkHostDraft (DesiredHost_FQDN h) (DesiredHost_GroupIDs h))) as (i & row & Hn & Hrow & Hf & Hm).
      { apply elem_of_new_hosts. by exists h. }
      exists i, row. split; [done|]. split; [done|]. split; [|done]. intros g. rewrite Hout; [apply Hm|].
      rewrite old_hosts_ids. intros (x & Hx & Ex)%elem_of_desired_ids. destruct (survivor_row x i Hx Ex) as (? & _ & ? & _). congruence.
  - intros i row Hrow. destruct (cr_only _ _ _ Hc i row Hrow) as [H1|(dr & Hdr & Ef)].
    + rewrite (proj2 Hs) in H1. case_decide as Hi; [|done]. apply elem_of_desired_ids in Hi as (h & Hh & Ei).
      destruct (survivor_row h i Hh Ei) as (row' & Hr' & _ & Ef). exists h. split; [done|]. congruence.
    + apply elem_of_new_hosts in Hdr as (h & Hh & _ & ->). by exists h.
  - eapply host_tables_trans; [apply Hs|]. eapply host_tables_trans; [apply (cr_tables _ _ _ Hc)|]. exists f, id. by destruct d2.
Qed.

Lemma groups_split :
  Forall (λ h, groups_exist d (DesiredHost_GroupIDs h)) desired ↔
  Forall (λ dr, groups_exist d1 (HostDraft_GroupIDs dr)) (new_hosts desired) ∧
  Forall (λ p, groups_exist d1 p.2) (old_hosts desired).
Proof.
  unfold groups_exist. rewrite (host_tables_groups _ _ (proj1 Hs)), !Forall_forall. split.
  - intros Ha. split; [intros dr (h & Hh & _ & ->)%elem_of_new_hosts|intros [i gs] (h & Hh & _ & ->)%elem_of_old_hosts]; by apply Ha.
  - intros [Hn Ho] h Hh. destruct (DesiredHost_ID h) as [i|] eqn:E.
    + apply (Ho (i, DesiredHost_GroupIDs h)), elem_of_old_hosts. by exists h.
    + apply (Hn (mkHostDraft (DesiredHost_FQDN h) (DesiredHost_GroupIDs h))), elem_of_new_hosts. by exists h.
Qed.
End image.

(** The transaction of a request that passes the checks. *)
Lemma reconcile_tx desired d w :
  hosts_inv d → w_db w = d → no_faults w →
  Forall (λ h, NoDup (DesiredHost_GroupIDs h) ∧ ValidateFQDN (DesiredHost_FQDN h) = Ok tt) desired →
  NoDup (omap DesiredHost_ID desired) → NoDup (DesiredHost_FQDN <$> desired) →
  (∀ h, h ∈ desired → check_host d h = Ok tt) →
  let body := for_each (filter (λ id, id ∉ omap DesiredHost_ID desired) (Host_ID <$> rows (hosts d))) DeleteHost ≫= λ _,
    for_each (new_hosts desired) create_host ≫= λ _, for_each (old_hosts desired) (λ gs, SetHostGroupMembership gs.1 gs.2) in
  if decide (Forall (λ h, groups_exist d (DesiredHost_GroupIDs h)) desired)
  then ∃ d', body true w = (Ok tt, set_db d' w) ∧ host_image d d' desired
  else ∃ d', body true w = (Err ErrReferenceNotFound, set_db d' w).
Proof.
  intros I Ed Hnf Hwf Hids Hfqdns Hck. cbv zeta. rewrite bind_run.
  destruct (delete_tx d desired w I Ed Hnf) as (d1 & -> & Hs). pose proof (groups_split d d1 desired Hs) as Hg.
  rewrite Forall_forall in Hwf. rewrite bind_run.
  pose proof (create_hosts_run (new_hosts desired) (set_db d1 w) Hnf (new_hosts_fqdns _ Hfqdns) (drafts_new d d1 desired Hck Hs)) as Hc.
  cbn [w_db set_db] in Hc. assert (Forall (λ dr, NoDup (HostDraft_GroupIDs dr)) (new_hosts desired)) as Hnd.
  { apply Forall_forall. intros dr (h & Hh & _ & ->)%elem_of_new_hosts. by apply Hwf. }
  specialize (Hc Hnd). destruct (decide (Forall (λ dr, groups_exist d1 (HostDraft_GroupIDs dr)) (new_hosts desired))) as [Hn|Hn].
  2:{ rewrite decide_False by tauto. destruct Hc as (d' & ->). by exists d'. }
  destruct Hc as (d2 & -> & Hc). change (set_db d2 (set_db d1 w)) with (set_db d2 w). pose proof (set_groups_run (old_hosts desired) (set_db d2 w) Hnf) as Hset.
  rewrite old_hosts_ids in Hset. cbn [w_db set_db] in Hset. assert (Forall (λ p, is_Some (hosts d2 !! p.1) ∧ NoDup p.2) (old_hosts desired)) as Hold.
  { apply Forall_forall. intros [i gs] (h & Hh & Ei & ->)%elem_of_old_hosts. split; [|by apply Hwf].
    destruct (survivor_row d d1 desired Hck Hs h i Hh Ei) as (row & _ & H1 & _). destruct (cr_old _ _ _ Hc i row H1) as [E _]. cbn. by rewrite E. }
  specialize (Hset Hids Hold). unfold groups_exist in Hset, Hg. rewrite (host_tables_groups _ _ (cr_tables _ _ _ Hc)) in Hset.
  destruct (decide (Forall (λ p, Forall (λ g, is_Some (host_groups d1 !! g)) p.2) (old_hosts desired))) as [Ho|Ho].
  - rewrite decide_True by (apply Hg; done). destruct Hset as (f & -> & Hin & Hout). eexists. split; [reflexivity|].
    eapply image_of_loops; [exact Hck|exact Hs|exact Hc|exact Hin|]. rewrite old_hosts_ids. exact Hout.
  - rewrite decide_False by (intros [_ ?]%Hg; done). exact Hset.
Qed.

(** What a reconcile does, and what of it is told. *)
Lemma ReconcileHosts_run hs w :
  no_faults w → hosts_inv (w_db w) →
  match reconcile_check (w_db w) hs with
  | Err e => ReconcileHosts hs false w = (Err e, w)
  | Ok desired => ∃ d', host_image (w_db w) d' desired ∧
      ReconcileHosts hs false w = (Ok tt, foldl (λ w o, o tt w) (set_db d' w) host_access_observers)
  end.
Proof.
  intros Hnf I. unfold reconcile_check, ReconcileHosts. rewrite bind_run, of_result_run.
  destruct (prepare_hosts hs) as [desired|e] eqn:Ep; [|done].
  destruct (prepare_hosts_Ok hs desired Ep) as (Hwf & Hids & Hfqdns).
  rewrite bind_run. unfold ListHosts. rewrite query_run by done. rewrite bind_run, of_result_run.
  unfold buildHostReconcilePlan. rewrite plan_hosts_check by done.
  destruct (map_result (check_host (w_db w)) desired) as [l|e] eqn:Ec; [|done].
  cbn [hp_toCreate hp_toSetGroups hp_toDelete app]. rewrite bind_run.
  pose proof (reconcile_tx desired _ w I eq_refl Hnf Hwf Hids Hfqdns (check_host_all _ _ _ Ec)) as Hb. cbv zeta in Hb.
  unfold create_host in Hb. case_decide as Hg.
  - destruct Hb as (d' & Hb & Him). exists d'. split; [done|]. rewrite withinTx_run by (done || by rewrite Hb). rewrite Hb.
    unfold notifyHostAccess. by rewrite notify_run.
  - destruct Hb as (d' & Hb). rewrite withinTx_run by (done || by rewrite Hb). rewrite Hb. by destruct w.
Qed.

(** The request creates no host under the name of one that it drops.  (The
    comment in [ReconcileHosts] has such a request accepted, the plan rejects
    it: [recreate_same_name_rejected].) *)
Definition recreates_none (d : db) (desired : list DesiredHost) : Prop :=
  ∀ h i row, h ∈ desired → DesiredHost_ID h = None → hosts d !! i = Some row → Host_FQDN row = DesiredHost_FQDN h →
    i ∈ omap DesiredHost_ID desired.

(** C28: in a sound database and without faults, reconciling the hosts
    either rejects the request with the first thing wrong with it (a name
    that does not validate, a repeated id or name, a new host under the name
    of an existing host, an unknown id, a changed name, an unknown group),
    and then the tables, the queues and whatever the observers would have
    touched are exactly what they were: nothing was changed and nobody
    notified; or makes the tables the image of the normalised request and
    then notifies each observer once.  This is for requests that do not
    create a host under the name of one they drop (a comment in the code has
    that accepted, the plan rejects it); for them the existing host whose
    name is a conflict is always one that stays. *)
Theorem ReconcileHosts_converges hs w :
  no_faults w → hosts_inv (w_db w) → (∀ desired, prepare_hosts hs = Ok desired → recreates_none (w_db w) desired) →
  match reconcile_check (w_db w) hs with
  | Err e =>
      ReconcileHosts hs false w = (Err e, w) ∧
      ∀ desired, prepare_hosts hs = Ok desired → e = ErrHostConflict →
        ∃ h i row, h ∈ desired ∧ DesiredHost_ID h = None ∧ hosts (w_db w) !! i = Some row ∧ Host_FQDN row = DesiredHost_FQDN h ∧
          i ∈ omap DesiredHost_ID desired
  | Ok desired => ∃ d', host_image (w_db w) d' desired ∧
      ReconcileHosts hs false w = (Ok tt, foldl (λ w o, o tt w) (set_db d' w) host_access_observers)
  end.
Proof.
  intros Hnf I Hre. pose proof (ReconcileHosts_run hs w Hnf I) as Hr. destruct (reconcile_check (w_db w) hs) as [desired|e] eqn:Ec; [done|].
  split; [done|]. intros desired Hp ->. unfold reconcile_check in Ec. rewrite Hp in Ec.
  destruct (map_result (check_host (w_db w)) desired) as [l|e] eqn:Em; [by case_decide|]. injection Ec as ->.
  apply map_result_Err in Em as (h & Hh & Eh). unfold check_host in Eh. destruct (DesiredHost_ID h) as [id|] eqn:Ei.
  { destruct (hosts _ !! id); [|done]. by case_bool_decide. }
  destruct (table_exists _ _) eqn:Et; [|done]. apply table_exists_true in Et as (i & row & Hi & Ef). bool_prop.
  exists h, i, row. repeat split; try done. by apply (Hre desired Hp h i row).
Qed.

(** [m], started out of a transaction on [d], errs only on [d]. *)
Definition errs_on (d : db) (m : M unit) : Prop := ∀ w e w', w_db w = d → m false w = (Err e, w') → w_db w' = d.

Lemma errs_on_bind {A} d (m : M A) body : keeps (λ x, x = d) m → (∀ a, errs_on d (body a)) → errs_on d (m ≫= body).
Proof.
  intros Hm Hb w e w' E. rewrite bind_run. specialize (Hm false w E). destruct (m false w) as [[a|e'] w1]; [by apply Hb|].
  by intros [= -> <-].
Qed.

Lemma errs_on_tx d (m : M unit) : errs_on d (withinTx m ≫= λ _, notifyHostAccess).
Proof.
  intros w e w' E. rewrite bind_run. destruct (withinTx m false w) as [[a|e'] w2] eqn:Etx.
  - unfold notifyHostAccess. by rewrite notify_run.
  - intros [= -> <-]. by rewrite (withinTx_rollback _ _ _ _ Etx).
Qed.

(** Whatever statements fail, a reconcile of hosts or of groups
    that returns an error has left the database exactly as it was. *)
Theorem reconcile_all_or_nothing hs gs w e w' :
  ReconcileHosts hs false w = (Err e, w') ∨ ReconcileHostGroups gs false w = (Err e, w') → w_db w' = w_db w.
Proof.
  intros [Hr|Hr]; revert Hr; apply (λ H : errs_on (w_db w) _, H w e w' eq_refl);
    unfold ReconcileHosts, ReconcileHostGroups, ListHosts, validateReferencedHosts, ListHostsByIDs, ListHostGroups;
    repeat first [apply errs_on_tx | apply errs_on_bind; [structural|intros]].
Qed.
End reconcile.

(** A request that drops a host and creates one of the same name is
    always rejected as a conflict, although the deletes run first so that
    their names can be claimed again: the plan is checked against the names
    before the deletes. *)
Theorem recreate_same_name_rejected d i row gs :
  hosts d !! i = Some row →
  buildHostReconcilePlan (rows (hosts d)) [mkDesiredHost None (Host_FQDN row) gs] = Err ErrHostConflict.
Proof.
  intros Hrow. unfold buildHostReconcilePlan, plan_hosts, plan_host. cbn [DesiredHost_ID DesiredHost_FQDN].
  rewrite decide_True; [done|]. apply list_elem_of_fmap_2, elem_of_rows. by exists i.
Qed.

(** Two groups have the same definition only if they have the same
    name, colour, icon, description and members in the same order; the
    order matters although it does not reach the tables, so an unchanged
    group whose members come in another order is rewritten. *)
Theorem SameDefinitionAs_order_sensitive :
  (∀ g o, SameDefinitionAs g o = true ↔
     HostGroup_Name g = HostGroup_Name o ∧ HostGroup_Color g = HostGroup_Color o ∧ HostGroup_Icon g = HostGroup_Icon o ∧
     HostGroup_Description g = HostGroup_Description o ∧ HostGroup_HostIDs g = HostGroup_HostIDs o) ∧
  ∃ g o, SameDefinitionAs g o = false ∧ with_members [] g = with_members [] o ∧ HostGroup_HostIDs g ≡ₚ HostGroup_HostIDs o.
Proof.
  split.
  - intros g o. unfold SameDefinitionAs. assert (∀ a b, sameHostIDs a b = true ↔ a = b) as Hids.
    { induction a as [|x a IH]; intros [|y b]; try (by split).
      transitivity (x = y ∧ a = b); [|split; [by intros [-> ->]|by intros [= -> ->]]]. rewrite <-IH. unfold sameHostIDs. cbn.
      destruct (Nat.eqb (length a) (length b)); cbn; [by rewrite andb_true_iff, Z.eqb_eq|]. by split; [|intros [_ ?]]. }
    assert (∀ a b, equalStringPtr a b = true ↔ a = b) as Hptr.
    { intros [a|] [b|]; cbn; try (by split). rewrite bool_decide_eq_true. split; [by intros ->|by intros [= ->]]. }
    repeat case_bool_decide; cbn [negb]; try (split; [done|tauto]).
    destruct (equalStringPtr _ _) eqn:E; cbn [negb]; [apply Hptr in E; rewrite Hids; tauto|].
    split; [done|]. intros (_ & _ & _ & E' & _). by apply Hptr in E'; rewrite E' in E.
  - exists (mkHostGroup 1 "apps" "#4C6EF5" "server" None 0 0 [1; 2]), (mkHostGroup 1 "apps" "#4C6EF5" "server" None 0 0 [2; 1]).
    split; [reflexivity|]. split; [reflexivity|]. cbn. constructor.
Qed.
