(* ===== verification/UserAccess.v ===== *)
(** * UserAccess: which hosts a user may reach ([internal/useraccess])

    A user's bypass flag and host-group grants; the feed of the policy
    cache, which resolves the grants to host names; the subject rows of the
    admin pages. *)

From S2P Require Import Prelude GoLib Schema Store Slicex Joins Http Hosts PolicyCache.

Local Open Scope string_scope.
Local Open Scope Z_scope.

(** ** repository.go *)

Definition insert_user_group (userID : UserID) (groupID : HostGroupID) : M unit :=
  map_err (λ e, if isFKViolation e then ErrReferenceNotFound else e) (exec (λ _ d,
    if decide ((userID, groupID) ∈ user_groups d) then Err (ErrUnique "user_allowed_host_groups.user_id, user_allowed_host_groups.host_group_id")
    else match users d !! userID, host_groups d !! groupID with
         | Some _, Some _ => Ok (tt, on_user_groups ({[(userID, groupID)]} ∪.) d)
         | _, _ => Err ErrForeignKey
         end)).

Definition SetUserAccess_row (userID : UserID) (bypassHostCheck : bool) (groupIDs : list HostGroupID) : M unit :=
  withinTx (
    _ ← exec (λ _ d, Ok (tt, on_user_groups (filter (λ p, p.1 ≠ userID)) d));
    _ ← for_each groupIDs (insert_user_group userID);
    map_err (λ e, if isFKViolation e then ErrUserNotFound else e) (exec (λ _ d,
      match users d !! userID with
      | None => Err ErrForeignKey
      | Some _ => Ok (tt, on_user_settings (<[userID := bypassHostCheck]>) d)
      end))).

(** [INSERT OR IGNORE] ignores the conflict with an existing row, not a
    foreign key violation. *)
Definition EnsureUserSettings (userID : UserID) : M unit :=
  exec (λ _ d,
    match user_settings d !! userID with
    | Some _ => Ok (tt, d)
    | None => match users d !! userID with
              | None => Err ErrForeignKey
              | Some _ => Ok (tt, on_user_settings (<[userID := false]>) d)
              end
    end).

Definition DeleteUserData (userID : UserID) : M unit :=
  withinTx (
    _ ← exec (λ _ d, Ok (tt, on_user_settings (delete userID) d));
    exec (λ _ d, Ok (tt, on_user_groups (filter (λ p, p.1 ≠ userID)) d))).

Definition GetAllUserHostSettings : M (list UserHostSetting) :=
  query (λ _ d, (λ kv, mkUserHostSetting kv.1 kv.2) <$> scan (user_settings d)).

(** The join of the grants with the groups' members and the hosts: a row per
    path. *)
Definition user_host_grants (d : db) : list UserHostGrant :=
  ug ← elements (user_groups d);
  gm ← elements (group_members d);
  if bool_decide (gm.1 = ug.2) then match hosts d !! gm.2 with Some h => [mkUserHostGrant ug.1 (Host_FQDN h)] | None => [] end
  else [].

Definition GetAllUserHostGrants : M (list UserHostGrant) := query (λ _ d, user_host_grants d).

(** ** service.go *)

(** [mergeUserHostAccess]: the two loops over the rows build [byUser]; a
    user without settings gets nothing, one with neither bypass nor hosts is
    left out.  Go ranges over the maps in an order it does not fix. *)
Definition mergeUserHostAccess (settings : list UserHostSetting) (groupHosts : list UserHostGrant) : list UserHostAccess :=
  let byUser : gmap UserID (bool * gset string) :=
    foldl (λ m s, <[UserHostSetting_UserID s := (UserHostSetting_BypassHostCheck s, ∅)]> m) ∅ settings in
  let byUser :=
    foldl (λ m g, match m !! UserHostGrant_UserID g with
                  | None => m
                  | Some e => <[UserHostGrant_UserID g := (e.1, {[UserHostGrant_FQDN g]} ∪ e.2)]> m
                  end) byUser groupHosts in
  omap (λ kv, if negb kv.2.1 && Nat.eqb (size kv.2.2) 0 then None
              else Some (mkUserHostAccess kv.1 kv.2.1 (elements kv.2.2))) (map_to_list byUser).

Definition GetAllUserHostAccess : M (list UserHostAccess) :=
  '(settings, grants) ← withinTx (
    settings ← GetAllUserHostSettings;
    grants ← GetAllUserHostGrants;
    mret (settings, grants));
  mret (mergeUserHostAccess settings grants).

(** ** The admin pages: subject_view.go, owner_refs_view.go *)

Record GroupSummary := mkGroupSummary { gs_Id : HostGroupID; gs_Name : string; gs_Color : string; gs_Icon : string }.

Definition group_summary (g : HostGroup) : GroupSummary :=
  mkGroupSummary (HostGroup_ID g) (HostGroup_Name g) (HostGroup_Color g) (HostGroup_Icon g).

Record SubjectRow := mkSubjectRow {
  SubjectRow_ID : UserID; SubjectRow_DisplayName : string; SubjectRow_Role : Role; SubjectRow_BypassHostCheck : bool;
  SubjectRow_HostGroups : list GroupSummary;
}.

(** Ascending in a text column, the rest of the order left to a stable sort. *)
Definition order_by_text {A} (key : A → string) (l : list A) : list A :=
  merge_sort (λ x y, String.le (key x) (key y)) l.

(** The users in [ORDER BY display_name, id]. *)
Definition live_users (d : db) : list User :=
  order_by_text User_DisplayName (filter (λ u, User_DeletedAt u = None) (rows (users d))).

Definition groups_of_user (d : db) (u : UserID) : list HostGroup :=
  order_by_text HostGroup_Name (omap (λ p, if bool_decide (p.1 = u) then host_groups d !! p.2 else None) (elements (user_groups d))).

(** The rows of the outer joins, then their collapse by user. *)
Definition subject_users (d : db) (userID : option UserID) : list (User * bool) :=
  (λ u, (u, default false (user_settings d !! User_ID u))) <$>
    filter (λ u, default true ((λ i, User_ID u =? i) <$> userID) = true) (live_users d).

Definition new_subject (p : User * bool) : SubjectRow := mkSubjectRow (User_ID p.1) (User_DisplayName p.1) (User_Role p.1) p.2 [].

Definition attach_subject_group (s : SubjectRow) (g : GroupSummary) : SubjectRow :=
  mkSubjectRow (SubjectRow_ID s) (SubjectRow_DisplayName s) (SubjectRow_Role s) (SubjectRow_BypassHostCheck s) (SubjectRow_HostGroups s ++ [g])%list.

Definition SubjectRows (userID : option UserID) : M (list SubjectRow) :=
  rws ← query (λ _ d, join_rows (λ p, groups_of_user d (User_ID p.1)) (subject_users d userID));
  mret (collapse_join (λ p : User * bool, User_ID p.1) new_subject group_summary attach_subject_group rws).

Definition GetOwnerRefs : M (list (UserID * string)) :=
  query (λ _ d, (λ u, (User_ID u, User_DisplayName u)) <$> live_users d).

(** ** Service operations that change state *)

Section service.
Context `{HostAccessObservers}.

Definition SetUserAccess (userID : UserID) (bypassHostCheck : bool) (groupIDs : list HostGroupID) : M unit :=
  _ ← SetUserAccess_row userID bypassHostCheck (Dedup groupIDs);
  notify host_access_observers tt.

(** [OnUserEvent]: an error is logged, the observers are told either way. *)
Definition useraccess_OnUserEvent (e : UserEvent) : M unit :=
  match UserEvent_Type e with
  | EventTypeUserCreated =>
      _ ← catch (EnsureUserSettings (UserEvent_UserID e)) (λ _, mret tt);
      notify host_access_observers tt
  | EventTypeUserDeleted =>
      _ ← catch (DeleteUserData (UserEvent_UserID e)) (λ _, mret tt);
      notify host_access_observers tt
  end.

Definition handler_SetUserAccess (userID : UserID) (bypassHostCheck : bool) (groupIDs : list HostGroupID) : M (Response unit) :=
  respond (SetUserAccess userID bypassHostCheck groupIDs) (λ _, mkResponse 204 None)
    (λ e, if decide (e = ErrReferenceNotFound ∨ e = ErrUserNotFound) then 404 else 500).

Definition handler_ListOwnerRefs : M (Response (list (UserID * string))) :=
  respond GetOwnerRefs (λ refs, mkResponse 200 (Some refs)) (λ _, 500).
End service.

(** ** What the cache is fed *)

(** The hosts a user reaches through her groups. *)
Definition reaches (d : db) (u : UserID) (fqdn : string) : Prop :=
  ∃ g i h, (u, g) ∈ user_groups d ∧ (g, i) ∈ group_members d ∧ hosts d !! i = Some h ∧ Host_FQDN h = fqdn.

(** What the tables grant a user: a user without a settings row gets nothing. *)
Definition user_may_reach (d : db) (u : UserID) (fqdn : string) : Prop :=
  match user_settings d !! u with Some bypass => bypass = true ∨ reaches d u fqdn | None => False end.

Lemma elem_of_user_host_grants d g :
  g ∈ user_host_grants d ↔ reaches d (UserHostGrant_UserID g) (UserHostGrant_FQDN g).
Proof.
  unfold user_host_grants, reaches. rewrite list_elem_of_bind. setoid_rewrite list_elem_of_bind. split.
  - intros ([u gr] & ([g' i] & Hin & Hgm%elem_of_elements) & Hug%elem_of_elements). cbn in Hin. case_bool_decide; [|by apply elem_of_nil in Hin].
    destruct (hosts d !! i) as [h|] eqn:Hh; [|by apply elem_of_nil in Hin]. apply list_elem_of_singleton in Hin as ->. subst g'. cbn. eauto 10.
  - intros (gr & i & h & Hug & Hgm & Hh & Hf). exists (UserHostGrant_UserID g, gr). rewrite elem_of_elements. split; [|done].
    exists (gr, i). rewrite elem_of_elements. split; [|done]. cbn. rewrite bool_decide_eq_true_2, Hh by done.
    apply list_elem_of_singleton. destruct g. cbn in *. by subst.
Qed.

(** A map filled from a list without repeated keys. *)
Lemma foldl_insert_find {A V} (k : A → Z) (v : A → V) l (m : gmap Z V) u :
  NoDup (k <$> l) →
  foldl (λ m x, <[k x := v x]> m) m l !! u =
    match list_find (λ x, k x = u) l with Some (_, x) => Some (v x) | None => m !! u end.
Proof.
  revert m. induction l as [|s l IH]; intros m; [done|]. cbn [fmap list_fmap]. intros [Hs Hl]%NoDup_cons. cbn [foldl list_find].
  rewrite IH by done. case_decide as Hu.
  - subst u. destruct (list_find _ l) as [[i x]|] eqn:E; [|by rewrite lookup_insert_eq].
    apply list_find_Some in E as (Hx & Ex & _). exfalso. apply Hs, list_elem_of_fmap. exists x. split; [done|]. by eapply list_elem_of_lookup_2.
  - destruct (list_find _ l) as [[i x]|]; [done|]. by rewrite lookup_insert_ne.
Qed.

Lemma foldl_insert_Some {A V} (k : A → Z) (v : A → V) l u y :
  NoDup (k <$> l) →
  foldl (λ m x, <[k x := v x]> m) (∅ : gmap Z V) l !! u = Some y ↔ ∃ x, x ∈ l ∧ k x = u ∧ v x = y.
Proof.
  intros Hnd. rewrite foldl_insert_find by done. destruct (list_find _ l) as [[i x]|] eqn:E.
  - apply list_find_Some in E as (Hx & Ex & _). apply list_elem_of_lookup_2 in Hx. split; [intros [= <-]; by exists x|].
    intros (x' & Hx' & Ex' & <-). f_equal. f_equal. clear -Hnd Hx Hx' Ex Ex'. induction l as [|z l IH]; [by apply elem_of_nil in Hx|].
    cbn in Hnd. apply NoDup_cons in Hnd as [Hz Hnd]. apply elem_of_cons in Hx as [->|Hx], Hx' as [->|Hx']; [done| | |by apply IH];
      exfalso; apply Hz; rewrite ?Ex, ?Ex'; [rewrite <-Ex'|rewrite <-Ex]; by apply list_elem_of_fmap_2.
  - apply list_find_None in E. rewrite lookup_empty. split; [done|]. intros (x & Hx & Ex & _). rewrite Forall_forall in E. by apply (E x Hx) in Ex.
Qed.

(** The loops of [mergeUserHostAccess]. *)
Lemma merge_grants gs (m : gmap UserID (bool * gset string)) u :
  match foldl (λ m g, match m !! UserHostGrant_UserID g with
                  | None => m
                  | Some e => <[UserHostGrant_UserID g := (e.1, {[UserHostGrant_FQDN g]} ∪ e.2)]> m
                  end) m gs !! u, m !! u with
  | Some (b, hs), Some (b0, hs0) => b = b0 ∧ ∀ f, f ∈ hs ↔ f ∈ hs0 ∨ mkUserHostGrant u f ∈ gs
  | None, None => True
  | _, _ => False
  end.
Proof.
  revert m. induction gs as [|[v f] gs IH]; intros m; cbn [foldl UserHostGrant_UserID UserHostGrant_FQDN].
  { destruct (m !! u) as [[b hs]|]; [|done]. split; [done|]. set_solver. }
  specialize (IH (match m !! v with None => m | Some e => <[v := (e.1, {[f]} ∪ e.2)]> m end)).
  destruct (foldl _ _ gs !! u) as [[b hs]|]; destruct (m !! v) as [[bv hv]|] eqn:Ev.
  - destruct (decide (v = u)) as [->|Hne].
    + rewrite lookup_insert_eq in IH. rewrite Ev. destruct IH as [-> IH]. split; [done|]. intros x. rewrite IH, elem_of_cons. cbn.
      rewrite elem_of_union, elem_of_singleton. split; [intros [[->|?]|?]; tauto|]. intros [?|[[= ->]|?]]; tauto.
    + rewrite lookup_insert_ne in IH by done. destruct (m !! u) as [[b0 hs0]|]; [|done]. destruct IH as [-> IH]. split; [done|].
      intros x. rewrite IH, elem_of_cons. split; [tauto|]. intros [?|[[= -> _]|?]]; tauto.
  - destruct (m !! u) as [[b0 hs0]|] eqn:Eu; [|done]. destruct IH as [-> IH]. split; [done|]. intros x. rewrite IH, elem_of_cons.
    split; [tauto|]. intros [?|[[= -> _]|?]]; [tauto|congruence|tauto].
  - destruct (decide (v = u)) as [->|Hne]; [by rewrite lookup_insert_eq in IH|]. by rewrite lookup_insert_ne in IH.
  - exact IH.
Qed.

Lemma settings_find d u :
  foldl (λ m s, <[UserHostSetting_UserID s := (UserHostSetting_BypassHostCheck s, (∅ : gset string))]> m) (∅ : gmap UserID (bool * gset string))
    ((λ kv, mkUserHostSetting kv.1 kv.2) <$> scan (user_settings d)) !! u = (λ b, (b, ∅)) <$> user_settings d !! u.
Proof.
  apply option_eq. intros y. rewrite foldl_insert_Some.
  - setoid_rewrite list_elem_of_fmap. split.
    + intros (x & ([k b] & -> & Hk%elem_of_scan) & <- & <-). cbn. by rewrite Hk.
    + intros (b & Hb & ->)%fmap_Some. exists (mkUserHostSetting u b). split; [|done]. exists (u, b). by rewrite elem_of_scan.
  - rewrite <-list_fmap_compose. apply NoDup_scan_fst.
Qed.

(** The feed, as a function of the tables. *)
Definition host_access (d : db) : list UserHostAccess :=
  mergeUserHostAccess ((λ kv, mkUserHostSetting kv.1 kv.2) <$> scan (user_settings d)) (user_host_grants d).

Lemma elem_of_host_access d ua :
  ua ∈ host_access d ↔ ∃ u b hs, ua = mkUserHostAccess u b (elements hs) ∧ user_settings d !! u = Some b ∧
    (b = true ∨ hs ≠ ∅) ∧ ∀ f, f ∈ (hs : gset string) ↔ reaches d u f.
Proof.
  unfold host_access, mergeUserHostAccess. cbv zeta. set (m := foldl _ _ (user_host_grants d)).
  assert (∀ u, match m !! u, user_settings d !! u with
    | Some (b, hs), Some b0 => b = b0 ∧ ∀ f, f ∈ hs ↔ reaches d u f | None, None => True | _, _ => False end) as Hm.
  { intros u. unfold m. pose proof (merge_grants (user_host_grants d)
      (foldl (λ m s, <[UserHostSetting_UserID s := (UserHostSetting_BypassHostCheck s, (∅ : gset string))]> m) ∅
        ((λ kv, mkUserHostSetting kv.1 kv.2) <$> scan (user_settings d))) u) as Hg. rewrite settings_find in Hg.
    destruct (foldl _ _ (user_host_grants d) !! u) as [[b hs]|], (user_settings d !! u) as [b0|]; try done.
    destruct Hg as [-> Hg]. split; [done|]. intros f. rewrite Hg, elem_of_user_host_grants. set_solver. }
  rewrite list_elem_of_omap. split.
  - intros ([u [b hs]] & Hin%elem_of_map_to_list & E). cbn in E. specialize (Hm u). rewrite Hin in Hm.
    destruct (user_settings d !! u) as [b0|] eqn:Eu; [|done]. destruct Hm as [-> Hm]. exists u, b0, hs.
    destruct b0; cbn in E; [injection E as <-; eauto|]. destruct (Nat.eqb_spec (size hs) 0); [done|]. injection E as <-.
    split; [done|]. split; [done|]. split; [right; intros ->; by rewrite size_empty in *|done].
  - intros (u & b & hs & -> & Hs & Hne & Hf). specialize (Hm u). rewrite Hs in Hm. destruct (m !! u) as [[b0 hs0]|] eqn:Em; [|done].
    destruct Hm as [-> Hm]. assert (hs0 = hs) as -> by (apply set_eq; intros f; by rewrite Hm, Hf).
    exists (u, (b, hs)). split; [by apply elem_of_map_to_list|]. cbn. destruct b; [done|]. destruct Hne as [|Hne]; [done|].
    by rewrite (proj2 (Nat.eqb_neq _ _)) by (apply size_non_empty_iff; by unfold_leibniz).
Qed.

Lemma host_access_NoDup d : NoDup (UserHostAccess_UserID <$> host_access d).
Proof.
  unfold host_access, mergeUserHostAccess. cbv zeta. set (m := foldl _ _ (user_host_grants d)).
  pose proof (NoDup_fst_map_to_list m) as Hnd. induction (map_to_list m) as [|[u [b hs]] l IH]; [constructor|].
  cbn [fmap list_fmap fst] in Hnd. apply NoDup_cons in Hnd as [Hu Hnd]. cbn [omap list_omap snd fst].
  destruct (negb b && (size hs =? 0)%nat); [by apply IH|]. cbn. constructor; [|by apply IH].
  intros (x & -> & ([u' [b' hs']] & Hin & E)%list_elem_of_omap)%list_elem_of_fmap. apply Hu, list_elem_of_fmap. exists (u', (b', hs')).
  split; [|done]. cbn in E. case_match; [done|]. by injection E as <-.
Qed.

(** The hosts of a user, as a set. *)
Lemma reach_set d u : ∃ hs : gset string, ∀ f, f ∈ hs ↔ reaches d u f.
Proof.
  exists (list_to_set (UserHostGrant_FQDN <$> filter (λ g, UserHostGrant_UserID g = u) (user_host_grants d))). intros f.
  rewrite elem_of_list_to_set, list_elem_of_fmap. setoid_rewrite list_elem_of_filter. setoid_rewrite elem_of_user_host_grants. split.
  - by intros ([v k] & -> & -> & ?).
  - intros Hf. by exists (mkUserHostGrant u f).
Qed.

Lemma elem_of_user_hosts d u f : f ∈ user_hosts (host_access d) u ↔ is_Some (user_settings d !! u) ∧ reaches d u f.
Proof.
  unfold user_hosts. assert (∀ s, hostSetMap (host_access d) !! u = Some s ↔
    ∃ ua, ua ∈ host_access d ∧ UserHostAccess_UserID ua = u ∧ list_to_set (UserHostAccess_AllowedHosts ua) = s) as Hh.
  { intros s. unfold hostSetMap. by rewrite foldl_insert_Some by apply host_access_NoDup. }
  split.
  - destruct (hostSetMap (host_access d) !! u) as [s|] eqn:Es; cbn; [|set_solver].
    destruct (proj1 (Hh s) eq_refl) as (ua & Hin & Hu & <-). apply elem_of_host_access in Hin as (u' & b & hs & -> & Hs & _ & Hf). cbn in Hu |- *. subst u'.
    rewrite elem_of_list_to_set, elem_of_elements. intros Hx. split; [by eexists|by apply Hf].
  - intros [[b Hs] Hr]. destruct (reach_set d u) as [hs Hhs]. rewrite (proj2 (Hh hs)); [by apply Hhs|].
    exists (mkUserHostAccess u b (elements hs)). cbn. split; [|by rewrite list_to_set_elements_L]. apply elem_of_host_access.
    exists u, b, hs. split; [done|]. split; [done|]. split; [|done]. right. intros ->. by apply Hhs, elem_of_empty in Hr.
Qed.

Lemma granted_reach d u h : granted (host_access d) u h = true ↔ user_may_reach d u h.
Proof.
  unfold granted, user_bypass, user_hosts, user_may_reach. pose proof (host_access_NoDup d) as Hnd.
  assert (∀ ua, accessMap (host_access d) !! u = Some ua ↔ ua ∈ host_access d ∧ UserHostAccess_UserID ua = u) as Ha.
  { intros ua. unfold accessMap. rewrite foldl_insert_Some by done. naive_solver. }
  assert (∀ s, hostSetMap (host_access d) !! u = Some s ↔ ∃ ua, ua ∈ host_access d ∧ UserHostAccess_UserID ua = u ∧ list_to_set (UserHostAccess_AllowedHosts ua) = s) as Hh.
  { intros s. unfold hostSetMap. by rewrite foldl_insert_Some. }
  destruct (accessMap (host_access d) !! u) as [ua|] eqn:Ea.
  - pose proof (proj1 (Ha ua) eq_refl) as [Hin Hu]. assert (hostSetMap (host_access d) !! u = Some (list_to_set (UserHostAccess_AllowedHosts ua))) as -> by (apply Hh; eauto).
    apply elem_of_host_access in Hin as (u' & b & hs & -> & Hs & _ & Hf). cbn in Hu. subst u'. rewrite Hs. cbn.
    rewrite list_to_set_elements_L, orb_true_iff, bool_decide_eq_true. by rewrite Hf.
  - destruct (hostSetMap (host_access d) !! u) as [s|] eqn:Es.
    { destruct (proj1 (Hh s) eq_refl) as (ua & Hin & Hu & _). assert (None = Some ua) as [=] by (by apply Ha). }
    cbn. rewrite bool_decide_eq_false_2 by set_solver. split; [done|]. destruct (user_settings d !! u) as [b|] eqn:Eu; [|done].
    intros Hr. exfalso. destruct (reach_set d u) as [hs Hhs].
    assert (None = Some (mkUserHostAccess u b (elements hs))) as [=]. apply Ha. split; [|done]. apply elem_of_host_access.
    exists u, b, hs. split; [done|]. split; [done|]. split; [|done]. destruct Hr as [->|Hr]; [by left|right]. intros ->. by apply Hhs, elem_of_empty in Hr.
Qed.

(** The cache is fed exactly what the tables grant: a user's owner
    check passes for a host if and only if the user has a settings row and
    either bypasses the check or has a group the host is a member of; in
    particular a user without settings, or without groups, reaches nothing. *)
Theorem granted_iff_tables d u h : granted (host_access d) u h = true ↔ user_may_reach d u h.
Proof. apply granted_reach. Qed.

Lemma GetAllUserHostAccess_run tx w : no_faults w → GetAllUserHostAccess tx w = (Ok (host_access (w_db w)), w).
Proof.
  intros Hnf. unfold GetAllUserHostAccess, GetAllUserHostSettings, GetAllUserHostGrants. rewrite bind_run. destruct tx.
  - rewrite withinTx_nested. by run.
  - rewrite withinTx_run; [|done|by run]. by run.
Qed.

(** ** Setting a user's access *)

Lemma insert_user_group_run u g w :
  no_faults w → (u, g) ∉ user_groups (w_db w) →
  insert_user_group u g true w =
    match users (w_db w) !! u, host_groups (w_db w) !! g with
    | Some _, Some _ => (Ok tt, set_db (on_user_groups ({[(u, g)]} ∪.) (w_db w)) w)
    | _, _ => (Err ErrReferenceNotFound, w)
    end.
Proof.
  intros Hnf Hm. unfold insert_user_group. rewrite map_err_run, exec_run by done. rewrite decide_False by done.
  by destruct (users (w_db w) !! u), (host_groups (w_db w) !! g).
Qed.

Lemma insert_user_groups_run u gs w x :
  no_faults w → users (w_db w) !! u = Some x → NoDup gs → (∀ g, g ∈ gs → (u, g) ∉ user_groups (w_db w)) →
  if decide (Forall (λ g, is_Some (host_groups (w_db w) !! g)) gs)
  then ∃ f, for_each gs (insert_user_group u) true w = (Ok tt, set_db (on_user_groups f (w_db w)) w) ∧
         ∀ p, p ∈ f (user_groups (w_db w)) ↔ p ∈ user_groups (w_db w) ∨ (p.1 = u ∧ p.2 ∈ gs)
  else ∃ w', for_each gs (insert_user_group u) true w = (Err ErrReferenceNotFound, w') ∧ no_faults w'.
Proof.
  revert w. induction gs as [|g gs IH]; intros w Hnf Hu Hnd Hnew.
  { rewrite decide_True by constructor. exists id. split; [by destruct w as [[]]|]. intros p. set_solver. }
  apply NoDup_cons in Hnd as [Hg Hnd]. cbn [for_each]. rewrite bind_run, insert_user_group_run, Hu by (done || (apply Hnew; by left)).
  destruct (host_groups (w_db w) !! g) as [y|] eqn:Hy.
  2:{ rewrite decide_False; [by eexists|]. intros [[? Hs] _]%Forall_cons_1. congruence. }
  specialize (IH (set_db (on_user_groups ({[(u, g)]} ∪.) (w_db w)) w) Hnf Hu Hnd). cbn in IH.
  destruct (decide (Forall (λ g, is_Some (host_groups (w_db w) !! g)) gs)) as [Hall|Hall].
  - rewrite decide_True by (constructor; [by eexists|done]). destruct IH as (f & -> & Hf); [set_solver|].
    exists (λ s, f ({[(u, g)]} ∪ s)). split; [done|]. intros [p q]. rewrite Hf. set_solver.
  - rewrite decide_False by (intros [_ ?]%Forall_cons_1; done). destruct IH as (w' & ? & ?); [set_solver|]. by exists w'.
Qed.

(** What is wrong with a request, if anything. *)
Definition set_access_error (d : db) (u : UserID) (gs : list HostGroupID) : option error :=
  match users d !! u with
  | None => Some (match gs with [] => ErrUserNotFound | _ => ErrReferenceNotFound end)
  | Some _ => if decide (Forall (λ g, is_Some (host_groups d !! g)) gs) then None else Some ErrReferenceNotFound
  end.

Lemma SetUserAccess_row_run u bypass gs w :
  no_faults w → NoDup gs →
  match set_access_error (w_db w) u gs with
  | Some e => ∃ w', SetUserAccess_row u bypass gs false w = (Err e, w') ∧ w_db w' = w_db w
  | None => ∃ f, SetUserAccess_row u bypass gs false w =
        (Ok tt, set_db (on_user_settings <[u := bypass]> (on_user_groups f (w_db w))) w) ∧
      ∀ p, p ∈ f (user_groups (w_db w)) ↔ if decide (p.1 = u) then p.2 ∈ gs else p ∈ user_groups (w_db w)
  end.
Proof.
  intros Hnf Hnd. unfold SetUserAccess_row, set_access_error. set (body := mbind _ _).
  assert (∀ e w', body true w = (Err e, w') → no_faults w' → mapBusyErr e = e → ∃ w'', withinTx body false w = (Err e, w'') ∧ w_db w'' = w_db w) as Herr.
  { intros e w' E Hnf' Hb. rewrite withinTx_run by (done || by rewrite E). rewrite E, Hb. eexists. split; [reflexivity|]. by rewrite markContended_db. }
  set (w1 := set_db (on_user_groups (filter (λ p, p.1 ≠ u)) (w_db w)) w).
  assert (body true w = (for_each gs (insert_user_group u) ≫= λ _,
    map_err (λ e, if isFKViolation e then ErrUserNotFound else e) (exec (λ _ d,
      match users d !! u with
      | None => Err ErrForeignKey
      | Some _ => Ok (tt, on_user_settings (<[u := bypass]>) d)
      end))) true w1) as E by (unfold body; by rewrite bind_run, exec_run).
  rewrite bind_run in E. destruct (users (w_db w) !! u) as [x|] eqn:Hu.
  - pose proof (insert_user_groups_run u gs w1 x Hnf Hu Hnd) as Hr. cbn [w_db set_db w1 on_user_groups user_groups host_groups] in Hr.
    case_decide as Hall; (destruct Hr as (f & Hr & Hf); [intros g _; rewrite elem_of_filter; cbn; tauto|]); rewrite Hr in E; [|by eapply Herr].
    rewrite map_err_run, exec_run in E by done. cbn [w_db set_db users on_user_groups] in E. rewrite Hu in E.
    exists (λ s, f (filter (λ p, p.1 ≠ u) s)). rewrite withinTx_run by (done || by rewrite E). rewrite E. split; [done|].
    intros p. rewrite Hf, elem_of_filter. destruct (decide (p.1 = u)); tauto.
  - destruct gs as [|g gs].
    + cbn [for_each] in E. rewrite ret_run, map_err_run, exec_run in E by done. cbn in E. rewrite Hu in E. by eapply Herr.
    + cbn [for_each] in E. rewrite bind_run, insert_user_group_run in E; [|done|cbn; rewrite elem_of_filter; cbn; tauto].
      cbn in E. rewrite Hu in E. by eapply Herr.
Qed.

Section set_access.
Context `{HostAccessObservers}.

(** Without faults, setting a user's access fails with nothing
    changed when the user or a group does not exist; otherwise the user
    may from then on reach a host exactly if the bypass is set or one of
    the given groups contains it, what other users reach is as before,
    only the two access tables change and the observers are told once. *)
Theorem SetUserAccess_spec u bypass gs w :
  no_faults w →
  match set_access_error (w_db w) u (Dedup gs) with
  | Some e => ∃ w', SetUserAccess u bypass gs false w = (Err e, w') ∧ w_db w' = w_db w
  | None => ∃ f, let d' := on_user_settings <[u := bypass]> (on_user_groups f (w_db w)) in
      SetUserAccess u bypass gs false w = (Ok tt, foldl (λ w o, o tt w) (set_db d' w) host_access_observers) ∧
      (∀ h, user_may_reach d' u h ↔ bypass = true ∨
         ∃ g i x, g ∈ gs ∧ (g, i) ∈ group_members (w_db w) ∧ hosts (w_db w) !! i = Some x ∧ Host_FQDN x = h) ∧
      ∀ v h, v ≠ u → user_may_reach d' v h ↔ user_may_reach (w_db w) v h
  end.
Proof.
  intros Hnf. unfold SetUserAccess. pose proof (SetUserAccess_row_run u bypass (Dedup gs) w Hnf (NoDup_Dedup gs)) as Hr.
  destruct (set_access_error _ _ _) as [e|]; destruct Hr as (f & Hr & Hf); rewrite bind_run, Hr; [by exists f|].
  exists f. cbv zeta. rewrite notify_run. split; [done|]. unfold user_may_reach, reaches. cbn. split.
  - intros h. rewrite lookup_insert_eq. apply or_iff_compat_l.
    split; intros (g & i & x & Hg & Hx); exists g, i, x; (split; [|done]); [apply Hf in Hg; cbn in Hg; rewrite decide_True in Hg by done; by apply elem_of_Dedup|].
    apply Hf. cbn. rewrite decide_True by done. by apply elem_of_Dedup.
  - intros v h Hv. rewrite lookup_insert_ne by done. destruct (user_settings (w_db w) !! v); [|done]. apply or_iff_compat_l.
    split; intros (g & i & x & Hg & Hx); exists g, i, x; (split; [|done]); [apply Hf in Hg; cbn in Hg; by rewrite decide_False in Hg|].
    apply Hf. cbn. by rewrite decide_False.
Qed.
End set_access.
