(* ===== verification/HostViews.v ===== *)
(** * HostViews: the host pages ([internal/hosts/host_view.go], [host_group_view.go])

    The list of hosts with their groups, the list of groups with their
    member counts, the detail of a group with the users and network policies
    that grant through it; their handlers.  The theorems: the collapse of
    the joined rows gives every host once, with exactly its groups. *)

From S2P Require Import Prelude GoLib Slicex Compare Joins GroupBy Schema Store Http Hosts UserAccess.

Local Open Scope string_scope.
Local Open Scope Z_scope.
Local Open Scope list_scope.

(** ** host_view.go *)

(** [httpapi.Host]. *)
Record HostItem := mkHostItem { hi_Id : HostID; hi_Fqdn : string; hi_Groups : list GroupSummary }.

Definition groups_of_host (d : db) (h : HostID) : list HostGroup :=
  omap (λ p, if bool_decide (p.2 = h) then host_groups d !! p.1 else None) (elements (group_members d)).

(** The joined rows, in [ORDER BY kh.fqdn, hg.name]. *)
Definition host_rows (d : db) : list (Host * option HostGroup) :=
  order_by (λ r, (Host_FQDN r.1, HostGroup_Name <$> r.2)) (cmp_pair String.compare (cmp_option String.compare))
    (join_rows (λ h, groups_of_host d (Host_ID h)) (rows (hosts d))).

Definition attach_group (h : HostItem) (g : GroupSummary) : HostItem := mkHostItem (hi_Id h) (hi_Fqdn h) (hi_Groups h ++ [g]).

Definition collapse_hosts (rws : list (Host * option HostGroup)) : list HostItem :=
  collapse_join Host_ID (λ h, mkHostItem (Host_ID h) (Host_FQDN h) []) group_summary attach_group rws.

Definition GetAllHostsWithGroups : M (list HostItem) := rws ← query (λ _ d, host_rows d); mret (collapse_hosts rws).

(** ** host_group_view.go *)

Record GroupListItem := mkGroupListItem {
  gli_Id : HostGroupID; gli_Name : string; gli_Color : string; gli_Icon : string; gli_HostCount : Z }.

Definition group_list_item (d : db) (g : HostGroup) : GroupListItem :=
  mkGroupListItem (HostGroup_ID g) (HostGroup_Name g) (HostGroup_Color g) (HostGroup_Icon g)
    (Z.of_nat (size (filter (λ p, p.1 = HostGroup_ID g) (group_members d)))).

Definition GetHostGroupsList : M (list GroupListItem) :=
  query (λ _ d, group_list_item d <$> order_by HostGroup_Name String.compare (rows (host_groups d))).

Record UserSummary := mkUserSummary { us_Id : UserID; us_Username : string; us_DisplayName : string }.
Record NetworkPolicyRef := mkPolicyRef { npr_Id : NetworkPolicyID; npr_Name : string; npr_Cidr : string }.

Record GroupDetailWithUsers := mkGroupDetail {
  gd_Id : HostGroupID; gd_Name : string; gd_Color : string; gd_Icon : string; gd_Description : option string;
  gd_Hosts : list (HostID * string); gd_Users : list UserSummary; gd_NetworkPolicies : list NetworkPolicyRef }.

Definition hosts_of_group (d : db) (g : HostGroupID) : list Host :=
  order_by Host_FQDN String.compare
    (omap (λ p, if bool_decide (p.1 = g) then hosts d !! p.2 else None) (elements (group_members d))).

Definition users_of_group (d : db) (g : HostGroupID) : list User :=
  order_by_text User_DisplayName (filter (λ u, User_DeletedAt u = None)
    (omap (λ p, if bool_decide (p.2 = g) then users d !! p.1 else None) (elements (user_groups d)))).

Definition policies_of_group (d : db) (g : HostGroupID) : list NetworkPolicy :=
  order_by_text NetworkPolicy_Name
    (omap (λ p, if bool_decide (p.2 = g) then policies d !! p.1 else None) (elements (policy_groups d))).

Definition GetHostGroupDetail (id : HostGroupID) : M GroupDetailWithUsers :=
  g ← map_err (no_rows ErrHostGroupNotFound) (get_row (λ _ d, host_groups d !! id));
  hostSummaries ← query (λ _ d, (λ h, (Host_ID h, Host_FQDN h)) <$> hosts_of_group d id);
  users ← query (λ _ d, (λ u, mkUserSummary (User_ID u) (User_Username u) (User_DisplayName u)) <$> users_of_group d id);
  policies ← query (λ _ d, (λ p, mkPolicyRef (NetworkPolicy_ID p) (NetworkPolicy_Name p) (NetworkPolicy_CIDR p)) <$> policies_of_group d id);
  mret (mkGroupDetail (HostGroup_ID g) (HostGroup_Name g) (HostGroup_Color g) (HostGroup_Icon g) (HostGroup_Description g)
          hostSummaries users policies).

(** ** handler.go *)

Definition handler_ListHosts : M (Response (list HostItem)) :=
  respond GetAllHostsWithGroups (λ l, mkResponse 200 (Some l)) (λ _, 500).

Definition handler_ListHostGroups : M (Response (list GroupListItem)) :=
  respond GetHostGroupsList (λ l, mkResponse 200 (Some l)) (λ _, 500).

Definition handler_GetHostGroup (id : HostGroupID) : M (Response GroupDetailWithUsers) :=
  respond (GetHostGroupDetail id) (λ x, mkResponse 200 (Some x)) (λ e, match e with ErrHostGroupNotFound => 404 | _ => 500 end).

(** ** The pages agree *)

Lemma elem_of_groups_of_host d h g :
  g ∈ groups_of_host d h ↔ ∃ i, (i, h) ∈ group_members d ∧ host_groups d !! i = Some g.
Proof.
  unfold groups_of_host. rewrite list_elem_of_omap. split.
  - intros ([i j] & Hin%elem_of_elements & E). cbn in E. case_bool_decide as Hj; [|done]. subst j. by exists i.
  - intros (i & Hin & Hg). exists (i, h). rewrite elem_of_elements. cbn. by rewrite bool_decide_eq_true_2.
Qed.

Lemma elem_of_hosts_of_group d g h :
  h ∈ hosts_of_group d g ↔ ∃ i, (g, i) ∈ group_members d ∧ hosts d !! i = Some h.
Proof.
  unfold hosts_of_group. rewrite (order_by_Permutation _ _), list_elem_of_omap. split.
  - intros ([i j] & Hin%elem_of_elements & E). cbn in E. case_bool_decide as Hj; [|done]. subst i. by exists j.
  - intros (i & Hin & Hg). exists (g, i). rewrite elem_of_elements. cbn. by rewrite bool_decide_eq_true_2.
Qed.

Lemma attach_groups x gs : foldl attach_group x gs = mkHostItem (hi_Id x) (hi_Fqdn x) (hi_Groups x ++ gs).
Proof. revert x. induction gs as [|g gs IH]; intros []; cbn [foldl]; [by rewrite app_nil_r|]. rewrite IH. cbn. by rewrite <-app_assoc. Qed.

(** Every host is listed once, with exactly its groups. *)
Lemma host_list_spec d :
  NoDup (Host_ID <$> rows (hosts d)) →
  ∃ hs, hs ≡ₚ rows (hosts d) ∧
    Forall2 (λ h x, hi_Id x = Host_ID h ∧ hi_Fqdn x = Host_FQDN h ∧ hi_Groups x ≡ₚ group_summary <$> groups_of_host d (Host_ID h))
      hs (collapse_hosts (host_rows d)).
Proof.
  intros Hnd. destruct (collapse_join_spec Host_ID (λ h, mkHostItem (Host_ID h) (Host_FQDN h) []) group_summary attach_group
    (λ h, groups_of_host d (Host_ID h)) (host_rows d) (rows (hosts d))) as (hs & Hp & _ & HF); [apply order_by_Permutation|done|].
  exists hs. split; [done|]. eapply Forall2_impl; [exact HF|]. intros h x (gs & Hgs & ->). rewrite attach_groups. cbn.
  split; [done|]. split; [done|]. by rewrite Hgs.
Qed.

(** The group of a host's item has the host in its detail, and conversely. *)
Lemma host_pages_agree d h g :
  hosts d !! Host_ID h = Some h → host_groups d !! HostGroup_ID g = Some g →
  (∀ i x, hosts d !! i = Some x → Host_ID x = i) → (∀ i x, host_groups d !! i = Some x → HostGroup_ID x = i) →
  g ∈ groups_of_host d (Host_ID h) ↔ h ∈ hosts_of_group d (HostGroup_ID g).
Proof.
  intros Hh Hg Kh Kg. rewrite elem_of_groups_of_host, elem_of_hosts_of_group. split.
  - intros (i & Hin & Hi). apply Kg in Hi as E. subst i. eauto.
  - intros (i & Hin & Hi). apply Kh in Hi as E. subst i. eauto.
Qed.

(** The count of the list is the number of hosts of the detail. *)
Lemma group_count_is_detail d g :
  (∀ p, p ∈ group_members d → is_Some (hosts d !! p.2)) →
  gli_HostCount (group_list_item d g) = Z.of_nat (length (hosts_of_group d (HostGroup_ID g))).
Proof.
  intros Hfk. cbn. f_equal. unfold hosts_of_group. rewrite (order_by_Permutation _ _). unfold size, set_size. cbn.
  assert (elements (filter (λ p, p.1 = HostGroup_ID g) (group_members d)) ≡ₚ filter (λ p, p.1 = HostGroup_ID g) (elements (group_members d))) as ->.
  { apply NoDup_Permutation; [apply NoDup_elements|apply NoDup_filter, NoDup_elements|]. intros p. rewrite elem_of_elements, elem_of_filter, list_elem_of_filter, elem_of_elements. done. }
  assert (∀ p, p ∈ elements (group_members d) → is_Some (hosts d !! p.2)) as Hin by (intros p Hp%elem_of_elements; auto).
  revert Hin. generalize (elements (group_members d)) as l. induction l as [|p l IH]; intros Hin; [done|]. rewrite filter_cons. cbn [omap list_omap].
  destruct (Hin p) as [h Hh]; [by left|]. specialize (IH (λ q Hq, Hin q (list_elem_of_further q p l Hq))).
  case_decide as E; [rewrite bool_decide_eq_true_2, Hh by done; cbn; by f_equal|by rewrite bool_decide_eq_false_2].
Qed.
