(* ===== verification/NetworkPolicies.v ===== *)
(** * NetworkPolicies: access by CIDR range ([internal/networkpolicies])

    Policies that let a range of addresses reach hosts: validation and
    breadth limits of a CIDR, the repository, the service, the feed of the
    policy cache, the read models of the admin pages and the handlers. *)

From S2P Require Import Prelude GoLib Netip Schema Store Slicex Http Hosts UserAccess.

Local Open Scope string_scope.
Local Open Scope Z_scope.

(** [networkpolicies.PolicyChangeObserver]. *)
Class PolicyChangeObservers := {
  policy_change_observers : list (unit → world → world);
  policy_change_observers_inert : inert_observers policy_change_observers;
}.

#[export] Hint Resolve policy_change_observers_inert : pw.

(** ** network_policy.go *)

Record UpdateFields := mkUpdateFields {
  uf_Name : string; uf_CIDR : string; uf_Description : option string; uf_Enabled : bool;
}.

Inductive cidrBand := cidrNormal | cidrBroad | cidrTooBroad.

#[export] Instance cidrBand_eq_dec : EqDecision cidrBand.
Proof. solve_decision. Defined.

Definition rejectMaxBitsV4 : Z := 8.
Definition warnMaxBitsV4 : Z := 16.
Definition rejectMaxBitsV6 : Z := 32.
Definition warnMaxBitsV6 : Z := 47.

Definition classifyCIDR (prefix : Prefix) : cidrBand :=
  let '(bits, addr) :=
    if Is4In6 (Prefix_ip prefix) then (Prefix_bits prefix - 96, Unmap (Prefix_ip prefix))
    else (Prefix_bits prefix, Prefix_ip prefix) in
  let '(rejectMax, warnMax) := if Is4 addr then (rejectMaxBitsV4, warnMaxBitsV4) else (rejectMaxBitsV6, warnMaxBitsV6) in
  if bits <=? rejectMax then cidrTooBroad
  else if bits <=? warnMax then cidrBroad
  else cidrNormal.

Definition normalizeCIDR (cidr : string) : result string :=
  match ParsePrefix cidr with
  | None => Err ErrInvalidCIDR
  | Some prefix =>
      if bool_decide (classifyCIDR prefix = cidrTooBroad) then Err ErrCIDRTooBroad
      else Ok (Prefix_String (Masked prefix))
  end.

Definition broadCIDR (cidr : string) : bool :=
  match ParsePrefix cidr with
  | None => false
  | Some prefix => bool_decide (classifyCIDR prefix = cidrBroad)
  end.

Definition Apply (p : NetworkPolicy) (fields : UpdateFields) : result NetworkPolicy :=
  match normalizeCIDR (uf_CIDR fields) with
  | Err e => Err e
  | Ok normalized =>
      Ok (mkNetworkPolicy (NetworkPolicy_ID p) (uf_Name fields) normalized (uf_Description fields) (uf_Enabled fields)
            (NetworkPolicy_BypassHostCheck p) (NetworkPolicy_CreatedAt p) (NetworkPolicy_UpdatedAt p))
  end.

(** ** repository.go *)

(** [strftime('%Y-%m-%dT%H:%M:%fZ', 'now')] keeps the milliseconds. *)
Definition strftime_now (t : time) : time := t / 1000000 * 1000000.

Definition cidr_taken (d : db) (self : option NetworkPolicyID) (cidr : string) : bool :=
  table_exists (λ p, negb (bool_decide (self = Some (NetworkPolicy_ID p))) && bool_decide (NetworkPolicy_CIDR p = cidr)) (policies d).

Definition map_cidr_error (e : error) : error := if isUniqueViolation e then ErrCIDRConflict else e.

(** [AUTOINCREMENT]: an id is never used twice. *)
Definition CreatePolicy_row (name cidr : string) (description : option string) (enabled bypass : bool) : M NetworkPolicy :=
  map_err map_cidr_error (exec (λ t d,
    if cidr_taken d None cidr then Err (ErrUnique "network_policies.cidr")
    else let id := 1 + Z.max (policy_seq d) (max_id (policies d)) in
         let p := mkNetworkPolicy id name cidr description enabled bypass (strftime_now t) (strftime_now t) in
         Ok (p, on_policy_seq (λ _, id) (on_policies (<[id := p]>) d)))).

Definition GetPolicy (id : NetworkPolicyID) : M NetworkPolicy :=
  map_err (no_rows ErrPolicyNotFound) (get_row (λ _ d, policies d !! id)).

Definition UpdatePolicy_row (p : NetworkPolicy) : M NetworkPolicy :=
  map_err (λ e, map_cidr_error (no_rows ErrPolicyNotFound e)) (exec (λ t d,
    match policies d !! NetworkPolicy_ID p with
    | None => Err ErrNoRows
    | Some old =>
        if cidr_taken d (Some (NetworkPolicy_ID p)) (NetworkPolicy_CIDR p) then Err (ErrUnique "network_policies.cidr")
        else let p' := mkNetworkPolicy (NetworkPolicy_ID p) (NetworkPolicy_Name p) (NetworkPolicy_CIDR p) (NetworkPolicy_Description p)
                         (NetworkPolicy_Enabled p) (NetworkPolicy_BypassHostCheck p) (NetworkPolicy_CreatedAt old) (strftime_now t) in
             Ok (p', on_policies (<[NetworkPolicy_ID p := p']>) d)
    end)).

(** [ON DELETE CASCADE] on the policy's groups. *)
(** [ON DELETE SET NULL] of the log entries a policy let through. *)
Definition forget_policy (id : NetworkPolicyID) : log_tables → log_tables :=
  on_access_log_policies (update_where (λ r, bool_decide (policy_contributor_PolicyID r = Some id))
    (λ r, mkPolicyContributorRow None (policy_contributor_PolicyName r))).

Definition DeletePolicy_row (id : NetworkPolicyID) : M unit :=
  n ← exec (λ _ d, match policies d !! id with
                   | None => Ok (0, d)
                   | Some _ => Ok (1, on_logs (forget_policy id) (on_policy_groups (filter (λ p, p.1 ≠ id)) (on_policies (delete id) d)))
                   end);
  if n =? 0 then throw ErrPolicyNotFound else mret tt.

Definition insert_policy_group (id : NetworkPolicyID) (gid : HostGroupID) : M unit :=
  exec (λ _ d,
    if decide ((id, gid) ∈ policy_groups d) then Err (ErrUnique "network_policy_allowed_host_groups.policy_id, network_policy_allowed_host_groups.host_group_id")
    else match policies d !! id, host_groups d !! gid with
         | Some _, Some _ => Ok (tt, on_policy_groups ({[(id, gid)]} ∪.) d)
         | _, _ => Err ErrForeignKey
         end).

Definition with_bypass (bypass : bool) (t : time) (p : NetworkPolicy) : NetworkPolicy :=
  mkNetworkPolicy (NetworkPolicy_ID p) (NetworkPolicy_Name p) (NetworkPolicy_CIDR p) (NetworkPolicy_Description p)
    (NetworkPolicy_Enabled p) bypass (NetworkPolicy_CreatedAt p) t.

Definition SetHostAccess_row (id : NetworkPolicyID) (bypassHostCheck : bool) (groupIDs : list HostGroupID) : M unit :=
  withinTx (
    exists_ ← query (λ _ d, bool_decide (is_Some (policies d !! id)));
    if negb exists_ then throw ErrPolicyNotFound
    else
      _ ← exec (λ _ d, Ok (tt, on_policy_groups (filter (λ p, p.1 ≠ id)) d));
      _ ← for_each groupIDs (insert_policy_group id);
      exec (λ t d, Ok (tt, on_policies (alter (with_bypass bypassHostCheck (strftime_now t)) id) d))).

(** The host names a policy's groups reach, and whether the outer joins give
    it a row without a host: it has no group, or a group without members. *)
Definition policy_fqdns (d : db) (id : NetworkPolicyID) : gset string :=
  list_to_set (pg ← elements (policy_groups d);
               gm ← elements (group_members d);
               if bool_decide (pg.1 = id) && bool_decide (gm.1 = pg.2)
               then match hosts d !! gm.2 with Some h => [Host_FQDN h] | None => [] end
               else []).

Definition policy_has_null_row (d : db) (id : NetworkPolicyID) : bool :=
  let gs := filter (λ p, p.1 = id) (elements (policy_groups d)) in
  match gs with
  | [] => true
  | _ => existsb (λ p, bool_decide (members_of d p.2 = [])) gs
  end.

(** [SELECT DISTINCT ... ORDER BY np.id, h.fqdn]: [NULL] sorts first. *)
Definition cache_rows (d : db) : list (NetworkPolicy * option string) :=
  p ← filter (λ p, NetworkPolicy_Enabled p = true) (rows (policies d));
  ((if policy_has_null_row d (NetworkPolicy_ID p) then [(p, None)] else [])
   ++ ((λ f, (p, Some f)) <$> sortedKeys (policy_fqdns d (NetworkPolicy_ID p))))%list.

(** The rows collapsed by policy id, in the order they come. *)
Definition collapse_cache_rows (rws : list (NetworkPolicy * option string)) : list CacheEntry :=
  Collapse rws (λ r, NetworkPolicy_ID r.1)
    (λ r, mkCacheEntry (NetworkPolicy_ID r.1) (NetworkPolicy_Name r.1) (NetworkPolicy_CIDR r.1) (NetworkPolicy_BypassHostCheck r.1) [])
    snd
    (λ e f, mkCacheEntry (CacheEntry_PolicyID e) (CacheEntry_PolicyName e) (CacheEntry_CIDR e) (CacheEntry_BypassHostCheck e)
              (CacheEntry_AllowedHostFQDNs e ++ [f])).

Definition GetEnabledCacheEntries : M (list CacheEntry) :=
  rws ← query (λ _ d, cache_rows d); mret (collapse_cache_rows rws).

(** ** Read models: network_policy_view.go *)

Record NetworkPolicySummaryView := mkSummaryView {
  npv_Policy : NetworkPolicy; npv_EffectiveHostCount : Z; npv_TotalHostCount : Z; npv_Groups : list GroupSummary;
}.

Definition totalHostsCount : M Z := query (λ _ d, Z.of_nat (size (hosts d))).

(** [COUNT(DISTINCT hgm.host_id)] over the policy's groups. *)
Definition effective_hosts (d : db) (id : NetworkPolicyID) : gset HostID :=
  list_to_set (pg ← elements (policy_groups d);
               gm ← elements (group_members d);
               if bool_decide (pg.1 = id) && bool_decide (gm.1 = pg.2) then [gm.2] else []).

Definition effectiveHostCount (id : NetworkPolicyID) : M Z := query (λ _ d, Z.of_nat (size (effective_hosts d id))).

Definition groups_of_policy (d : db) (id : NetworkPolicyID) : list HostGroup :=
  order_by_text HostGroup_Name (omap (λ p, if bool_decide (p.1 = id) then host_groups d !! p.2 else None) (elements (policy_groups d))).

Definition GetNetworkPolicySummaries : M (list NetworkPolicySummaryView) :=
  rws ← query (λ _ d, order_desc NetworkPolicy_CreatedAt (rows (policies d)));
  match rws with
  | [] => mret []
  | _ =>
      totalHostCount ← totalHostsCount;
      countByID ← query (λ _ d, λ id, Z.of_nat (size (effective_hosts d id)));
      groupsByPolicy ← query (λ _ d, groups_of_policy d);
      mret ((λ p, mkSummaryView p (if NetworkPolicy_BypassHostCheck p then totalHostCount else countByID (NetworkPolicy_ID p))
                    totalHostCount (group_summary <$> groupsByPolicy (NetworkPolicy_ID p))) <$> rws)
  end.

Record PolicyHostGroupView := mkPolicyHostGroupView {
  phg_Group : GroupSummary; phg_Hosts : list (HostID * string); phg_Assigned : bool;
}.

Definition assigned_rank (b : bool) : Z := if b then 1 else 0.

(** [ORDER BY assigned DESC, hg.name ASC]: two stable sorts. *)
Definition listGroupsForPolicy (id : NetworkPolicyID) : M (list PolicyHostGroupView) :=
  groupRows ← query (λ _ d,
    order_desc (λ r : HostGroup * bool, assigned_rank r.2)
      ((λ g, (g, bool_decide ((id, HostGroup_ID g) ∈ policy_groups d))) <$> order_by_text HostGroup_Name (rows (host_groups d))));
  match groupRows with
  | [] => mret []
  | _ =>
      hostsByGroup ← query (λ _ d, λ g, (λ h, (Host_ID h, Host_FQDN h)) <$>
        order_by_text Host_FQDN (omap (λ i, hosts d !! i) (members_of d g)));
      mret ((λ r, mkPolicyHostGroupView (group_summary r.1) (hostsByGroup (HostGroup_ID r.1)) r.2) <$> groupRows)
  end.

Record NetworkPolicyDetailView := mkDetailView {
  npd_Policy : NetworkPolicy; npd_EffectiveHostCount : Z; npd_TotalHostCount : Z; npd_HostGroups : list PolicyHostGroupView;
}.

Definition GetNetworkPolicyDetail (id : NetworkPolicyID) : M NetworkPolicyDetailView :=
  p ← map_err (no_rows ErrPolicyNotFound) (get_row (λ _ d, policies d !! id));
  total ← totalHostsCount;
  effective ← effectiveHostCount id;
  groups ← listGroupsForPolicy id;
  mret (mkDetailView p (if NetworkPolicy_BypassHostCheck p then total else effective) total groups).

(** ** Service and handlers *)

Section service.
Context `{PolicyChangeObservers}.

Definition CreatePolicy (name cidr : string) (description : option string) : M NetworkPolicy :=
  normalized ← of_result (normalizeCIDR cidr);
  CreatePolicy_row name normalized description true false.

Definition UpdatePolicy (id : NetworkPolicyID) (fields : UpdateFields) : M NetworkPolicy :=
  updatedPolicy ← withinTx (
    existing ← GetPolicy id;
    updated ← of_result (Apply existing fields);
    UpdatePolicy_row updated);
  _ ← notify policy_change_observers tt;
  mret updatedPolicy.

Definition DeletePolicy (id : NetworkPolicyID) : M unit :=
  _ ← DeletePolicy_row id; notify policy_change_observers tt.

Definition SetHostAccess (id : NetworkPolicyID) (bypassHostCheck : bool) (groupIDs : list HostGroupID) : M unit :=
  _ ← SetHostAccess_row id bypassHostCheck groupIDs; notify policy_change_observers tt.

Definition mapCreateError (e : error) : Z :=
  if decide (e = ErrCIDRConflict) then 409 else if decide (e = ErrInvalidCIDR ∨ e = ErrCIDRTooBroad) then 400 else 500.

Definition mapUpdateError (e : error) : Z :=
  if decide (e = ErrPolicyNotFound) then 404 else mapCreateError e.

Definition handler_CreateNetworkPolicy (name cidr : string) (description : option string) : M (Response NetworkPolicy) :=
  respond (CreatePolicy name cidr description) (λ p, mkResponse 201 (Some p)) mapCreateError.

Definition handler_UpdateNetworkPolicy (id : NetworkPolicyID) (fields : UpdateFields) : M (Response unit) :=
  respond (UpdatePolicy id fields) (λ _, mkResponse 204 None) mapUpdateError.

Definition handler_DeleteNetworkPolicy (id : NetworkPolicyID) : M (Response unit) :=
  respond (DeletePolicy id) (λ _, mkResponse 204 None) (λ e, if decide (e = ErrPolicyNotFound) then 404 else 500).

Definition handler_UpdateNetworkPolicyAccess (id : NetworkPolicyID) (bypass : bool) (groupIDs : list HostGroupID) : M (Response unit) :=
  respond (SetHostAccess id bypass groupIDs) (λ _, mkResponse 204 None) (λ e, if decide (e = ErrPolicyNotFound) then 404 else 500).

Definition handler_ListNetworkPolicies : M (Response (list NetworkPolicySummaryView)) :=
  respond GetNetworkPolicySummaries (λ l, mkResponse 200 (Some l)) (λ _, 500).

Definition handler_GetNetworkPolicy (id : NetworkPolicyID) : M (Response NetworkPolicyDetailView) :=
  respond (GetNetworkPolicyDetail id) (λ v, mkResponse 200 (Some v)) (λ e, if decide (e = ErrPolicyNotFound) then 404 else 500).
End service.
