(* ===== verification/NetworkPoliciesSpec.v ===== *)
(** * NetworkPoliciesSpec: what the network policies promise

    The breadth limits survive the cache's canonical form; the cache is fed
    the enabled policies with exactly the hosts their groups reach; who is
    told of a change, and who is not. *)

From S2P Require Import Prelude GoLib Netip Schema Store Slicex Http Hosts UserAccess NetworkPolicies PolicyCache.

Local Open Scope string_scope.
Local Open Scope Z_scope.

(** ** Breadth limits *)

Lemma of_digits_nonneg base l acc : 0 ≤ base → 0 ≤ acc → Forall (λ d, 0 ≤ d) l → 0 ≤ foldl (λ acc d, acc * base + d) acc l.
Proof. intros Hb Ha Hl. revert acc Ha. induction Hl as [|d l Hd _ IH]; intros acc Ha; [done|]. cbn. apply IH. nia. Qed.

Lemma parse_uint_nonneg s n : parse_uint s = Some n → 0 ≤ n.
Proof.
  unfold parse_uint. destruct (_ || _) eqn:E; [done|]. intros [= <-]. apply of_digits_nonneg; [lia|lia|].
  apply orb_false_elim in E as [_ E%negb_false_iff]. clear -E. induction s as [|c s IH]; [constructor|]. cbn in *.
  apply andb_prop in E as [Hc E]. constructor; [|by apply IH]. unfold is_digit in Hc. unfold digit_val. bool_prop. lia.
Qed.

Lemma ParseAddr_valid s ip : ParseAddr s = Some ip → ip ≠ AddrZero.
Proof.
  unfold ParseAddr, parseIPv4, parseIPv6. intros E ->. repeat case_match; try done.
  all: repeat match goal with H : _ <$> _ = Some _ |- _ => apply fmap_Some in H as (? & _ & ?) end; done.
Qed.

Lemma ParsePrefix_bits s p :
  ParsePrefix s = Some p → 0 ≤ Prefix_bits p ≤ BitLen (Prefix_ip p) ∧ Prefix_ip p ≠ AddrZero ∧ hasZone (Prefix_ip p) = false.
Proof.
  unfold ParsePrefix. destruct (last_index_byte _ _) as [i|]; [|done]. destruct (ParseAddr _) as [ip|] eqn:Ea; [|done].
  apply ParseAddr_valid in Ea. destruct (hasZone ip) eqn:Ez; [done|]. destruct (_ && _); [done|].
  destruct (parse_uint _) as [n|] eqn:En; [|done]. apply parse_uint_nonneg in En. destruct (BitLen ip <? n) eqn:El; [done|].
  apply Z.ltb_ge in El. intros [= <-]. unfold PrefixFrom. cbn.
  assert (IsValid ip = true) as -> by (by destruct ip). rewrite (proj2 (Z.leb_le _ _) En), (proj2 (Z.leb_le _ _) El). by destruct ip.
Qed.

(** Masking at 96 bits or more keeps the 4-in-6 prefix. *)
Lemma Is4In6_mask a bits z : 96 ≤ bits ≤ 128 → Is4In6 (Addr6 (mask 128 bits a) z) = Is4In6 (Addr6 a z).
Proof.
  intros Hb. cbn. f_equal. unfold mask. apply Z.bits_inj'. intros n Hn. rewrite !Z.shiftr_spec, Z.shiftl_spec, Z.shiftr_spec by lia.
  f_equal. lia.
Qed.

(** An unmapped 4-in-6 prefix has the bits over. *)
Lemma Is4In6_Unmap a z : Is4In6 (Addr6 a z) = true → Is4 (Unmap (Addr6 a z)) = true.
Proof. unfold Unmap. by intros ->. Qed.

(** The narrowest band's limit for a canonical prefix. *)
Definition within_limits (q : Prefix) : Prop :=
  Prefix_IsValid q = true ∧ if Is4 (Prefix_ip q) then 9 ≤ Prefix_bits q ≤ 32 else 33 ≤ Prefix_bits q ≤ 128.

(** C37: normalisation rejects a text that is not a prefix and any prefix
    with an operator-wide range, with one error each, and accepts every
    other; what it accepts, brought to the canonical form the policy cache
    matches with, is a valid prefix of at least 9 bits for IPv4, also when
    it was written as a 4-in-6 prefix, and of at least 33 bits for IPv6. *)
Theorem normalizeCIDR_limits s :
  match ParsePrefix s with
  | None => normalizeCIDR s = Err ErrInvalidCIDR
  | Some p =>
      if bool_decide (classifyCIDR p = cidrTooBroad) then normalizeCIDR s = Err ErrCIDRTooBroad
      else normalizeCIDR s = Ok (Prefix_String (Masked p)) ∧ within_limits (canonical_prefix (Masked p))
  end.
Proof.
  unfold normalizeCIDR. destruct (ParsePrefix s) as [p|] eqn:Ep; [|done]. apply ParsePrefix_bits in Ep as (Hb & Hz & Hzone).
  case_bool_decide as Hc; [done|]. split; [done|]. destruct p as [[|a|a z] bits]; cbn in Hb, Hz; [done| |].
  - unfold classifyCIDR in Hc. cbn in Hc. unfold rejectMaxBitsV4, warnMaxBitsV4 in Hc. destruct (Z.leb_spec bits 8); [done|].
    unfold canonical_prefix, Masked, Prefix_IsValid. cbn. rewrite (proj2 (Z.leb_le 0 bits)) by lia. cbn.
    rewrite (proj2 (Z.leb_le 0 bits)) by lia. split; [apply Z.leb_le; cbn; lia|cbn; lia].
  - cbn in Hzone. apply negb_false_iff, bool_decide_eq_true in Hzone as ->. unfold classifyCIDR in Hc. cbn [Prefix_ip Prefix_bits] in Hc.
    assert (Masked (mkPrefix (Addr6 a "") bits) = mkPrefix (Addr6 (mask 128 bits a) "") bits) as ->.
    { unfold Masked, Prefix_IsValid. cbn. by rewrite (proj2 (Z.leb_le 0 bits)) by lia. }
    unfold canonical_prefix. cbn [Prefix_ip Prefix_bits]. destruct (Is4In6 (Addr6 a "")) eqn:E4.
    + rewrite Is4In6_Unmap in Hc by done. cbn in Hc. unfold rejectMaxBitsV4 in Hc. destruct (Z.leb_spec (bits - 96) 8); [done|].
      rewrite Is4In6_mask, E4 by lia. unfold Unmap. rewrite Is4In6_mask, E4 by lia. unfold PrefixFrom, Masked, Prefix_IsValid.
      cbn [IsValid BitLen withoutZone Prefix_bits Prefix_ip]. rewrite (proj2 (Z.leb_le 0 (bits - 96))), (proj2 (Z.leb_le (bits - 96) 32)) by lia. cbn.
      rewrite (proj2 (Z.leb_le 0 (bits - 96))) by lia. split; [apply Z.leb_le; cbn; lia|cbn; lia].
    + cbn [Is4] in Hc. unfold rejectMaxBitsV6 in Hc. destruct (Z.leb_spec bits 32); [done|].
      assert (∀ x, within_limits (Masked (mkPrefix (Addr6 x "") bits))) as Hw.
      { intros x. unfold within_limits, Masked, Prefix_IsValid. cbn. rewrite (proj2 (Z.leb_le 0 bits)) by lia. cbn.
        rewrite (proj2 (Z.leb_le 0 bits)) by lia. split; [done|lia]. }
      destruct (Is4In6 (Addr6 (mask 128 bits a) "")) eqn:E4'; [|apply Hw]. exfalso.
      destruct (decide (96 ≤ bits)) as [H96|H96]; [rewrite Is4In6_mask in E4' by lia; congruence|].
      (* below 96 bits a masked address ends in zeros the 4-in-6 prefix does not have *)
      cbn in E4'. apply Z.eqb_eq in E4'. assert (Z.testbit (Z.shiftr (mask 128 bits a) 32) 0 = true) as Ht by (by rewrite E4').
      unfold mask in Ht. rewrite Z.shiftr_spec, Z.shiftl_spec, Z.testbit_neg_r in Ht by lia. done.
Qed.

(** ** The cache's feed *)

(** The hosts a policy's groups reach. *)
Definition policy_reaches (d : db) (id : NetworkPolicyID) (fqdn : string) : Prop :=
  ∃ g i h, (id, g) ∈ policy_groups d ∧ (g, i) ∈ group_members d ∧ hosts d !! i = Some h ∧ Host_FQDN h = fqdn.

Lemma elem_of_policy_fqdns d id f : f ∈ policy_fqdns d id ↔ policy_reaches d id f.
Proof.
  unfold policy_fqdns, policy_reaches. rewrite elem_of_list_to_set, list_elem_of_bind. setoid_rewrite list_elem_of_bind. split.
  - intros ([p g] & ([g' i] & Hin & Hgm%elem_of_elements) & Hpg%elem_of_elements). cbn in Hin.
    destruct (bool_decide (p = id)) eqn:E1, (bool_decide (g' = g)) eqn:E2; cbn in Hin; try (by apply elem_of_nil in Hin). bool_prop. subst.
    destruct (hosts d !! i) as [h|] eqn:Hh; [|by apply elem_of_nil in Hin]. apply list_elem_of_singleton in Hin as ->. eauto 10.
  - intros (g & i & h & Hpg & Hgm & Hh & <-). exists (id, g). rewrite elem_of_elements. split; [|done]. exists (g, i). rewrite elem_of_elements.
    split; [|done]. cbn. rewrite !bool_decide_eq_true_2, Hh by done. cbn. by apply list_elem_of_singleton.
Qed.

(** The entry of one enabled policy. *)
Definition policy_entry (d : db) (p : NetworkPolicy) : CacheEntry :=
  mkCacheEntry (NetworkPolicy_ID p) (NetworkPolicy_Name p) (NetworkPolicy_CIDR p) (NetworkPolicy_BypassHostCheck p)
    (sortedKeys (policy_fqdns d (NetworkPolicy_ID p))).

Definition cache_entries (d : db) : list CacheEntry := policy_entry d <$> filter (λ p, NetworkPolicy_Enabled p = true) (rows (policies d)).

(** Rows stored under their ids; the host tables' references resolve. *)
Record policies_inv (d : db) : Prop := mkPoliciesInv {
  pi_id : ∀ i p, policies d !! i = Some p → NetworkPolicy_ID p = i;
  pi_cidr : ∀ i j p q, policies d !! i = Some p → policies d !! j = Some q → NetworkPolicy_CIDR p = NetworkPolicy_CIDR q → i = j;
  pi_hosts : ∀ g h, (g, h) ∈ group_members d → is_Some (hosts d !! h);
  pi_seq : ∀ i p, policies d !! i = Some p → i ≤ policy_seq d;
}.

Lemma elem_of_members_of d g i : i ∈ members_of d g ↔ (g, i) ∈ group_members d.
Proof.
  unfold members_of. rewrite merge_sort_Permutation, elem_of_elements, elem_of_map. split.
  - intros ([g' i'] & -> & [Hg Hin]%elem_of_filter). cbn in *. by subst.
  - intros Hin. exists (g, i). by rewrite elem_of_filter.
Qed.

(** Every enabled policy has a row: one without a host if it reaches none. *)
Lemma policy_row_exists d id : (∀ g h, (g, h) ∈ group_members d → is_Some (hosts d !! h)) →
  policy_has_null_row d id = true ∨ sortedKeys (policy_fqdns d id) ≠ [].
Proof.
  intros Hh. unfold policy_has_null_row. cbv zeta. destruct (filter _ _) as [|[x g] l] eqn:E; [by left|].
  destruct (existsb _ _) eqn:Ex; [by left|right]. cbn in Ex. apply orb_false_elim in Ex as [Em _]. bool_prop.
  assert ((x, g) ∈ filter (λ p, p.1 = id) (elements (policy_groups d))) as Hin by (rewrite E; by left).
  apply list_elem_of_filter in Hin as [Hx Hin%elem_of_elements]. cbn in Hx, Em. subst x.
  destruct (members_of d g) as [|i l'] eqn:El; [done|]. assert ((g, i) ∈ group_members d) as Hm by (apply elem_of_members_of; rewrite El; by left).
  destruct (Hh _ _ Hm) as [h Hhost]. intros Hn. assert (Host_FQDN h ∈ sortedKeys (policy_fqdns d id)) as Hf.
  { apply elem_of_sortedKeys, elem_of_policy_fqdns. by exists g, i, h. }
  rewrite Hn in Hf. by apply elem_of_nil in Hf.
Qed.

Lemma collapse_cache_rows_entries d : policies_inv d → collapse_cache_rows (cache_rows d) = cache_entries d.
Proof.
  intros I. unfold collapse_cache_rows, cache_rows, cache_entries, Collapse. set (ps := filter _ _).
  rewrite (collapse_blocks _ _ _ _ NetworkPolicy_ID).
  - cbn [app]. assert (∀ f, (∀ p, f p = Some (policy_entry d p)) → omap f ps = policy_entry d <$> ps) as Hmap.
    { intros f Hf. induction ps as [|p l IH]; [done|]. cbn. by rewrite Hf, IH. }
    apply Hmap. intros p. set (e0 := mkCacheEntry (NetworkPolicy_ID p) (NetworkPolicy_Name p) (NetworkPolicy_CIDR p) (NetworkPolicy_BypassHostCheck p)).
    assert (∀ l acc : list string, foldl (λ (e : CacheEntry) (f : string), mkCacheEntry (CacheEntry_PolicyID e) (CacheEntry_PolicyName e) (CacheEntry_CIDR e) (CacheEntry_BypassHostCheck e)
        (CacheEntry_AllowedHostFQDNs e ++ [f])%list) (e0 acc) (omap snd ((λ f, (p, Some f)) <$> l)) = e0 (acc ++ l)%list) as Hl.
    { clear. induction l as [|f l IH]; intros acc; cbn; [by rewrite app_nil_r|]. fold (e0 (acc ++ [f])%list). rewrite IH. by rewrite <-app_assoc. }
    specialize (Hl (sortedKeys (policy_fqdns d (NetworkPolicy_ID p))) []). unfold policy_entry.
    destruct (policy_row_exists d (NetworkPolicy_ID p) (pi_hosts d I)) as [Hn|Hn].
    + rewrite Hn. unfold block_parent. cbn. f_equal. exact Hl.
    + destruct (sortedKeys (policy_fqdns d (NetworkPolicy_ID p))) as [|f0 l]; [done|].
      destruct (policy_has_null_row _ _); unfold block_parent; cbn; f_equal; exact Hl.
  - eapply sublist_NoDup; [|apply fmap_sublist, sublist_filter]. apply NoDup_rows_on. intros k v. apply (pi_id d I).
  - intros p _. apply lookup_empty.
  - intros p _. split.
    + destruct (policy_row_exists d (NetworkPolicy_ID p) (pi_hosts d I)) as [->|Hn]; [done|].
      destruct (sortedKeys _); [done|]. by destruct (policy_has_null_row _ _).
    + apply Forall_app. split; [by destruct (policy_has_null_row _ _); repeat constructor|]. apply Forall_fmap, Forall_forall. done.
Qed.

Lemma GetEnabledCacheEntries_run tx w :
  no_faults w → policies_inv (w_db w) → GetEnabledCacheEntries tx w = (Ok (cache_entries (w_db w)), w).
Proof. intros Hnf I. unfold GetEnabledCacheEntries. run. by rewrite collapse_cache_rows_entries. Qed.

(** The cache is fed one entry per enabled policy, in id order, with the
    policy's own fields and, as a sorted list without repetition, exactly
    the names of the hosts its groups reach; a policy without groups gets
    the empty list, which denies every host. *)
Theorem GetEnabledCacheEntries_feed tx w :
  no_faults w → policies_inv (w_db w) →
  ∃ es, GetEnabledCacheEntries tx w = (Ok es, w) ∧
    Forall2 (λ p e, CacheEntry_PolicyID e = NetworkPolicy_ID p ∧ CacheEntry_PolicyName e = NetworkPolicy_Name p ∧
        CacheEntry_CIDR e = NetworkPolicy_CIDR p ∧ CacheEntry_BypassHostCheck e = NetworkPolicy_BypassHostCheck p ∧
        ascending (CacheEntry_AllowedHostFQDNs e) ∧
        ∀ f, f ∈ CacheEntry_AllowedHostFQDNs e ↔ policy_reaches (w_db w) (NetworkPolicy_ID p) f)
      (filter (λ p, NetworkPolicy_Enabled p = true) (rows (policies (w_db w)))) es.
Proof.
  intros Hnf I. exists (cache_entries (w_db w)). split; [by apply GetEnabledCacheEntries_run|]. unfold cache_entries.
  induction (filter _ (rows _)) as [|p l IH]; constructor; [|exact IH]. cbn. repeat split; [apply sortedKeys_ascending| |];
    rewrite elem_of_sortedKeys, elem_of_policy_fqdns; done.
Qed.

(** ** Replacing a policy's host access *)

Definition granted_pairs (id : NetworkPolicyID) (gids : list HostGroupID) : gset (NetworkPolicyID * HostGroupID) :=
  list_to_set (pair id <$> gids).

(** The group ids [insert_policy_group] can store one after the other. *)
Definition storable (d : db) (id : NetworkPolicyID) (gids : list HostGroupID) : Prop :=
  NoDup gids ∧ ∀ g, g ∈ gids → is_Some (host_groups d !! g) ∧ (id, g) ∉ policy_groups d.

Lemma insert_policy_group_run id g tx w :
  no_faults w →
  insert_policy_group id g tx w =
    if decide ((id, g) ∈ policy_groups (w_db w))
    then (Err (ErrUnique "network_policy_allowed_host_groups.policy_id, network_policy_allowed_host_groups.host_group_id"), w)
    else match policies (w_db w) !! id, host_groups (w_db w) !! g with
         | Some _, Some _ => (Ok tt, set_db (on_policy_groups ({[(id, g)]} ∪.) (w_db w)) w)
         | _, _ => (Err ErrForeignKey, w)
         end.
Proof. intros Hnf. unfold insert_policy_group. rewrite exec_run by done. destruct (decide _); [done|].
  destruct (policies (w_db w) !! id); [|done]. by destruct (host_groups (w_db w) !! g). Qed.

Lemma for_each_insert_policy_group id gids tx w :
  no_faults w → is_Some (policies (w_db w) !! id) →
  (storable (w_db w) id gids ∧
     for_each gids (insert_policy_group id) tx w = (Ok tt, set_db (on_policy_groups (granted_pairs id gids ∪.) (w_db w)) w)) ∨
  (¬ storable (w_db w) id gids ∧ ∃ e d', for_each gids (insert_policy_group id) tx w = (Err e, set_db d' w) ∧
     (e = ErrForeignKey ∨ ∃ c, e = ErrUnique c)).
Proof.
  revert w. induction gids as [|g gids IH]; intros w Hnf [p Hp]; cbn [for_each].
  { left. split; [split; [constructor|by intros ? ?%elem_of_nil]|]. run. change (granted_pairs id []) with (∅ : gset (Z * Z)). destruct w as [[] ? ? ? ? ? ? ? ? ? ?]. unfold set_db, on_policy_groups. cbn. by rewrite (left_id_L ∅ (∪)). }
  rewrite bind_run, insert_policy_group_run by done. destruct (decide _) as [Hin|Hin].
  { right. split; [|exists (ErrUnique "network_policy_allowed_host_groups.policy_id, network_policy_allowed_host_groups.host_group_id"), (w_db w); split; [by destruct w|eauto]].
    intros [_ Hs]. by apply (Hs g (list_elem_of_here _ _)). }
  rewrite Hp. destruct (host_groups (w_db w) !! g) as [hg|] eqn:Hg.
  2: { right. split; [|exists ErrForeignKey, (w_db w); split; [by destruct w|by left]].
       intros [_ Hs]. destruct (Hs g (list_elem_of_here _ _)) as [[? ?] _]. congruence. }
  set (w1 := set_db _ w). destruct (IH w1) as [[Hs ->]|[Hs (e & d' & -> & He)]]; [done|cbn; eauto| |].
  - left. destruct Hs as [Hnd Hs]. split.
    + split.
      * constructor; [|done]. intros Hgin. apply (proj2 (Hs g Hgin)). cbn. set_solver.
      * intros g' [->|Hg']%elem_of_cons; [by rewrite Hg; eauto|]. destruct (Hs g' Hg') as [? Hn]. split; [done|]. cbn in Hn. set_solver.
    + f_equal. unfold w1. cbn. unfold set_db, on_policy_groups; cbn. do 2 f_equal. unfold granted_pairs. cbn. by rewrite (assoc_L (∪)), (comm_L (∪) {[_]}).
  - right. split; [|by exists e, d']. intros [[Hgn Hnd]%NoDup_cons Hs']. apply Hs. split; [done|]. intros g' Hg'.
    destruct (Hs' g') as [? Hn]; [by right|]. split; [done|]. cbn. intros [Heq%elem_of_singleton|?]%elem_of_union; [|done].
    injection Heq as ->. done.
Qed.

Section service.
Context `{PolicyChangeObservers}.

(** The listed groups exist and none is listed twice. *)
Definition valid_group_ids (d : db) (gids : list HostGroupID) : Prop :=
  NoDup gids ∧ ∀ g, g ∈ gids → is_Some (host_groups d !! g).

(** Replacing a policy's host access is all or nothing. On an
    existing policy and distinct, existing groups it answers 204 with
    exactly the listed groups granted, the bypass flag set, every other
    grant untouched, and every observer told once after the commit. In any
    other case the database is unchanged and nobody is told: 404 for an
    unknown policy, 500 for a group that is unknown or listed twice. *)
Theorem SetHostAccess_spec id bypass gids w :
  no_faults w →
  let d := w_db w in
  let '(r, w') := handler_UpdateNetworkPolicyAccess id bypass gids false w in
  match policies d !! id with
  | None => r = Ok (mkResponse 404 None) ∧ w' = w
  | Some p =>
      (valid_group_ids d gids ∧ r = Ok (mkResponse 204 None) ∧
       ∃ d', w' = foldl (λ w o, o tt w) (set_db d' w) policy_change_observers ∧
         d' = on_policies (<[id := with_bypass bypass (strftime_now (w_now w)) p]>)
                (on_policy_groups (λ pg, granted_pairs id gids ∪ filter (λ x, x.1 ≠ id) pg) d))
      ∨ (¬ valid_group_ids d gids ∧ r = Ok (mkResponse 500 None) ∧ w' = w)
  end.
Proof.
  intros Hnf d. unfold handler_UpdateNetworkPolicyAccess. rewrite respond_run. unfold SetHostAccess, SetHostAccess_row.
  rewrite bind_run, withinTx_run; [|done|].
  2: { match goal with |- no_faults (?m true w).2 => assert (quiet m) as Hq; [|by apply Hq] end. unfold insert_policy_group. structural. }
  run. fold d. destruct (policies d !! id) as [p|] eqn:Hp; cbn -[on_policies on_policy_groups].
  2: { unfold markContended. cbn. by destruct w. }
  set (w1 := set_db (on_policy_groups (filter (λ x : Z * Z, x.1 ≠ id)) d) w). rewrite bind_run, exec_run by done. cbv beta iota zeta.
  change (set_db (on_policy_groups (filter (λ x : Z * Z, x.1 ≠ id)) (w_db w)) w) with w1. rewrite bind_run.
  assert (policies (w_db w1) !! id = Some p) as Hp1 by done.
  assert (storable (w_db w1) id gids ↔ valid_group_ids d gids) as Hsv.
  { unfold storable, valid_group_ids. apply and_iff_compat_l. apply forall_proper. intros g. cbn. set_solver. }
  destruct (for_each_insert_policy_group id gids true w1) as [[Hs ->]|[Hs (e & d' & -> & He)]]; [done|by rewrite Hp1| |].
  - cbv beta iota. rewrite exec_run by done. cbv beta iota zeta. rewrite notify_run. cbv beta iota. left. split; [by apply Hsv|]. split; [done|].
    eexists. split; [reflexivity|]. unfold w1, granted_pairs. cbn. unfold on_policies, on_policy_groups. cbn. f_equal.
    by apply alter_as_insert.
  - cbv beta iota. right. split; [by rewrite <-Hsv|]. destruct He as [->|[c ->]]; unfold markContended; cbn; by destruct w.
Qed.

(** A created policy is enabled, and from the commit on it is
    part of what the cache must be fed, but nobody is told: the cache
    keeps its old contents until another change or the periodic refresh.
    Updating or deleting a policy tells every observer once. *)
Theorem CreatePolicy_silent name cidr description fields id w p w' :
  no_faults w →
  CreatePolicy name cidr description false w = (Ok p, w') →
  w' = set_db (w_db w') w ∧ policies (w_db w) !! NetworkPolicy_ID p = None ∧
  policy_entry (w_db w') p ∈ cache_entries (w_db w') ∧
  (∀ q w2, UpdatePolicy id fields false w = (Ok q, w2) →
     ∃ d2, w2 = foldl (λ w o, o tt w) (set_db d2 w) policy_change_observers) ∧
  (∀ w2, DeletePolicy id false w = (Ok tt, w2) →
     ∃ d2, w2 = foldl (λ w o, o tt w) (set_db d2 w) policy_change_observers).
Proof.
  intros Hnf Hc. unfold CreatePolicy in Hc. rewrite bind_run, of_result_run in Hc. destruct (normalizeCIDR cidr) as [n|]; [|done].
  unfold CreatePolicy_row in Hc. rewrite map_err_run, exec_run in Hc by done. destruct (cidr_taken _ _ _); [done|].
  injection Hc as <- <-. split; [done|]. split; [|split; [|split]].
  - cbn. destruct (policies (w_db w) !! _) eqn:E; [|done]. apply max_id_ge in E. lia.
  - apply list_elem_of_fmap. eexists. split; [reflexivity|]. apply list_elem_of_filter. split; [done|].
    apply elem_of_rows. eexists. apply lookup_insert_eq.
  - intros q w2 Hu. unfold UpdatePolicy in Hu. rewrite bind_run, withinTx_run in Hu; [|done|].
    2: { match goal with |- no_faults (?m true w).2 => assert (quiet m) as Hq; [|by apply Hq] end. unfold GetPolicy, UpdatePolicy_row. structural. }
    unfold GetPolicy, UpdatePolicy_row in Hu. rewrite bind_run, map_err_run, get_row_run in Hu by done.
    destruct (policies (w_db w) !! id); [|done]. rewrite bind_run, of_result_run in Hu. destruct (Apply _ _); [|done].
    rewrite map_err_run, exec_run in Hu by done. destruct (policies (w_db w) !! NetworkPolicy_ID _); [|done].
    destruct (cidr_taken _ _ _); [done|]. cbv beta iota in Hu. rewrite bind_run, notify_run in Hu. injection Hu as <- <-. eauto.
  - intros w2 Hd. unfold DeletePolicy, DeletePolicy_row in Hd. rewrite !bind_run, exec_run in Hd by done.
    destruct (policies (w_db w) !! id); [|done]. cbn -[on_policies] in Hd. rewrite notify_run in Hd. injection Hd as <-. eauto.
Qed.
End service.

(** The cache's canonical form identifies ranges the unique column keeps
    apart: the same IPv4 range written as a 4-in-6 prefix. *)
Example same_range_twice :
  ∃ a b, normalizeCIDR "10.0.0.0/16" = Ok a ∧ normalizeCIDR "::ffff:10.0.0.0/112" = Ok b ∧ a ≠ b ∧
    (canonical_prefix <$> ParsePrefix a) = (canonical_prefix <$> ParsePrefix b).
Proof. eexists _, _. split; [vm_compute; reflexivity|]. split; [vm_compute; reflexivity|]. by vm_compute. Qed.
