(* ===== verification/Pairing.v ===== *)
(** * Pairing: one-time pairing codes ([internal/devicepairing])

    An administrator creates a pairing for a device; the app redeems its
    code once and gets the configuration and a fresh API key.  The stored
    status is a state machine; the expired status is derived on reading. *)

From S2P Require Import Prelude GoLib Schema Store Http Crypto Device DeviceInv.

Local Open Scope string_scope.
Local Open Scope Z_scope.

(** ** pairing.go, code.go *)

Inductive PairingStatus := StatusPending | StatusUsed | StatusExpired | StatusInvalidated | StatusReplaced.

#[export] Instance PairingStatus_eq_dec : EqDecision PairingStatus.
Proof. solve_decision. Defined.

(** [PairingStatus(stored)]. *)
Definition status_of_stored (s : storedPairingStatus) : PairingStatus :=
  match s with
  | storedPending => StatusPending
  | storedUsed => StatusUsed
  | storedInvalidated => StatusInvalidated
  | storedReplaced => StatusReplaced
  end.

Definition EvalStatus (t : time) (stored : storedPairingStatus) (expiresAt : time) : PairingStatus :=
  if bool_decide (stored = storedPending) && (expiresAt <? t) then StatusExpired else status_of_stored stored.

Record DevicePairing := mkDevicePairing {
  DevicePairing_ID : DevicePairingID;
  DevicePairing_DeviceID : DeviceID;
  DevicePairing_PairingCode : string;
  DevicePairing_HeartbeatServerURL : string;
  DevicePairing_HeartbeatIntervalSeconds : Z;
  DevicePairing_AppBiometricEnabled : bool;
  DevicePairing_AppSettingsLocked : bool;
  DevicePairing_ExpiresAt : time;
  DevicePairing_CreatedAt : time;
  DevicePairing_UpdatedAt : time;
  DevicePairing_Status : PairingStatus;
}.

Definition fromRow (t : time) (r : pairingRow) : DevicePairing :=
  mkDevicePairing (pairingRow_ID r) (pairingRow_DeviceID r) (pairingRow_PairingCode r) (pairingRow_HeartbeatServerURL r)
    (pairingRow_HeartbeatIntervalSeconds r) (pairingRow_AppBiometricEnabled r) (pairingRow_AppSettingsLocked r)
    (pairingRow_ExpiresAt r) (pairingRow_CreatedAt r) (pairingRow_UpdatedAt r)
    (EvalStatus t (pairingRow_Status r) (pairingRow_ExpiresAt r)).

Record ClaimResult := mkClaimResult {
  ClaimResult_ServerURL : string;
  ClaimResult_IntervalSeconds : Z;
  ClaimResult_AppBiometricEnabled : bool;
  ClaimResult_AppSettingsLocked : bool;
  ClaimResult_RawAPIKey : string;
}.

Definition ToClaimResult (p : DevicePairing) (rawAPIKey : string) : ClaimResult :=
  mkClaimResult (DevicePairing_HeartbeatServerURL p) (DevicePairing_HeartbeatIntervalSeconds p)
    (DevicePairing_AppBiometricEnabled p) (DevicePairing_AppSettingsLocked p) rawAPIKey.

Record CreatePairingRequest := mkCreatePairingRequest {
  cpr_DeviceID : DeviceID;
  cpr_HeartbeatServerURL : string;
  cpr_IntervalSeconds : Z;
  cpr_AppBiometricEnabled : bool;
  cpr_AppSettingsLocked : bool;
  cpr_ExpiresInHours : Z;
  cpr_ExpiresAt : time;
  cpr_PairingCode : string;
}.

(** [generatePairingCode]: base64url of 32 random bytes and the server URL. *)
Definition generatePairingCode (serverURL : string) : M string :=
  rawToken ← read_rand; mret (RawURLEncode (rawToken +:+ serverURL)).

Definition addPairingCode (c : CreatePairingRequest) : M CreatePairingRequest :=
  code ← generatePairingCode (cpr_HeartbeatServerURL c);
  t ← now;
  let expiresAt := t + wrap64 (cpr_ExpiresInHours c * Hour) in
  mret (mkCreatePairingRequest (cpr_DeviceID c) (cpr_HeartbeatServerURL c) (cpr_IntervalSeconds c)
          (cpr_AppBiometricEnabled c) (cpr_AppSettingsLocked c) (cpr_ExpiresInHours c) expiresAt code).

Record PairingFilter := mkPairingFilter { PairingFilter_DeviceID : DeviceID; PairingFilter_IncludeAll : bool }.

(** ** repository.go *)

Definition with_status (s : storedPairingStatus) (t : time) (r : pairingRow) : pairingRow :=
  mkPairingRow (pairingRow_ID r) (pairingRow_DeviceID r) (pairingRow_PairingCode r) (pairingRow_HeartbeatServerURL r)
    (pairingRow_HeartbeatIntervalSeconds r) (pairingRow_AppBiometricEnabled r) (pairingRow_AppSettingsLocked r)
    (pairingRow_ExpiresAt r) (pairingRow_CreatedAt r) t s.

Definition is_pending (r : pairingRow) : bool := bool_decide (pairingRow_Status r = storedPending).

Definition insert_pairing (req : CreatePairingRequest) (t : time) (d : db) : result (pairingRow * db) :=
  if table_exists (λ r, bool_decide (pairingRow_PairingCode r = cpr_PairingCode req)) (pairings d)
  then Err (ErrUnique "device_pairings.pairing_code")
  else match devices d !! cpr_DeviceID req with
       | None => Err ErrForeignKey
       | Some _ =>
           let id := fresh_id (pairings d) in
           let r := mkPairingRow id (cpr_DeviceID req) (cpr_PairingCode req) (cpr_HeartbeatServerURL req)
                      (cpr_IntervalSeconds req) (cpr_AppBiometricEnabled req) (cpr_AppSettingsLocked req)
                      (cpr_ExpiresAt req) (current_timestamp t) (current_timestamp t) storedPending in
           Ok (r, on_pairings (<[id := r]>) d)
       end.

Definition CreatePairing_row (req : CreatePairingRequest) : M DevicePairing :=
  r ← exec (insert_pairing req); t ← now; mret (fromRow t r).

Definition GetPairingByCode (code : string) : M DevicePairing :=
  r ← map_err (no_rows ErrPairingNotFound)
        (get_row (λ _ d, table_find (λ r, bool_decide (pairingRow_PairingCode r = code)) (pairings d)));
  t ← now; mret (fromRow t r).

(** [expires_at > CURRENT_TIMESTAMP] compares texts: the stored one goes on
    after the seconds, with a fraction or a time zone, so it is the greater
    one also within the current second. *)
Definition claimable_row (t : time) (r : pairingRow) : bool :=
  is_pending r && (unix_seconds t <=? unix_seconds (pairingRow_ExpiresAt r)).

Definition ListPairings (filter_ : PairingFilter) : M (list DevicePairing) :=
  rws ← query (λ t d, order_desc pairingRow_CreatedAt
    (filter (λ r, pairingRow_DeviceID r = PairingFilter_DeviceID filter_ ∧
                  (PairingFilter_IncludeAll filter_ || claimable_row t r) = true) (rows (pairings d))));
  t ← now; mret (fromRow t <$> rws).

Definition ReplacePendingPairings (deviceID : DeviceID) : M unit :=
  exec (λ t d, Ok (tt, on_pairings (update_where (λ r, (pairingRow_DeviceID r =? deviceID) && is_pending r)
                         (with_status storedReplaced (current_timestamp t))) d)).

Definition InvalidatePairing_row (deviceID : DeviceID) (id : DevicePairingID) : M unit :=
  n ← exec (λ t d,
    match pairings d !! id with
    | Some r => if (pairingRow_DeviceID r =? deviceID) && is_pending r
                then Ok (1, on_pairings (<[id := with_status storedInvalidated (current_timestamp t) r]>) d)
                else Ok (0, d)
    | None => Ok (0, d)
    end);
  if n =? 0 then throw ErrPairingNotFound else mret tt.

Definition ClaimPairing_row (id : DevicePairingID) : M DevicePairing :=
  r ← exec (λ t d,
    match pairings d !! id with
    | None => Err ErrNoRows
    | Some r => let r' := with_status storedUsed (current_timestamp t) r in Ok (r', on_pairings (<[id := r']>) d)
    end);
  t ← now; mret (fromRow t r).

(** device_pairings_view.go: the latest pairing of each device. *)
Definition later_pairing (x y : pairingRow) : bool :=
  (pairingRow_CreatedAt y <? pairingRow_CreatedAt x)
  || ((pairingRow_CreatedAt y =? pairingRow_CreatedAt x) && (pairingRow_ID y <? pairingRow_ID x)).

Definition latest_pairing (d : db) (r : pairingRow) : bool :=
  negb (table_exists (λ x, (pairingRow_DeviceID x =? pairingRow_DeviceID r) && later_pairing x r) (pairings d)).

Definition PairingsForDevices (deviceIDs : list DeviceID) : M (gmap DeviceID (PairingStatus * time)) :=
  match deviceIDs with
  | [] => mret ∅
  | _ =>
      rws ← query (λ _ d, filter (λ r, pairingRow_DeviceID r ∈ deviceIDs ∧ latest_pairing d r = true) (rows (pairings d)));
      t ← now;
      mret (foldl (λ m r, <[pairingRow_DeviceID r := (EvalStatus t (pairingRow_Status r) (pairingRow_ExpiresAt r), pairingRow_ExpiresAt r)]> m) ∅ rws)
  end.

(** ** service.go *)

Definition CreatePairing (req : CreatePairingRequest) : M DevicePairing :=
  req ← addPairingCode req;
  withinTx (_ ← ReplacePendingPairings (cpr_DeviceID req); CreatePairing_row req).

Definition ClaimPairing (code : string) : M ClaimResult :=
  '(claimedPairing, rawAPIKey) ← withinTx (
    pairing ← GetPairingByCode code;
    if negb (bool_decide (DevicePairing_Status pairing = StatusPending)) then throw ErrPairingNotClaimable
    else
      t ← now;
      if DevicePairing_ExpiresAt pairing <=? t then throw ErrPairingExpired
      else
        '(_, rawAPIKey) ← RegenerateAPIKey (DevicePairing_DeviceID pairing);
        claimed ← ClaimPairing_row (DevicePairing_ID pairing);
        mret (claimed, rawAPIKey));
  mret (ToClaimResult claimedPairing rawAPIKey).

Definition InvalidatePairing (deviceID : DeviceID) (id : DevicePairingID) : M unit := InvalidatePairing_row deviceID id.

(** ** handler.go *)

Definition not_claimable (e : error) : bool :=
  bool_decide (e = ErrPairingNotFound ∨ e = ErrPairingExpired ∨ e = ErrPairingNotClaimable).

Definition handler_ClaimPairing (code : string) : M (Response ClaimResult) :=
  respond (ClaimPairing code) (λ c, mkResponse 200 (Some c)) (λ e, if not_claimable e then 404 else 500).

Definition handler_CreateDevicePairing (id : DeviceID) (serverURL : string) (intervalSeconds expiresInHours : Z)
    (biometric locked : option bool) : M (Response DevicePairing) :=
  respond (CreatePairing (mkCreatePairingRequest id serverURL intervalSeconds (default false biometric) (default false locked)
                            expiresInHours 0 ""))
    (λ p, mkResponse 201 (Some p)) (λ _, 500).

Definition handler_ListDevicePairings (id : DeviceID) (all : bool) : M (Response (list DevicePairing)) :=
  respond (ListPairings (mkPairingFilter id all)) (λ l, mkResponse 200 (Some l)) (λ _, 500).

Definition handler_DeleteDevicePairing (id : DeviceID) (pairingID : DevicePairingID) : M (Response unit) :=
  respond (InvalidatePairing id pairingID) (λ _, mkResponse 204 None)
    (λ e, if decide (e = ErrPairingNotFound) then 404 else 500).
