(* ===== verification/PairingSpec.v ===== *)
(** * PairingSpec: what a pairing code promises

    A claim succeeds exactly for a pending, unexpired code of a live device
    and takes effect as a whole; a code is redeemed at most once; a device
    has at most one pending code. *)

From S2P Require Import Prelude GoLib Schema Store Http Crypto Device DeviceInv Pairing.
From stdpp Require Import relations.

Local Open Scope string_scope.
Local Open Scope Z_scope.

(** ** The lifecycle of the rows *)

Record pairing_inv (d : db) : Prop := mkPairingInv {
  pri_id : ∀ i r, pairings d !! i = Some r → pairingRow_ID r = i;
  pri_code : ∀ i j r s, pairings d !! i = Some r → pairings d !! j = Some s → pairingRow_PairingCode r = pairingRow_PairingCode s → i = j;
  pri_pending : ∀ i j r s, pairings d !! i = Some r → pairings d !! j = Some s → pairingRow_DeviceID r = pairingRow_DeviceID s →
    is_pending r = true → is_pending s = true → i = j;
}.

(** A row keeps its identity, and once it is not pending it never changes. *)
Definition row_evolves (r r' : pairingRow) : Prop :=
  pairingRow_PairingCode r' = pairingRow_PairingCode r ∧ pairingRow_DeviceID r' = pairingRow_DeviceID r ∧
  pairingRow_ExpiresAt r' = pairingRow_ExpiresAt r ∧ (is_pending r = false → r' = r).

Definition evolves (d d' : db) : Prop := ∀ i r, pairings d !! i = Some r → ∃ r', pairings d' !! i = Some r' ∧ row_evolves r r'.

Lemma row_evolves_refl r : row_evolves r r.
Proof. by repeat split. Qed.

Lemma evolves_trans d1 d2 d3 : evolves d1 d2 → evolves d2 d3 → evolves d1 d3.
Proof.
  intros H12 H23 i r Hr. destruct (H12 i r Hr) as (r2 & Hr2 & E1 & E2 & E3 & E4).
  destruct (H23 i r2 Hr2) as (r3 & Hr3 & F1 & F2 & F3 & F4). exists r3. split; [done|].
  split; [congruence|]. split; [congruence|]. split; [congruence|]. intros Hp. rewrite (E4 Hp) in F4. auto.
Qed.

(** The writes. *)
Definition good (d d' : db) : Prop := pairing_inv d' ∧ evolves d d'.

Lemma good_same d d' : pairing_inv d → pairings d' = pairings d → good d d'.
Proof.
  intros [I1 I2 I3] E. split.
  - split; intros *; rewrite E; eauto.
  - intros i r Hr. rewrite E. exists r. split; [done|apply row_evolves_refl].
Qed.

Lemma good_with_status d i r s t :
  pairing_inv d → pairings d !! i = Some r → is_pending r = true → s ≠ storedPending →
  good d (on_pairings (<[i := with_status s t r]>) d).
Proof.
  intros [I1 I2 I3] Hr Hp Hs. assert (is_pending (with_status s t r) = false) as Hs' by (unfold is_pending; cbn; by case_bool_decide).
  split.
  - split; cbn.
    + intros j x [[<- <-]|[? Hx]]%lookup_insert_Some; [cbn|]; eauto.
    + intros j k x y [[<- <-]|[? Hx]]%lookup_insert_Some [[<- <-]|[? Hy]]%lookup_insert_Some E; eauto.
    + intros j k x y [[<- <-]|[? Hx]]%lookup_insert_Some [[<- <-]|[? Hy]]%lookup_insert_Some E Hpx Hpy; try congruence; eauto.
  - intros j x Hx. cbn. destruct (decide (i = j)) as [<-|Hne].
    + rewrite lookup_insert_eq. eexists. split; [done|]. rewrite Hr in Hx. injection Hx as <-. repeat split. rewrite Hp. done.
    + rewrite lookup_insert_ne by done. exists x. split; [done|apply row_evolves_refl].
Qed.

(** Replacing the pending rows of a device, then adding one. *)
Definition replaced (dev : DeviceID) (t : time) (d : db) : db :=
  on_pairings (update_where (λ r, (pairingRow_DeviceID r =? dev) && is_pending r) (with_status storedReplaced t)) d.

Lemma replaced_Some dev t d i r' :
  pairings (replaced dev t d) !! i = Some r' →
  ∃ r, pairings d !! i = Some r ∧ row_evolves r r' ∧ pairingRow_ID r' = pairingRow_ID r ∧
    (is_pending r' = true → r' = r ∧ pairingRow_DeviceID r ≠ dev).
Proof.
  cbn. rewrite lookup_update_where. intros (r & -> & Hr)%fmap_Some. exists r. split; [done|].
  destruct (_ && _) eqn:E; subst r'.
  - apply andb_prop in E as [_ Hp]. repeat split; [by rewrite Hp|discriminate..].
  - split; [apply row_evolves_refl|]. split; [done|]. intros Hp. rewrite Hp, andb_true_r in E. apply Z.eqb_neq in E. done.
Qed.

Lemma good_replaced dev t d : pairing_inv d → good d (replaced dev t d).
Proof.
  intros [I1 I2 I3]. split; [split|].
  - intros i r' (r & Hr & _ & -> & _)%replaced_Some. eauto.
  - intros i j r' s' (r & Hr & (-> & _) & _)%replaced_Some (s & Hs & (-> & _) & _)%replaced_Some. eauto.
  - intros i j r' s' (r & Hr & (_ & Hd & _) & _ & Hp)%replaced_Some (s & Hs & (_ & Hd' & _) & _ & Hp')%replaced_Some E Hr' Hs'.
    destruct (Hp Hr') as [-> _], (Hp' Hs') as [-> _]. eauto.
  - intros i r Hr. cbn. rewrite lookup_update_where, Hr. cbn. eexists. split; [done|].
    destruct (_ && _) eqn:E; [|apply row_evolves_refl]. apply andb_prop in E as [_ Hp]. repeat split. by rewrite Hp.
Qed.

Lemma good_insert_pairing req t d r d' :
  pairing_inv d → (∀ i r, pairings d !! i = Some r → is_pending r = true → pairingRow_DeviceID r ≠ cpr_DeviceID req) →
  insert_pairing req t d = Ok (r, d') → good d d'.
Proof.
  intros [I1 I2 I3] Hno. unfold insert_pairing. destruct (table_exists _ _) eqn:Ec; [done|]. destruct (devices _ !! _); [|done].
  intros [= <- <-]. rewrite table_exists_false in Ec.
  assert (∀ i x, pairings d !! i = Some x → pairingRow_PairingCode x ≠ cpr_PairingCode req) as Hcode.
  { intros i x Hx. specialize (Ec i x Hx). cbn in Ec. by bool_prop. }
  split; [split|]; cbn.
  - intros i x [[<- <-]|[? Hx]]%lookup_insert_Some; eauto.
  - intros i j x y [[<- <-]|[? Hx]]%lookup_insert_Some [[<- <-]|[? Hy]]%lookup_insert_Some E; cbn in *; [done|..|eauto].
    + by destruct (Hcode _ _ Hy).
    + by destruct (Hcode _ _ Hx).
  - intros i j x y [[<- <-]|[? Hx]]%lookup_insert_Some [[<- <-]|[? Hy]]%lookup_insert_Some E Hpx Hpy; cbn in *; [done|..|eauto].
    + by destruct (Hno _ _ Hy Hpy).
    + by destruct (Hno _ _ Hx Hpx).
  - intros i x Hx. cbn. rewrite lookup_insert_ne; [|intros <-; by apply fresh_id_ne in Hx]. exists x. split; [done|apply row_evolves_refl].
Qed.

(** The service's operations. *)
Lemma CreatePairing_good req w : pairing_inv (w_db w) → good (w_db w) (w_db (CreatePairing req false w).2).
Proof.
  intros I. apply (keeps_out_bind (good (w_db w))); [| |by apply good_same].
  { apply keeps_keeps_out. unfold addPairingCode, generatePairingCode. structural. }
  intros c. apply keeps_out_withinTx. intros w0 p w1 Hr [I0 E0].
  apply bind_Ok in Hr as (u & w2 & Hrep & Hr). unfold ReplacePendingPairings in Hrep. apply exec_Ok in Hrep as (d' & [= <- <-] & Hd & _).
  unfold CreatePairing_row in Hr. apply bind_Ok in Hr as (r & w3 & Hins & Hr). apply exec_Ok in Hins as (d3 & Hins & Hd3 & _).
  apply bind_Ok in Hr as (t & w4 & Hnow & Hr). injection Hnow as <- <-. injection Hr as <- <-.
  destruct (good_replaced (cpr_DeviceID c) (current_timestamp (w_now w0)) (w_db w0) I0) as [I2 E2]. fold (replaced (cpr_DeviceID c) (current_timestamp (w_now w0)) (w_db w0)) in Hd.
  rewrite Hd in Hins. apply good_insert_pairing in Hins as [I3 E3]; [|done|].
  - rewrite Hd3. split; [done|]. eauto using evolves_trans.
  - intros i x (y & _ & (_ & Hdev & _) & _ & Hp)%replaced_Some Hx. destruct (Hp Hx) as [-> ?]. done.
Qed.

Lemma EvalStatus_pending t s e : EvalStatus t s e = StatusPending ↔ s = storedPending ∧ t ≤ e.
Proof. unfold EvalStatus. case_bool_decide as Hs; cbn; [destruct (Z.ltb_spec e t)|]; destruct s; split; naive_solver lia. Qed.

(** The effect of a claim: the row used, the device's key replaced. *)
Definition claimed (r : pairingRow) (key : string) (t : time) (d : db) : db :=
  on_pairings (<[pairingRow_ID r := with_status storedUsed (current_timestamp t) r]>)
    (on_api_keys (<[pairingRow_DeviceID r := mkApiKey (str_take (String.length APIKeyPrefix + 8) key) (HashAPIKey key) (current_timestamp t)]>) d).

Definition key_available (d : db) (dev : DeviceID) (key : string) : bool :=
  bool_decide (map_Forall (λ i k, ApiKey_KeyHash k = HashAPIKey key → i = dev) (api_keys d)).

Definition claim_result (r : pairingRow) (key : string) : ClaimResult :=
  mkClaimResult (pairingRow_HeartbeatServerURL r) (pairingRow_HeartbeatIntervalSeconds r) (pairingRow_AppBiometricEnabled r)
    (pairingRow_AppSettingsLocked r) key.

Definition find_code (d : db) (code : string) : option pairingRow :=
  table_find (λ r, bool_decide (pairingRow_PairingCode r = code)) (pairings d).

(** What a key regeneration that succeeded found and did. *)
Lemma RegenerateAPIKey_Ok id w v key w' :
  RegenerateAPIKey id true w = (Ok (v, key), w') →
  (∃ b l, w_rand w = b :: l ∧ key = APIKeyPrefix +:+ RawURLEncode b) ∧ is_Some (active_device (w_db w) id) ∧ key_available (w_db w) id key = true ∧
  w_now w' = w_now w ∧
  w_db w' = on_api_keys (<[id := mkApiKey (str_take (String.length APIKeyPrefix + 8) key) (HashAPIKey key) (current_timestamp (w_now w))]>) (w_db w).
Proof.
  unfold RegenerateAPIKey. intros Hr. apply bind_Ok in Hr as ([[k h] p] & w1 & Hg & Hr). unfold GenerateAPIKey in Hg.
  apply bind_Ok in Hg as (b & w2 & Hb & Hg). unfold read_rand in Hb. destruct (w_rand w) as [|b' l] eqn:El; [done|]. injection Hb as <- <-.
  injection Hg as <- <- <- <-. apply bind_Ok in Hr as (v' & w3 & Hr & Hret). injection Hret as <- <- <-. rewrite withinTx_nested in Hr.
  apply bind_Ok in Hr as (v1 & w4 & Hv1 & Hr). apply bind_Ok in Hr as ([] & w5 & Hu & Hr).
  unfold GetDevice in Hv1, Hr. apply map_err_Ok in Hv1, Hr. apply get_row_Ok in Hv1 as (D4 & N4 & _ & Hv1). apply get_row_Ok in Hr as (D3 & N3 & _ & _).
  unfold UpsertAPIKey in Hu. apply map_err_Ok in Hu. apply exec_Ok in Hu as (d5 & Hu & D5 & N5 & _). cbn in D4, N4, Hv1. rewrite D4, N4 in Hu.
  unfold key_available. destruct (bool_decide _); [|done]. cbn [negb] in Hu. destruct (devices _ !! id); [|done]. injection Hu as <-.
  split; [by eexists _, _|]. split; [by destruct (active_device _ _)|]. split; [done|]. split; [congruence|]. by rewrite D3, D5.
Qed.

(** What a claim that succeeded found and did, whatever the faults around
    it. *)
Lemma ClaimPairing_claimed code w c w' :
  pairing_inv (w_db w) → ClaimPairing code false w = (Ok c, w') →
  ∃ r b l, let key := APIKeyPrefix +:+ RawURLEncode b in
    find_code (w_db w) code = Some r ∧ is_pending r = true ∧ w_now w < pairingRow_ExpiresAt r ∧ w_rand w = b :: l ∧
    is_Some (active_device (w_db w) (pairingRow_DeviceID r)) ∧ key_available (w_db w) (pairingRow_DeviceID r) key = true ∧
    c = claim_result r key ∧ w_db w' = claimed r key (w_now w) (w_db w).
Proof.
  intros I Hc. unfold ClaimPairing in Hc. apply bind_Ok in Hc as ([p k] & wa & Hc & Hret). injection Hret as <- <-.
  apply withinTx_Ok in Hc as (w0 & w3 & Hd0 & Hn0 & Hr0 & Hc & Hd1). rewrite Hd1, <-Hd0, <-Hn0, <-Hr0. rewrite <-Hd0 in I. clear Hd0 Hn0 Hr0 Hd1 w.
  apply bind_Ok in Hc as (q & w4 & Hget & Hc). unfold GetPairingByCode in Hget. apply bind_Ok in Hget as (x & w1 & Hx & Hget). apply map_err_Ok in Hx.
  apply get_row_Ok in Hx as (D1 & N1 & R1 & Hx). fold (find_code (w_db w0) code) in Hx. apply bind_Ok in Hget as (t & w2 & Hnow & Hget).
  injection Hnow as <- <-. injection Hget as <- <-. case_bool_decide as Hst; [|done]. cbn in Hst. apply EvalStatus_pending in Hst as [Hp Hle].
  cbn in Hc. apply bind_Ok in Hc as (t & w5 & Hnow & Hc). injection Hnow as <- <-. destruct (Z.leb_spec (pairingRow_ExpiresAt x) (w_now w1)); [done|].
  apply bind_Ok in Hc as ([v key] & w6 & Hreg & Hc). cbn in Hreg. apply RegenerateAPIKey_Ok in Hreg as ((b & l & Eb & ->) & Hv & Hk & N6 & D6).
  unfold ClaimPairing_row in Hc. apply bind_Ok in Hc as (y & w7 & Hc & Hret). injection Hret as <- <- <-.
  apply bind_Ok in Hc as (z & w8 & Hupd & Hc). apply exec_Ok in Hupd as (d8 & Hupd & D8 & N8 & _). injection Hc as <- <-. cbn in Hupd.
  pose proof Hx as (i & Hi & _)%table_find_Some. rewrite D6 in Hupd. cbn [on_api_keys pairings] in Hupd. rewrite D1, (pri_id _ I i x Hi), Hi in Hupd.
  injection Hupd as <- <-. rewrite D1, N1, ?R1, ?N6 in *. exists x, b, l. split; [done|]. split; [by apply bool_decide_eq_true_2|]. split; [done|]. split; [done|].
  split; [done|]. split; [done|]. split; [done|]. rewrite D8. unfold claimed. by rewrite (pri_id _ I i x Hi).
Qed.

(** The same, of the pairing's row. *)
Lemma ClaimPairing_Ok code w c w' :
  pairing_inv (w_db w) → ClaimPairing code false w = (Ok c, w') →
  ∃ i x t, pairings (w_db w) !! i = Some x ∧ pairingRow_PairingCode x = code ∧ is_pending x = true ∧
    pairings (w_db w') = <[i := with_status storedUsed t x]> (pairings (w_db w)).
Proof.
  intros I Hc. apply ClaimPairing_claimed in Hc as (r & b & l & Hf & Hp & _ & _ & _ & _ & _ & ->); [|done].
  apply table_find_Some in Hf as (i & Hi & Hcode). bool_prop. exists i, r. eexists. split; [done|]. split; [done|]. split; [done|].
  cbn. by rewrite (pri_id _ I i r Hi).
Qed.

Lemma ClaimPairing_Err code w e w' : ClaimPairing code false w = (Err e, w') → w_db w' = w_db w.
Proof.
  unfold ClaimPairing. rewrite bind_run. destruct (withinTx _ false w) as [[[? ?]|e'] w4] eqn:Ew; [done|].
  intros [= <- <-]. by apply withinTx_rollback in Ew.
Qed.

Lemma ClaimPairing_good code w : pairing_inv (w_db w) → good (w_db w) (w_db (ClaimPairing code false w).2).
Proof.
  intros I. destruct (ClaimPairing code false w) as [[c|e] w'] eqn:E; cbn.
  - apply ClaimPairing_Ok in E as (i & x & t & Hx & _ & Hp & E); [|done].
    destruct (good_with_status (w_db w) i x storedUsed t I Hx Hp) as [I1 E1]; [done|].
    destruct (good_same _ (w_db w') I1 E) as [I2 E2]. split; [done|]. eauto using evolves_trans.
  - apply good_same; [done|]. by rewrite (ClaimPairing_Err _ _ _ _ E).
Qed.

Lemma InvalidatePairing_good dev id w : pairing_inv (w_db w) → good (w_db w) (w_db (InvalidatePairing dev id false w).2).
Proof.
  intros I. unfold InvalidatePairing, InvalidatePairing_row. apply (keeps_bind (good (w_db w))); [| |by apply good_same].
  - apply keeps_exec. intros t d n d' [I0 E0]. destruct (pairings d !! id) as [r|] eqn:Hr; [|by intros [= _ <-]].
    destruct (_ && _) eqn:E; intros [= _ <-]; [|done]. apply andb_prop in E as [_ Hp].
    destruct (good_with_status d id r storedInvalidated (current_timestamp t) I0 Hr Hp) as [I1 E1]; [done|].
    split; [done|]. eauto using evolves_trans.
  - intros n. destruct (n =? 0); structural.
Qed.

(** A step of the program, as the pairings see it: an operation at any time,
    with any faults, or a change elsewhere. *)
Inductive pairing_step : db → db → Prop :=
  | step_create req w : pairing_step (w_db w) (w_db (CreatePairing req false w).2)
  | step_claim code w : pairing_step (w_db w) (w_db (ClaimPairing code false w).2)
  | step_invalidate dev id w : pairing_step (w_db w) (w_db (InvalidatePairing dev id false w).2)
  | step_elsewhere d d' : pairings d' = pairings d → pairing_step d d'.

Lemma pairing_steps_good d d' : rtc pairing_step d d' → pairing_inv d → good d d'.
Proof.
  induction 1 as [d|d1 d2 d3 Hs _ IH]; intros I; [by apply good_same|].
  assert (good d1 d2) as [I2 E2].
  { destruct Hs; auto using CreatePairing_good, ClaimPairing_good, InvalidatePairing_good, good_same. }
  destruct (IH I2) as [I3 E3]. split; [done|]. eauto using evolves_trans.
Qed.

(** C25: whatever operations run, at any time and with any failures of
    the database, codes stay unique and a device keeps at most one pending
    pairing; a pairing keeps its code, device and expiry, and one that is no
    longer pending (used, replaced or invalidated) never changes again. *)
Theorem pairing_lifecycle d d' :
  pairing_inv d → rtc pairing_step d d' →
  pairing_inv d' ∧
  (∀ i r, pairings d !! i = Some r →
     ∃ r', pairings d' !! i = Some r' ∧ pairingRow_PairingCode r' = pairingRow_PairingCode r ∧
       pairingRow_DeviceID r' = pairingRow_DeviceID r ∧ pairingRow_ExpiresAt r' = pairingRow_ExpiresAt r ∧
       (pairingRow_Status r ≠ storedPending → r' = r)).
Proof.
  intros I Hs. destruct (pairing_steps_good d d' Hs I) as [I' E]. split; [done|]. intros i r Hr.
  destruct (E i r Hr) as (r' & Hr' & E1 & E2 & E3 & E4). exists r'. repeat split; try done. intros Hp. apply E4.
  unfold is_pending. by case_bool_decide.
Qed.

(** ** Claiming *)

Lemma active_device_lookup d id v : active_device d id = Some v → devices d !! id = Some v.
Proof. unfold active_device. destruct (devices d !! id); [|done]. by destruct (device_active _); intros [= ->]. Qed.

Lemma RegenerateAPIKey_run id w :
  no_faults w →
  RegenerateAPIKey id true w =
    match w_rand w with
    | [] => (Err ErrRandom, w)
    | b :: l =>
        let key := APIKeyPrefix +:+ RawURLEncode b in
        match active_device (w_db w) id with
        | None => (Err ErrDeviceNotFound, set_rand l w)
        | Some v =>
            if key_available (w_db w) id key then
              let d' := on_api_keys (<[id := mkApiKey (str_take (String.length APIKeyPrefix + 8) key) (HashAPIKey key) (current_timestamp (w_now w))]>) (w_db w) in
              (Ok (join_key d' v, key), set_db d' (set_rand l w))
            else (Err (ErrUnique "device_api_keys.key_hash"), set_rand l w)
        end
    end.
Proof.
  intros Hnf. unfold RegenerateAPIKey, GenerateAPIKey. rewrite !bind_run. unfold read_rand. destruct (w_rand w) as [|b l]; [done|].
  cbv beta iota. rewrite ret_run. cbv beta iota zeta. set (key := APIKeyPrefix +:+ RawURLEncode b).
  rewrite bind_run, withinTx_nested, bind_run. unfold GetDevice at 1. rewrite map_err_run, get_row_run by done.
  change (w_db (set_rand l w)) with (w_db w). destruct (active_device (w_db w) id) as [v|] eqn:Hv; [|done]. cbv beta iota.
  change (join_key (w_db w) <$> Some v) with (Some (join_key (w_db w) v)). cbv beta iota.
  unfold UpsertAPIKey. rewrite bind_run, map_err_run, exec_run by done. change (w_db (set_rand l w)) with (w_db w). unfold key_available.
  destruct (bool_decide _); [|done]. cbn [negb]. rewrite (active_device_lookup _ _ _ Hv). cbv beta iota.
  unfold GetDevice. rewrite map_err_run, get_row_run by done. cbn [w_db set_db w_now set_rand].
  assert (∀ f, active_device (on_api_keys f (w_db w)) id = Some v) as -> by done. done.
Qed.

Lemma ClaimPairing_run code w :
  no_faults w → pairing_inv (w_db w) →
  let d := w_db w in
  ClaimPairing code false w =
    match find_code d code with
    | None => (Err ErrPairingNotFound, w)
    | Some r =>
        if negb (is_pending r) || (pairingRow_ExpiresAt r <? w_now w) then (Err ErrPairingNotClaimable, w)
        else if pairingRow_ExpiresAt r <=? w_now w then (Err ErrPairingExpired, w)
        else match w_rand w with
             | [] => (Err ErrRandom, w)
             | b :: l =>
                 let key := APIKeyPrefix +:+ RawURLEncode b in
                 if match active_device d (pairingRow_DeviceID r) with Some _ => true | None => false end
                 then if key_available d (pairingRow_DeviceID r) key
                      then (Ok (claim_result r key), set_db (claimed r key (w_now w) d) (set_rand l w))
                      else (Err (ErrUnique "device_api_keys.key_hash"), set_rand l w)
                 else (Err ErrDeviceNotFound, set_rand l w)
             end
    end.
Proof.
  intros Hnf I d. unfold ClaimPairing. rewrite bind_run, withinTx_run; [|done|].
  2: { match goal with |- no_faults (?m true w).2 => assert (quiet m) as Hq; [|by apply Hq] end.
       unfold GetPairingByCode, RegenerateAPIKey, GenerateAPIKey, GetDevice, UpsertAPIKey, ClaimPairing_row. structural. }
  rewrite bind_run. unfold GetPairingByCode. rewrite bind_run, map_err_run, get_row_run by done. fold d. fold (find_code d code).
  destruct (find_code d code) as [r|] eqn:Hf; [|by destruct w]. cbv beta iota. rewrite bind_run, now_run. cbv beta iota. rewrite ret_run. cbv beta iota.
  cbn [fromRow DevicePairing_Status DevicePairing_ExpiresAt DevicePairing_DeviceID DevicePairing_ID].
  unfold is_pending. pose proof (EvalStatus_pending (w_now w) (pairingRow_Status r) (pairingRow_ExpiresAt r)) as He.
  destruct (bool_decide (EvalStatus _ _ _ = _)) eqn:Hst; bool_prop.
  2: { rewrite (proj2 (orb_true_iff _ _)); [by destruct w|].
       destruct (decide (pairingRow_Status r = storedPending)) as [Hp|Hp]; [right|left; by rewrite bool_decide_eq_false_2].
       apply Z.ltb_lt. destruct (Z.lt_ge_cases (pairingRow_ExpiresAt r) (w_now w)); [done|]. exfalso. apply Hst, He. auto with lia. }
  apply He in Hst as [Hp Hle]. rewrite bool_decide_eq_true_2 by done. cbn [negb orb]. rewrite (proj2 (Z.ltb_ge _ _)) by lia.
  rewrite bind_run, now_run. cbv beta iota. destruct (pairingRow_ExpiresAt r <=? w_now w); [by destruct w|].
  rewrite bind_run, RegenerateAPIKey_run by done. destruct (w_rand w) as [|b l] eqn:Hr; [by destruct w|]. cbv beta iota zeta. fold d.
  destruct (active_device d _) as [v|]; [|by destruct w]. destruct (key_available _ _ _); [|by destruct w]. cbv beta iota.
  rewrite bind_run. unfold ClaimPairing_row. rewrite bind_run, exec_run by done. cbn [w_db set_db on_api_keys pairings].
  apply table_find_Some in Hf as (i & Hi & _). rewrite (pri_id _ I i r Hi), Hi. unfold claimed. by rewrite (pri_id _ I i r Hi).
Qed.

(** C24: a claim answers 200 exactly when its code is the code of a
    pending pairing that has not expired, of a device that is not deleted,
    and the new key is no other device's; then the pairing is used and the
    device's API key is the returned one (its hash). An unknown, spent,
    replaced, invalidated or expired code is a 404 that changes nothing, and
    what remains is a 500.  With any failures of the database at any point
    (the key already replaced and the pairing not yet marked, the commit
    itself) a claim is all or nothing: either it answers 200, found all that,
    and did all of it, or it answers 404 or 500 and the database is the one
    it found. *)
Theorem handler_ClaimPairing_spec code w :
  pairing_inv (w_db w) →
  let d := w_db w in
  let '(resp, w') := handler_ClaimPairing code false w in
  (no_faults w →
   match find_code d code with
   | None => resp = Ok (mkResponse 404 None) ∧ w' = w
   | Some r =>
       if is_pending r && (w_now w <? pairingRow_ExpiresAt r) then
         match active_device d (pairingRow_DeviceID r), w_rand w with
         | Some _, b :: l =>
             let key := APIKeyPrefix +:+ RawURLEncode b in
             if key_available d (pairingRow_DeviceID r) key
             then resp = Ok (mkResponse 200 (Some (claim_result r key))) ∧ w_db w' = claimed r key (w_now w) d
             else resp = Ok (mkResponse 500 None) ∧ w_db w' = d
         | _, _ => resp = Ok (mkResponse 500 None) ∧ w_db w' = d
         end
       else resp = Ok (mkResponse 404 None) ∧ w' = w
   end) ∧
  ((∃ r b l, let key := APIKeyPrefix +:+ RawURLEncode b in
      resp = Ok (mkResponse 200 (Some (claim_result r key))) ∧ w_db w' = claimed r key (w_now w) d ∧
      find_code d code = Some r ∧ is_pending r = true ∧ w_now w < pairingRow_ExpiresAt r ∧
      is_Some (active_device d (pairingRow_DeviceID r)) ∧ w_rand w = b :: l ∧ key_available d (pairingRow_DeviceID r) key = true) ∨
   ((resp = Ok (mkResponse 404 None) ∨ resp = Ok (mkResponse 500 None)) ∧ w_db w' = d)).
Proof.
  intros I d. unfold handler_ClaimPairing. rewrite respond_run. destruct (ClaimPairing code false w) as [res w'] eqn:E. split.
  - intros Hnf. rewrite ClaimPairing_run in E by done. fold d in E. destruct (find_code d code) as [r|]; [|by injection E as <- <-].
    destruct (is_pending r); cbn [negb orb andb] in *; [|by injection E as <- <-].
    destruct (Z.ltb_spec (pairingRow_ExpiresAt r) (w_now w)), (Z.ltb_spec (w_now w) (pairingRow_ExpiresAt r)); try lia; [by injection E as <- <-| |].
    + rewrite (proj2 (Z.leb_gt _ _)) in E by lia.
      destruct (w_rand w) as [|b l], (active_device d _); try by injection E as <- <-.
      cbv zeta in *. by destruct (key_available _ _ _); injection E as <- <-.
    + rewrite (proj2 (Z.leb_le _ _)) in E by lia. by injection E as <- <-.
  - destruct res as [c|e].
    + left. apply ClaimPairing_claimed in E as (r & b & l & ? & ? & ? & ? & ? & ? & -> & ?); [|done]. exists r, b, l. by repeat split.
    + right. split; [destruct (not_claimable e); auto|]. by apply ClaimPairing_Err in E.
Qed.

(** A code is redeemed at most once: after a claim of it has
    succeeded, and whatever operations have run since, with or without
    failures, no claim of it succeeds again, and it changes nothing. *)
Theorem ClaimPairing_once code w c w1 w2 :
  pairing_inv (w_db w) →
  ClaimPairing code false w = (Ok c, w1) →
  rtc pairing_step (w_db w1) (w_db w2) →
  ∃ e, (ClaimPairing code false w2).1 = Err e ∧ w_db (ClaimPairing code false w2).2 = w_db w2 ∧
    (no_faults w2 → handler_ClaimPairing code false w2 = (Ok (mkResponse 404 None), w2)).
Proof.
  intros I Hc Hsteps. pose proof (ClaimPairing_good code w I) as [I1 _]. rewrite Hc in I1. cbn in I1.
  apply ClaimPairing_Ok in Hc as (i & x & t & _ & Hcode & _ & E); [|done]. set (r := with_status storedUsed t x).
  destruct (pairing_steps_good _ _ Hsteps I1) as [I2 E2]. destruct (E2 i r) as (r' & Hi & _ & _ & _ & Hr'); [by rewrite E, lookup_insert_eq|].
  rewrite (Hr' eq_refl) in Hi. clear E2 Hr'.
  (* every row with that code is the used one *)
  assert (∀ j y, pairings (w_db w2) !! j = Some y → pairingRow_PairingCode y = code → y = r) as Hall.
  { intros j y Hy Hcy. assert (j = i) as -> by (apply (pri_code _ I2 j i y r); [done|done|by rewrite Hcy]). congruence. }
  destruct (ClaimPairing code false w2) as [[p|e] w3] eqn:Ec.
  - exfalso. apply ClaimPairing_Ok in Ec as (j & y & ? & Hy & Hcy & Hp & _); [|done]. by rewrite (Hall j y Hy Hcy) in Hp.
  - exists e. split; [done|]. split; [by eapply ClaimPairing_Err|]. intros Hnf. unfold handler_ClaimPairing.
    rewrite respond_run, ClaimPairing_run by done. destruct (find_code (w_db w2) code) as [y|] eqn:Hf; [|done].
    apply table_find_Some in Hf as (j & Hy & Hcy). bool_prop. by rewrite (Hall j y Hy Hcy).
Qed.

(** ** Concrete runs *)
Module PairingDemo.
Definition code : string := "c".
Definition phone : Device := mkDevice 1 "phone" None None 0 0 None None None 7.
Definition pairing : pairingRow := mkPairingRow 1 1 code "https://example.org" 60 false true (24 * Hour) 0 0 storedPending.
Definition start : db := on_pairings (λ _, {[1 := pairing]}) (on_devices (λ _, {[1 := phone]}) empty_db).
Definition w : world := world_of start Hour ["0123456789abcdef0123456789abcdef"].

(** The same, with the commit failing after the six calls before it. *)
Definition w_commit_fails : world := set_faults (replicate 6 None ++ [Some false]) w.

Lemma pairing_start_inv : pairing_inv start.
Proof. split; cbn; intros *; repeat (intros [<- <-]%lookup_singleton_Some || intros ?); done. Qed.

Lemma claimed_once : ∃ c w1, ClaimPairing code false w = (Ok c, w1).
Proof. eexists _, _. vm_compute. reflexivity. Qed.
End PairingDemo.

Import PairingDemo.

Example pairing_lifecycle_witness :
  pairing_inv (w_db (CreatePairing (mkCreatePairingRequest 1 "" 60 false false 24 0 "") false w).2).
Proof.
  apply (pairing_lifecycle start); [exact pairing_start_inv|]. eapply rtc_l; [|apply rtc_refl].
  apply (step_create (mkCreatePairingRequest 1 "" 60 false false 24 0 "") w).
Defined.

(** A claim that goes well, one of an unknown code, and one whose commit
    fails. *)
Example handler_ClaimPairing_spec_witness :
  (handler_ClaimPairing "x" false w).1 = Ok (mkResponse 404 None) ∧
  (∃ key, (handler_ClaimPairing code false w).1 = Ok (mkResponse 200 (Some (claim_result pairing key)))) ∧
  w_db (handler_ClaimPairing code false w_commit_fails).2 = start.
Proof.
  split; [|split].
  - pose proof (handler_ClaimPairing_spec "x" w pairing_start_inv) as H. cbv zeta in H.
    destruct (handler_ClaimPairing "x" false w). exact (proj1 (proj1 H eq_refl)).
  - eexists. pose proof (handler_ClaimPairing_spec code w pairing_start_inv) as H. cbv zeta in H.
    destruct (handler_ClaimPairing code false w). exact (proj1 (proj1 H eq_refl)).
  - pose proof (handler_ClaimPairing_spec code w_commit_fails pairing_start_inv) as H. cbv zeta in H.
    assert ((handler_ClaimPairing code false w_commit_fails).1 = Ok (mkResponse 500 None)) as E by (vm_compute; reflexivity).
    destruct (handler_ClaimPairing code false w_commit_fails) as [resp w']. cbn [fst] in E. subst resp.
    destruct H as [_ [(r & b & l & Hr & _)|[_ Hd]]]; [discriminate Hr|exact Hd].
Defined.

Example ClaimPairing_once_witness :
  ∃ c w1 e, ClaimPairing code false w = (Ok c, w1) ∧ (ClaimPairing code false (set_now (2 * Hour) w1)).1 = Err e.
Proof.
  destruct claimed_once as (c & w1 & E).
  destruct (ClaimPairing_once code w c w1 (set_now (2 * Hour) w1) pairing_start_inv E) as (e & He & _); [apply rtc_refl|].
  exists c, w1, e. split; [exact E|exact He].
Defined.
