(* ===== verification/Queries.v ===== *)
(** * Queries: the users' pages and the fleet ([internal/queries])

    The read models that join several packages' tables: the users with their
    access, the access detail of one user, and the fleet, composed from four
    batched reads; their handlers. *)

From S2P Require Import Prelude GoLib Slicex Compare Joins GroupBy Schema Store Http Device DeviceHttp Rule Hosts UserAccess HostViews Pairing.

Local Open Scope string_scope.
Local Open Scope Z_scope.
Local Open Scope list_scope.

(** ** user_view.go: the users *)

Record UserView := mkUserView {
  UserView_ID : UserID; UserView_Username : string; UserView_DisplayName : string; UserView_Email : option string; UserView_Role : Role;
  UserView_MustChangePassword : bool; UserView_BypassHostCheck : bool; UserView_CreatedBy : option UserID; UserView_CreatedAt : time }.

(** [COALESCE(uhs.bypass_host_check, 0)] of the outer join. *)
Definition bypass_of (d : db) (u : UserID) : bool := default false (user_settings d !! u).

Definition user_view (d : db) (u : User) : UserView :=
  mkUserView (User_ID u) (User_Username u) (User_DisplayName u) (User_Email u) (User_Role u) (User_MustChangePassword u)
    (bypass_of d (User_ID u)) (User_CreatedBy u) (User_CreatedAt u).

Definition GetAllUsers : M (list UserView) :=
  query (λ _ d, user_view d <$> order_desc User_CreatedAt (filter (λ u, User_DeletedAt u = None) (rows (users d)))).

Record UserListItem := mkUserListItem {
  uli_Id : UserID; uli_Username : string; uli_DisplayName : string; uli_Role : Role; uli_BypassHostCheck : bool;
  uli_DeviceCount : Z; uli_HostCount : Z; uli_LiveAddressCount : Z; uli_Groups : list GroupSummary }.

(** [COUNT( * )] of a table's rows under a condition. *)
Definition count_rows {V} (P : V → Prop) `{∀ v, Decision (P v)} (m : gmap Z V) : Z := Z.of_nat (length (filter P (rows m))).

(** The hosts of the groups granted to a user, each once. *)
Definition granted_hosts (d : db) (u : UserID) : gset HostID :=
  list_to_set (i ← elements (group_members d); if decide ((u, i.1) ∈ user_groups d ∧ is_Some (hosts d !! i.2)) then [i.2] else []).

Definition host_count (d : db) (u : UserID) : Z :=
  if bypass_of d u then Z.of_nat (size (hosts d)) else Z.of_nat (size (granted_hosts d u)).

(** The enabled addresses of the user's devices, deleted ones included. *)
Definition live_ip_count (d : db) (u : UserID) : Z :=
  count_rows (λ a, Address_IsEnabled a = true ∧ (Device_OwnerID <$> devices d !! Address_DeviceID a) = Some u) (addresses d).

Definition device_count (d : db) (u : UserID) : Z := count_rows (λ v, Device_OwnerID v = u ∧ Device_DeletedAt v = None) (devices d).

(** The columns of the query: the bypass flag of the outer join is NULL
    for a user without settings. *)
Definition user_access_row (d : db) (u : User) : User * option bool * (Z * Z * Z) :=
  (u, user_settings d !! User_ID u, (host_count d (User_ID u), device_count d (User_ID u), live_ip_count d (User_ID u))).

(** Scanning NULL into a [bool] field fails, and with it the query. *)
Definition scan_user_row (r : User * option bool * (Z * Z * Z)) : result (User * bool * (Z * Z * Z)) :=
  match r.1.2 with Some b => Ok (r.1.1, b, r.2) | None => Err (ErrSQL false) end.

Definition grant_rows (d : db) : list (UserID * GroupSummary) :=
  (λ r, (r.1, group_summary r.2)) <$>
    order_by (λ r : UserID * HostGroup, (r.1, HostGroup_Name r.2)) (cmp_pair Z.compare String.compare)
      (omap (λ p, pair p.1 <$> host_groups d !! p.2) (elements (user_groups d))).

Definition ListUserAccessRows : M (list UserListItem) :=
  raw ← query (λ _ d, user_access_row d <$> order_by_text User_DisplayName (filter (λ u, User_DeletedAt u = None) (rows (users d))));
  userRows ← of_result (map_result scan_user_row raw);
  grantRows ← query (λ _ d, grant_rows d);
  let grantsByUser := GroupByMap grantRows fst snd in
  mret ((λ r : User * bool * (Z * Z * Z),
    mkUserListItem (User_ID r.1.1) (User_Username r.1.1) (User_DisplayName r.1.1) (User_Role r.1.1) r.1.2
      r.2.1.2 r.2.1.1 r.2.2 (default [] (grantsByUser !! User_ID r.1.1))) <$> userRows).

(** ** user_view.go: the detail of one user *)

Record SubjectGroupDetail := mkSubjectGroup {
  sg_Id : HostGroupID; sg_Name : string; sg_Icon : string; sg_Color : string; sg_Granted : bool; sg_Hosts : list (HostID * string) }.

Record DeviceListItem := mkDeviceListItem {
  dli_Id : DeviceID; dli_Name : string; dli_ApiKeyPrefix : option string; dli_Icon : option string; dli_LiveAddressCount : Z }.

Record UserAccessDetail := mkUserAccessDetail {
  uad_Id : UserID; uad_Username : string; uad_DisplayName : string; uad_BypassHostCheck : bool; uad_Role : Role; uad_Email : option string;
  uad_Groups : list SubjectGroupDetail; uad_Devices : list DeviceListItem }.

(** All groups, granted or not, joined with their hosts, in
    [ORDER BY hg.name, h.fqdn]. *)
Definition subject_group_rows (d : db) (u : UserID) : list ((HostGroup * bool) * option Host) :=
  order_by (λ r : (HostGroup * bool) * option Host, (HostGroup_Name r.1.1, Host_FQDN <$> r.2)) (cmp_pair String.compare (cmp_option String.compare))
    (join_rows (λ g : HostGroup * bool, hosts_of_group d (HostGroup_ID g.1))
      ((λ g, (g, bool_decide ((u, HostGroup_ID g) ∈ user_groups d))) <$> rows (host_groups d))).

Definition attach_host (g : SubjectGroupDetail) (h : HostID * string) : SubjectGroupDetail :=
  mkSubjectGroup (sg_Id g) (sg_Name g) (sg_Icon g) (sg_Color g) (sg_Granted g) (sg_Hosts g ++ [h]).

Definition new_subject_group (g : HostGroup * bool) : SubjectGroupDetail :=
  mkSubjectGroup (HostGroup_ID g.1) (HostGroup_Name g.1) (HostGroup_Icon g.1) (HostGroup_Color g.1) g.2 [].

Definition collapse_subject_groups (rws : list ((HostGroup * bool) * option Host)) : list SubjectGroupDetail :=
  collapse_join (λ g : HostGroup * bool, HostGroup_ID g.1) new_subject_group (λ h, (Host_ID h, Host_FQDN h)) attach_host rws.

Definition device_list_item (d : db) (v : Device) : DeviceListItem :=
  mkDeviceListItem (Device_ID v) (Device_Name v) (ApiKey_KeyPrefix <$> api_keys d !! Device_ID v) (Device_Icon v)
    (Z.of_nat (length (filter (λ a, Address_IsEnabled a = true) (addresses_of d (Device_ID v))))).

Definition GetUserAccessDetail (userID : UserID) : M UserAccessDetail :=
  '(ur, bypass) ← map_err (no_rows ErrUserNotFound)
    (get_row (λ _ d, u ← users d !! userID; if decide (User_DeletedAt u = None) then Some (u, bypass_of d userID) else None));
  groupRows ← query (λ _ d, subject_group_rows d userID);
  devices ← query (λ _ d, device_list_item d <$> filter (λ v, Device_OwnerID v = userID) (devices_by_name d));
  mret (mkUserAccessDetail (User_ID ur) (User_Username ur) (User_DisplayName ur) bypass (User_Role ur) (User_Email ur)
          (collapse_subject_groups groupRows) devices).

(** ** fleet_view.go *)

(** [httpapi.FleetDevice] with what the composer attaches. *)
Record FleetEntry := mkFleetEntry {
  fe_Device : FleetDevice; fe_Rules : list DeviceRuleSummary; fe_Pairing : option (PairingStatus * time) }.

Record OwnerFleetGroup := mkOwnerGroup {
  og_Id : UserID; og_DisplayName : string; og_Role : Role; og_BypassHostCheck : bool; og_HostGroups : list GroupSummary;
  og_DeviceCount : Z; og_LiveAddressCount : Z; og_Devices : list FleetEntry }.

Definition new_owner_group (s : SubjectRow) : OwnerFleetGroup :=
  mkOwnerGroup (SubjectRow_ID s) (SubjectRow_DisplayName s) (SubjectRow_Role s) (SubjectRow_BypassHostCheck s) (SubjectRow_HostGroups s) 0 0 [].

(** The body of the loop over the devices for the owner's group. *)
Definition add_device (e : FleetEntry) (g : OwnerFleetGroup) : OwnerFleetGroup :=
  mkOwnerGroup (og_Id g) (og_DisplayName g) (og_Role g) (og_BypassHostCheck g) (og_HostGroups g)
    (og_DeviceCount g + 1) (og_LiveAddressCount g + fleet_LiveAddressCount (fe_Device e)) (og_Devices g ++ [e]).

Section stitch.
Context (rules : gmap DeviceID (list DeviceRuleSummary)) (pairings : gmap DeviceID (PairingStatus * time)).

Definition fleet_entry (row : FleetRow) : FleetEntry :=
  let deviceID := fleet_Id (FleetRow_Device row) in
  mkFleetEntry (FleetRow_Device row) (default [] (rules !! deviceID)) (pairings !! deviceID).

Definition stitch_device (indexByOwner : gmap UserID nat) (groups : list OwnerFleetGroup) (row : FleetRow) : list OwnerFleetGroup :=
  match indexByOwner !! FleetRow_OwnerID row with
  | None => groups
  | Some idx => alter (add_device (fleet_entry row)) idx groups
  end.

Definition stitchFleet (subjects : list SubjectRow) (devices : list FleetRow) : list OwnerFleetGroup :=
  let indexByOwner := foldl (λ m (p : nat * SubjectRow), <[SubjectRow_ID p.2 := p.1]> m) ∅ (imap pair subjects) in
  foldl (stitch_device indexByOwner) (new_owner_group <$> subjects) devices.
End stitch.

Definition Fleet (ownerID : option UserID) : M (list OwnerFleetGroup) :=
  subjects ← SubjectRows ownerID;
  devices ← FleetRows ownerID;
  let deviceIDs := (λ r, fleet_Id (FleetRow_Device r)) <$> devices in
  rules ← RulesForDevices deviceIDs;
  pairings ← PairingsForDevices deviceIDs;
  mret (stitchFleet rules pairings subjects devices).

(** ** Handlers *)

(** [httpapi.User]: without the creator. *)
Record UserResponse := mkUserResponse {
  ur_Id : UserID; ur_Username : string; ur_DisplayName : string; ur_Email : option string; ur_Role : Role;
  ur_MustChangePassword : bool; ur_BypassHostCheck : bool; ur_CreatedAt : time }.

Definition toUserViewResponse (u : UserView) : UserResponse :=
  mkUserResponse (UserView_ID u) (UserView_Username u) (UserView_DisplayName u) (UserView_Email u) (UserView_Role u)
    (UserView_MustChangePassword u) (UserView_BypassHostCheck u) (UserView_CreatedAt u).

Definition handler_ListUsers : M (Response (list UserResponse)) :=
  respond GetAllUsers (λ l, mkResponse 200 (Some (toUserViewResponse <$> l))) (λ _, 500).

Definition handler_ListUsersWithAccess : M (Response (list UserListItem)) :=
  respond ListUserAccessRows (λ l, mkResponse 200 (Some l)) (λ _, 500).

Definition handler_GetUserAccessDetail (userID : UserID) : M (Response UserAccessDetail) :=
  respond (GetUserAccessDetail userID) (λ x, mkResponse 200 (Some x)) (λ e, match e with ErrUserNotFound => 404 | _ => 500 end).

Definition handler_GetDeviceFleet (ownerId : option UserID) : M (Response (list OwnerFleetGroup)) :=
  respond (Fleet ownerId) (λ l, mkResponse 200 (Some l)) (λ _, 500).
