(* ===== verification/QueriesSpec.v ===== *)
(** * QueriesSpec: what the users' pages and the fleet show

    The fleet groups every device under its owner with its rules and
    pairing; its totals are those of the users' page, which counts the same
    devices and addresses with a query of its own. *)

From S2P Require Import Prelude GoLib Slicex Compare Joins GroupBy Schema Store Http Device DeviceInv DeviceHttp Rule Hosts UserAccess HostViews Pairing Queries.

Local Open Scope Z_scope.
Local Open Scope list_scope.

(** ** stitchFleet *)

Section stitch.
Context (rules : gmap DeviceID (list DeviceRuleSummary)) (pairings : gmap DeviceID (PairingStatus * time)).

(** The group of an owner over the devices of the fleet. *)
Definition owner_group (devices : list FleetRow) (s : SubjectRow) : OwnerFleetGroup :=
  let mine := fleet_entry rules pairings <$> filter (λ r, FleetRow_OwnerID r = SubjectRow_ID s) devices in
  mkOwnerGroup (SubjectRow_ID s) (SubjectRow_DisplayName s) (SubjectRow_Role s) (SubjectRow_BypassHostCheck s) (SubjectRow_HostGroups s)
    (Z.of_nat (length mine)) (zsum ((λ e, fleet_LiveAddressCount (fe_Device e)) <$> mine)) mine.

Lemma owner_group_snoc devices r s :
  owner_group (devices ++ [r]) s =
    if decide (FleetRow_OwnerID r = SubjectRow_ID s) then add_device (fleet_entry rules pairings r) (owner_group devices s) else owner_group devices s.
Proof.
  unfold owner_group. rewrite filter_app, filter_cons, filter_nil. case_decide as E; [|by rewrite app_nil_r].
  unfold add_device. cbn. rewrite !fmap_app, zsum_app. cbn. rewrite zsum_cons, zsum_nil, length_app. cbn. f_equal; lia.
Qed.

Lemma imap_pair_keys {A K} (f : A → K) (l : list A) n : (λ p : nat * A, f p.2) <$> imap (λ i x, ((n + i)%nat, x)) l = f <$> l.
Proof.
  revert n. induction l as [|x l IH]; intros n; [done|]. cbn. f_equal. rewrite <-(IH (S n)). f_equal. apply imap_ext. intros i y _. cbn. f_equal. lia.
Qed.

Lemma index_by_owner subjects u i :
  NoDup (SubjectRow_ID <$> subjects) →
  foldl (λ m (p : nat * SubjectRow), <[SubjectRow_ID p.2 := p.1]> m) (∅ : gmap UserID nat) (imap pair subjects) !! u = Some i ↔
  ∃ s, subjects !! i = Some s ∧ SubjectRow_ID s = u.
Proof.
  intros Hnd. rewrite (foldl_insert_Some (λ p : nat * SubjectRow, SubjectRow_ID p.2) (λ p, p.1)).
  - split.
    + intros ([j s] & (k & Hk)%list_elem_of_lookup & Hs & Hj). cbn in Hs, Hj. rewrite list_lookup_imap in Hk. subst j.
      destruct (subjects !! k) as [x|] eqn:Ex; [|done]. injection Hk as -> ->. by exists s.
    + intros (s & Hs & Hu). exists (i, s). split; [|done]. apply list_elem_of_lookup. exists i. by rewrite list_lookup_imap, Hs.
  - pose proof (imap_pair_keys SubjectRow_ID subjects 0) as Hk. cbn in Hk. change (imap pair subjects) with (imap (λ i x, (i, x)) subjects). by rewrite Hk.
Qed.

(** The loop over the devices fills every owner's group. *)
Lemma stitchFleet_groups subjects devices :
  NoDup (SubjectRow_ID <$> subjects) → stitchFleet rules pairings subjects devices = owner_group devices <$> subjects.
Proof.
  intros Hnd. unfold stitchFleet. set (index := foldl _ ∅ _).
  assert (∀ u i, index !! u = Some i ↔ ∃ s, subjects !! i = Some s ∧ SubjectRow_ID s = u) as Hi by (intros; by apply index_by_owner).
  induction devices as [|r devices IH] using rev_ind; [done|]. rewrite foldl_app, IH. cbn [foldl]. unfold stitch_device.
  destruct (index !! FleetRow_OwnerID r) as [i|] eqn:E.
  - apply Hi in E as (s & Hs & Hid). apply list_eq. intros j. rewrite list_lookup_fmap. destruct (decide (j = i)) as [->|Hne].
    + rewrite list_lookup_alter, decide_True, list_lookup_fmap, Hs by done. cbn. by rewrite owner_group_snoc, decide_True.
    + rewrite list_lookup_alter_ne, list_lookup_fmap by done. destruct (subjects !! j) as [s'|] eqn:Ej; [|done]. cbn. f_equal.
      rewrite owner_group_snoc, decide_False; [done|]. intros E. apply Hne. eapply (NoDup_lookup _ _ _ (SubjectRow_ID s) Hnd);
        rewrite list_lookup_fmap; [rewrite Ej|rewrite Hs]; cbn; congruence.
  - apply list_fmap_ext. intros j s Hs. rewrite owner_group_snoc, decide_False; [done|]. intros Eq.
    assert (index !! FleetRow_OwnerID r = Some j) as Hj by (apply Hi; eauto). congruence.
Qed.
End stitch.

(** ** The subjects *)

Definition subject_row (d : db) (p : User * bool) : SubjectRow :=
  mkSubjectRow (User_ID p.1) (User_DisplayName p.1) (User_Role p.1) p.2 (group_summary <$> groups_of_user d (User_ID p.1)).

Lemma attach_subject_groups s gs :
  foldl attach_subject_group s gs =
    mkSubjectRow (SubjectRow_ID s) (SubjectRow_DisplayName s) (SubjectRow_Role s) (SubjectRow_BypassHostCheck s) (SubjectRow_HostGroups s ++ gs).
Proof. revert s. induction gs as [|g gs IH]; intros []; cbn [foldl]; [by rewrite app_nil_r|]. rewrite IH. cbn. by rewrite <-app_assoc. Qed.

Section ids.
Context (d : db) (Hids : ∀ i u, users d !! i = Some u → User_ID u = i).

Lemma live_users_ids : NoDup (User_ID <$> live_users d).
Proof.
  unfold live_users, order_by_text. rewrite merge_sort_Permutation. eapply sublist_NoDup; [|apply fmap_sublist, sublist_filter].
  by apply NoDup_rows_on.
Qed.

Lemma elem_of_live_users u : u ∈ live_users d ↔ User_DeletedAt u = None ∧ users d !! User_ID u = Some u.
Proof.
  unfold live_users, order_by_text. rewrite merge_sort_Permutation, elem_of_filter_rows. split.
  - intros [Hd [i Hi]]. split; [done|]. by rewrite (Hids _ _ Hi).
  - intros [Hd Hi]. eauto.
Qed.

Lemma subject_ids o : NoDup ((λ p : User * bool, User_ID p.1) <$> subject_users d o).
Proof. unfold subject_users. rewrite <-list_fmap_compose. cbn. eapply sublist_NoDup; [apply live_users_ids|apply fmap_sublist, sublist_filter]. Qed.
End ids.

Lemma SubjectRows_run o tx w :
  no_faults w → (∀ i u, users (w_db w) !! i = Some u → User_ID u = i) →
  SubjectRows o tx w = (Ok (subject_row (w_db w) <$> subject_users (w_db w) o), w).
Proof.
  intros Hn Hids. unfold SubjectRows. rewrite bind_run, query_run by done. rewrite ret_run. repeat f_equal.
  rewrite collapse_join_rows by (by apply subject_ids). apply list_fmap_ext. intros i p _. rewrite attach_subject_groups. done.
Qed.

(** ** The counts *)

Section counts.
Context (d : db) (I : device_inv d) (u : UserID).

(** The live devices of the owner. *)
Definition owned : list Device := filter (λ v, Device_OwnerID v = u) (devices_by_name d).

Lemma elem_of_owned v : v ∈ owned ↔ Device_OwnerID v = u ∧ Device_DeletedAt v = None ∧ devices d !! Device_ID v = Some v.
Proof.
  unfold owned, devices_by_name. rewrite list_elem_of_filter, (order_by_Permutation _ _), elem_of_filter_rows. split.
  - intros (Ho & Hd & i & Hi). split; [done|]. split; [done|]. by rewrite (proj1 (di_dev_id d I _ _ Hi)).
  - intros (Ho & Hd & Hi). eauto.
Qed.

Lemma owned_ids : NoDup (Device_ID <$> owned).
Proof.
  unfold owned, devices_by_name. rewrite (order_by_Permutation _ _). eapply sublist_NoDup; [|apply fmap_sublist, sublist_filter].
  eapply sublist_NoDup; [|apply fmap_sublist, sublist_filter]. apply NoDup_rows_on. intros i v Hi. apply (di_dev_id d I _ _ Hi).
Qed.

Lemma device_count_owned : device_count d u = Z.of_nat (length owned).
Proof.
  unfold device_count, count_rows, owned, devices_by_name. rewrite (order_by_Permutation _ _), list_filter_filter. done.
Qed.

Definition live_address (a : Address) : Prop := Address_IsEnabled a = true ∧ (Device_OwnerID <$> devices d !! Address_DeviceID a) = Some u.
Definition of_deleted (a : Address) : Prop := (devices d !! Address_DeviceID a ≫= Device_DeletedAt) ≠ None.

#[export] Instance live_address_dec a : Decision (live_address a).
Proof. unfold live_address. apply _. Defined.
#[export] Instance of_deleted_dec a : Decision (of_deleted a).
Proof. unfold of_deleted. apply _. Defined.

(** The enabled addresses left on the owner's deleted devices. *)
Definition stray : Z := count_rows (λ a, live_address a ∧ of_deleted a) (addresses d).

Lemma owned_live_addresses :
  zsum ((λ v, Z.of_nat (length (filter (λ a, Address_IsEnabled a = true) (addresses_of d (Device_ID v))))) <$> owned)
  = count_rows (λ a, live_address a ∧ ¬ of_deleted a) (addresses d).
Proof.
  unfold count_rows. set (l := filter (λ a, live_address a ∧ ¬ of_deleted a) (rows (addresses d))).
  assert (Z.of_nat (length l) = zsum ((λ _, 1) <$> l)) as -> by (rewrite zsum_const; lia).
  rewrite <-(zsum_groups Address_DeviceID (Device_ID <$> owned) (λ _, 1) l owned_ids).
  - rewrite <-list_fmap_compose. f_equal. apply list_fmap_ext. intros i v Hv. apply list_elem_of_lookup_2, elem_of_owned in Hv as (Ho & Hd & Hv).
    cbn. rewrite zsum_const, Z.mul_1_l. f_equal. f_equal. unfold addresses_of, group, l. rewrite !list_filter_filter.
    apply list_filter_iff. intros a. unfold live_address, of_deleted. split.
    + intros [He Ha]. rewrite Ha, Hv. cbn. rewrite Ho, Hd. split; [done|]. split; [done|]. by intros [].
    + intros (Ha & (He & _) & _). done.
  - intros a Ha. apply list_elem_of_filter in Ha as ([(He & Ho) Hd] & _). unfold of_deleted in Hd.
    destruct (devices d !! Address_DeviceID a) as [v|] eqn:Ev; [|done]. cbn in Ho, Hd. injection Ho as Ho.
    apply list_elem_of_fmap. exists v. split; [symmetry; by apply (di_dev_id d I _ _ Ev)|]. apply elem_of_owned.
    split; [done|]. split; [by apply dec_stable|]. by rewrite (proj1 (di_dev_id d I _ _ Ev)).
Qed.

(** The users' page counts those too. *)
Lemma live_ip_count_split : live_ip_count d u = count_rows (λ a, live_address a ∧ ¬ of_deleted a) (addresses d) + stray.
Proof.
  unfold live_ip_count, stray, count_rows, live_address. induction (rows (addresses d)) as [|a l IH]; [done|]. rewrite !filter_cons.
  repeat case_decide; cbn [length]; try tauto; lia.
Qed.
End counts.

(** ** The fleet *)

Lemma RulesForDevices_run ids tx w : no_faults w → ∃ m, RulesForDevices ids tx w = (Ok m, w).
Proof. intros Hn. unfold RulesForDevices. destruct ids as [|i ids]; [by eexists|]. rewrite bind_run, query_run by done. by eexists. Qed.

Lemma PairingsForDevices_run ids tx w : no_faults w → ∃ m, PairingsForDevices ids tx w = (Ok m, w).
Proof. intros Hn. unfold PairingsForDevices. destruct ids as [|i ids]; [by eexists|]. rewrite bind_run, query_run by done. by eexists. Qed.

Definition fleet_rows (d : db) : list FleetRow := (λ v, mkFleetRow (Device_OwnerID v) (fleet_device d v)) <$> devices_by_name d.

Lemma Fleet_run tx w :
  no_faults w → (∀ i u, users (w_db w) !! i = Some u → User_ID u = i) →
  ∃ rules pairings, Fleet None tx w =
    (Ok (owner_group rules pairings (fleet_rows (w_db w)) <$> (subject_row (w_db w) <$> subject_users (w_db w) None)), w).
Proof.
  intros Hn Hids. unfold Fleet, FleetRows. rewrite bind_run, SubjectRows_run, bind_run, query_run by done.
  rewrite filter_all by (intros; by left). fold (fleet_rows (w_db w)). cbv zeta.
  set (ids := (λ r, _) <$> fleet_rows (w_db w)). destruct (RulesForDevices_run ids tx w Hn) as [rules Hr].
  destruct (PairingsForDevices_run ids tx w Hn) as [pairings Hp]. exists rules, pairings.
  rewrite bind_run, Hr, bind_run, Hp, ret_run. repeat f_equal. apply stitchFleet_groups.
  rewrite <-list_fmap_compose. by apply (subject_ids (w_db w)).
Qed.

Lemma fleet_rows_of d u : filter (λ r, FleetRow_OwnerID r = u) (fleet_rows d) = (λ v, mkFleetRow (Device_OwnerID v) (fleet_device d v)) <$> owned d u.
Proof. unfold fleet_rows, owned. by rewrite filter_fmap. Qed.

(** ** The users' page *)

Definition user_list_item (d : db) (u : User) : UserListItem :=
  mkUserListItem (User_ID u) (User_Username u) (User_DisplayName u) (User_Role u) (bypass_of d (User_ID u)) (device_count d (User_ID u))
    (host_count d (User_ID u)) (live_ip_count d (User_ID u)) (default [] (GroupByMap (grant_rows d) fst snd !! User_ID u)).

Lemma scan_rows d l :
  map_result scan_user_row (user_access_row d <$> l) =
    if decide (Forall (λ u, is_Some (user_settings d !! User_ID u)) l)
    then Ok ((λ u, (u, bypass_of d (User_ID u), (host_count d (User_ID u), device_count d (User_ID u), live_ip_count d (User_ID u)))) <$> l)
    else Err (ErrSQL false).
Proof.
  induction l as [|u l IH]; [done|]. cbn [fmap list_fmap map_result]. unfold scan_user_row at 1, user_access_row at 1. cbn.
  unfold bypass_of at 1. destruct (user_settings d !! User_ID u) as [b|] eqn:Eu.
  - change (list_fmap _ _ ?f l) with (f <$> l). rewrite IH. destruct (decide (Forall _ l)) as [Hl|Hl].
    + rewrite decide_True; [done|]. constructor; [by eexists|done].
    + rewrite decide_False; [done|]. by intros [_ ?]%Forall_cons.
  - rewrite decide_False; [done|]. intros [[b Hb] _]%Forall_cons. congruence.
Qed.

Lemma ListUserAccessRows_run tx w :
  no_faults w →
  ListUserAccessRows tx w =
    (if decide (Forall (λ u, is_Some (user_settings (w_db w) !! User_ID u)) (live_users (w_db w)))
     then Ok (user_list_item (w_db w) <$> live_users (w_db w)) else Err (ErrSQL false), w).
Proof.
  intros Hn. unfold ListUserAccessRows. rewrite bind_run, query_run by done. fold (live_users (w_db w)). rewrite bind_run, of_result_run, scan_rows.
  case_decide; [|done]. rewrite bind_run, query_run, ret_run by done. cbv zeta. rewrite <-list_fmap_compose. done.
Qed.

Lemma grants_of_user d u : default [] (GroupByMap (grant_rows d) fst snd !! u) ≡ₚ group_summary <$> groups_of_user d u.
Proof.
  rewrite GroupByMap_lookup. assert (snd <$> filter (λ r, r.1 = u) (grant_rows d) ≡ₚ group_summary <$> groups_of_user d u) as H.
  2:{ rewrite <-H. by destruct (filter _ (grant_rows d)). }
  unfold grant_rows, groups_of_user, order_by_text. rewrite filter_fmap, <-list_fmap_compose, merge_sort_Permutation, (order_by_Permutation _ _).
  induction (elements (user_groups d)) as [|[v g] l IH]; [done|]. cbn [omap list_omap fst snd].
  destruct (host_groups d !! g) as [x|] eqn:Eg.
  - change (pair v <$> Some x) with (Some (v, x)). cbn iota beta. rewrite filter_cons. cbn [fst]. case_decide as E; [rewrite bool_decide_eq_true_2 by done; rewrite !fmap_cons, IH; done|by rewrite bool_decide_eq_false_2].
  - by case_bool_decide.
Qed.

(** ** The pages agree *)

Record same_counts (d : db) (x : UserListItem) (g : OwnerFleetGroup) : Prop := mkSameCounts {
  sc_id : uli_Id x = og_Id g;
  sc_bypass : uli_BypassHostCheck x = og_BypassHostCheck g;
  sc_groups : uli_Groups x ≡ₚ og_HostGroups g;
  sc_devices : uli_DeviceCount x = og_DeviceCount g;
  sc_entries : og_DeviceCount g = Z.of_nat (length (og_Devices g));
  sc_live : uli_LiveAddressCount x = og_LiveAddressCount g + stray d (uli_Id x);
}.

Lemma user_counts d rules pairings u :
  device_inv d → same_counts d (user_list_item d u) (owner_group rules pairings (fleet_rows d) (subject_row d (u, bypass_of d (User_ID u)))).
Proof.
  intros I. constructor; cbn [uli_Id og_Id uli_BypassHostCheck og_BypassHostCheck uli_Groups og_HostGroups uli_DeviceCount og_DeviceCount
    uli_LiveAddressCount og_LiveAddressCount og_Devices user_list_item owner_group subject_row SubjectRow_ID SubjectRow_BypassHostCheck
    SubjectRow_HostGroups fst snd]; try done.
  - apply grants_of_user.
  - rewrite fleet_rows_of, !length_fmap. by apply device_count_owned.
  - rewrite fleet_rows_of, live_ip_count_split, <-(owned_live_addresses d I), <-!list_fmap_compose. done.
Qed.

(** C35: the fleet and the users' page, which count with different
    queries, show the same: both list the users that are not deleted; for
    each the same bypass flag, the same groups and the same number of
    devices, and the users' page has the fleet's number of live addresses
    plus those left enabled on his deleted devices.  But one user without a
    settings row fails the users' page for all. *)
Theorem users_page_agrees_with_fleet tx w :
  no_faults w → device_inv (w_db w) → (∀ i u, users (w_db w) !! i = Some u → User_ID u = i) →
  ∃ gs, Fleet None tx w = (Ok gs, w) ∧ og_Id <$> gs = User_ID <$> live_users (w_db w) ∧
    if decide (Forall (λ u, is_Some (user_settings (w_db w) !! User_ID u)) (live_users (w_db w)))
    then ∃ xs, ListUserAccessRows tx w = (Ok xs, w) ∧ Forall2 (same_counts (w_db w)) xs gs
    else handler_ListUsersWithAccess tx w = (Ok (mkResponse 500 None), w).
Proof.
  intros Hn I Hids. destruct (Fleet_run tx w Hn Hids) as (rules & pairings & HF). eexists. split; [exact HF|].
  unfold subject_users. rewrite filter_all by done. rewrite <-!list_fmap_compose. split; [apply list_fmap_ext; by intros|].
  pose proof (ListUserAccessRows_run tx w Hn) as HL. case_decide.
  - eexists. split; [exact HL|]. apply Forall2_fmap, Forall_Forall2_diag, Forall_true. intros u. by apply user_counts.
  - unfold handler_ListUsersWithAccess. by rewrite respond_run, HL.
Qed.
