(* ===== verification/PostureSpec.v ===== *)
(** * PostureSpec: the posture counts are those of the policy audit

    Both are counted in their own way, the posture from the tables, the
    audit from a snapshot of the cache; with a cache fresh for the tables
    they agree, provided that whoever holds a grant has a settings row. *)

From S2P Require Import Prelude GoLib Netip Slicex Compare GroupBy Schema Store HostNames Http PolicyCache NetipText PolicyService PolicySpec PolicyView Rollup HostSuggestions.
From S2P Require Import Device DeviceInv Hosts UserAccess NetworkPolicies NetworkPoliciesSpec Posture.

Local Open Scope string_scope.
Local Open Scope Z_scope.
Local Open Scope list_scope.

(** ** Tallies *)

#[export] Instance PolicyUserStatus_eq_dec : EqDecision PolicyUserStatus.
Proof. solve_decision. Defined.

Definition tally (l : list PolicyUserStatus) : DashboardPostureUsers :=
  let n st := Z.of_nat (length (filter (λ x, x = st) l)) in
  mkPostureUsers (n Bypass) (n LiveWithAccess) (n LiveNoHostAccess) (n NoLiveIps) (n NoAccess).

Lemma tally_perm l k : l ≡ₚ k → tally l = tally k.
Proof. intros H. unfold tally. by rewrite !H. Qed.

Lemma foldUserStatuses_tally users live : foldUserStatuses users live = tally (posture_status live <$> users).
Proof.
  unfold foldUserStatuses. induction users as [|u users IH] using rev_ind; [done|]. rewrite foldl_app, IH, fmap_app. cbn [foldl fmap list_fmap].
  unfold tally. rewrite !filter_app, !length_app. destruct (posture_status live u); cbn; f_equal; repeat (case_decide; try done); cbn; lia.
Qed.

(** ** The live users and the users of an address *)

Lemma note_entries es acc u a :
  (u ∈ (foldl note_entry acc es).1 ↔ u ∈ acc.1 ∨ ∃ e, e ∈ es ∧ is_Some (entry_key e) ∧ IPEntry_UserID e = u) ∧
  (u ∈ default ∅ ((foldl note_entry acc es).2 !! a) ↔ u ∈ default ∅ (acc.2 !! a) ∨ ∃ e, e ∈ entries_at es a ∧ IPEntry_UserID e = u).
Proof.
  revert acc. induction es as [|e es IH]; intros acc; [cbn; set_solver|]. cbn [foldl]. destruct (IH (note_entry acc e)) as [-> ->].
  unfold note_entry, entries_at. rewrite filter_cons. setoid_rewrite elem_of_cons. destruct (entry_key e) as [b|] eqn:E; cbn [fst snd].
  - split; [set_unfold; naive_solver|]. destruct (decide (b = a)) as [->|Hne].
    + rewrite lookup_insert_eq, decide_True by done. cbn. setoid_rewrite elem_of_cons. set_unfold. naive_solver.
    + rewrite lookup_insert_ne, decide_False by congruence. done.
  - split; [|done]. split; [naive_solver|]. intros [?|(e' & [->|?] & [b Hb] & ?)]; [by left|congruence|]. right. eauto.
Qed.

Lemma live_users_spec es u : u ∈ (summarizeLiveIPs es).1 ↔ ∃ e, e ∈ es ∧ is_Some (entry_key e) ∧ IPEntry_UserID e = u.
Proof.
  unfold summarizeLiveIPs. destruct (note_entries es (∅, ∅) u AddrZero) as [H _]. destruct (foldl note_entry (∅, ∅) es) as [live byIP]. cbn in *.
  rewrite H. set_solver.
Qed.

Lemma keys_noted es acc a :
  is_Some ((foldl note_entry acc es).2 !! a) ↔ is_Some (acc.2 !! a) ∨ entries_at es a ≠ [].
Proof.
  revert acc. induction es as [|e es IH]; intros acc; [cbn; tauto|]. cbn [foldl]. rewrite IH. unfold note_entry, entries_at. rewrite filter_cons.
  destruct (entry_key e) as [b|] eqn:E; [|done]. cbn [snd]. rewrite lookup_insert_is_Some. destruct (decide (b = a)) as [->|Hne].
  - rewrite decide_True by done. split; [by right|]. left. by left.
  - rewrite decide_False by congruence. naive_solver.
Qed.

(** ** The index of the audit *)

Section index.
Context (enrichment : gmap AddressID policyEnrichmentRow).

Lemma index_contributors_users entry cs ix u ip :
  (∀ c, c ∈ cs → is_Some (enrichment !! ContributorAccess_AddressID c)) →
  let ix' := foldl (index_contributor enrichment entry) ix cs in
  (is_Some (ix'.1 !! u) ↔ is_Some (ix.1 !! u) ∨ ∃ c, c ∈ cs ∧ ContributorAccess_UserID c = u) ∧
  ((∀ v m, ix.1 !! v = Some m → m ≠ ∅) → ∀ v m, ix'.1 !! v = Some m → m ≠ ∅) ∧
  (u ∈ default ∅ (ix'.2 !! ip) ↔ u ∈ default ∅ (ix.2 !! ip) ∨ pme_IP entry = ip ∧ ∃ c, c ∈ cs ∧ ContributorAccess_UserID c = u).
Proof.
  revert ix. induction cs as [|c cs IH]; intros ix He; [cbn; set_solver|]. cbn [foldl].
  destruct (IH (index_contributor enrichment entry ix c)) as (H1 & H2 & H3); [set_solver|]. destruct (He c) as [meta Hm]; [by left|]. clear IH He.
  rewrite H1, H3. clear H1 H3. destruct ix as [byUser usersAtIP]. setoid_rewrite elem_of_cons.
  assert (index_contributor enrichment entry (byUser, usersAtIP) c =
    (<[ContributorAccess_UserID c := <[pme_IP entry := add_address (bucket_for entry c (default ∅ (byUser !! ContributorAccess_UserID c) !! pme_IP entry)) (user_address c meta)]>
        (default ∅ (byUser !! ContributorAccess_UserID c))]> byUser,
     <[pme_IP entry := {[ContributorAccess_UserID c]} ∪ default ∅ (usersAtIP !! pme_IP entry)]> usersAtIP)) as E by (unfold index_contributor; by rewrite Hm).
  rewrite E in *. cbn [fst snd] in *. split; [|split].
  - rewrite lookup_insert_is_Some. destruct (decide (ContributorAccess_UserID c = u)); naive_solver.
  - intros Hne. apply H2. intros v m [[_ <-]|[_ Hv]]%lookup_insert_Some; [apply insert_non_empty|by eapply Hne].
  - destruct (decide (pme_IP entry = ip)) as [<-|Hne]; [rewrite lookup_insert_eq; set_solver|rewrite lookup_insert_ne by done; naive_solver].
Qed.

Lemma index_entries_users l ix u ip :
  (∀ e c, e ∈ l → c ∈ pme_Contributors e → is_Some (enrichment !! ContributorAccess_AddressID c)) →
  let ix' := foldl (index_entry enrichment) ix l in
  (is_Some (ix'.1 !! u) ↔ is_Some (ix.1 !! u) ∨ ∃ e c, e ∈ l ∧ c ∈ pme_Contributors e ∧ ContributorAccess_UserID c = u) ∧
  ((∀ v m, ix.1 !! v = Some m → m ≠ ∅) → ∀ v m, ix'.1 !! v = Some m → m ≠ ∅) ∧
  (u ∈ default ∅ (ix'.2 !! ip) ↔ u ∈ default ∅ (ix.2 !! ip) ∨ ∃ e c, e ∈ l ∧ pme_IP e = ip ∧ c ∈ pme_Contributors e ∧ ContributorAccess_UserID c = u).
Proof.
  revert ix. induction l as [|e l IH]; intros ix He; [cbn; set_solver|]. cbn [foldl].
  destruct (IH (index_entry enrichment ix e)) as (H1 & H2 & H3); [set_solver|]. rewrite H1, H3. unfold index_entry in H2 |- *.
  set (ix0 := (ix.1, _)). destruct (index_contributors_users e (pme_Contributors e) ix0 u ip) as (K1 & K2 & K3); [set_solver|].
  rewrite K1, K3. cbn [fst]. split; [|split].
  - split.
    + intros [[?|(c & ? & ?)]|(e' & c & ? & ? & ?)]; [by left|right; exists e, c; split; [by left|done]|right; exists e', c; split; [by right|done]].
    + intros [?|(e' & c & [->|?]%elem_of_cons & ? & ?)]; [by left; left|left; right; by exists c|right; by exists e', c].
  - intros Hne. by apply H2, K2.
  - assert (default ∅ (ix0.2 !! ip) = default ∅ (ix.2 !! ip)) as ->.
    2:{ split.
        - intros [[?|(? & c & ? & ?)]|(e' & c & ? & ? & ? & ?)]; [by left|right; exists e, c; split; [by left|done]|right; exists e', c; split; [by right|done]].
        - intros [?|(e' & c & [->|?]%elem_of_cons & ? & ? & ?)]; [by left; left|left; right; split; [done|by exists c]|right; by exists e', c]. }
    unfold ix0. cbn.
    destruct (ix.2 !! pme_IP e) eqn:Ei; [done|]. destruct (decide (pme_IP e = ip)) as [<-|Hne]; [by rewrite lookup_insert_eq, Ei|by rewrite lookup_insert_ne].
Qed.
End index.

(** Sets filed under texts and under what the texts denote: the same number
    of them is shared. *)
Lemma shared_size {K K'} `{Countable K} `{Countable K'} (f : K → K') (m : gmap K (gset UserID)) (m' : gmap K' (gset UserID)) :
  (∀ a b, default ∅ (m !! a) ≠ ∅ → default ∅ (m !! b) ≠ ∅ → f a = f b → a = b) →
  (∀ k u, u ∈ default ∅ (m' !! k) ↔ ∃ a, f a = k ∧ u ∈ default ∅ (m !! a)) →
  size (shared_of m') = size (shared_of m).
Proof.
  intros Hinj Hu.
  assert (∀ a X, m !! a = Some X → X ≠ ∅ → m' !! f a = Some X) as Hfwd.
  { intros a X Ha Hne. assert (default ∅ (m' !! f a) = X) as HX.
    - apply set_eq. intros u. rewrite Hu. split; [|intros Hx; exists a; by rewrite Ha].
      intros (b & Hf & Hb). rewrite (Hinj b a) in Hb; [by rewrite Ha in Hb| |by rewrite Ha|done]. intros E. rewrite E in Hb. set_solver.
    - destruct (m' !! f a) as [Y|]; cbn in HX; congruence. }
  assert (∀ k X, m' !! k = Some X → X ≠ ∅ → ∃ a, f a = k ∧ m !! a = Some X) as Hbwd.
  { intros k X Hk Hne. destruct (set_choose_L X Hne) as [u Hx]. destruct (proj1 (Hu k u)) as (a & <- & Ha); [by rewrite Hk|]. exists a. split; [done|].
    destruct (m !! a) as [Y|] eqn:Ea; cbn in Ha; [|by apply elem_of_empty in Ha]. rewrite (Hfwd a Y) in Hk; [congruence|done|set_solver]. }
  assert (∀ X : gset UserID, (2 ≤ size X)%nat → X ≠ ∅) as H2 by (intros X Hs ->; rewrite size_empty in Hs; lia).
  rewrite <-!length_map_to_list, <-(length_fmap fst (map_to_list (shared_of m'))), <-(length_fmap (λ kv, f kv.1) (map_to_list (shared_of m))).
  apply Permutation_length, NoDup_Permutation.
  - apply NoDup_fst_map_to_list.
  - apply NoDup_fmap_2_strong; [|apply NoDup_map_to_list]. intros [a X] [b Y] Ha%elem_of_map_to_list Hb%elem_of_map_to_list Hf.
    apply map_lookup_filter_Some in Ha as [Ha HX], Hb as [Hb HY]. cbn in *. assert (a = b) as ->; [|congruence].
    apply Hinj; [rewrite Ha; by apply H2|rewrite Hb; by apply H2|done].
  - intros k. rewrite !list_elem_of_fmap. split.
    + intros ([k' X] & -> & [Hk HX]%elem_of_map_to_list%map_lookup_filter_Some). cbn in *. destruct (Hbwd k' X Hk (H2 X HX)) as (a & <- & Ha).
      exists (a, X). split; [done|]. by apply elem_of_map_to_list, map_lookup_filter_Some.
    + intros ([a X] & -> & [Ha HX]%elem_of_map_to_list%map_lookup_filter_Some). cbn in *.
      exists (f a, X). split; [done|]. apply elem_of_map_to_list, map_lookup_filter_Some. split; [|done]. by apply Hfwd; [|apply H2].
Qed.

(** ** A fresh cache *)

Section fresh.
Context `{GoUnicode}.
Context (s : Service) (d : db) (nps : list CacheEntry) (enrichment : gmap AddressID policyEnrichmentRow).
Context (Hc : caches s (enabled_ip_entries d) (host_access d) nps).
Context (Henr : ∀ e, e ∈ enabled_ip_entries d → is_Some (entry_key e) → is_Some (enrichment !! IPEntry_AddressID e)).
Context (Hset : ∀ u g, (u, g) ∈ user_groups d → is_Some (user_settings d !! u)).

Abbreviation es := (enabled_ip_entries d).
Abbreviation snap := (GetPolicyMap s).
Abbreviation byUser := (buildIPIndex enrichment snap).1.
Abbreviation usersAtIP := (buildIPIndex enrichment snap).2.

Lemma contributors_enriched e c : e ∈ Entries snap → c ∈ pme_Contributors e → is_Some (enrichment !! ContributorAccess_AddressID c).
Proof.
  intros He Hin. destruct (snapshot_contributor s es (host_access d) nps Hc e c He Hin) as (a & ie & x & _ & _ & Hx & -> & _).
  apply list_elem_of_filter in Hx as [Hk Hx]. cbn. apply Henr; [done|by eexists].
Qed.

(** Who contributes where: the entries, by address. *)
Lemma contributes u ip :
  (∃ e c, e ∈ Entries snap ∧ pme_IP e = ip ∧ c ∈ pme_Contributors e ∧ ContributorAccess_UserID c = u) ↔
  ∃ a, Addr_String a = ip ∧ ∃ x, x ∈ entries_at es a ∧ IPEntry_UserID x = u.
Proof.
  split.
  - intros (e & c & He & Hip & Hin & Hu). destruct (snapshot_contributor s es (host_access d) nps Hc e c He Hin) as (a & ie & x & _ & -> & Hx & -> & _).
    exists a. split; [done|]. by exists x.
  - intros (a & <- & x & Hx & Hu). destruct (snapshot_entry s es (host_access d) nps Hc a x Hx) as (ie & _ & He & Hin). by eexists _, _.
Qed.

Lemma index_users : (∀ u, is_Some (byUser !! u) ↔ u ∈ (summarizeLiveIPs es).1) ∧ (∀ u ips, byUser !! u = Some ips → ips ≠ ∅) ∧
  ∀ u ip, u ∈ default ∅ (usersAtIP !! ip) ↔ ∃ a, Addr_String a = ip ∧ ∃ x, x ∈ entries_at es a ∧ IPEntry_UserID x = u.
Proof.
  unfold buildIPIndex. pose proof (λ u ip, index_entries_users enrichment (Entries snap) (∅, ∅) u ip contributors_enriched) as HI. cbn [fst snd] in HI.
  split; [|split].
  - intros u. destruct (HI u "") as (-> & _ & _). rewrite live_users_spec, lookup_empty, is_Some_alt. split.
    + intros [[]|(e & c & He & Hin & Hu)]. destruct (proj1 (contributes u (pme_IP e))) as (a & _ & x & [Hk Hx]%list_elem_of_filter & Hxu); [by eauto 10|].
      exists x. split; [done|]. split; [by eexists|done].
    + intros (x & Hx & [a Hk] & Hu). right. destruct (proj2 (contributes u (Addr_String a))) as (e & c & He & _ & Hin & Hcu); [|by eauto].
      exists a. split; [done|]. exists x. split; [by apply list_elem_of_filter|done].
  - destruct (HI 0 "") as (_ & Hne & _). intros u ips. apply Hne. intros v m. by rewrite lookup_empty.
  - intros u ip. destruct (HI u ip) as (_ & _ & ->). rewrite lookup_empty, contributes. cbn. set_solver.
Qed.

(** As many addresses are shared. *)
Lemma shared_agrees : (summarizeLiveIPs es).2 = Z.of_nat (size (shared_of usersAtIP)).
Proof.
  unfold summarizeLiveIPs. pose proof (λ u a, proj2 (note_entries es (∅, ∅) u a)) as Hn.
  destruct (foldl note_entry (∅, ∅) es) as [live byIP] eqn:E. cbn [fst snd] in *. f_equal. symmetry. apply (shared_size Addr_String).
  - assert (∀ a, default ∅ (byIP !! a) ≠ ∅ → ParseAddr (Addr_String a) = Some a) as Hp.
    { intros a Hne. destruct (set_choose_L _ Hne) as [u Hu]. apply Hn in Hu as [Hu|(x & [Hk _]%list_elem_of_filter & _)]; [rewrite lookup_empty in Hu; set_solver|].
      unfold entry_key in Hk. apply fmap_Some in Hk as (b & Hb & ->). by apply (canonical_text (IPEntry_IP x)). }
    intros a b Ha%Hp Hb%Hp Hf. congruence.
  - intros ip u. rewrite (proj2 (proj2 index_users)). f_equiv. intros a. rewrite Hn, lookup_empty. cbn. set_solver.
Qed.

(** ** Statuses *)

Lemma has_grants_reaches u : has_grants d u = true ↔ ∃ f, reaches d u f.
Proof.
  unfold has_grants. rewrite existsb_exists. split.
  - intros (g & Hg%list_elem_of_In & Hu%Z.eqb_eq). apply elem_of_user_host_grants in Hg. subst u. eauto.
  - intros [f Hf]. exists (mkUserHostGrant u f). split; [|apply Z.eqb_refl]. by apply list_elem_of_In, elem_of_user_host_grants.
Qed.

Lemma reaches_settings u f : reaches d u f → is_Some (user_settings d !! u).
Proof. intros (g & i & h & Hg & _). by apply (Hset u g). Qed.

Lemma count_pos {A} (l : list A) : (0 <? count l) = negb (bool_decide (l = [])).
Proof. by destruct l. Qed.

(** The hosts of a user in the audit, from a bucket or from the tables, are
    those his grants reach. *)
Lemma elem_of_audit_hosts u f : f ∈ user_hosts_of byUser (GroupByMap (allowed_host_rows d) fst snd) u ↔ reaches d u f.
Proof.
  unfold user_hosts_of. destruct (byUser !! u) as [ips|] eqn:Eu.
  - rewrite (some_bucket_hosts_of s es (host_access d) nps enrichment u ips Hc Eu (proj1 (proj2 index_users) u ips Eu)).
    rewrite elem_of_sortedKeys, elem_of_user_hosts. split; [by intros []|]. intros Hr. split; [by eapply reaches_settings|done].
  - assert ((u, f) ∈ allowed_host_rows d ↔ reaches d u f) as <-.
    { unfold allowed_host_rows, reaches. rewrite (order_by_Permutation _ _), list_elem_of_bind. setoid_rewrite list_elem_of_bind. split.
      - intros ([v g] & ([g' i] & Hin & Hgm%elem_of_elements) & Hug%elem_of_elements). cbn in Hin. case_bool_decide; [|by apply elem_of_nil in Hin].
        destruct (hosts d !! i) as [h|] eqn:Hh; [|by apply elem_of_nil in Hin]. apply list_elem_of_singleton in Hin as [= <- ->]. subst g'. eauto 10.
      - intros (g & i & h & Hug & Hgm & Hh & <-). exists (u, g). rewrite elem_of_elements. split; [|done]. exists (g, i). rewrite elem_of_elements. split; [|done].
        cbn. rewrite bool_decide_eq_true_2, Hh by done. by left. }
    rewrite GroupByMap_lookup. set (l := filter (λ it : UserID * string, it.1 = u) (allowed_host_rows d)).
    assert ((u, f) ∈ allowed_host_rows d ↔ f ∈ snd <$> l) as ->; [|by destruct l].
    unfold l. rewrite list_elem_of_fmap. setoid_rewrite list_elem_of_filter. split; [intros Hin; by exists (u, f)|]. by intros ([v g] & -> & <- & Hin).
Qed.

Lemma audit_hosts u : (0 <? count (user_hosts_of byUser (GroupByMap (allowed_host_rows d) fst snd) u)) = has_grants d u.
Proof.
  rewrite count_pos. apply eq_true_iff_eq. rewrite negb_true_iff, bool_decide_eq_false, has_grants_reaches. setoid_rewrite <-elem_of_audit_hosts. split.
  - intros Hne. destruct (user_hosts_of _ _ u) as [|f l]; [done|]. exists f. by left.
  - intros [f Hf] E. rewrite E in Hf. by apply elem_of_nil in Hf.
Qed.

(** The status of a user is the same in both views. *)
Lemma status_agrees u info :
  let ur := mkAuditUserRow (User_ID u) (User_DisplayName u) (User_Username u) (is_admin (User_Role u)) (default false (user_settings d !! User_ID u)) in
  ue_Status (user_entry byUser usersAtIP info (GroupByMap (allowed_host_rows d) fst snd) ur) =
  posture_status (summarizeLiveIPs es).1 (mkPostureUser (User_ID u) (default false (user_settings d !! User_ID u)) (has_grants d (User_ID u))).
Proof.
  cbv zeta. unfold user_entry, posture_status. cbn [audit_UserID audit_BypassAllowlist pu_UserID pu_Bypass pu_HasGrants].
  destruct (default false (user_settings d !! User_ID u)) eqn:Eb; [by destruct (byUser !! User_ID u)|].
  pose proof (proj1 index_users (User_ID u)) as Hlive. pose proof (audit_hosts (User_ID u)) as Hh. unfold DeriveUserStatus.
  destruct (byUser !! User_ID u) as [ips|] eqn:Eu; cbn [ue_Status].
  - rewrite Hh, decide_True by (apply Hlive; by eexists). assert (0 <? count (buildUserIPs byUser usersAtIP info (User_ID u) ips) = true) as ->.
    { rewrite count_pos. apply negb_true_iff, bool_decide_eq_false. pose proof (proj1 (proj2 index_users) _ _ Eu) as Hne. unfold buildUserIPs. intros E%fmap_nil_inv.
      apply Hne. apply map_to_list_empty_iff. apply Permutation_nil_r. rewrite <-E. symmetry. apply order_by_Permutation. }
    by destruct (has_grants d (User_ID u)).
  - rewrite Hh, decide_False by (intros [x Hx]%Hlive; congruence). by destruct (has_grants d (User_ID u)).
Qed.

(** The granted hosts of the users that are not deleted. *)
Lemma known_hosts_agree : (∀ i u, users d !! i = Some u → User_ID u = i) →
  distinct_granted_hosts d =
    list_to_set (audit_user_rows d ≫= λ ur, user_hosts_of byUser (GroupByMap (allowed_host_rows d) fst snd) (audit_UserID ur)).
Proof.
  intros Hids. apply set_eq. intros f. unfold distinct_granted_hosts. rewrite !elem_of_list_to_set, list_elem_of_bind, list_elem_of_fmap.
  setoid_rewrite elem_of_audit_hosts. setoid_rewrite list_elem_of_filter. setoid_rewrite elem_of_user_host_grants. unfold audit_user_rows, is_live_user.
  setoid_rewrite (order_by_Permutation _ _). setoid_rewrite list_elem_of_fmap. setoid_rewrite elem_of_filter_rows. split.
  - intros ([v k] & -> & Hl & Hr). cbn in *. destruct (users d !! v) as [x|] eqn:Ex; [|done]. bool_prop.
    eexists. split; [|exists x; split; [reflexivity|by eauto]]. cbn. by rewrite (Hids _ _ Ex).
  - intros (ur & Hr & (x & -> & Hd & i & Hi)). cbn in Hr. exists (mkUserHostGrant (User_ID x) f). split; [done|]. split; [|done].
    cbn. rewrite (Hids _ _ Hi), Hi. by apply bool_decide_eq_true.
Qed.
End fresh.

(** ** The two views, run *)

Lemma foldl_insert_is_Some {A V} (k : A → Z) (v : A → V) l i :
  is_Some (foldl (λ m x, <[k x := v x]> m) (∅ : gmap Z V) l !! i) ↔ ∃ x, x ∈ l ∧ k x = i.
Proof.
  induction l as [|x l IH] using rev_ind; [cbn; rewrite lookup_empty, is_Some_alt; set_solver|]. rewrite foldl_app. cbn [foldl].
  rewrite lookup_insert_is_Some, IH. setoid_rewrite elem_of_app. setoid_rewrite list_elem_of_singleton. destruct (decide (k x = i)); naive_solver.
Qed.

(** The view finds the row of every address in the cache. *)
Lemma enrichment_found `{GoUnicode} s d nps e : device_inv d → caches s (enabled_ip_entries d) (host_access d) nps →
  e ∈ enabled_ip_entries d → is_Some (entry_key e) →
  collectAddressIDs (GetPolicyMap s) ≠ [] ∧ is_Some (enrichment_rows (collectAddressIDs (GetPolicyMap s)) d !! IPEntry_AddressID e).
Proof.
  intros I Hc He [a Ha]. destruct (snapshot_entry s (enabled_ip_entries d) (host_access d) nps Hc a e) as (ie & _ & Hin & Hcon); [by apply list_elem_of_filter|].
  assert (IPEntry_AddressID e ∈ collectAddressIDs (GetPolicyMap s)) as Hid.
  { unfold collectAddressIDs. apply elem_of_Dedup, list_elem_of_bind. exists (toPolicyMapEntry a ie). split; [|done].
    apply list_elem_of_fmap. exists (contributor_of (host_access d) e). by split. }
  split; [intros E; rewrite E in Hid; by apply elem_of_nil in Hid|]. unfold enrichment_rows. apply foldl_insert_is_Some.
  unfold enabled_ip_entries in He. apply list_elem_of_omap in He as (x & Hx & E). rewrite elem_of_order_desc, elem_of_filter_rows in Hx.
  destruct Hx as (_ & i & Hi). destruct (active_device d (Address_DeviceID x)) as [v|] eqn:Ev; [|done]. injection E as <-. cbn in *.
  apply active_device_Some in Ev as [Ev _]. exists (mkEnrichmentRow i (Address_UpdatedAt x) (Device_Name v)). rewrite (di_addr_id d I _ _ Hi) in *. split; [|done].
  apply list_elem_of_omap. exists (i, x). split; [by apply elem_of_scan|]. cbn. by rewrite decide_True, Ev.
Qed.

Lemma assemble_parts snap enrichment users allowed :
  let '(byUser, usersAtIP) := buildIPIndex enrichment snap in
  let a := assemblePolicyUserMap snap enrichment users allowed in
  ue_Status <$> audit_Users a = ue_Status ∘ user_entry byUser usersAtIP (foldl (λ m ur, <[audit_UserID ur := ur]> m) ∅ users) allowed <$> users ∧
  audit_SharedIpCount a = Z.of_nat (size (shared_of usersAtIP)) ∧
  audit_TotalHostCount a = Z.of_nat (size (list_to_set (users ≫= λ ur, user_hosts_of byUser allowed (audit_UserID ur)) : gset string)).
Proof. unfold assemblePolicyUserMap. destruct (buildIPIndex enrichment snap) as [byUser usersAtIP]. cbn. by rewrite <-list_fmap_compose. Qed.

Lemma posture_run `{GoUnicode} tx w : no_faults w →
  let d := w_db w in let l := filter (λ p, NetworkPolicy_Enabled p = true) (rows (policies d)) in
  ∃ n, BuildDashboardPosture GetEnabledIPEntries tx w =
    (Ok (mkPosture (foldUserStatuses (posture_user_rows d) (summarizeLiveIPs (enabled_ip_entries d)).1) (Z.of_nat (length l))
           (zsum ((λ p, Z.b2z (NetworkPolicy_BypassHostCheck p)) <$> l)) (summarizeLiveIPs (enabled_ip_entries d)).2
           (Z.of_nat (size (distinct_granted_hosts d))) n), w).
Proof.
  intros Hn. cbv zeta. unfold BuildDashboardPosture, GetEnabledIPEntries, postureUserRows, distinctGrantedHostCount, enabledNetworkPolicyCounts, countPendingHostSuggestions.
  unfold ignoredHostSuggestions, knownHostSet. rewrite bind_run, query_run by done. destruct (summarizeLiveIPs _) as [live shared] eqn:E. run.
  match goal with |- context [pendingHostSuggestions _ ?k ?i tx w] => destruct (pending_run k i tx w Hn) as (m & Hm & _) end. rewrite Hm. run. by eexists.
Qed.

Definition found_enrichment (s : Service) (d : db) : gmap AddressID policyEnrichmentRow :=
  if bool_decide (collectAddressIDs (GetPolicyMap s) = []) then ∅ else enrichment_rows (collectAddressIDs (GetPolicyMap s)) d.

Lemma BuildPolicyUserMap_run `{GoUnicode} s geo tx w : no_faults w → policies_inv (w_db w) →
  let d := w_db w in
  let a := assemblePolicyUserMap (GetPolicyMap s) (found_enrichment s d) (audit_user_rows d) (GroupByMap (allowed_host_rows d) fst snd) in
  let nps := network_policy_entry (Z.of_nat (size (hosts d))) <$> cache_entries d in
  BuildPolicyUserMap s (Some GetEnabledCacheEntries) geo tx w =
    (Ok (mkAudit (audit_RefreshedAt a) (audit_RefreshDurationMs a) (audit_TotalIpCount a) (audit_TotalDeviceCount a) (audit_TotalHostCount a)
           (audit_SharedIpCount a) (with_geo_ips geo <$> audit_Users a) nps (count nps)), w).
Proof.
  intros Hn I. cbv zeta. unfold BuildPolicyUserMap, found_enrichment, getPolicyAddressEnrichment, getAllUsersForPolicyAudit, optional.
  case_bool_decide; run; rewrite (GetEnabledCacheEntries_run tx w Hn I); run; done.
Qed.

(** C32: the dashboard's posture and the policy audit, counted in different
    ways, agree whenever the cache is fresh and whoever holds a grant has a
    settings row: as many users in every status, as many shared addresses,
    as many granted hosts, as many enabled network policies and as many of
    them that bypass the host check. *)
Theorem posture_agrees_with_audit `{GoUnicode} s nps geo tx w :
  no_faults w → device_inv (w_db w) → policies_inv (w_db w) → (∀ i u, users (w_db w) !! i = Some u → User_ID u = i) →
  (∀ u g, (u, g) ∈ user_groups (w_db w) → is_Some (user_settings (w_db w) !! u)) →
  caches s (enabled_ip_entries (w_db w)) (host_access (w_db w)) nps →
  ∃ p a, BuildDashboardPosture GetEnabledIPEntries tx w = (Ok p, w) ∧
    BuildPolicyUserMap s (Some GetEnabledCacheEntries) geo tx w = (Ok a, w) ∧
    posture_Users p = tally (ue_Status <$> audit_Users a) ∧
    posture_SharedIpCount p = audit_SharedIpCount a ∧
    posture_KnownHostCount p = audit_TotalHostCount a ∧
    posture_NetworkPoliciesEnabled p = audit_TotalNetworkPolicyCount a ∧
    posture_NetworkPoliciesBypass p = count (filter (λ e, npe_BypassHostCheck e = true) (audit_NetworkPolicies a)).
Proof.
  intros Hn I IP Hids Hset Hc. set (d := w_db w) in *. destruct (posture_run tx w Hn) as [n Hp]. pose proof (BuildPolicyUserMap_run s geo tx w Hn IP) as Ha.
  cbv zeta in Hp, Ha. fold d in Hp, Ha. eexists _, _. split; [exact Hp|]. split; [exact Ha|]. clear Hp Ha.
  cbn [posture_Users posture_SharedIpCount posture_KnownHostCount posture_NetworkPoliciesEnabled posture_NetworkPoliciesBypass
       audit_Users audit_SharedIpCount audit_TotalHostCount audit_TotalNetworkPolicyCount audit_NetworkPolicies].
  set (enr := found_enrichment s d).
  assert (∀ e, e ∈ enabled_ip_entries d → is_Some (entry_key e) → is_Some (enr !! IPEntry_AddressID e)) as Henr.
  { intros e He Hk. destruct (enrichment_found s d nps e I Hc He Hk) as [Hne Hs]. unfold enr, found_enrichment. by rewrite bool_decide_eq_false_2. }
  pose proof (assemble_parts (GetPolicyMap s) enr (audit_user_rows d) (GroupByMap (allowed_host_rows d) fst snd)) as HA.
  pose proof (status_agrees s d nps enr Hc Henr Hset) as Hst. pose proof (shared_agrees s d nps enr Hc Henr Hset) as Hsh.
  pose proof (known_hosts_agree s d nps enr Hc Henr Hset Hids) as Hkn.
  destruct (buildIPIndex enr (GetPolicyMap s)) as [byUser usersAtIP]. cbn [fst snd] in *. cbv zeta in HA. destruct HA as (HA1 & -> & ->).
  split; [|split; [exact Hsh|split; [by rewrite Hkn|]]].
  - rewrite foldUserStatuses_tally. unfold posture_user_rows. rewrite <-list_fmap_compose.
    assert (ue_Status <$> (with_geo_ips geo <$> audit_Users (assemblePolicyUserMap (GetPolicyMap s) enr (audit_user_rows d) (GroupByMap (allowed_host_rows d) fst snd)))
      = ue_Status <$> audit_Users (assemblePolicyUserMap (GetPolicyMap s) enr (audit_user_rows d) (GroupByMap (allowed_host_rows d) fst snd))) as ->
      by (rewrite <-list_fmap_compose; apply list_fmap_ext; by intros).
    rewrite HA1. apply tally_perm. generalize (foldl (λ (m : gmap UserID policyAuditUserRow) ur, <[audit_UserID ur := ur]> m) ∅ (audit_user_rows d)) as info.
    intros info. unfold audit_user_rows. rewrite (order_by_Permutation _ _), <-list_fmap_compose.
    apply reflexive_eq, list_fmap_ext. intros i u _. symmetry. apply Hst.
  - unfold cache_entries, count. rewrite !length_fmap. split; [done|]. set (l := filter _ (rows _)). clearbody l. rewrite !filter_fmap, !length_fmap. cbn.
    induction l as [|p l IH]; [done|]. rewrite fmap_cons, zsum_cons, IH, filter_cons. destruct (NetworkPolicy_BypassHostCheck p) eqn:Eb; case_decide; try congruence; cbn [Z.b2z length]; lia.
Qed.
