(* ===== verification/Auth.v ===== *)
(** * Auth: users, sessions and roles ([internal/auth])

    Accounts (user.go), sessions (session.go), the repository, the service,
    the session middleware with the admin gate, the cookies and the
    handlers.  [golang.org/x/crypto/bcrypt] is the class [Bcrypt]; the
    observers of user events are the [UserObservers] of the context, run, as
    in the code, inside the transaction of the operation that notifies
    them. *)

From S2P Require Import Prelude GoLib Schema Store Http Crypto.

Local Open Scope string_scope.
Local Open Scope Z_scope.

(** ** What the component is given *)

(** [bcrypt.GenerateFromPassword] (with the salt it draws) and
    [bcrypt.CompareHashAndPassword]: a password of at most 72 bytes is hashed,
    a longer one refused, and a hash accepts its password. *)
Class Bcrypt := {
  GenerateFromPassword : string → string → result string;
  CompareHashAndPassword : string → string → bool;
  bcrypt_total salt pw : (String.length pw ≤ 72)%nat → ∃ h, GenerateFromPassword salt pw = Ok h;
  bcrypt_correct salt pw h : GenerateFromPassword salt pw = Ok h → CompareHashAndPassword h pw = true;
}.

(** [auth.UserObserver]: a handler returns nothing, touches neither users nor
    sessions, and issues statements of its own. *)
Class UserObservers := {
  user_observers : list (UserEvent → M unit);
  user_observers_ok : Forall (λ o, ∀ e tx w, ∃ w', o e tx w = (Ok tt, w') ∧
    users (w_db w') = users (w_db w) ∧ sessions (w_db w') = sessions (w_db w) ∧ w_now w' = w_now w) user_observers;
  user_observers_quiet : Forall (λ o, ∀ e, quiet (o e)) user_observers;
}.

(** ** Accounts (user.go) *)

Definition BootstrapAdminUsername : string := "admin".
Definition BootstrapAdminDisplayName : string := "Admin".
Definition BootstrapAdminEmail : string := "admin@pulseweaver.invalid".

Definition ValidatePassword (password : string) : result unit :=
  if Nat.ltb (String.length password) 8 then Err ErrInvalidPassword
  else if Nat.ltb 72 (String.length password) then Err ErrInvalidPassword
  else Ok tt.

(** [^[a-z0-9_-]+$] *)
Definition username_char (c : ascii) : bool := is_lower c || is_digit c || ascii_eqb c "_" || ascii_eqb c "-".
Definition usernameRegex (s : string) : bool := negb (bool_decide (s = "")) && str_all username_char s.

Section accounts.
Context `{GoUnicode}.

Definition ValidateDisplayName (input : string) : result string :=
  let clean := TrimSpace input in
  if Nat.ltb (String.length clean) 1 then Err ErrInvalidDisplayName
  else if Nat.ltb 50 (String.length clean) then Err ErrInvalidDisplayName
  else Ok clean.

Definition ValidateUsername (username : string) : result string :=
  let normalized := ToLower (TrimSpace username) in
  if Nat.ltb (String.length normalized) 3 then Err ErrInvalidUsername
  else if Nat.ltb 32 (String.length normalized) then Err ErrInvalidUsername
  else if negb (usernameRegex normalized) then Err ErrInvalidUsername
  else Ok normalized.

(** [NewUserAccount]: the id is given by the database. *)
Definition NewUserAccount (t : time) (username displayName : string) (email : option string) (createdBy : option UserID)
    : result User :=
  match ValidateUsername username with
  | Err e => Err e
  | Ok validUsername =>
      match ValidateDisplayName displayName with
      | Err e => Err e
      | Ok validDisplayName => Ok (mkUser 0 validUsername validDisplayName email None UserRole false createdBy t None)
      end
  end.

(** [nil] pointers are [None]; for the email, [Some None] clears it. *)
Record ProfileUpdates := mkProfileUpdates {
  up_DisplayName : option string;
  up_Username : option string;
  up_Email : option (option string);
}.

Definition with_account (username displayName : string) (email : option string) (u : User) : User :=
  mkUser (User_ID u) username displayName email (User_PasswordHash u) (User_Role u) (User_MustChangePassword u)
    (User_CreatedBy u) (User_CreatedAt u) (User_DeletedAt u).

(** A [nil] field keeps the user's own, a given one is validated. *)
Definition valid_or {A} (validate : A → result A) (current : A) (new : option A) : result A :=
  match new with None => Ok current | Some x => validate x end.

Definition User_Update (u : User) (up : ProfileUpdates) : result User :=
  if bool_decide (up_DisplayName up = None ∧ up_Username up = None ∧ up_Email up = None) then Err ErrNoUpdateFields
  else
    let email := default (User_Email u) (up_Email up) in
    match valid_or ValidateDisplayName (User_DisplayName u) (up_DisplayName up) with
    | Err e => Err e
    | Ok displayName =>
        match valid_or ValidateUsername (User_Username u) (up_Username up) with
        | Err e => Err e
        | Ok username => Ok (with_account username displayName email u)
        end
    end.
End accounts.

Definition with_role (r : Role) (u : User) : User :=
  mkUser (User_ID u) (User_Username u) (User_DisplayName u) (User_Email u) (User_PasswordHash u) r
    (User_MustChangePassword u) (User_CreatedBy u) (User_CreatedAt u) (User_DeletedAt u).

Definition with_password (hash : option string) (mustChange : bool) (u : User) : User :=
  mkUser (User_ID u) (User_Username u) (User_DisplayName u) (User_Email u) hash (User_Role u) mustChange
    (User_CreatedBy u) (User_CreatedAt u) (User_DeletedAt u).

Definition with_user_deleted (t : time) (u : User) : User :=
  mkUser (User_ID u) (User_Username u) (User_DisplayName u) (User_Email u) (User_PasswordHash u) (User_Role u)
    (User_MustChangePassword u) (User_CreatedBy u) (User_CreatedAt u) (Some t).

(** ** Sessions (session.go, principal.go) *)

Definition tokenDuration : Z := Hour * 24 * 7.

Definition NewSession (t : time) (userID : UserID) (tokenHash : string) : Session :=
  mkSession 0 userID tokenHash t (t + tokenDuration) None None.

Record Principal := mkPrincipal {
  Principal_UserID : UserID;
  Principal_SessionID : SessionID;
  Principal_Role : Role;
}.

(** [SessionWithUser]: a session and its user's role. *)
Definition PrincipalFromSession (sr : Session * Role) : Principal :=
  mkPrincipal (Session_UserID sr.1) (Session_ID sr.1) sr.2.

Definition IsSuperAdmin (p : Principal) : bool := bool_decide (Principal_Role p = SuperAdminRole).
Definition IsAdmin (p : Principal) : bool := bool_decide (Principal_Role p = AdminRole) || IsSuperAdmin p.

(** [hashRawToken] and [generateToken]. *)
Definition hashRawToken (rawToken : string) : string := RawURLEncode (sha256 rawToken).

Definition generateToken : M (string * string) :=
  b ← read_rand; let rawToken := RawURLEncode b in mret (rawToken, hashRawToken rawToken).

(** ** Repository *)

Definition user_active (u : User) : bool := bool_decide (User_DeletedAt u = None).

(** [COLLATE NOCASE]: ASCII letters without case. *)
Definition nocase_eqb (a b : string) : bool := bool_decide (str_map lower_byte a = str_map lower_byte b).

Definition active_user (d : db) (id : UserID) : option User :=
  match users d !! id with Some u => if user_active u then Some u else None | None => None end.

(** The partial unique indexes, against rows other than [self].  When both are
    violated, which one SQLite reports is not documented: the model says the
    username. *)
Definition username_taken (d : db) (self : option UserID) (username : string) : bool :=
  table_exists (λ u, user_active u && negb (bool_decide (self = Some (User_ID u))) && nocase_eqb (User_Username u) username)
    (users d).

Definition email_taken (d : db) (self : option UserID) (email : option string) : bool :=
  match email with
  | None | Some "" => false
  | Some e => table_exists (λ u, user_active u && negb (bool_decide (self = Some (User_ID u)))
                                 && bool_decide (User_Email u = Some e)) (users d)
  end.

Definition account_clash (d : db) (self : option UserID) (username : string) (email : option string) : option error :=
  if username_taken d self username then Some (ErrUnique "users.username")
  else if email_taken d self email then Some (ErrUnique "users.email")
  else None.

Definition mapUserCreationUniqueConstraintError (e : error) : option error :=
  match e with
  | ErrUnique cols => Some (if bool_decide (cols = "users.email") then ErrEmailTaken else ErrUsernameTaken)
  | _ => None
  end.

Definition map_user_error (e : error) : error := default e (mapUserCreationUniqueConstraintError e).

Definition with_id (id : UserID) (u : User) : User :=
  mkUser id (User_Username u) (User_DisplayName u) (User_Email u) (User_PasswordHash u) (User_Role u)
    (User_MustChangePassword u) (User_CreatedBy u) (User_CreatedAt u) None.

Definition CreateUser_row (user : User) : M User :=
  map_err map_user_error (exec (λ t d,
    match account_clash d None (User_Username user) (User_Email user) with
    | Some e => Err e
    | None =>
        if match User_CreatedBy user with Some c => bool_decide (users d !! c = None) | None => false end
        then Err ErrForeignKey
        else let id := fresh_id (users d) in let u := with_id id user in Ok (u, on_users (<[id := u]>) d)
    end)).

Definition GetUserByUsername (username : string) : M User :=
  map_err (no_rows ErrUserNotFound) (get_row (λ _ d,
    table_find (λ u, user_active u && nocase_eqb (User_Username u) username) (users d))).

Definition GetUserByID (userID : UserID) : M User :=
  map_err (no_rows ErrUserNotFound) (get_row (λ _ d, active_user d userID)).

Definition CountUsers : M Z := query (λ _ d, Z.of_nat (length (filter (λ u, user_active u = true) (rows (users d))))).

(** The row with no creator, deleted or not. *)
Definition FindBootstrappedAdmin : M User :=
  map_err (no_rows ErrUserNotFound) (get_row (λ _ d,
    head (filter (λ u, User_CreatedBy u = None) (rows (users d))))).

Definition GetAllUsers : M (list User) :=
  query (λ _ d, order_desc User_CreatedAt (filter (λ u, user_active u = true) (rows (users d)))).

(** [UPDATE users SET ... WHERE id = ? AND deleted_at IS NULL], with the
    number of rows affected. *)
Definition update_user (f : time → User → User) (id : UserID) : M Z :=
  exec (λ t d, match active_user d id with
               | None => Ok (0, d)
               | Some u => Ok (1, on_users (<[id := f t u]>) d)
               end).

(** The columns [UpdateUser] sets. *)
Definition with_user (src u : User) : User :=
  mkUser (User_ID u) (User_Username src) (User_DisplayName src) (User_Email src) (User_PasswordHash u) (User_Role src)
    (User_MustChangePassword src) (User_CreatedBy u) (User_CreatedAt u) (User_DeletedAt u).

Definition UpdateUser (user : User) : M User :=
  map_err (λ e, no_rows ErrUserNotFound (map_user_error e)) (exec (λ _ d,
    match active_user d (User_ID user) with
    | None => Err ErrNoRows
    | Some u =>
        match account_clash d (Some (User_ID user)) (User_Username user) (User_Email user) with
        | Some e => Err e
        | None => let u' := with_user user u in Ok (u', on_users (<[User_ID user := u']>) d)
        end
    end)).

Definition UpdatePasswordHash (userID : UserID) (newHash : string) (mustChangePassword : bool) : M unit :=
  n ← update_user (λ _, with_password (Some newHash) mustChangePassword) userID;
  if n =? 0 then throw ErrUserNotFound else mret tt.

Definition NullifyPasswordHash (userID : UserID) : M unit :=
  n ← update_user (λ _ u, with_password None (User_MustChangePassword u) u) userID;
  if n =? 0 then throw ErrUserNotFound else mret tt.

Definition SoftDeleteUser (userID : UserID) : M unit :=
  n ← update_user (λ t, with_user_deleted (current_timestamp t)) userID;
  if n =? 0 then throw ErrUserNotFound else mret tt.

Definition CreateSession (s : Session) : M Session :=
  exec (λ _ d,
    match users d !! Session_UserID s with
    | None => Err ErrForeignKey
    | Some _ =>
        let id := fresh_id (sessions d) in
        let s' := mkSession id (Session_UserID s) (Session_TokenHash s) (Session_CreatedAt s) (Session_ExpiresAt s) None None in
        Ok (s', on_sessions (<[id := s']>) d)
    end).

(** [expires_at > CURRENT_TIMESTAMP] compares texts: the stored one goes on
    after the seconds, with a fraction or a time zone, so it is the greater
    one also within the current second. *)
Definition session_unexpired (t : time) (s : Session) : bool := unix_seconds t <=? unix_seconds (Session_ExpiresAt s).

Definition session_open (t : time) (s : Session) : bool :=
  bool_decide (Session_RevokedAt s = None) && session_unexpired t s.

Definition with_revoked (t : time) (s : Session) : Session :=
  mkSession (Session_ID s) (Session_UserID s) (Session_TokenHash s) (Session_CreatedAt s) (Session_ExpiresAt s)
    (Session_LastUsedAt s) (Some (current_timestamp t)).

Definition RevokeAllUserSessions (userID : UserID) : M unit :=
  exec (λ t d, Ok (tt, on_sessions (update_where (λ s, (Session_UserID s =? userID) && session_open t s) (with_revoked t)) d)).

Definition RevokeAllUserSessionsExcept (userID : UserID) (exceptSessionID : SessionID) : M unit :=
  exec (λ t d, Ok (tt, on_sessions (update_where
    (λ s, (Session_UserID s =? userID) && negb (Session_ID s =? exceptSessionID) && session_open t s) (with_revoked t)) d)).

(** The session's row joined with its user. *)
Definition session_with_role (t : time) (d : db) (tokenHash : string) : option (Session * Role) :=
  head (omap (λ s,
    if bool_decide (Session_TokenHash s = tokenHash) && session_open t s
    then u ← active_user d (Session_UserID s); Some (s, User_Role u) else None) (rows (sessions d))).

Definition GetSessionWithRoleByTokenHash (tokenHash : string) : M (Session * Role) :=
  map_err (no_rows ErrInvalidCredentials) (get_row (λ t d, session_with_role t d tokenHash)).

Definition RevokeSessionByID (id : SessionID) : M unit :=
  exec (λ t d, Ok (tt, on_sessions (alter (with_revoked t) id) d)).

(** ** Service *)

Section service.
Context `{GoUnicode} `{Bcrypt} `{UserObservers}.

Definition notifyUserObservers (e : UserEvent) : M unit := for_each user_observers (λ o, o e).

(** [hashPassword]: the salt comes from the random source. *)
Definition hashPassword (password : string) : M string :=
  salt ← read_rand; of_result (GenerateFromPassword salt password).

Definition checkPassword (hash : option string) (password : string) : bool :=
  match hash with None => false | Some h => CompareHashAndPassword h password end.

Definition Login (username password : string) : M (string * User) :=
  withinTx (
    user ← GetUserByUsername username;
    if negb (checkPassword (User_PasswordHash user) password) then throw ErrInvalidCredentials
    else
      '(rawToken, tokenHash) ← generateToken;
      t ← now;
      _ ← CreateSession (NewSession t (User_ID user) tokenHash);
      mret (rawToken, user)).

Definition GetUserFromPrincipal (p : Principal) : M User := GetUserByID (Principal_UserID p).

Definition RevokeSession (sessionID : SessionID) : M unit := RevokeSessionByID sessionID.

(** The unexported [createUser], out of or inside a transaction. *)
Definition createUser (newUser : User) : M User :=
  user ← CreateUser_row newUser;
  _ ← notifyUserObservers (mkUserEvent EventTypeUserCreated (User_ID user));
  mret user.

Definition CreateUser (username displayName : string) (email : option string) (p : Principal) : M User :=
  if negb (IsSuperAdmin p) then throw ErrSuperAdminCredentialsRequired
  else
    t ← now;
    newUser ← of_result (NewUserAccount t username displayName email (Some (Principal_UserID p)));
    createUser newUser.

Definition Authenticate (rawToken : string) : M Principal :=
  PrincipalFromSession <$> GetSessionWithRoleByTokenHash (hashRawToken rawToken).

Definition NewBootstrappedAdmin (password : string) : M User :=
  _ ← of_result (ValidatePassword password);
  passwordHash ← hashPassword password;
  t ← now;
  mret (mkUser 0 BootstrapAdminUsername BootstrapAdminDisplayName (Some BootstrapAdminEmail) (Some passwordHash)
          SuperAdminRole false None t None).

Definition BootstrapAdmin (password : string) : M unit :=
  withinTx (
    admin ← catch (Some <$> FindBootstrappedAdmin) (λ e, if decide (e = ErrUserNotFound) then mret None else throw e);
    match admin with
    | Some _ => mret tt
    | None =>
        newUser ← NewBootstrappedAdmin password;
        _ ← createUser newUser;
        mret tt
    end).

Definition UpdateOwnProfile (userID : UserID) (updates : ProfileUpdates) : M User :=
  withinTx (
    user ← GetUserByID userID;
    user' ← of_result (User_Update user updates);
    UpdateUser user').

Definition ChangePassword (userID : UserID) (sessionID : SessionID) (currentPassword newPassword : string) : M unit :=
  withinTx (
    user ← GetUserByID userID;
    if negb (checkPassword (User_PasswordHash user) currentPassword) then throw ErrInvalidCredentials
    else
      _ ← of_result (ValidatePassword newPassword);
      newPasswordHash ← hashPassword newPassword;
      _ ← UpdatePasswordHash userID newPasswordHash false;
      RevokeAllUserSessionsExcept userID sessionID).

Definition PromoteUser (p : Principal) (targetID : UserID) (newPassword : string) : M User :=
  if negb (IsSuperAdmin p) then throw ErrSuperAdminCredentialsRequired
  else if Principal_UserID p =? targetID then throw ErrSelfRoleChangeForbidden
  else
    _ ← of_result (ValidatePassword newPassword);
    passwordHash ← hashPassword newPassword;
    withinTx (
      target ← GetUserByID targetID;
      if bool_decide (User_Role target = AdminRole) then throw ErrPromoteAlreadyAdmin
      else
        updated ← UpdateUser (with_role AdminRole target);
        _ ← UpdatePasswordHash targetID passwordHash true;
        mret updated).

Definition DemoteUser (p : Principal) (targetID : UserID) : M User :=
  if negb (IsSuperAdmin p) then throw ErrSuperAdminCredentialsRequired
  else if Principal_UserID p =? targetID then throw ErrSelfRoleChangeForbidden
  else
    withinTx (
      target ← GetUserByID targetID;
      updated ← UpdateUser (with_role UserRole target);
      _ ← NullifyPasswordHash targetID;
      _ ← RevokeAllUserSessions targetID;
      mret updated).

Definition DeleteUser (p : Principal) (targetID : UserID) : M unit :=
  if negb (IsSuperAdmin p) then throw ErrSuperAdminCredentialsRequired
  else if Principal_UserID p =? targetID then throw ErrSelfDeleteForbidden
  else
    withinTx (
      _ ← GetUserByID targetID;
      _ ← RevokeAllUserSessions targetID;
      _ ← SoftDeleteUser targetID;
      notifyUserObservers (mkUserEvent EventTypeUserDeleted targetID)).

(** ** Middleware (middleware.go, context.go) *)

(** [PrincipalUserContextMiddleware]: the principal the request's context ends
    up with, from the value of its session cookie ([None]: no cookie). *)
Definition PrincipalUserContext (cookie : option string) : M (option Principal) :=
  match cookie with
  | None | Some "" => mret None
  | Some token => catch (Some <$> Authenticate token) (λ _, mret None)
  end.

(** [RequireAdmin]: does the request go on to its handler? *)
Definition RequireAdmin (p : option Principal) : bool :=
  match p with Some p => IsAdmin p | None => true end.

(** ** Cookies (cookie.go) *)

Record Cookie := mkCookie {
  Cookie_Name : string; Cookie_Value : string; Cookie_Path : string; Cookie_HttpOnly : bool; Cookie_Secure : bool;
  Cookie_SameSiteLax : bool; Cookie_Domain : string; Cookie_MaxAge : Z; Cookie_Expires : time;
}.

Definition SessionCookieName : string := "__Host-wdc_session".
Definition CookieDuration : Z := 7 * 24 * Hour.

Definition NewSessionCookie (t : time) (token : string) : Cookie :=
  mkCookie SessionCookieName token "/" true true true "" (CookieDuration / Second) (t + CookieDuration).

Definition ExpireSessionCookie : Cookie := mkCookie SessionCookieName "" "/" true true true "" (-1) 0.

(** ** Handlers (handler.go) *)

(** [httpapi.User]: what a response shows of a user. *)
Record UserView := mkUserView {
  UserView_Id : Z; UserView_Username : string; UserView_DisplayName : string; UserView_Email : option string;
  UserView_Role : Role; UserView_MustChangePassword : bool; UserView_CreatedAt : time;
}.

Definition toUserResponse (u : User) : UserView :=
  mkUserView (User_ID u) (User_Username u) (User_DisplayName u) (User_Email u) (User_Role u)
    (User_MustChangePassword u) (User_CreatedAt u).

Definition handler_Login (username password : string) : M (Response (UserView * Cookie)) :=
  t ← now;
  respond (Login username password)
    (λ ru, mkResponse 200 (Some (toUserResponse ru.2, NewSessionCookie t ru.1)))
    (λ e, match e with ErrInvalidCredentials | ErrUserNotFound => 401 | _ => 500 end).

(** The revocation may fail: the cookie is cleared all the same. *)
Definition handler_Logout (p : option Principal) : M (Response Cookie) :=
  _ ← match p with Some p => catch (RevokeSession (Principal_SessionID p)) (λ _, mret tt) | None => mret tt end;
  mret (mkResponse 204 (Some ExpireSessionCookie)).

(** A handler for a principal, or a status without one. *)
Definition with_principal {A} (p : option Principal) (status : Z) (h : Principal → M (Response A)) : M (Response A) :=
  match p with None => mret (mkResponse status None) | Some p => h p end.

Definition handler_GetCurrentUser (p : option Principal) : M (Response UserView) :=
  with_principal p 500 (λ p, respond (GetUserFromPrincipal p) (λ u, mkResponse 200 (Some (toUserResponse u))) (λ _, 500)).

Definition handler_CreateUser (p : option Principal) (username displayName : string) (email : option string)
    : M (Response UserView) :=
  with_principal p 401 (λ p,
    respond (CreateUser username displayName email p) (λ u, mkResponse 201 (Some (toUserResponse u)))
      (λ e, match e with
            | ErrUsernameTaken | ErrEmailTaken => 409
            | ErrInvalidDisplayName | ErrInvalidUsername | ErrInvalidPassword => 400
            | ErrSuperAdminCredentialsRequired => 403
            | _ => 500
            end)).

Definition handler_UpdateMe (p : option Principal) (updates : ProfileUpdates) : M (Response UserView) :=
  with_principal p 401 (λ p,
    respond (UpdateOwnProfile (Principal_UserID p) updates) (λ u, mkResponse 200 (Some (toUserResponse u)))
      (λ e, match e with
            | ErrInvalidDisplayName | ErrInvalidUsername | ErrNoUpdateFields => 400
            | ErrUsernameTaken | ErrEmailTaken => 409
            | _ => 500
            end)).

Definition handler_ChangePassword (p : option Principal) (currentPassword password : string) : M (Response unit) :=
  with_principal p 401 (λ p,
    respond (ChangePassword (Principal_UserID p) (Principal_SessionID p) currentPassword password)
      (λ _, mkResponse 204 None)
      (λ e, match e with ErrInvalidCredentials | ErrInvalidPassword => 400 | _ => 500 end)).

Definition handler_PromoteUser (p : option Principal) (userId : UserID) (password : string) : M (Response UserView) :=
  with_principal p 401 (λ p,
    respond (PromoteUser p userId password) (λ u, mkResponse 200 (Some (toUserResponse u)))
      (λ e, match e with
            | ErrSelfRoleChangeForbidden | ErrPromoteAlreadyAdmin | ErrSuperAdminCredentialsRequired => 403
            | ErrInvalidPassword => 400
            | ErrUserNotFound => 404
            | _ => 500
            end)).

Definition handler_DemoteUser (p : option Principal) (userId : UserID) : M (Response UserView) :=
  with_principal p 401 (λ p,
    respond (DemoteUser p userId) (λ u, mkResponse 200 (Some (toUserResponse u)))
      (λ e, match e with
            | ErrSelfRoleChangeForbidden | ErrSuperAdminCredentialsRequired => 403
            | ErrUserNotFound => 404
            | _ => 500
            end)).

Definition handler_DeleteUser (p : option Principal) (userId : UserID) : M (Response unit) :=
  with_principal p 401 (λ p,
    respond (DeleteUser p userId) (λ _, mkResponse 204 None)
      (λ e, match e with
            | ErrSuperAdminCredentialsRequired | ErrSelfDeleteForbidden => 403
            | ErrUserNotFound => 404
            | _ => 500
            end)).
End service.
