(* ===== verification/AuthInv.v ===== *)
(** * AuthInv: the invariant of accounts and sessions, and what each operation does

    [auth_inv] is the invariant of the two tables of [auth]; [later] is what
    no operation undoes.  For every operation of the service, the tables its
    success leaves ([..._Ok]), and that a failure leaves none ([atomic]);
    from these, that every operation keeps the invariant. *)

From S2P Require Import Prelude GoLib Schema Store Http Crypto Auth.

Local Open Scope Z_scope.

(** ** The invariant *)

Record auth_inv (d : db) : Prop := mkAuthInv {
  au_id : ∀ i u, users d !! i = Some u → User_ID u = i;
  au_no_password : ∀ i u, users d !! i = Some u → User_Role u = UserRole → User_PasswordHash u = None;
  au_root_role : ∀ i u, users d !! i = Some u → User_CreatedBy u = None ↔ User_Role u = SuperAdminRole;
  au_root_unique : ∀ i j u v, users d !! i = Some u → users d !! j = Some v →
    User_CreatedBy u = None → User_CreatedBy v = None → i = j;
  au_root_live : ∀ i u, users d !! i = Some u → User_CreatedBy u = None → User_DeletedAt u = None;
  au_usernames : ∀ i j u v, users d !! i = Some u → users d !! j = Some v → user_active u = true → user_active v = true →
    nocase_eqb (User_Username u) (User_Username v) = true → i = j;
  au_emails : ∀ i j u v e, users d !! i = Some u → users d !! j = Some v → user_active u = true → user_active v = true →
    User_Email u = Some e → User_Email v = Some e → e ≠ ""%string → i = j;
  au_session_id : ∀ i s, sessions d !! i = Some s → Session_ID s = i;
  au_session_user : ∀ i s, sessions d !! i = Some s → is_Some (users d !! Session_UserID s);
}.

(** The bootstrapped superadmin: the user that nobody created. *)
Definition root (d : db) (r : UserID) : Prop := ∃ u, users d !! r = Some u ∧ User_CreatedBy u = None.

(** What no operation undoes: a row stays, with its origin; a deleted user
    stays deleted and a revoked session revoked. *)
Record later (d d' : db) : Prop := mkLater {
  la_users : ∀ i u, users d !! i = Some u → ∃ u', users d' !! i = Some u' ∧ User_CreatedBy u' = User_CreatedBy u ∧
    (user_active u' = true → user_active u = true);
  la_sessions : ∀ i s, sessions d !! i = Some s → ∃ s', sessions d' !! i = Some s' ∧ Session_UserID s' = Session_UserID s ∧
    Session_TokenHash s' = Session_TokenHash s ∧ Session_ExpiresAt s' = Session_ExpiresAt s ∧
    (Session_RevokedAt s' = None → Session_RevokedAt s = None);
}.

#[export] Instance later_preorder : PreOrder later.
Proof.
  split.
  - intros d. split; eauto 10.
  - intros d1 d2 d3 [U1 S1] [U2 S2]. split.
    + intros i u Hu. destruct (U1 i u Hu) as (u2 & Hu2 & C2 & A2). destruct (U2 i u2 Hu2) as (u3 & Hu3 & C3 & A3).
      exists u3. split; [done|]. split; [congruence|auto].
    + intros i s Hs. destruct (S1 i s Hs) as (s2 & Hs2 & ? & ? & ? & ?). destruct (S2 i s2 Hs2) as (s3 & Hs3 & ? & ? & ? & ?).
      exists s3. split; [done|]. split; [congruence|]. split; [congruence|]. split; [congruence|auto].
Qed.

(** [auth_inv], later than [d0]. *)
Definition kept (d0 d : db) : Prop := auth_inv d ∧ later d0 d.

Lemma active_user_Some d i u : active_user d i = Some u ↔ users d !! i = Some u ∧ user_active u = true.
Proof.
  unfold active_user. destruct (users d !! i) as [x|]; [|by split; [|intros []]].
  destruct (user_active x) eqn:E; split; [|by intros [[= ->] _]| |intros [[= ->] ?]; congruence]; naive_solver.
Qed.

Lemma nocase_sym a b : nocase_eqb a b = nocase_eqb b a.
Proof. unfold nocase_eqb. by apply bool_decide_ext. Qed.

Lemma nocase_trans a b c : nocase_eqb a b = true → nocase_eqb b c = true → nocase_eqb a c = true.
Proof. unfold nocase_eqb. rewrite !bool_decide_eq_true. congruence. Qed.

(** No clash: no other live row has the username or the email. *)
Lemma account_clash_None d self name email :
  account_clash d self name email = None → ∀ i v, users d !! i = Some v → user_active v = true → self ≠ Some (User_ID v) →
    nocase_eqb (User_Username v) name = false ∧ ∀ e, email = Some e → e ≠ ""%string → User_Email v ≠ Some e.
Proof.
  unfold account_clash. destruct (username_taken _ _ _) eqn:Hn; [done|]. destruct (email_taken _ _ _) eqn:He; [done|]. intros _ i v Hv Ha Hs.
  unfold username_taken in Hn. rewrite table_exists_false in Hn. specialize (Hn i v Hv). rewrite Ha, (bool_decide_eq_false_2 _ Hs) in Hn.
  split; [exact Hn|]. intros e -> Hne Ee. unfold email_taken in He. destruct e; [done|]. rewrite table_exists_false in He.
  specialize (He i v Hv). rewrite Ha, (bool_decide_eq_false_2 _ Hs), Ee, bool_decide_eq_true_2 in He by done. done.
Qed.

(** ** Sub-steps *)

Section kept.
Implicit Types d : db.

(** Replacing a user's row by one of the same origin. *)
Lemma inv_put_user d i u v :
  auth_inv d → users d !! i = Some u → User_ID v = i → User_CreatedBy v = User_CreatedBy u →
  (User_CreatedBy u = None ↔ User_Role v = SuperAdminRole) →
  (User_CreatedBy u = None → User_DeletedAt v = None) →
  (User_Role v = UserRole → User_PasswordHash v = None) →
  (user_active v = true → user_active u = true ∧
     (User_Username v = User_Username u ∧ User_Email v = User_Email u ∨
      account_clash d (Some i) (User_Username v) (User_Email v) = None)) →
  auth_inv (on_users (<[i := v]>) d).
Proof.
  intros I Hu Hid Hcb Hrole Hlive Hpw Hclash. destruct I.
  assert (∀ k y, users d !! k = Some y → k ≠ i → user_active y = true → user_active v = true →
    nocase_eqb (User_Username v) (User_Username y) = false ∧ ∀ e, User_Email v = Some e → e ≠ ""%string → User_Email y ≠ Some e) as Hoth.
  { intros k y Hy Hk Ay Av. destruct (Hclash Av) as [Au [[En Ee]|Hc]].
    - rewrite En, Ee. split; [apply not_true_iff_false; intros ?; apply Hk; symmetry; eauto|]. intros e Eu He Ey. apply Hk. by eapply au_emails0.
    - rewrite nocase_sym. eapply account_clash_None; [exact Hc|exact Hy|done|]. rewrite (au_id0 _ _ Hy). congruence. }
  constructor; cbn; try done.
  - intros. lookups; eauto.
  - intros. lookups; eauto.
  - intros j w Hw. lookups; [by rewrite Hcb|eauto].
  - intros j k x y Hx Hy Cx Cy. lookups; [done|..|by eauto]; rewrite ?Hcb in *; eauto.
  - intros j x Hx Cx. lookups; [apply Hlive; congruence|eauto].
  - intros j k x y Hx Hy Ax Ay Hn. destruct (decide (j = k)) as [|Hjk]; [done|]. lookups; [| |by eauto]; exfalso.
    + rewrite nocase_sym in Hn. destruct (Hoth j x) as [Hf _]; congruence.
    + destruct (Hoth k y) as [Hf _]; congruence.
  - intros j k x y e Hx Hy Ax Ay Ex Ey Hne. destruct (decide (j = k)) as [|Hjk]; [done|]. lookups; [| |by eauto]; exfalso.
    + destruct (Hoth j x) as [_ Hf]; try done. by eapply Hf.
    + destruct (Hoth k y) as [_ Hf]; try done. by eapply Hf.
  - intros j s Hs. apply lookup_insert_is_Some'. right. eauto.
Qed.

(** A new row. *)
Lemma inv_new_user d i v :
  auth_inv d → users d !! i = None → User_ID v = i →
  (User_CreatedBy v = None ↔ User_Role v = SuperAdminRole) →
  (User_CreatedBy v = None → User_DeletedAt v = None ∧ ∀ r, ¬ root d r) →
  (User_Role v = UserRole → User_PasswordHash v = None) →
  account_clash d None (User_Username v) (User_Email v) = None →
  auth_inv (on_users (<[i := v]>) d).
Proof.
  intros I Hi Hid Hrole Hroot Hpw Hclash. destruct I. pose proof (account_clash_None _ _ _ _ Hclash) as Hoth.
  constructor; cbn; try done.
  - intros. lookups; eauto.
  - intros. lookups; eauto.
  - intros. lookups; eauto.
  - intros j k x y Hx Hy Cx Cy. lookups; [done|..|by eauto]; exfalso.
    + apply (proj2 (Hroot Cy) j). by exists x.
    + apply (proj2 (Hroot Cx) k). by exists y.
  - intros j x Hx Cx. lookups; [by apply Hroot|eauto].
  - intros j k x y Hx Hy Ax Ay Hn. lookups; [done| | |by eauto]; exfalso.
    + destruct (Hoth j x) as [Hf _]; congruence.
    + rewrite nocase_sym in Hn. destruct (Hoth k y) as [Hf _]; congruence.
  - intros j k x y e Hx Hy Ax Ay Ex Ey Hne. lookups; [done| | |by eauto]; exfalso.
    + destruct (Hoth j x) as [_ Hf]; try done. by eapply Hf.
    + destruct (Hoth k y) as [_ Hf]; try done. by eapply Hf.
  - intros j s Hs. apply lookup_insert_is_Some'. right. eauto.
Qed.

(** Sessions rewritten in place. *)
Lemma inv_map_sessions d f :
  auth_inv d → (∀ s, Session_ID (f s) = Session_ID s ∧ Session_UserID (f s) = Session_UserID s) →
  auth_inv (on_sessions (fmap f) d).
Proof.
  intros [] Hf. constructor; cbn; try done; intros i s; rewrite lookup_fmap, fmap_Some; intros (x & Hx & ->);
    destruct (Hf x) as [E1 E2]; rewrite ?E1, ?E2; eauto.
Qed.

Lemma later_put_user d i u v :
  users d !! i = Some u → User_CreatedBy v = User_CreatedBy u → (user_active v = true → user_active u = true) →
  later d (on_users <[i := v]> d).
Proof.
  intros Hu Hcb Ha. split; cbn; [|eauto 10]. intros j x Hx. destruct (decide (i = j)) as [->|Hne].
  - rewrite lookup_insert_eq. exists v. rewrite Hu in Hx. by injection Hx as <-.
  - rewrite lookup_insert_ne by done. eauto.
Qed.

Lemma later_new_user d i v : users d !! i = None → later d (on_users <[i := v]> d).
Proof. intros Hi. split; cbn; [|eauto 10]. intros j x Hx. rewrite lookup_insert_ne by congruence. eauto. Qed.

Lemma later_sessions d f :
  (∀ s, Session_UserID (f s) = Session_UserID s ∧ Session_TokenHash (f s) = Session_TokenHash s ∧
     Session_ExpiresAt (f s) = Session_ExpiresAt s ∧ (Session_RevokedAt (f s) = None → Session_RevokedAt s = None)) →
  later d (on_sessions (fmap f) d).
Proof. intros Hf. split; cbn; [eauto|]. intros i s Hs. rewrite lookup_fmap, Hs. eexists. split; [done|]. apply Hf. Qed.

Lemma root_later d d' r : root d r → later d d' → root d' r.
Proof. intros (u & Hu & Cu) [Hl _]. destruct (Hl r u Hu) as (u' & Hu' & C' & _). exists u'. split; [done|congruence]. Qed.

Lemma root_unique d r r' : auth_inv d → root d r → root d r' → r = r'.
Proof. intros I (u & Hu & Cu) (v & Hv & Cv). by eapply au_root_unique. Qed.
End kept.

(** ** What the statements do *)

Lemma get_row_Err {A} (f : time → db → option A) tx w e w' :
  get_row f tx w = (Err e, w') → w_db w' = w_db w ∧ w_now w' = w_now w ∧
    (e = ErrNoRows ∧ f (w_now w) (w_db w) = None ∨ ∃ b, e = ErrSQL b).
Proof.
  unfold get_row. rewrite bind_run. unfold query. destruct (pop_fault w) as [[b|] w0] eqn:E; apply pop_fault_db in E as (E & E' & _).
  - intros [= <- <-]. eauto.
  - destruct (f _ _) eqn:Ef; intros [= <- <-]. rewrite E, E' in *. eauto.
Qed.

Lemma GetUserByID_Ok id tx w u w' :
  GetUserByID id tx w = (Ok u, w') →
  w_db w' = w_db w ∧ w_now w' = w_now w ∧ users (w_db w) !! id = Some u ∧ user_active u = true.
Proof.
  intros H%map_err_Ok. apply get_row_Ok in H as (? & ? & _ & H%active_user_Some). tauto.
Qed.

Lemma update_user_Ok f id tx w n w' :
  update_user f id tx w = (Ok n, w') → n ≠ 0 →
  ∃ u, users (w_db w) !! id = Some u ∧ user_active u = true ∧
    w_db w' = on_users <[id := f (w_now w) u]> (w_db w) ∧ w_now w' = w_now w.
Proof.
  intros H Hne. apply (exec_Ok _ tx) in H as (d' & Hf & -> & Hn & _). destruct (active_user _ _) as [u|] eqn:E; [|by injection Hf as <-].
  injection Hf as <- <-. apply active_user_Some in E as [Hu Ha]. eauto 10.
Qed.

(** The three statements that fail when no row is affected. *)
Lemma affected_Ok (m : M Z) e tx w w' :
  (n ← m; if n =? 0 then throw e else mret tt) tx w = (Ok tt, w') → ∃ n, m tx w = (Ok n, w') ∧ n ≠ 0.
Proof.
  intros (n & w1 & Hm & H)%bind_Ok. destruct (n =? 0) eqn:E; [done|]. apply Z.eqb_neq in E.
  injection H as <-. by exists n.
Qed.

Lemma UpdateUser_Ok user tx w v w' :
  UpdateUser user tx w = (Ok v, w') →
  ∃ u, users (w_db w) !! User_ID user = Some u ∧ user_active u = true ∧ v = with_user user u ∧ w_now w' = w_now w ∧
    account_clash (w_db w) (Some (User_ID user)) (User_Username user) (User_Email user) = None ∧
    w_db w' = on_users <[User_ID user := v]> (w_db w).
Proof.
  intros H%map_err_Ok. apply (exec_Ok _ tx) in H as (d' & Hf & -> & Hn & _). destruct (active_user _ _) as [u|] eqn:E; [|done].
  destruct (account_clash _ _ _ _) eqn:Ec; [done|]. apply active_user_Some in E as [Hu Ha]. injection Hf as <- <-. by exists u.
Qed.

(** No row without a creator: there is no root. *)
Lemma FindBootstrappedAdmin_none tx w w' :
  FindBootstrappedAdmin tx w = (Err ErrUserNotFound, w') → w_db w' = w_db w ∧ ∀ r, ¬ root (w_db w) r.
Proof.
  unfold FindBootstrappedAdmin. rewrite map_err_run. destruct (get_row _ _ _) as [[u|e] w1] eqn:E; [done|].
  apply get_row_Err in E as (Hd & _ & [[-> Hnone]|[b ->]]); [|done]. intros [= <-]. split; [done|]. intros r (u & Hu & Cu).
  destruct (filter _ (rows (users (w_db w)))) as [|x l] eqn:El; [|done].
  assert (u ∈ filter (λ u, User_CreatedBy u = None) (rows (users (w_db w)))) as Hin.
  { apply elem_of_filter_rows. eauto. }
  rewrite El in Hin. by apply elem_of_nil in Hin.
Qed.

(** ** What the operations do

    For each operation that succeeds, the tables it leaves; one that fails
    leaves them as they were ([atomic]). *)

Section effects.
Context `{GoUnicode} `{Bcrypt} `{UserObservers}.

Definition atomic {A} (m : M A) : Prop := ∀ w e w', m false w = (Err e, w') → w_db w' = w_db w.

Lemma atomic_throw {A} e : atomic (@throw A e).
Proof. by intros w e' w' [= _ <-]. Qed.

Lemma atomic_tx {A} (fn : M A) : atomic (withinTx fn).
Proof. intros w e w'. apply withinTx_rollback. Qed.

(** Inversion of a transaction, with the clock. *)
Lemma tx_Ok {A} (fn : M A) w a w' :
  withinTx fn false w = (Ok a, w') →
  ∃ w0 w1, w_db w0 = w_db w ∧ w_now w0 = w_now w ∧ fn true w0 = (Ok a, w1) ∧ w_db w' = w_db w1.
Proof. intros (w0 & w1 & ? & ? & _ & ? & ?)%withinTx_Ok. eauto 10. Qed.

Lemma read_rand_Ok tx w b w' : read_rand tx w = (Ok b, w') → w_db w' = w_db w ∧ w_now w' = w_now w ∧ w_faults w' = w_faults w.
Proof. unfold read_rand. destruct (w_rand w); [done|]. by intros [= _ <-]. Qed.

Lemma hashPassword_Ok pw tx w h w' :
  hashPassword pw tx w = (Ok h, w') →
  w_db w' = w_db w ∧ w_now w' = w_now w ∧ ∃ salt, GenerateFromPassword salt pw = Ok h.
Proof.
  intros Hh. apply bind_Ok in Hh as (salt & w1 & Hr & Hh). apply of_result_Ok in Hh as [Hh ->].
  apply read_rand_Ok in Hr as (? & ? & _). eauto.
Qed.

Lemma hashPassword_Err pw tx w e w' : hashPassword pw tx w = (Err e, w') → w_db w' = w_db w.
Proof.
  unfold hashPassword. rewrite bind_run. unfold read_rand. destruct (w_rand w); [by intros [= _ <-]|].
  rewrite of_result_run. by intros [= _ <-].
Qed.

Lemma observers_Ok e tx w r w' :
  notifyUserObservers e tx w = (r, w') →
  r = Ok tt ∧ users (w_db w') = users (w_db w) ∧ sessions (w_db w') = sessions (w_db w) ∧ w_now w' = w_now w.
Proof.
  unfold notifyUserObservers. revert w. induction user_observers_ok as [|o os Ho _ IH]; cbn [for_each]; intros w; [by intros [= <- <-]|].
  rewrite bind_run. destruct (Ho e tx w) as (w1 & -> & E1 & E2 & E3). intros (F0 & F1 & F2 & F3)%IH. by rewrite F1, F2, F3.
Qed.

(** An account as the user management creates it. *)
Lemma NewUserAccount_Ok t name display email by_ u :
  NewUserAccount t name display email by_ = Ok u →
  User_CreatedBy u = by_ ∧ User_Role u = UserRole ∧ User_PasswordHash u = None ∧ User_DeletedAt u = None.
Proof. unfold NewUserAccount. by repeat case_match; intros; simplify_eq. Qed.

Lemma NewBootstrappedAdmin_Ok pw tx w u w' :
  NewBootstrappedAdmin pw tx w = (Ok u, w') →
  w_db w' = w_db w ∧ User_CreatedBy u = None ∧ User_Role u = SuperAdminRole ∧ User_DeletedAt u = None.
Proof.
  intros Hu. apply bind_Ok in Hu as ([] & w1 & Hv & Hu). apply of_result_Ok in Hv as [_ ->].
  apply bind_Ok in Hu as (h & w1 & Hh & Hu). apply hashPassword_Ok in Hh as (Hd & _).
  apply bind_Ok in Hu as (t & w2 & [= <- <-] & [= <- <-]). done.
Qed.

Lemma CreateUser_row_Ok user tx w u w' :
  CreateUser_row user tx w = (Ok u, w') →
  account_clash (w_db w) None (User_Username user) (User_Email user) = None ∧
  u = with_id (fresh_id (users (w_db w))) user ∧ w_db w' = on_users <[User_ID u := u]> (w_db w).
Proof.
  intros E. apply map_err_Ok in E. apply (exec_Ok _ tx) in E as (d' & E & -> & _). destruct (account_clash _ _ _ _) eqn:Ec; [done|].
  destruct (match User_CreatedBy user with Some _ => _ | None => _ end); [done|]. by injection E as <- <-.
Qed.

Lemma CreateUser_row_Err user tx w e w' : CreateUser_row user tx w = (Err e, w') → w_db w' = w_db w.
Proof.
  unfold CreateUser_row. rewrite map_err_run. unfold exec. destruct (pop_fault w) as [[b|] w0] eqn:E; apply pop_fault_db in E as (E & _).
  - by intros [= _ <-].
  - destruct (account_clash _ _ _ _); [by intros [= _ <-]|]. destruct (match User_CreatedBy user with Some _ => _ | None => _ end); [by intros [= _ <-]|done].
Qed.

(** One row is new, or none. *)
Definition new_row (d d' : db) (P : User → Prop) : Prop :=
  sessions d' = sessions d ∧
  (users d' = users d ∨ ∃ u, users d' = <[fresh_id (users d) := u]> (users d) ∧ User_ID u = fresh_id (users d) ∧
     User_DeletedAt u = None ∧ account_clash d None (User_Username u) (User_Email u) = None ∧ P u).

(** [CreateUser] is not in a transaction: its one row is there as soon as the
    statement succeeds. *)
Lemma CreateUser_new name display email p tx w :
  new_row (w_db w) (w_db (CreateUser name display email p tx w).2)
    (λ u, User_CreatedBy u = Some (Principal_UserID p) ∧ User_Role u = UserRole ∧ User_PasswordHash u = None).
Proof.
  unfold CreateUser. destruct (negb _); [split; [done|by left]|]. rewrite bind_run, now_run, bind_run, of_result_run.
  destruct (NewUserAccount _ _ _ _ _) as [a|e] eqn:Ea; [|split; [done|by left]]. apply NewUserAccount_Ok in Ea as (Hc & Hr & Hp & Hd).
  unfold createUser. rewrite bind_run. destruct (CreateUser_row a tx w) as [[u|e] w1] eqn:Eu.
  - apply CreateUser_row_Ok in Eu as (Hcl & -> & E1). rewrite bind_run. destruct (notifyUserObservers _ tx w1) as [r w2] eqn:En.
    apply observers_Ok in En as (-> & E2 & E3 & _). rewrite ret_run. cbn [snd]. split; [by rewrite E3, E1|]. right. exists (with_id (fresh_id (users (w_db w))) a).
    rewrite E2, E1. done.
  - apply CreateUser_row_Err in Eu. cbn [snd]. rewrite Eu. split; [done|by left].
Qed.

Lemma BootstrapAdmin_Ok pw w w' :
  BootstrapAdmin pw false w = (Ok tt, w') →
  new_row (w_db w) (w_db w') (λ u, User_CreatedBy u = None ∧ User_Role u = SuperAdminRole ∧ ∀ r, ¬ root (w_db w) r).
Proof.
  intros Hb. apply tx_Ok in Hb as (w0 & w1 & E0 & _ & Hb & ->). rewrite <-E0. clear E0 w. apply bind_Ok in Hb as (admin & w2 & Ha & Hb).
  destruct admin as [u|]; [injection Hb as <-; apply catch_Ok in Ha as [Ha|(e & w3 & _ & Ha)]|].
  - apply fmap_Ok in Ha as (u' & Ha & _). apply map_err_Ok, get_row_Ok in Ha as (-> & _). split; [done|by left].
  - by destruct (decide _).
  - assert (w_db w2 = w_db w0 ∧ ∀ r, ¬ root (w_db w0) r) as [Hd Hno].
    { apply catch_Ok in Ha as [Ha|(e & w3 & Hf & Ha)]; [by apply fmap_Ok in Ha as (? & _ & ?)|].
      destruct (decide (e = ErrUserNotFound)) as [->|]; [|done]. injection Ha as <-. rewrite fmap_run in Hf.
      destruct (FindBootstrappedAdmin true w0) as [[u|e'] w4] eqn:E; [done|]. injection Hf as -> ->. by apply FindBootstrappedAdmin_none in E. }
    apply bind_Ok in Hb as (u & w3 & Hu & Hb). apply NewBootstrappedAdmin_Ok in Hu as (Hd3 & Hc & Hr & Hdel).
    apply bind_Ok in Hb as (x & w4 & Hcr & [= <-]). apply bind_Ok in Hcr as (v & w5 & Hrow & Hcr).
    apply bind_Ok in Hcr as ([] & w6 & Hn & [= <- <-]). apply observers_Ok in Hn as (_ & E2 & E3 & _).
    apply CreateUser_row_Ok in Hrow as (Hcl & -> & E5). rewrite Hd3, Hd in *. split; [by rewrite E3, E5|]. right.
    exists (with_id (fresh_id (users (w_db w0))) u). rewrite E2, E5. done.
Qed.

Lemma User_Update_Ok u ups v :
  User_Update u ups = Ok v → ∃ name display email, v = with_account name display email u.
Proof. unfold User_Update. case_bool_decide; [done|]. destruct (valid_or _ _ _); [|done]. destruct (valid_or _ _ _); [|done]. intros [= <-]. eauto. Qed.

Lemma UpdateOwnProfile_Ok id ups w v w' :
  (∀ i u, users (w_db w) !! i = Some u → User_ID u = i) → UpdateOwnProfile id ups false w = (Ok v, w') →
  ∃ u name display email, users (w_db w) !! id = Some u ∧ user_active u = true ∧ v = with_account name display email u ∧
    account_clash (w_db w) (Some id) name email = None ∧ w_db w' = on_users <[id := v]> (w_db w).
Proof.
  intros Hk Hr. apply tx_Ok in Hr as (w0 & w1 & E0 & _ & Hr & ->). rewrite <-E0 in *. clear E0 w.
  apply bind_Ok in Hr as (u & w2 & Hg & Hr). apply GetUserByID_Ok in Hg as (Hd & _ & Hu & Ha).
  apply bind_Ok in Hr as (u' & w3 & Hup & Hr). apply of_result_Ok in Hup as [(name & display & email & ->)%User_Update_Ok ->].
  apply UpdateUser_Ok in Hr as (x & Hx & _ & -> & _ & Hc & ->). rewrite Hd in *.
  rewrite (Hk _ _ Hu : User_ID (with_account name display email u) = id) in *. rewrite Hu in Hx. injection Hx as <-.
  exists u, name, display, email. by destruct u.
Qed.

Lemma ChangePassword_Ok id sid old new w w' :
  ChangePassword id sid old new false w = (Ok tt, w') →
  ∃ u h, users (w_db w) !! id = Some u ∧ user_active u = true ∧ User_PasswordHash u ≠ None ∧
    w_db w' = on_sessions (update_where (λ s, (Session_UserID s =? id) && negb (Session_ID s =? sid) && session_open (w_now w) s) (with_revoked (w_now w)))
      (on_users <[id := with_password (Some h) false u]> (w_db w)).
Proof.
  intros Hr. apply tx_Ok in Hr as (w0 & w1 & E0 & En & Hr & ->). rewrite <-E0, <-En. clear E0 En w.
  apply bind_Ok in Hr as (u & w2 & Hg & Hr). apply GetUserByID_Ok in Hg as (Hd & Hn2 & Hu & Ha).
  destruct (checkPassword _ _) eqn:Hpw; [cbn [negb] in Hr|done]. apply bind_Ok in Hr as ([] & w3 & Hv & Hr). apply of_result_Ok in Hv as [_ ->].
  apply bind_Ok in Hr as (h & w4 & Hh & Hr). apply hashPassword_Ok in Hh as (Hd4 & Hn4 & _).
  apply bind_Ok in Hr as ([] & w5 & Hp & Hr). apply affected_Ok in Hp as (n & Hp & Hne). apply update_user_Ok in Hp as (x & Hx & _ & Hd5 & Hn5); [|done].
  rewrite Hd4, Hd in *. rewrite Hu in Hx. injection Hx as <-. apply (exec_Ok _ true) in Hr as (d' & [= <-] & -> & _).
  exists u, h. rewrite Hd5, Hn5, Hn4, Hn2. do 2 (split; [done|]). split; [|done]. intros E. by rewrite E in Hpw.
Qed.

(** The two tables after an update of one user's row. *)
Lemma put_twice d i u v : on_users <[i := v]> (on_users <[i := u]> d) = on_users <[i := v]> d.
Proof. unfold on_users. cbn. by rewrite insert_insert_eq. Qed.

Lemma with_role_again r u : with_user (with_role r u) u = with_role r u.
Proof. by destruct u. Qed.

Lemma PromoteUser_Ok p target pw w v w' :
  (∀ i u, users (w_db w) !! i = Some u → User_ID u = i) → PromoteUser p target pw false w = (Ok v, w') →
  IsSuperAdmin p = true ∧ Principal_UserID p ≠ target ∧
  ∃ u h, users (w_db w) !! target = Some u ∧ user_active u = true ∧
    w_db w' = on_users <[target := with_password (Some h) true (with_role AdminRole u)]> (w_db w).
Proof.
  intros Hk Hr. unfold PromoteUser in Hr. destruct (IsSuperAdmin p) eqn:Hs; [cbn [negb] in Hr|done].
  destruct (Z.eqb_spec (Principal_UserID p) target) as [|Hne]; [done|]. split; [done|]. split; [done|].
  apply bind_Ok in Hr as ([] & wa & Hv & Hr). apply of_result_Ok in Hv as [_ ->]. apply bind_Ok in Hr as (h & wb & Hh & Hr). apply hashPassword_Ok in Hh as (Ed & _).
  apply tx_Ok in Hr as (w0 & w1 & E0 & _ & Hr & ->). rewrite <-Ed, <-E0 in *. clear E0 Ed w wb.
  apply bind_Ok in Hr as (u & w2 & Hg & Hr). apply GetUserByID_Ok in Hg as (Hd & _ & Hu & Ha). destruct (bool_decide _); [done|].
  apply bind_Ok in Hr as (v1 & w3 & Hup & Hr). apply UpdateUser_Ok in Hup as (x & Hx & _ & -> & _ & _ & Hd3).
  apply bind_Ok in Hr as ([] & w4 & Hp & [= <- <-]). apply affected_Ok in Hp as (n & Hp & Hn). apply update_user_Ok in Hp as (y & Hy & _ & Hd4 & _); [|done].
  rewrite Hd in *. rewrite (Hk _ _ Hu : User_ID (with_role AdminRole u) = target) in *. rewrite Hu in Hx. injection Hx as <-.
  rewrite Hd3 in Hy. cbn in Hy. rewrite lookup_insert_eq in Hy. injection Hy as <-. exists u, h. by rewrite Hd4, Hd3, put_twice, with_role_again.
Qed.

Lemma DemoteUser_Ok p target w v w' :
  (∀ i u, users (w_db w) !! i = Some u → User_ID u = i) → DemoteUser p target false w = (Ok v, w') →
  IsSuperAdmin p = true ∧ Principal_UserID p ≠ target ∧
  ∃ u, users (w_db w) !! target = Some u ∧ user_active u = true ∧
    w_db w' = on_sessions (update_where (λ s, (Session_UserID s =? target) && session_open (w_now w) s) (with_revoked (w_now w)))
      (on_users <[target := with_password None (User_MustChangePassword u) (with_role UserRole u)]> (w_db w)).
Proof.
  intros Hk Hr. unfold DemoteUser in Hr. destruct (IsSuperAdmin p) eqn:Hs; [cbn [negb] in Hr|done].
  destruct (Z.eqb_spec (Principal_UserID p) target) as [|Hne]; [done|]. split; [done|]. split; [done|].
  apply tx_Ok in Hr as (w0 & w1 & E0 & En & Hr & ->). rewrite <-E0, <-En in *. clear E0 En w.
  apply bind_Ok in Hr as (u & w2 & Hg & Hr). apply GetUserByID_Ok in Hg as (Hd & Hn2 & Hu & Ha).
  apply bind_Ok in Hr as (v1 & w3 & Hup & Hr). apply UpdateUser_Ok in Hup as (x & Hx & _ & -> & Hn3 & _ & Hd3).
  apply bind_Ok in Hr as ([] & w4 & Hp & Hr). apply affected_Ok in Hp as (n & Hp & Hn). apply update_user_Ok in Hp as (y & Hy & _ & Hd4 & Hn4); [|done].
  apply bind_Ok in Hr as ([] & w5 & Hrv & [= <- <-]). apply (exec_Ok _ true) in Hrv as (d' & [= <-] & -> & _).
  rewrite Hd in *. rewrite (Hk _ _ Hu : User_ID (with_role UserRole u) = target) in *. rewrite Hu in Hx. injection Hx as <-.
  rewrite Hd3 in Hy. cbn in Hy. rewrite lookup_insert_eq in Hy. injection Hy as <-. exists u. rewrite Hd4, Hd3, put_twice, with_role_again, Hn4, Hn3, Hn2. done.
Qed.

Lemma DeleteUser_Ok p target w w' :
  DeleteUser p target false w = (Ok tt, w') →
  IsSuperAdmin p = true ∧ Principal_UserID p ≠ target ∧
  ∃ u, users (w_db w) !! target = Some u ∧ user_active u = true ∧
    users (w_db w') = <[target := with_user_deleted (current_timestamp (w_now w)) u]> (users (w_db w)) ∧
    sessions (w_db w') = update_where (λ s, (Session_UserID s =? target) && session_open (w_now w) s) (with_revoked (w_now w)) (sessions (w_db w)).
Proof.
  intros Hr. unfold DeleteUser in Hr. destruct (IsSuperAdmin p) eqn:Hs; [cbn [negb] in Hr|done].
  destruct (Z.eqb_spec (Principal_UserID p) target) as [|Hne]; [done|]. split; [done|]. split; [done|].
  apply tx_Ok in Hr as (w0 & w1 & E0 & En & Hr & ->). rewrite <-E0, <-En in *. clear E0 En w.
  apply bind_Ok in Hr as (u & w2 & Hg & Hr). apply GetUserByID_Ok in Hg as (Hd & Hn2 & Hu & Ha).
  apply bind_Ok in Hr as ([] & w3 & Hrv & Hr). apply (exec_Ok _ true) in Hrv as (d' & [= <-] & Hd3 & Hn3 & _).
  apply bind_Ok in Hr as ([] & w4 & Hp & Hr). apply affected_Ok in Hp as (n & Hp & Hn). apply update_user_Ok in Hp as (y & Hy & _ & Hd4 & _); [|done].
  apply observers_Ok in Hr as (_ & E1 & E2 & _). rewrite Hd3 in *. cbn in Hy. rewrite Hd in *. rewrite Hu in Hy. injection Hy as <-.
  exists u. rewrite E1, E2, Hd4, Hn3, Hn2. done.
Qed.

Lemma Login_Ok name pw w tok u w' :
  (∀ i u, users (w_db w) !! i = Some u → User_ID u = i) → Login name pw false w = (Ok (tok, u), w') →
  users (w_db w) !! User_ID u = Some u ∧ user_active u = true ∧ nocase_eqb (User_Username u) name = true ∧
  checkPassword (User_PasswordHash u) pw = true ∧
  w_db w' = on_sessions <[fresh_id (sessions (w_db w)) :=
    mkSession (fresh_id (sessions (w_db w))) (User_ID u) (hashRawToken tok) (w_now w) (w_now w + tokenDuration) None None]> (w_db w).
Proof.
  intros Hk Hl. apply tx_Ok in Hl as (w0 & w1 & E0 & En & Hl & ->). rewrite <-E0, <-En in *. clear E0 En w.
  apply bind_Ok in Hl as (x & w2 & Hg & Hl). apply map_err_Ok, get_row_Ok in Hg as (E2 & En2 & _ & Hg).
  apply table_find_Some in Hg as (k & Hx & Hp). apply andb_true_iff in Hp as [Ha Hn].
  destruct (checkPassword _ _) eqn:Hc; [cbn [negb] in Hl|done]. apply bind_Ok in Hl as ([raw h] & w3 & Ht & Hl).
  apply bind_Ok in Ht as (b & w4 & Hb & [= <- <- <-]). apply read_rand_Ok in Hb as (E4 & En4 & _).
  apply bind_Ok in Hl as (t & w5 & [= <- <-] & Hl). apply bind_Ok in Hl as (s & w6 & Hs & [= <- <- <-]).
  apply (exec_Ok _ true) in Hs as (d' & Hs & -> & _). cbn in Hs. rewrite E4, E2, (Hk _ _ Hx), Hx in Hs. injection Hs as <- <-.
  rewrite (Hk _ _ Hx), En4, En2. done.
Qed.

Lemma keeps_out_atomic I {A} (m : M A) :
  atomic m → (∀ w a w', m false w = (Ok a, w') → I (w_db w) → I (w_db w')) → keeps_out I m.
Proof. intros Ha Hok w Hw. destruct (m false w) as [[a|e] w'] eqn:E; [by eapply Hok|]. apply Ha in E. cbn. by rewrite E. Qed.

Lemma atomic_PromoteUser p target pw : atomic (PromoteUser p target pw).
Proof.
  unfold PromoteUser. destruct (negb _); [apply atomic_throw|]. destruct (_ =? _); [apply atomic_throw|]. intros w e w' Hr.
  rewrite bind_run, of_result_run in Hr. destruct (ValidatePassword pw) as [[]|]; [|by injection Hr as _ <-]. rewrite bind_run in Hr.
  destruct (hashPassword pw false w) as [[h|e'] w1] eqn:Eh; [|injection Hr as _ <-; by eapply hashPassword_Err].
  apply hashPassword_Ok in Eh as (<- & _). by eapply withinTx_rollback.
Qed.

Lemma atomic_DemoteUser p target : atomic (DemoteUser p target).
Proof. unfold DemoteUser. destruct (negb _); [apply atomic_throw|]. destruct (_ =? _); [apply atomic_throw|]. apply atomic_tx. Qed.

Lemma atomic_DeleteUser p target : atomic (DeleteUser p target).
Proof. unfold DeleteUser. destruct (negb _); [apply atomic_throw|]. destruct (_ =? _); [apply atomic_throw|]. apply atomic_tx. Qed.
End effects.

(** ** Every operation keeps the invariant and the root *)

Section safety.
Context `{GoUnicode} `{Bcrypt} `{UserObservers} (d0 : db).

Lemma kept_ext d d' : users d' = users d → sessions d' = sessions d → kept d0 d → kept d0 d'.
Proof. intros Eu Es [[] [U S]]. split; [constructor|split]; rewrite ?Eu, ?Es; done. Qed.

(** A superadmin's principal is the root's. *)
Definition principal_ok (d : db) (p : Principal) : Prop := Principal_Role p = SuperAdminRole → root d (Principal_UserID p).

Lemma not_root d p target :
  kept d0 d → principal_ok d0 p → IsSuperAdmin p = true → Principal_UserID p ≠ target → ¬ root d target.
Proof.
  intros [I Hl] Hp Hs Hne Ht. apply bool_decide_eq_true in Hs. apply Hne. eapply root_unique; [done| |done].
  eapply root_later; [|done]. by apply Hp.
Qed.

Lemma kept_put_user d i u v :
  kept d0 d → users d !! i = Some u → User_ID v = i → User_CreatedBy v = User_CreatedBy u →
  (User_CreatedBy u = None ↔ User_Role v = SuperAdminRole) →
  (User_CreatedBy u = None → User_DeletedAt v = None) →
  (User_Role v = UserRole → User_PasswordHash v = None) →
  (user_active v = true → user_active u = true ∧
     (User_Username v = User_Username u ∧ User_Email v = User_Email u ∨
      account_clash d (Some i) (User_Username v) (User_Email v) = None)) →
  kept d0 (on_users <[i := v]> d).
Proof.
  intros [I Hl] Hu Hid Hcb ???? . split; [by eapply inv_put_user|]. etrans; [exact Hl|]. eapply later_put_user; [done..|]. naive_solver.
Qed.

Lemma keeps_revoke (P : time → Session → bool) :
  keeps (kept d0) (exec (λ t d, Ok (tt, on_sessions (update_where (P t) (with_revoked t)) d))).
Proof.
  apply keeps_exec. intros t d a d' Hd [= <- <-]. destruct Hd as [I Hl].
  split; [apply (inv_map_sessions d (λ s, if P t s then with_revoked t s else s)); [done|]|etrans; [exact Hl|];
    apply (later_sessions d (λ s, if P t s then with_revoked t s else s))]; intros s; by destruct (P t s).
Qed.

Lemma keeps_RevokeAllUserSessions id : keeps (kept d0) (RevokeAllUserSessions id).
Proof. apply (keeps_revoke (λ t s, (Session_UserID s =? id) && session_open t s)). Qed.

Lemma keeps_RevokeAllUserSessionsExcept id sid : keeps (kept d0) (RevokeAllUserSessionsExcept id sid).
Proof. apply (keeps_revoke (λ t s, (Session_UserID s =? id) && negb (Session_ID s =? sid) && session_open t s)). Qed.

Lemma keeps_with_revoked id : keeps (kept d0) (RevokeSessionByID id).
Proof.
  apply keeps_exec. intros t d a d' [[] Hl] [= <- <-]. split; [constructor; cbn; try done; intros i s Hs; lookups; eauto|].
  etrans; [exact Hl|]. split; cbn; [eauto|]. intros i s Hs. destruct (decide (id = i)) as [->|Hne].
  - rewrite lookup_alter_eq, Hs. by eexists.
  - rewrite lookup_alter_ne by done. eauto 10.
Qed.

Lemma keeps_CreateSession s : keeps (kept d0) (CreateSession s).
Proof.
  apply keeps_exec. intros t d a d' [[] Hl] E. destruct (users d !! _) as [u|] eqn:Eu; [|done]. injection E as <- <-.
  split; [constructor; cbn; try done; intros i x Hx; lookups; cbn; eauto|]. etrans; [exact Hl|]. split; cbn; [eauto|].
  intros i x Hx. rewrite lookup_insert_ne; [eauto 10|]. intros <-. by rewrite fresh_id_None in Hx.
Qed.

Lemma keeps_observers e : keeps (kept d0) (notifyUserObservers e).
Proof.
  unfold notifyUserObservers. induction user_observers_ok as [|o os Ho _ IH]; cbn [for_each]; [apply keeps_ret|].
  apply keeps_bind; [|done]. intros tx w. destruct (Ho e tx w) as (w' & -> & Eu & Es & _). by apply kept_ext.
Qed.

Hint Resolve keeps_with_revoked keeps_CreateSession keeps_observers : pw.

(** A new row keeps the invariant. *)
Lemma kept_new_row d d' P :
  kept d0 d → new_row d d' P →
  (∀ u, P u → (User_CreatedBy u = None ↔ User_Role u = SuperAdminRole) ∧ (User_CreatedBy u = None → ∀ r, ¬ root d r) ∧
     (User_Role u = UserRole → User_PasswordHash u = None)) → kept d0 d'.
Proof.
  intros [I Hl] [Es [Eu|(u & Eu & Hid & Hdel & Hc & HP)]] Hu; [by eapply kept_ext; [exact Eu|exact Es|split]|].
  destruct (Hu u HP) as (H1' & H2' & H3'). apply (kept_ext (on_users <[fresh_id (users d) := u]> d)); [done|done|]. split.
  - apply inv_new_user; try done; [apply fresh_id_None|auto].
  - etrans; [exact Hl|]. apply later_new_user, fresh_id_None.
Qed.

Lemma keeps_CreateUser name display email p : keeps_out (kept d0) (CreateUser name display email p).
Proof.
  intros w Hw. eapply kept_new_row; [exact Hw|apply CreateUser_new|]. intros u (-> & -> & Hp). by repeat split.
Qed.

Lemma keeps_Login name pw : keeps (kept d0) (Login name pw).
Proof. unfold Login, GetUserByUsername, generateToken. structural. Qed.

Lemma keeps_BootstrapAdmin pw : keeps_out (kept d0) (BootstrapAdmin pw).
Proof.
  apply keeps_out_atomic; [apply atomic_tx|]. intros w [] w' Hr Hw. eapply kept_new_row; [exact Hw|by apply BootstrapAdmin_Ok in Hr|].
  intros u (-> & -> & Hno). by repeat split.
Qed.

Lemma keeps_UpdateOwnProfile id ups : keeps_out (kept d0) (UpdateOwnProfile id ups).
Proof.
  apply keeps_out_atomic; [apply atomic_tx|]. intros w v w' Hr I. pose proof I as [[] _].
  apply UpdateOwnProfile_Ok in Hr as (u & name & display & email & Hu & Ha & -> & Hc & ->); [|done]. eapply kept_put_user; cbn; eauto.
Qed.

(** Sessions revoked in place. *)
Lemma kept_revoked t P d : kept d0 d → kept d0 (on_sessions (update_where P (with_revoked t)) d).
Proof.
  intros [I Hl]. split; [apply (inv_map_sessions d (λ s, if P s then with_revoked t s else s)); [done|]|etrans; [exact Hl|];
    apply (later_sessions d (λ s, if P s then with_revoked t s else s))]; intros s; by destruct (P s).
Qed.

Lemma keeps_ChangePassword id sid old new : keeps_out (kept d0) (ChangePassword id sid old new).
Proof.
  apply keeps_out_atomic; [apply atomic_tx|]. intros w [] w' Hr I. pose proof I as [[] _].
  apply ChangePassword_Ok in Hr as (u & h & Hu & Ha & Hpw & ->). apply kept_revoked. eapply kept_put_user; cbn; eauto.
  intros Hrole. by destruct Hpw; eapply au_no_password0.
Qed.

(** The target of a superadmin's request is no root. *)
Lemma target_not_root d p target u :
  kept d0 d → principal_ok d0 p → IsSuperAdmin p = true → Principal_UserID p ≠ target → users d !! target = Some u → User_CreatedBy u ≠ None.
Proof. intros Hk Hp Hs Hne Hu Hc. eapply not_root; [exact Hk|exact Hp|done|done|]. by exists u. Qed.

Lemma keeps_DemoteUser p target : principal_ok d0 p → keeps_out (kept d0) (DemoteUser p target).
Proof.
  intros Hp. apply keeps_out_atomic; [apply atomic_DemoteUser|]. intros w v w' Hr I. pose proof I as [[] _].
  apply DemoteUser_Ok in Hr as (Hs & Hne & u & Hu & Ha & ->); [|done]. pose proof (target_not_root _ _ _ _ I Hp Hs Hne Hu).
  apply kept_revoked. eapply kept_put_user; cbn; eauto; naive_solver.
Qed.

Lemma keeps_PromoteUser p target pw : principal_ok d0 p → keeps_out (kept d0) (PromoteUser p target pw).
Proof.
  intros Hp. apply keeps_out_atomic; [apply atomic_PromoteUser|]. intros w v w' Hr I. pose proof I as [[] _].
  apply PromoteUser_Ok in Hr as (Hs & Hne & u & h & Hu & Ha & ->); [|done]. pose proof (target_not_root _ _ _ _ I Hp Hs Hne Hu).
  eapply kept_put_user; cbn; eauto; naive_solver.
Qed.

Lemma keeps_DeleteUser p target : principal_ok d0 p → keeps_out (kept d0) (DeleteUser p target).
Proof.
  intros Hp. apply keeps_out_atomic; [apply atomic_DeleteUser|]. intros w [] w' Hr I. pose proof I as [[] _].
  apply DeleteUser_Ok in Hr as (Hs & Hne & u & Hu & Ha & Eu & Es). pose proof (target_not_root _ _ _ _ I Hp Hs Hne Hu).
  eapply (kept_ext (on_sessions _ (on_users _ (w_db w)))); [exact Eu|exact Es|]. apply kept_revoked.
  eapply kept_put_user; cbn; eauto; naive_solver.
Qed.
End safety.
