(* ===== verification/AuthSpec.v ===== *)
(** * AuthSpec: logging in, being authenticated, losing access

    A login's token authenticates its user for seven days; a demotion, a
    deletion and a change of password close the sessions they must; open
    sessions are administrators' sessions only. *)

From S2P Require Import Prelude GoLib Schema Store Http Crypto Auth AuthInv.

Local Open Scope Z_scope.

(** ** Authentication *)

(** The session a principal stands for, at a time. *)
Definition session_of (t : time) (d : db) (p : Principal) (tokenHash : string) : Prop :=
  ∃ s u, sessions d !! Principal_SessionID p = Some s ∧ Session_TokenHash s = tokenHash ∧ session_open t s = true ∧
    Session_UserID s = Principal_UserID p ∧ users d !! Principal_UserID p = Some u ∧ user_active u = true ∧
    User_Role u = Principal_Role p.

Lemma session_with_role_Some t d h sr :
  auth_inv d → session_with_role t d h = Some sr → session_of t d (PrincipalFromSession sr) h.
Proof.
  intros I Hs. unfold session_with_role in Hs. set (l := omap _ _) in Hs. destruct l as [|x l'] eqn:El; [done|]. injection Hs as ->.
  assert (sr ∈ l) as Hin by (rewrite El; by left). apply list_elem_of_omap in Hin as (s & (i & Hi)%elem_of_rows & E).
  destruct (bool_decide _) eqn:Eh; [|done]. destruct (session_open t s) eqn:Eo; [|done]. apply bool_decide_eq_true in Eh.
  apply bind_Some in E as (u & [Hu Ha]%active_user_Some & [= <-]). exists s, u. cbn. rewrite (au_session_id _ I _ _ Hi). by subst.
Qed.

(** With one session of a hash, that session is found. *)
Lemma session_with_role_unique t d p h :
  (∀ i j s s', sessions d !! i = Some s → sessions d !! j = Some s' → Session_TokenHash s = h → Session_TokenHash s' = h → i = j) →
  auth_inv d → session_of t d p h → ∃ sr, session_with_role t d h = Some sr ∧ PrincipalFromSession sr = p.
Proof.
  intros Hun I (s & u & Hs & Hh & Ho & Hsu & Hu & Ha & Hr).
  destruct (session_with_role t d h) as [sr|] eqn:E.
  - exists sr. split; [done|]. apply session_with_role_Some in E as (s' & u' & Hs' & Hh' & _ & Hsu' & Hu' & _ & Hr'); [|done].
    assert (Principal_SessionID (PrincipalFromSession sr) = Principal_SessionID p) as Ei by by eapply Hun.
    rewrite Ei, Hs in Hs'. injection Hs' as <-. destruct (PrincipalFromSession sr) as [u1 s1 r1], p as [u2 s2 r2]. cbn in *. subst s1 u1 u2 r1 r2.
    rewrite Hu in Hu'. by injection Hu' as <-.
  - exfalso. unfold session_with_role in E. destruct (omap _ _) as [|x l] eqn:El; [|done].
    assert ((s, User_Role u) ∈ omap (λ s, if bool_decide (Session_TokenHash s = h) && session_open t s
      then u ← active_user d (Session_UserID s); Some (s, User_Role u) else None) (rows (sessions d))) as Hin.
    { apply list_elem_of_omap. exists s. split; [by apply elem_of_rows; eexists|]. rewrite bool_decide_eq_true_2, Ho by done. cbn.
      by rewrite Hsu, (proj2 (active_user_Some _ _ _) (conj Hu Ha)). }
    rewrite El in Hin. by apply elem_of_nil in Hin.
Qed.

Lemma Authenticate_Ok tok tx w p w' :
  auth_inv (w_db w) → Authenticate tok tx w = (Ok p, w') → w_db w' = w_db w ∧ session_of (w_now w) (w_db w) p (hashRawToken tok).
Proof.
  intros I Ha. apply fmap_Ok in Ha as (sr & Ha & ->). apply map_err_Ok in Ha. apply (get_row_Ok _ tx) in Ha as (? & _ & _ & Hs).
  split; [done|]. by apply session_with_role_Some.
Qed.

(** ** Logging in *)

Section login.
Context `{GoUnicode} `{Bcrypt} `{UserObservers}.

(** C18: a successful login is of a live user with that name, who is
    not a plain user, and whose password it is.  Its token then authenticates
    her, with her role, up to the second its seven days end in, and no longer
    (when no older session happens to have the token's hash). *)
Theorem login_authenticates name pw w tok u w1 tx w2 :
  auth_inv (w_db w) → Login name pw false w = (Ok (tok, u), w1) → tok ≠ ""%string →
  (∀ i s, sessions (w_db w) !! i = Some s → Session_TokenHash s ≠ hashRawToken tok) →
  w_db w2 = w_db w1 → no_faults w2 →
  (users (w_db w) !! User_ID u = Some u ∧ User_DeletedAt u = None ∧ nocase_eqb (User_Username u) name = true ∧
   User_Role u ≠ UserRole ∧ checkPassword (User_PasswordHash u) pw = true) ∧
  PrincipalUserContext (Some tok) tx w2 =
    (Ok (if unix_seconds (w_now w2) <=? unix_seconds (w_now w + tokenDuration)
         then Some (mkPrincipal (User_ID u) (fresh_id (sessions (w_db w))) (User_Role u)) else None), w2).
Proof.
  intros I Hl Htok Hfresh Ed Hnf. pose proof (keeps_Login (w_db w) name pw false w (conj I (reflexivity _))) as [I1 _]. rewrite Hl in I1. cbn in I1.
  apply Login_Ok in Hl as (Hu & Ha & Hn & Hc & E1); [|apply I]. rewrite E1 in Ed. rewrite E1, <-Ed in I1. set (sid := fresh_id _) in *.
  assert (User_DeletedAt u = None) as Hdel by by apply bool_decide_eq_true in Ha.
  split.
  { do 3 (split; [done|]). split; [|done]. intros Hr. by rewrite (au_no_password _ I _ _ Hu Hr) in Hc. }
  set (s := mkSession _ _ _ _ _ _ _) in Ed. assert (∀ i x, sessions (w_db w2) !! i = Some x → Session_TokenHash x = hashRawToken tok → i = sid ∧ x = s) as Hone.
  { rewrite Ed. cbn. intros i x Hx Hh. lookups; [done|]. by eapply Hfresh in Hh. }
  unfold PrincipalUserContext. destruct tok as [|c tok]; [done|]. set (t := String c tok) in *.
  rewrite catch_run, fmap_run. unfold Authenticate, GetSessionWithRoleByTokenHash. rewrite fmap_run, map_err_run, get_row_run by done.
  destruct (unix_seconds (w_now w2) <=? _) eqn:Et.
  - destruct (session_with_role_unique (w_now w2) (w_db w2) (mkPrincipal (User_ID u) sid (User_Role u)) (hashRawToken t)) as (sr & -> & ->); [|done| |done].
    + intros i j x y Hi Hj Ei Ej. destruct (Hone i x Hi Ei) as [-> _], (Hone j y Hj Ej) as [-> _]. done.
    + exists s, u. rewrite Ed. cbn. rewrite lookup_insert_eq. unfold session_open, session_unexpired. cbn. by rewrite Et.
  - destruct (session_with_role _ _ _) as [sr|] eqn:Es; [|done]. exfalso. apply session_with_role_Some in Es as (x & y & Hx & Hh & Ho & _); [|done].
    destruct (Hone _ _ Hx Hh) as [_ ->]. unfold session_open, session_unexpired in Ho. cbn in Ho. by rewrite Et in Ho.
Qed.

(** ** Removing a user's access *)

(** A demotion or a deletion that went through. *)
Definition removes (p : Principal) (target : UserID) (w w' : world) : Prop :=
  (∃ u, DemoteUser p target false w = (Ok u, w')) ∨ DeleteUser p target false w = (Ok tt, w').

(** No session of the user is open. *)
Definition sessions_closed (target : UserID) (t : time) (d : db) : Prop :=
  ∀ i s, sessions d !! i = Some s → Session_UserID s = target → session_open t s = false.

Lemma closed_by_revoking target t d d' :
  sessions d' = update_where (λ s, (Session_UserID s =? target) && session_open t s) (with_revoked t) (sessions d) → sessions_closed target t d'.
Proof.
  intros Es i s. rewrite Es, lookup_update_where, fmap_Some. intros (x & Hx & ->) Hs. destruct (session_open t x) eqn:Ho.
  - assert (Session_UserID x = target) as Hid by by destruct (_ && _). by rewrite Hid, Z.eqb_refl.
  - by rewrite andb_false_r.
Qed.

(** The user is left without sessions, and without a password or deleted. *)
Lemma removes_closed p target w w' :
  auth_inv (w_db w) → removes p target w w' →
  sessions_closed target (w_now w) (w_db w') ∧
  ∀ u, users (w_db w') !! target = Some u → user_active u = true → User_PasswordHash u = None.
Proof.
  intros I [[u Hd]|Hd].
  - apply DemoteUser_Ok in Hd as (_ & _ & x & _ & _ & E); [|apply I]. split; [eapply closed_by_revoking; by rewrite E|].
    intros v. rewrite E. cbn. rewrite lookup_insert_eq. by intros [= <-].
  - apply DeleteUser_Ok in Hd as (_ & _ & x & _ & _ & Eu & Es). split; [by eapply closed_by_revoking|].
    intros v. rewrite Eu, lookup_insert_eq. by intros [= <-].
Qed.

(** ** Changing a password *)

Definition change_password_error (d : db) (userID : UserID) (currentPassword newPassword : string) : option error :=
  match active_user d userID with
  | None => Some ErrUserNotFound
  | Some u =>
      if negb (checkPassword (User_PasswordHash u) currentPassword) then Some ErrInvalidCredentials
      else match ValidatePassword newPassword with Err e => Some e | Ok _ => None end
  end.

Lemma ValidatePassword_length pw : ValidatePassword pw = Ok tt ↔ (8 ≤ String.length pw ≤ 72)%nat.
Proof. unfold ValidatePassword. repeat case_match; (split; [try done|]); try rewrite Nat.ltb_lt in *; try rewrite Nat.ltb_ge in *; try done; lia. Qed.

(** The run of the transaction's body. *)
Lemma ChangePassword_body uid sid old new w b rs u :
  no_faults w → w_rand w = b :: rs → active_user (w_db w) uid = Some u →
  change_password_error (w_db w) uid old new = None →
  ∃ h w', CompareHashAndPassword h new = true ∧ ChangePassword uid sid old new false w = (Ok tt, w') ∧
    w_db w' = on_sessions (update_where (λ s, (Session_UserID s =? uid) && negb (Session_ID s =? sid) && session_open (w_now w) s) (with_revoked (w_now w)))
      (on_users <[uid := with_password (Some h) false u]> (w_db w)).
Proof.
  intros Hnf Hr Hu He. unfold change_password_error in He. rewrite Hu in He. destruct (checkPassword _ _) eqn:Hc; [|done].
  destruct (ValidatePassword new) as [[]|] eqn:Hv; [clear He|done]. apply ValidatePassword_length in Hv as Hlen.
  destruct (bcrypt_total b new) as [h Hh]; [lia|]. exists h. eexists. split; [by eapply bcrypt_correct|].
  unfold ChangePassword. rewrite withinTx_run; [|done|].
  2:{ match goal with |- no_faults (?m true w).2 => assert (quiet m) as Hq; [|by apply Hq] end.
      unfold GetUserByID, hashPassword, UpdatePasswordHash, update_user, RevokeAllUserSessionsExcept. structural. }
  unfold GetUserByID. rewrite bind_run, map_err_run, get_row_run, Hu, Hc by done. cbn [negb].
  rewrite bind_run, of_result_run, Hv, bind_run. unfold hashPassword. rewrite bind_run. unfold read_rand. rewrite Hr, of_result_run, Hh.
  unfold UpdatePasswordHash, update_user, RevokeAllUserSessionsExcept. rewrite !bind_run, exec_run by done. cbn [w_db set_rand w_now]. rewrite Hu.
  cbn. rewrite exec_run by done. cbn. split; reflexivity.
Qed.

(** Without faults, changing a password fails with nothing changed
    when the user is gone, the current password is wrong or the new one is
    not of 8 to 72 bytes; otherwise the new password is accepted from then
    on, and the only session of the user that may still be open is the one
    the request was made with, as it was. *)
Theorem ChangePassword_spec uid sid old new w b rs :
  no_faults w → w_rand w = b :: rs → auth_inv (w_db w) →
  match change_password_error (w_db w) uid old new with
  | Some e => ∃ w', ChangePassword uid sid old new false w = (Err e, w') ∧ w_db w' = w_db w
  | None => ∃ u h w', ChangePassword uid sid old new false w = (Ok tt, w') ∧ active_user (w_db w) uid = Some u ∧
      users (w_db w') = <[uid := with_password (Some h) false u]> (users (w_db w)) ∧ checkPassword (Some h) new = true ∧
      (∀ i s, sessions (w_db w') !! i = Some s → Session_UserID s = uid → session_open (w_now w) s = true → i = sid) ∧
      sessions (w_db w') !! sid = sessions (w_db w) !! sid
  end.
Proof.
  intros Hnf Hr I. destruct (change_password_error _ _ _ _) as [e|] eqn:He.
  - unfold ChangePassword. set (body := mbind _ _). unfold change_password_error in He.
    assert (body true w = (Err e, w) ∧ mapBusyErr e = e) as [Hb Hm].
    { unfold body, GetUserByID. rewrite bind_run, map_err_run, get_row_run by done. destruct (active_user _ _) as [u|]; [|by injection He as <-].
      destruct (negb _); [by injection He as <-|]. rewrite bind_run, of_result_run. unfold ValidatePassword in *.
      destruct (Nat.ltb _ 8); [by injection He as <-|]. destruct (Nat.ltb 72 _); [by injection He as <-|done]. }
    rewrite withinTx_run by (done || by rewrite Hb). rewrite Hb, Hm. eexists. split; [done|]. by rewrite markContended_db.
  - assert (∃ u, active_user (w_db w) uid = Some u) as [u Hu].
    { unfold change_password_error in He. destruct (active_user _ _); eauto. done. }
    destruct (ChangePassword_body uid sid old new w b rs u Hnf Hr Hu He) as (h & w' & Hh & Hrun & Hd). exists u, h, w'. rewrite Hd.
    split; [done|]. split; [done|]. split; [done|]. split; [done|]. cbn. split.
    + intros i s. rewrite lookup_fmap, fmap_Some. intros (x & Hx & ->) Hs Ho. pose proof (au_session_id _ I _ _ Hx) as Ei.
      destruct (_ && _) eqn:Ec; [by unfold session_open in Ho|]. rewrite Hs, Ho, Z.eqb_refl, andb_true_r in Ec. cbn in Ec.
      apply negb_false_iff, Z.eqb_eq in Ec. congruence.
    + rewrite lookup_fmap. destruct (sessions (w_db w) !! sid) as [x|] eqn:Hx; [|done]. cbn. by rewrite (au_session_id _ I _ _ Hx), Z.eqb_refl, andb_false_r.
Qed.
End login.

(** ** Sessions are the administrators'

    A plain user has no open session: she has no password, and her sessions
    are revoked when she is demoted. *)

Definition admins_only (t : time) (d : db) : Prop :=
  ∀ i s u, sessions d !! i = Some s → session_open t s = true → users d !! Session_UserID s = Some u → user_active u = true →
    User_Role u ≠ UserRole.

Lemma admins_ext t d d' : users d' = users d → sessions d' = sessions d → admins_only t d → admins_only t d'.
Proof. unfold admins_only. by intros -> ->. Qed.

Lemma admins_later t t' d : t ≤ t' → admins_only t d → admins_only t' d.
Proof.
  intros Ht Ha i s u Hs Ho. apply (Ha i s u Hs). unfold session_open, session_unexpired in *. apply andb_true_iff in Ho as [-> Ho].
  apply Z.leb_le in Ho. apply Z.leb_le. etrans; [|exact Ho]. by apply Z.div_le_mono.
Qed.

Lemma admins_put_user t d i u v :
  admins_only t d → users d !! i = Some u →
  (user_active v = true → User_Role v = UserRole → user_active u = true ∧ User_Role u = UserRole) →
  admins_only t (on_users <[i := v]> d).
Proof.
  intros Ha Hu Hv j s x Hs Ho Hx Hact Hr. cbn in *. lookups; [|by eapply Ha].
  destruct (Hv Hact Hr) as [Hact' Hr']. by eapply Ha.
Qed.

Lemma admins_revoked t t' P d : admins_only t d → admins_only t (on_sessions (update_where P (with_revoked t')) d).
Proof.
  intros Ha i s u Hs Ho. cbn [sessions on_sessions] in Hs. rewrite lookup_update_where, fmap_Some in Hs. destruct Hs as (x & Hx & ->).
  destruct (P x); [done|]. by apply (Ha i x).
Qed.

Lemma admins_new_row t d d' P : auth_inv d → new_row d d' P → admins_only t d → admins_only t d'.
Proof.
  intros I [Es [Eu|(u & Eu & _)]] Ha; [by eapply admins_ext|]. intros i s x. rewrite Es, Eu. intros Hs Ho Hx Hact. lookups; [|by eapply Ha].
  destruct (au_session_user _ I _ _ Hs) as [y Hy]. exfalso. eapply fresh_id_ne; [exact Hy|done].
Qed.

Section admins.
Context `{GoUnicode} `{Bcrypt} `{UserObservers}.

(** An atomic operation is judged by its successes. *)
Lemma at_atomic (I : db → Prop) {A} (m : M A) w :
  atomic m → I (w_db w) → (∀ a w', m false w = (Ok a, w') → I (w_db w')) → I (w_db (m false w).2).
Proof. intros Ha Hw Hok. destruct (m false w) as [[a|e] w'] eqn:E; [by eapply Hok|]. apply Ha in E. cbn. by rewrite E. Qed.

Lemma admins_Login name pw w :
  auth_inv (w_db w) → admins_only (w_now w) (w_db w) → admins_only (w_now w) (w_db (Login name pw false w).2).
Proof.
  intros I Ha. apply at_atomic; [apply atomic_tx|done|]. intros [tok u] w' Hl. apply Login_Ok in Hl as (Hu & _ & _ & Hc & ->); [|apply I].
  intros i s x Hs Ho Hx Hact Hr. cbn in *. lookups; cbn in *; [|by eapply Ha].
  by rewrite (au_no_password _ I _ _ Hu Hr) in Hc.
Qed.

Lemma admins_DemoteUser p target w :
  auth_inv (w_db w) → admins_only (w_now w) (w_db w) → admins_only (w_now w) (w_db (DemoteUser p target false w).2).
Proof.
  intros I Ha. apply at_atomic; [apply atomic_DemoteUser|done|]. intros v w' Hr.
  assert (sessions_closed target (w_now w) (w_db w')) as Hcl by (eapply (removes_closed p); [done|]; left; eauto).
  apply DemoteUser_Ok in Hr as (_ & _ & u & Hu & _ & E); [|apply I]. intros i s x Hs Ho Hx Hact.
  destruct (decide (Session_UserID s = target)) as [Ht|Ht]; [by rewrite (Hcl i s Hs Ht) in Ho|]. rewrite E in Hs, Hx. cbn [sessions users on_sessions on_users] in Hs, Hx.
  rewrite lookup_update_where, fmap_Some in Hs. destruct Hs as (y & Hy & ->). rewrite lookup_insert_ne in Hx by done.
  destruct (_ && _); [done|]. by eapply Ha.
Qed.

Lemma admins_DeleteUser p target w :
  admins_only (w_now w) (w_db w) → admins_only (w_now w) (w_db (DeleteUser p target false w).2).
Proof.
  intros Ha. apply at_atomic; [apply atomic_DeleteUser|done|]. intros [] w' Hr. apply DeleteUser_Ok in Hr as (_ & _ & u & Hu & _ & Eu & Es).
  eapply (admins_ext _ (on_sessions _ (on_users _ (w_db w)))); [exact Eu|exact Es|]. apply admins_revoked. by eapply admins_put_user.
Qed.

Lemma admins_PromoteUser p target pw w :
  auth_inv (w_db w) → admins_only (w_now w) (w_db w) → admins_only (w_now w) (w_db (PromoteUser p target pw false w).2).
Proof.
  intros I Ha. apply at_atomic; [apply atomic_PromoteUser|done|]. intros v w' Hr. apply PromoteUser_Ok in Hr as (_ & _ & u & h & Hu & _ & ->); [|apply I].
  by eapply admins_put_user.
Qed.

Lemma admins_UpdateOwnProfile id ups w :
  auth_inv (w_db w) → admins_only (w_now w) (w_db w) → admins_only (w_now w) (w_db (UpdateOwnProfile id ups false w).2).
Proof.
  intros I Ha. apply at_atomic; [apply atomic_tx|done|]. intros v w' Hr.
  apply UpdateOwnProfile_Ok in Hr as (u & name & display & email & Hu & _ & -> & _ & ->); [|apply I]. by eapply admins_put_user.
Qed.

Lemma admins_ChangePassword id sid old new w :
  admins_only (w_now w) (w_db w) → admins_only (w_now w) (w_db (ChangePassword id sid old new false w).2).
Proof.
  intros Ha. apply at_atomic; [apply atomic_tx|done|]. intros [] w' Hr. apply ChangePassword_Ok in Hr as (u & h & Hu & _ & _ & ->).
  apply admins_revoked. by eapply admins_put_user.
Qed.

Lemma admins_BootstrapAdmin pw w :
  auth_inv (w_db w) → admins_only (w_now w) (w_db w) → admins_only (w_now w) (w_db (BootstrapAdmin pw false w).2).
Proof.
  intros I Ha. apply at_atomic; [apply atomic_tx|done|]. intros [] w' Hr. eapply admins_new_row; [done|by eapply BootstrapAdmin_Ok|done].
Qed.

Lemma admins_CreateUser name display email p w :
  auth_inv (w_db w) → admins_only (w_now w) (w_db w) → admins_only (w_now w) (w_db (CreateUser name display email p false w).2).
Proof. intros I Ha. eapply admins_new_row; [done|apply CreateUser_new|done]. Qed.

Lemma admins_RevokeSession id t : keeps (admins_only t) (RevokeSession id).
Proof.
  apply keeps_exec. intros t' d a d' Ha [= <- <-] i s u Hs. cbn in Hs. lookups; [done|]. by apply (Ha i s).
Qed.
End admins.
