(* ===== verification/Web.v ===== *)
(** * Web: what is common to every answer ([internal/httpserver], [internal/ui])

    The browser security headers and the body limit that [NewServer] puts in
    front of all routes, the error answers of the API, the health endpoint,
    and the handler of the embedded single-page application.  Every answer
    carries the security headers. *)

From S2P Require Import Prelude GoLib Http.

Local Open Scope string_scope.
Local Open Scope Z_scope.

(** ** Answers under construction *)

(** [http.ResponseWriter]: headers may be set until the status is written;
    the answer's headers are those of that moment. *)
Record ResponseWriter (B : Type) := mkResponseWriter {
  rw_Header : gmap string string;
  rw_Sent : option (Z * gmap string string);
  rw_Body : list B;
}.
Arguments mkResponseWriter {B}. Arguments rw_Header {B}. Arguments rw_Sent {B}. Arguments rw_Body {B}.

Definition Header_Set {B} (key value : string) (w : ResponseWriter B) : ResponseWriter B :=
  mkResponseWriter (<[key := value]> (rw_Header w)) (rw_Sent w) (rw_Body w).

(** Only the first call counts. *)
Definition WriteHeader {B} (status : Z) (w : ResponseWriter B) : ResponseWriter B :=
  match rw_Sent w with
  | Some _ => w
  | None => mkResponseWriter (rw_Header w) (Some (status, rw_Header w)) (rw_Body w)
  end.

Definition Write {B} (b : B) (w : ResponseWriter B) : ResponseWriter B :=
  let w := WriteHeader 200 w in mkResponseWriter (rw_Header w) (rw_Sent w) (rw_Body w ++ [b]).

(** A request: its path, its body, and how much of it may be read. *)
Record WebRequest := mkWebRequest { web_Path : string; web_Body : string; web_BodyLimit : option Z }.

Abbreviation WebHandler B := (WebRequest → ResponseWriter B → ResponseWriter B).

(** Reading the whole body: an error beyond the limit. *)
Definition read_body (r : WebRequest) : option string :=
  match web_BodyLimit r with
  | Some n => if n <? Z.of_nat (String.length (web_Body r)) then None else Some (web_Body r)
  | None => Some (web_Body r)
  end.

(** ** Middleware (middleware.go) *)

Definition contentSecurityPolicy : string :=
  "default-src 'self'; script-src 'self'; style-src 'self' 'unsafe-inline'; " +:+
  "img-src 'self' data:; font-src 'self'; object-src 'none'; base-uri 'self'; form-action 'self'; frame-ancestors 'none'".

Definition security_headers : list (string * string) := [
  ("X-Content-Type-Options", "nosniff");
  ("X-Frame-Options", "DENY");
  ("Strict-Transport-Security", "max-age=63072000; includeSubDomains");
  ("Content-Security-Policy", contentSecurityPolicy);
  ("Referrer-Policy", "strict-origin-when-cross-origin");
  ("Permissions-Policy", "camera=(), microphone=(), geolocation=(), interest-cohort=()") ].

Definition SecurityHeadersMiddleware {B} (next : WebHandler B) : WebHandler B := λ r w,
  next r (foldl (λ w kv, Header_Set kv.1 kv.2 w) w security_headers).

Definition MaxBodySizeMiddleware {B} (maxBytes : Z) (next : WebHandler B) : WebHandler B := λ r w,
  next (mkWebRequest (web_Path r) (web_Body r) (Some maxBytes)) w.

(** What [NewServer] puts in front of the routes, after the client address. *)
Definition server {B} (routes : WebHandler B) : WebHandler B :=
  SecurityHeadersMiddleware (MaxBodySizeMiddleware (256 * 1024) routes).

(** ** Error answers (server.go) *)

Inductive ErrorBody := ErrorResponse (msg : string) | HealthResponse (status : string) (at_ : time).

Definition createValidationErrorHandler (msg : string) (statusCode : Z) (w : ResponseWriter ErrorBody) : ResponseWriter ErrorBody :=
  Write (ErrorResponse msg) (WriteHeader statusCode (Header_Set "Content-Type" "application/json" w)).

Definition createRequestErrorHandler (err : string) (w : ResponseWriter ErrorBody) : ResponseWriter ErrorBody :=
  Write (ErrorResponse err) (WriteHeader 400 (Header_Set "Content-Type" "application/json" w)).

(** Contention asks the client to try again. *)
Definition response_error_handler (contended : bool) (w : ResponseWriter ErrorBody) : ResponseWriter ErrorBody :=
  if contended then
    Write (ErrorResponse "Service temporarily unavailable, please retry")
      (WriteHeader 503 (Header_Set "Content-Type" "application/json" (Header_Set "Retry-After" "1" w)))
  else Write (ErrorResponse "Internal server error") (WriteHeader 500 (Header_Set "Content-Type" "application/json" w)).

(** [health.Handler]. *)
Definition health_Handler (now : time) (w : ResponseWriter ErrorBody) : ResponseWriter ErrorBody :=
  Write (HealthResponse "ok" now) (WriteHeader 200 (Header_Set "Content-Type" "application/json" w)).

(** ** The application's files (ui_prod.go) *)

Definition has_prefix (p s : string) : bool := match cut_prefix p s with Some _ => true | None => false end.
Definition trim_prefix (p s : string) : string := default s (cut_prefix p s).

Section ui.
(** The embedded files: whether a name is a directory, [None] when it cannot
    be opened; and [http.FileServer] and [http.NotFound]. *)
Context {B : Type} (dist : string → option bool) (fileServer : string → ResponseWriter B → ResponseWriter B)
  (NotFound : ResponseWriter B → ResponseWriter B).

Definition ui_Handler : WebHandler B := λ r w,
  let path := web_Path r in
  if has_prefix "/api/" path then NotFound w
  else match dist (trim_prefix "/" path) with
       | Some false => fileServer path (if has_prefix "/assets/" path then Header_Set "Cache-Control" "public, max-age=31536000, immutable" w else w)
       | _ => fileServer "/" (Header_Set "Cache-Control" "no-cache" w)
       end.
End ui.

(** ** Every answer carries the headers *)

Definition secured (h : gmap string string) : Prop := ∀ k v, (k, v) ∈ security_headers → h !! k = Some v.

(** An answer under construction that will carry them. *)
Definition armed {B} (w : ResponseWriter B) : Prop :=
  secured (rw_Header w) ∧ ∀ status h, rw_Sent w = Some (status, h) → secured h.

(** [decent f]: [f] leaves the security headers alone. *)
Definition decent {B} (f : ResponseWriter B → ResponseWriter B) : Prop := ∀ w, armed w → armed (f w).

Lemma decent_Set {B} k v : k ∉ security_headers.*1 → decent (B := B) (Header_Set k v).
Proof.
  intros Hk w [Hh Hs]. split; [|exact Hs]. intros k' v' Hin. cbn. rewrite lookup_insert_ne; [by apply Hh|].
  intros ->. apply Hk, list_elem_of_fmap. by exists (k', v').
Qed.

Lemma decent_WriteHeader {B} status : decent (B := B) (WriteHeader status).
Proof. intros w [Hh Hs]. unfold WriteHeader. destruct (rw_Sent w) eqn:E; [by split; [|rewrite E]|]. split; [done|]. by intros ? ? [= <- <-]. Qed.

Lemma decent_Write {B} (b : B) : decent (Write b).
Proof. intros w Hw. destruct (decent_WriteHeader 200 w Hw) as [Hh Hs]. by split. Qed.

Lemma security_headers_armed {B} (w : ResponseWriter B) :
  rw_Sent w = None → armed (foldl (λ w kv, Header_Set kv.1 kv.2 w) w security_headers).
Proof.
  intros Hn. split; [|cbn; rewrite Hn; done]. intros k v Hin. unfold security_headers in *. cbn [foldl Header_Set rw_Header fst snd] in *.
  set_unfold in Hin. destruct_or! Hin; injection Hin as -> ->; by simplify_map_eq.
Qed.

(** Whatever the routes answer, as long as none of their handlers sets one of
    the six headers itself, the answer carries them all. *)
Theorem server_secures {B} (routes : WebHandler B) r w :
  rw_Sent w = None → (∀ r, decent (routes r)) → armed (server routes r w).
Proof. intros Hw Hr. apply Hr. by apply security_headers_armed. Qed.

(** The program's own answers do so. *)
Lemma errors_decent msg status contended now :
  decent (createValidationErrorHandler msg status) ∧ decent (createRequestErrorHandler msg) ∧
  decent (response_error_handler contended) ∧ decent (health_Handler now).
Proof.
  assert (∀ k (w : ResponseWriter ErrorBody) v, k ∈ ["Content-Type"; "Retry-After"] → armed w → armed (Header_Set k v w)) as Hset.
  { intros k w v Hk. apply decent_Set. intros Hin. set_unfold in Hk. set_unfold in Hin. naive_solver. }
  unfold createValidationErrorHandler, createRequestErrorHandler, response_error_handler, health_Handler.
  split_and!; intros w Hw; try destruct contended; apply decent_Write, decent_WriteHeader; repeat apply Hset; done || set_solver.
Qed.

Lemma ui_decent {B} dist fileServer NotFound r :
  (∀ p, decent (B := B) (fileServer p)) → decent (B := B) NotFound → decent (ui_Handler dist fileServer NotFound r).
Proof.
  intros Hf Hn w Hw. assert (∀ v, armed (Header_Set "Cache-Control" v w)) as Hc.
  { intros v. apply decent_Set; [|done]. intros Hin. set_unfold in Hin. naive_solver. }
  unfold ui_Handler. destruct (has_prefix "/api/" _); [by apply Hn|]. destruct (dist _) as [[]|]; apply Hf; try apply Hc. by case_match.
Qed.

(** The application is never served under the API's paths, and a cached for
    ever answer is only ever one of the bundle's own files. *)
Lemma ui_api_not_found {B} dist fileServer NotFound r (w : ResponseWriter B) :
  has_prefix "/api/" (web_Path r) = true → ui_Handler dist fileServer NotFound r w = NotFound w.
Proof. intros Hp. unfold ui_Handler. by rewrite Hp. Qed.

(** No handler reads more than 256 KB of a body. *)
Lemma server_body_limit {B} (routes : WebHandler B) r w :
  ∃ r' w', server routes r w = routes r' w' ∧ web_Path r' = web_Path r ∧
    ∀ b, read_body r' = Some b → b = web_Body r ∧ Z.of_nat (String.length b) ≤ 262144.
Proof.
  eexists (mkWebRequest (web_Path r) (web_Body r) (Some _)), _. split; [reflexivity|]. split; [done|]. intros b.
  unfold read_body. cbn [web_BodyLimit web_Body]. destruct (Z.ltb_spec (256 * 1024) (Z.of_nat (String.length (web_Body r)))); [done|]. intros [= <-]. split; [done|lia].
Qed.
