(* ===== verification/HttpServer.v ===== *)
(** * HttpServer: the middleware in front of the handlers ([internal/httpserver])

    The client address a request is attributed to, the rate limits keyed by
    it, the security schemes, and the chain a request of the API goes
    through.  The rate limiter ([go-chi/httprate]) and the request validator
    ([oapi-codegen/nethttp-middleware]) are third-party code: an argument and
    a class. *)

From S2P Require Import Prelude GoLib Netip NetipText Schema Store Http Crypto Auth Device.

Local Open Scope string_scope.
Local Open Scope Z_scope.

(** ** Requests *)

Definition LoginEndpoint : string := "/api/v1/auth/login".
Definition HeartbeatEndpoint : string := "/api/v1/heartbeat".
Definition DevicePairEndpoint : string := "/api/v1/device-pair".

(** What the middleware reads of a request; a header that is not there is
    [""], as [Header.Get] gives it. *)
Record Request := mkRequest {
  Req_Method : string;
  Req_Path : string;
  Req_RemoteAddr : string;
  Req_XRealIP : string;
  Req_SessionCookie : option string;
  Req_APIKey : string;
}.

(** ** The client's address (middleware.go) *)

(** [extractIPFromRemoteAddr]: ["host:port"], or the text itself. *)
Definition extractIPFromRemoteAddr (r : Request) : string :=
  match SplitHostPort (Req_RemoteAddr r) with Some (host, _) => host | None => Req_RemoteAddr r end.

(** [setClientIPInContext]: the value put in the context. *)
Definition setClientIPInContext (ip : string) : string :=
  match ParseAddr ip with Some addr => Addr_String (Unmap addr) | None => ip end.

Definition ClientIPFromRequestMiddleware (r : Request) : string := setClientIPInContext (extractIPFromRemoteAddr r).

Section real_ip.
Context `{GoUnicode}.

Definition ClientIPFromRealIPMiddleware (trustedProxy : Addr) (r : Request) : string :=
  let clientIP := extractIPFromRemoteAddr r in
  match ParseAddr clientIP with
  | None => setClientIPInContext clientIP
  | Some peerAddr =>
      let rawRealIP := TrimSpace (Req_XRealIP r) in
      if negb (Compare_eq0 trustedProxy peerAddr) then setClientIPInContext (Addr_String peerAddr)
      else if bool_decide (rawRealIP = "") then setClientIPInContext (Addr_String peerAddr)
      else match ParseAddr rawRealIP with
           | None => setClientIPInContext (Addr_String peerAddr)
           | Some realAddr => setClientIPInContext (Addr_String realAddr)
           end
  end.

(** [NewServer] installs one of the two. *)
Definition clientIPMiddleware (trustedProxy : Addr) (r : Request) : string :=
  if IsValid trustedProxy then ClientIPFromRealIPMiddleware trustedProxy r else ClientIPFromRequestMiddleware r.
End real_ip.

(** [ClientIPFromContext]. *)
Definition ClientIPFromContext (ip : string) : option string := if bool_decide (ip = "") then None else Some ip.

(** ** Rate limits *)

(** The key a request counts under. *)
Definition rate_limit_key (clientIP : string) (r : Request) : string :=
  match ClientIPFromContext clientIP with Some ip => ip | None => extractIPFromRemoteAddr r end.

(** [ipRateLimitMiddleware]: [limited] says which keys are over the limit. *)
Definition ipRateLimitMiddleware {A} (path method : string) (limited : string → bool) (clientIP : string) (r : Request)
    (next : M (Response A)) : M (Response A) :=
  if bool_decide (Req_Path r = path) && bool_decide (Req_Method r = method) && limited (rate_limit_key clientIP r)
  then mret (mkResponse 429 None) else next.

(** ** Security schemes (authentication.go) *)

Inductive SecurityScheme := CookieAuthScope | APIKeyAuthScope | OtherScope.

(** [AuthenticationFunc]: [None] for [nil], the error's text otherwise. *)
Definition AuthenticationFunc (scheme : SecurityScheme) (r : Request) : M (option string) :=
  match scheme with
  | CookieAuthScope =>
      match Req_SessionCookie r with
      | None => mret (Some "missing session cookie")
      | Some token => catch (_ ← Auth.Authenticate token; mret None) (λ _, mret (Some "invalid credentials"))
      end
  | APIKeyAuthScope =>
      if bool_decide (Req_APIKey r = "") then mret (Some "missing API key")
      else catch (_ ← Device.Authenticate (Req_APIKey r); mret None) (λ _, mret (Some "invalid API key"))
  | OtherScope => mret (Some "unknown security scheme")
  end.

(** ** Lock contention (contention.go, server.go) *)

(** The flag is fresh for each request; a handler that answered although a
    write transaction met contention is overruled. *)
Definition contentionMiddleware {A} (f : M (Response A)) : M (Response A) := λ tx w,
  match f tx (set_contended false w) with
  | (Ok response, w') => if w_contended w' then (Err ErrContended, w') else (Ok response, w')
  | (Err e, w') => (Err e, w')
  end.

Definition createResponseErrorHandler {A} (e : error) : Response A :=
  mkResponse (if decide (e = ErrContended) then 503 else 500) None.

(** The strict handler around an operation. *)
Definition strict_handler {A} (f : M (Response A)) : M (Response A) :=
  catch (contentionMiddleware f) (λ e, mret (createResponseErrorHandler e)).

(** ** The chain of the API (routes.go) *)

(** The validator, as the library documents it: a request passes ([None])
    only if the operation has no requirements or some alternative of them has
    all its schemes authenticated, and is otherwise answered with a status;
    it writes nothing itself. *)
Class RequestValidator := {
  validate_request : list (list SecurityScheme) → (SecurityScheme → M (option string)) → M (option Z);
  validate_sound reqs f tx w w' :
    (∀ s, ∀ tx w, w_db (f s tx w).2 = w_db w ∧ w_now (f s tx w).2 = w_now w) →
    validate_request reqs f tx w = (Ok None, w') →
    w_db w' = w_db w ∧ w_now w' = w_now w ∧
    (reqs = [] ∨ ∃ alt, alt ∈ reqs ∧ ∀ s, s ∈ alt → ∃ w1 w2, w_db w1 = w_db w ∧ w_now w1 = w_now w ∧ f s tx w1 = (Ok None, w2));
}.

(** What the handlers find in the request's context. *)
Record RequestContext := mkRequestContext {
  ctx_ClientIP : option string;
  ctx_User : option Principal;
  ctx_Device : option DeviceID;
}.

Section chain.
Context `{GoUnicode} `{RequestValidator}.

(** From the validator to the handler: the context, or the status the chain
    answers itself. *)
Definition authorize (ip : string) (reqs : list (list SecurityScheme)) (r : Request) : M (Z + RequestContext) :=
  rejected ← validate_request reqs (λ s, AuthenticationFunc s r);
  match rejected with
  | Some status => mret (inl status)
  | None =>
      user ← PrincipalUserContext (Req_SessionCookie r);
      dev ← PrincipalDeviceContext (Req_APIKey r);
      mret (if RequireAdmin user then inr (mkRequestContext (ClientIPFromContext ip) user dev) else inl 403)
  end.

(** [limited path key]: the limiter of each of the three endpoints. *)
Definition api {A} (trustedProxy : Addr) (limited : string → string → bool) (reqs : list (list SecurityScheme))
    (handler : RequestContext → M (Response A)) (r : Request) : M (Response A) :=
  let ip := clientIPMiddleware trustedProxy r in
  ipRateLimitMiddleware LoginEndpoint "POST" (limited LoginEndpoint) ip r (
  ipRateLimitMiddleware HeartbeatEndpoint "POST" (limited HeartbeatEndpoint) ip r (
  ipRateLimitMiddleware DevicePairEndpoint "POST" (limited DevicePairEndpoint) ip r (
    c ← authorize ip reqs r;
    match c with
    | inl status => mret (mkResponse status None)
    | inr ctx => strict_handler (handler ctx)
    end))).
End chain.
