(* ===== verification/HttpServerSpec.v ===== *)
(** * HttpServerSpec: who a request is taken to come from

    The client's address cannot be chosen by the client, is in canonical
    form, and no handler of a protected operation runs without the
    credentials the operation asks for. *)

From S2P Require Import Prelude GoLib Netip NetipText Schema Store Http Crypto Auth AuthInv AuthSpec Device HttpServer.

Local Open Scope string_scope.
Local Open Scope Z_scope.

(** ** The client's address *)

Section client_ip.
Context `{GoUnicode}.

(** The address a text stands for, as the services take it. *)
Definition address_of (s : string) : option Addr := Unmap <$> ParseAddr s.

(** The peer of the connection. *)
Definition peer (r : Request) : option Addr := ParseAddr (extractIPFromRemoteAddr r).

Lemma set_client_ip_parsed s a : ParseAddr s = Some a → address_of (setClientIPInContext s) = Some (Unmap a).
Proof. intros Hs. unfold address_of, setClientIPInContext. rewrite Hs, (canonical_text s a Hs). cbn. by rewrite Unmap_idemp. Qed.

(** Printed and parsed again, an address denotes the same. *)
Lemma set_client_ip_printed s a : ParseAddr s = Some a → setClientIPInContext (Addr_String a) = Addr_String (Unmap a).
Proof. intros [Hw Hv]%ParseAddr_wf. unfold setClientIPInContext. by rewrite ParseAddr_String. Qed.

Lemma set_client_ip_denotes s a : ParseAddr s = Some a → address_of (setClientIPInContext (Addr_String a)) = Some (Unmap a).
Proof.
  intros Hs. rewrite (set_client_ip_printed s a Hs). unfold address_of. rewrite (canonical_text s a Hs). cbn. by rewrite Unmap_idemp.
Qed.

(** What [X-Real-IP] says, when it is an address. *)
Definition real_ip (r : Request) : option Addr := ParseAddr (TrimSpace (Req_XRealIP r)).

Lemma real_ip_empty r : TrimSpace (Req_XRealIP r) = "" → real_ip r = None.
Proof. unfold real_ip. by intros ->. Qed.

Lemma client_ip_untrusted proxy r p :
  peer r = Some p → proxy ≠ p → clientIPMiddleware proxy r = Addr_String (Unmap p).
Proof.
  intros Hp Hne. unfold peer in Hp. unfold clientIPMiddleware. destruct (IsValid proxy).
  - unfold ClientIPFromRealIPMiddleware. rewrite Hp. unfold Compare_eq0. rewrite bool_decide_eq_false_2 by done. by eapply set_client_ip_printed.
  - unfold ClientIPFromRequestMiddleware, setClientIPInContext. by rewrite Hp.
Qed.

Lemma client_ip_trusted r p :
  peer r = Some p →
  ∃ s x, ParseAddr s = Some x ∧ x = default p (real_ip r) ∧ clientIPMiddleware p r = Addr_String (Unmap x).
Proof.
  unfold peer. intros Hp. apply ParseAddr_wf in Hp as Hv. unfold clientIPMiddleware, ClientIPFromRealIPMiddleware. rewrite (proj2 Hv), Hp.
  unfold Compare_eq0. rewrite bool_decide_eq_true_2 by done. cbn [negb].
  case_bool_decide as Hr; [rewrite (real_ip_empty r Hr); exists (extractIPFromRemoteAddr r), p; split; [done|]; split; [done|]; by eapply set_client_ip_printed|].
  unfold real_ip. destruct (ParseAddr (TrimSpace _)) as [x|] eqn:Hx; cbn [default];
    [exists (TrimSpace (Req_XRealIP r)), x|exists (extractIPFromRemoteAddr r), p]; (split; [done|]; split; [done|]; by eapply set_client_ip_printed).
Qed.

Lemma address_of_canonical s x : ParseAddr s = Some x → address_of (Addr_String (Unmap x)) = Some (Unmap x).
Proof. intros Hs. unfold address_of. rewrite (canonical_text s x Hs). cbn. by rewrite Unmap_idemp. Qed.

(** C22: the client's address is the peer's, whatever headers the
    request has, unless the peer is the configured proxy; then it is the
    address in X-Real-IP, or the proxy's own when that is none.  It is always
    unmapped, in the one spelling the rest of the program compares, and when
    it falls back to the proxy's address it cannot be registered. *)
Theorem client_ip_not_spoofable proxy r p :
  peer r = Some p →
  (proxy ≠ p → address_of (clientIPMiddleware proxy r) = Some (Unmap p) ∧
     ∀ r', Req_RemoteAddr r' = Req_RemoteAddr r → clientIPMiddleware proxy r' = clientIPMiddleware proxy r) ∧
  (proxy = p → address_of (clientIPMiddleware proxy r) = Some (Unmap (default p (real_ip r)))) ∧
  (∃ a, ParseAddr (clientIPMiddleware proxy r) = Some a ∧ Unmap a = a ∧ Addr_String a = clientIPMiddleware proxy r) ∧
  (proxy = p → Is4In6 p = false → real_ip r = None →
     ∀ dev, ∃ e, NewCreateAddressParams dev (clientIPMiddleware proxy r) proxy = Err e).
Proof.
  intros Hp. split; [|split; [|split]].
  - intros Hne. rewrite (client_ip_untrusted proxy r p Hp Hne). split; [by eapply address_of_canonical|]. intros r' Er.
    apply client_ip_untrusted; [|done]. unfold peer, extractIPFromRemoteAddr in *. by rewrite Er.
  - intros ->. destruct (client_ip_trusted r p Hp) as (s & x & Hs & -> & ->). by eapply address_of_canonical.
  - assert (∃ s x, ParseAddr s = Some x ∧ clientIPMiddleware proxy r = Addr_String (Unmap x)) as (s & x & Hs & ->).
    { destruct (decide (proxy = p)) as [->|Hne]; [destruct (client_ip_trusted r p Hp) as (s & x & Hs & _ & E); eauto|].
      exists (extractIPFromRemoteAddr r), p. split; [done|]. by apply client_ip_untrusted. }
    exists (Unmap x). split; [by eapply canonical_text|]. split; [apply Unmap_idemp|done].
  - intros -> H4 Hr dev. destruct (client_ip_trusted r p Hp) as (s & x & Hs & Hx & ->). rewrite Hr in Hx. cbn in Hx. subst x.
    unfold NewCreateAddressParams, ParseAndValidateIP. rewrite (canonical_text s p Hs), Unmap_idemp.
    destruct (_ || _); [by eexists|]. assert (Unmap p = p) as -> by (destruct p as [|v|v z]; [done|done|]; unfold Unmap; by rewrite H4).
    apply ParseAddr_wf in Hs as [_ ->]. unfold Compare_eq0. rewrite bool_decide_eq_true_2 by done. by eexists.
Qed.
End client_ip.

(** ** What only reads *)

(** [reads m]: [m] changes neither the tables nor the clock. *)
Definition reads {A} (m : M A) : Prop := ∀ tx w, w_db (m tx w).2 = w_db w ∧ w_now (m tx w).2 = w_now w.

Lemma reads_ret {A} (a : A) : reads (mret a).
Proof. by intros tx w. Qed.

Lemma reads_throw {A} e : reads (@throw A e).
Proof. by intros tx w. Qed.

Lemma reads_query {A} (f : time → db → A) : reads (query f).
Proof. intros tx w. unfold query. destruct (pop_fault w) as [[b|] w'] eqn:E; by apply pop_fault_db in E as (? & ? & _). Qed.

Lemma reads_bind {A B} (m : M A) (f : A → M B) : reads m → (∀ a, reads (f a)) → reads (m ≫= f).
Proof.
  intros Hm Hf tx w. rewrite bind_run. destruct (Hm tx w) as [E1 E2]. destruct (m tx w) as [[a|e] w']; [|done].
  destruct (Hf a tx w') as [F1 F2]. by rewrite F1, F2.
Qed.

Lemma reads_catch {A} (m : M A) h : reads m → (∀ e, reads (h e)) → reads (catch m h).
Proof.
  intros Hm Hh tx w. rewrite catch_run. destruct (Hm tx w) as [E1 E2]. destruct (m tx w) as [[a|e] w']; [done|].
  destruct (Hh e tx w') as [F1 F2]. by rewrite F1, F2.
Qed.

Lemma reads_get_row {A} (f : time → db → option A) : reads (get_row f).
Proof. apply reads_bind; [apply reads_query|]. intros []; [apply reads_ret|apply reads_throw]. Qed.

Lemma reads_user_auth tok : reads (Auth.Authenticate tok).
Proof. apply reads_bind; [|intros; apply reads_ret]. apply reads_catch; [apply reads_get_row|]. intros. apply reads_throw. Qed.

Lemma reads_device_auth key : reads (Device.Authenticate key).
Proof.
  unfold Device.Authenticate. destruct (cut_prefix _ _); [|apply reads_throw]. apply reads_bind; [|intros; apply reads_ret].
  apply reads_catch; [apply reads_get_row|]. intros. apply reads_throw.
Qed.

Lemma reads_AuthenticationFunc s r : reads (AuthenticationFunc s r).
Proof.
  destruct s; cbn [AuthenticationFunc].
  - destruct (Req_SessionCookie r); [|apply reads_ret]. apply reads_catch; [apply reads_bind; [apply reads_user_auth|]|]; intros; apply reads_ret.
  - case_bool_decide; [apply reads_ret|]. apply reads_catch; [apply reads_bind; [apply reads_device_auth|]|]; intros; apply reads_ret.
  - apply reads_ret.
Qed.

Lemma reads_user_context cookie : reads (PrincipalUserContext cookie).
Proof.
  unfold PrincipalUserContext. destruct cookie as [[|]|]; [apply reads_ret| |apply reads_ret].
  apply reads_catch; [apply reads_bind; [apply reads_user_auth|]|]; intros; apply reads_ret.
Qed.

Lemma reads_device_context key : reads (PrincipalDeviceContext key).
Proof.
  unfold PrincipalDeviceContext. case_bool_decide; [apply reads_ret|].
  apply reads_catch; [apply reads_bind; [apply reads_device_auth|]|]; intros; apply reads_ret.
Qed.

(** ** The schemes *)

(** The live device a key is of. *)
Definition device_key (d : db) (rawKey : string) (id : DeviceID) : Prop :=
  ∃ k v, api_keys d !! id = Some k ∧ ApiKey_KeyHash k = HashAPIKey rawKey ∧ active_device d id = Some v.

Lemma device_auth_Ok key tx w id w' :
  Device.Authenticate key tx w = (Ok id, w') → ∃ i, device_key (w_db w) key i.
Proof.
  unfold Device.Authenticate. destruct (cut_prefix _ _); [|done]. intros Ha. apply fmap_Ok in Ha as (v & Ha & ->). apply map_err_Ok in Ha.
  apply (get_row_Ok _ tx) in Ha as (_ & _ & _ & Hs). apply bind_Some in Hs as ([i k] & Hh & Hs).
  apply head_Some_elem_of in Hh. apply list_elem_of_filter in Hh as [[Hk [v1 Hv]] Hin]. apply elem_of_map_to_list in Hin. by exists i, k, v1.
Qed.

(** A scheme that is satisfied. *)
Lemma AuthenticationFunc_Ok s r tx w w' :
  auth_inv (w_db w) → AuthenticationFunc s r tx w = (Ok None, w') →
  match s with
  | CookieAuthScope => ∃ tok p, Req_SessionCookie r = Some tok ∧ session_of (w_now w) (w_db w) p (hashRawToken tok)
  | APIKeyAuthScope => ∃ id, device_key (w_db w) (Req_APIKey r) id
  | OtherScope => False
  end.
Proof.
  intros I. destruct s; cbn [AuthenticationFunc]; [| |done].
  - destruct (Req_SessionCookie r) as [tok|]; [|done]. intros [Ha|(e & w1 & _ & Ha)]%catch_Ok; [|done].
    apply bind_Ok in Ha as (p & w1 & Ha & _). apply Authenticate_Ok in Ha as [_ Hs]; [|done]. eauto.
  - case_bool_decide; [done|]. intros [Ha|(e & w1 & _ & Ha)]%catch_Ok; [|done]. apply bind_Ok in Ha as (p & w1 & Ha & _). by eapply device_auth_Ok.
Qed.

Section gate.
Context `{GoUnicode} `{RequestValidator}.

(** C23: whatever fails on the way, a handler is reached only with the
    credentials of one of the operation's alternatives (an open session of a
    live user for the cookie scheme, the key of a live device for the API key
    scheme), never with a scheme the server does not know, and a user in its
    context is an administrator with an open session; nothing is written
    before it. *)
Theorem authorize_requires ip reqs r ctx w w' :
  auth_inv (w_db w) → reqs ≠ [] → authorize ip reqs r false w = (Ok (inr ctx), w') →
  w_db w' = w_db w ∧
  (∃ alt, alt ∈ reqs ∧ OtherScope ∉ alt ∧
     (CookieAuthScope ∈ alt → ∃ tok p, Req_SessionCookie r = Some tok ∧ session_of (w_now w) (w_db w) p (hashRawToken tok)) ∧
     (APIKeyAuthScope ∈ alt → ∃ id, device_key (w_db w) (Req_APIKey r) id)) ∧
  (∀ p, ctx_User ctx = Some p → IsAdmin p = true ∧
     ∃ tok, Req_SessionCookie r = Some tok ∧ session_of (w_now w) (w_db w) p (hashRawToken tok)).
Proof.
  intros I Hne Ha. apply bind_Ok in Ha as (rej & w1 & Hv & Ha). destruct rej as [st|]; [by injection Ha|].
  apply validate_sound in Hv as (Ed & En & [?|(alt & Halt & Hsch)]); [done| |intros s; exact (reads_AuthenticationFunc s r)].
  apply bind_Ok in Ha as (user & w2 & Hu & Ha). apply bind_Ok in Ha as (dev & w3 & Hd & Ha). injection Ha as Hctx <-.
  destruct (reads_user_context (Req_SessionCookie r) false w1) as [E1 _]. destruct (reads_device_context (Req_APIKey r) false w2) as [E2 _]. rewrite Hu in E1. rewrite Hd in E2. cbn in E1, E2.
  split; [congruence|]. split.
  - exists alt. split; [done|]. split; [|split].
    + intros Hin. destruct (Hsch _ Hin) as (x & y & Ex & _ & Hf). by apply AuthenticationFunc_Ok in Hf; [|by rewrite Ex].
    + intros Hin. destruct (Hsch _ Hin) as (x & y & Ex & Enx & Hf). apply AuthenticationFunc_Ok in Hf; [|by rewrite Ex]. by rewrite Ex, Enx in Hf.
    + intros Hin. destruct (Hsch _ Hin) as (x & y & Ex & Enx & Hf). apply AuthenticationFunc_Ok in Hf; [|by rewrite Ex]. by rewrite Ex in Hf.
  - intros p. destruct (RequireAdmin user) eqn:Hadm; [|done]. injection Hctx as <-. cbn. intros ->. split; [done|].
    unfold PrincipalUserContext in Hu. destruct (Req_SessionCookie r) as [[|c t]|]; [done| |done].
    apply catch_Ok in Hu as [Hu|(e & wx & _ & Hu)]; [|done]. apply fmap_Ok in Hu as (q & Hu & [= <-]).
    apply Authenticate_Ok in Hu as [_ Hs]; [|by rewrite Ed]. exists (String c t). rewrite Ed, En in Hs. done.
Qed.
End gate.

(** ** Contention *)

(** When the write transaction of an operation finds the database
    locked, the answer is 503, whatever status the handler gives the error. *)
Theorem contention_is_503 {A B} (fn : M A) (ok : A → Response B) status w w' :
  withinTx fn false (set_contended false w) = (Err ErrContended, w') →
  strict_handler (respond (withinTx fn) ok status) false w = (Ok (mkResponse 503 None), w').
Proof.
  intros Hr. unfold strict_handler. rewrite catch_run. unfold contentionMiddleware. rewrite respond_run, Hr.
  assert (w_contended w' = true) as ->; [|done]. unfold withinTx in Hr. destruct (execTx fn false _) as [[a|e] w1]; [done|].
  injection Hr as He <-. unfold markContended. by rewrite He, bool_decide_eq_true_2.
Qed.

(** ** At concrete requests *)

Module HttpDemo.
(** The alternatives in order, the schemes of one in order. *)
Fixpoint all_schemes (f : SecurityScheme → M (option string)) (alt : list SecurityScheme) : M bool :=
  match alt with
  | [] => mret true
  | s :: alt => o ← f s; match o with None => all_schemes f alt | Some _ => mret false end
  end.

Fixpoint any_alternative (f : SecurityScheme → M (option string)) (reqs : list (list SecurityScheme)) : M (option Z) :=
  match reqs with
  | [] => mret (Some 401)
  | alt :: reqs => ok ← all_schemes f alt; if (ok : bool) then mret None else any_alternative f reqs
  end.

Section in_order.
Context (f : SecurityScheme → M (option string)) (Hf : ∀ s, reads (f s)).

Lemma all_schemes_reads alt : reads (all_schemes f alt).
Proof. induction alt as [|s alt IH]; cbn; [apply reads_ret|]. apply reads_bind; [done|]. intros []; [apply reads_ret|done]. Qed.

Lemma any_alternative_reads reqs : reads (any_alternative f reqs).
Proof. induction reqs as [|alt reqs IH]; cbn; [apply reads_ret|]. apply reads_bind; [apply all_schemes_reads|]. intros []; [apply reads_ret|done]. Qed.

Lemma all_schemes_true alt tx w w' :
  all_schemes f alt tx w = (Ok true, w') →
  ∀ s, s ∈ alt → ∃ w1 w2, w_db w1 = w_db w ∧ w_now w1 = w_now w ∧ f s tx w1 = (Ok None, w2).
Proof.
  revert w. induction alt as [|x alt IH]; intros w Ha s; [by intros []%elem_of_nil|]. apply bind_Ok in Ha as (o & w1 & Ho & Ha).
  destruct o; [by injection Ha|]. intros [->|Hin]%elem_of_cons; [by exists w, w1|]. destruct (Hf x tx w) as [E1 E2]. rewrite Ho in E1, E2.
  destruct (IH w1 Ha s Hin) as (w2 & w3 & F1 & F2 & F3). exists w2, w3. cbn in *. by rewrite F1, F2.
Qed.

Lemma any_alternative_passes reqs tx w w' :
  any_alternative f reqs tx w = (Ok None, w') →
  ∃ alt, alt ∈ reqs ∧ ∀ s, s ∈ alt → ∃ w1 w2, w_db w1 = w_db w ∧ w_now w1 = w_now w ∧ f s tx w1 = (Ok None, w2).
Proof.
  revert w. induction reqs as [|alt reqs IH]; intros w Ha; [by injection Ha|]. apply bind_Ok in Ha as ([] & w1 & Hok & Ha).
  - exists alt. split; [by left|]. by eapply all_schemes_true.
  - destruct (all_schemes_reads alt tx w) as [E1 E2]. rewrite Hok in E1, E2. destruct (IH w1 Ha) as (a & Hin & Hs). exists a.
    split; [by right|]. intros s Hsin. destruct (Hs s Hsin) as (w2 & w3 & F1 & F2 & F3). exists w2, w3. cbn in *. by rewrite F1, F2.
Qed.
End in_order.

#[export] Instance in_order_validator : RequestValidator.
Proof.
  refine {| validate_request := λ reqs f, match reqs with [] => mret None | _ => any_alternative f reqs end |}.
  intros reqs f tx w w' Hf Hr. destruct reqs as [|alt reqs]; [injection Hr as <-; eauto|].
  destruct (any_alternative_reads f Hf (alt :: reqs) tx w) as [E1 E2]. rewrite Hr in E1, E2. split; [done|]. split; [done|]. right.
  by eapply any_alternative_passes.
Defined.

Definition admin : User := mkUser 1 "admin" "Admin" None (Some "hash") SuperAdminRole false None 0 None.
Definition session : Session := mkSession 1 1 (hashRawToken "t0ken") 0 (1000 * Second) None None.
Definition tables : db := on_sessions (<[1 := session]>) (on_users (<[1 := admin]>) empty_db).
Definition w : world := world_of tables (100 * Second) [].

(** The proxy 10.0.0.2 forwards a request of 198.51.100.7. *)
Definition proxy : Addr := Addr4 167772162.
Definition forwarded : Request := mkRequest "GET" "/api/v1/users" "10.0.0.2:41234" "198.51.100.7" (Some "t0ken") "".
Definition spoofed : Request := mkRequest "GET" "/api/v1/users" "203.0.113.5:5555" "10.0.0.2" None "".

Lemma tables_inv : auth_inv tables.
Proof.
  constructor; cbn; intros; repeat match goal with
  | H : <[_ := _]> _ !! _ = Some _ |- _ => apply lookup_insert_Some in H as [[? ?]|[? H]]; simplify_eq/=
  | H : ∅ !! _ = Some _ |- _ => by rewrite lookup_empty in H
  end; try done; by eexists.
Qed.
End HttpDemo.

Import HttpDemo.

Example client_ip_not_spoofable_witness :
  clientIPMiddleware proxy forwarded = "198.51.100.7" ∧
  address_of (clientIPMiddleware proxy spoofed) = Some (Addr4 3405803781) ∧
  address_of (clientIPMiddleware proxy forwarded) = Some (Addr4 3325256711).
Proof.
  split; [vm_compute; reflexivity|]. split.
  - refine (proj1 (proj1 (client_ip_not_spoofable proxy spoofed (Addr4 3405803781) _) _)); [vm_compute; reflexivity|done].
  - refine (proj1 (proj2 (client_ip_not_spoofable proxy forwarded proxy _)) eq_refl). vm_compute. reflexivity.
Defined.

Example authorize_requires_witness :
  ∃ ctx w', authorize "198.51.100.7" [[CookieAuthScope]] forwarded false w = (Ok (inr ctx), w') ∧
    ∀ p, ctx_User ctx = Some p → IsAdmin p = true.
Proof.
  assert (∃ ctx w', authorize "198.51.100.7" [[CookieAuthScope]] forwarded false w = (Ok (inr ctx), w')) as (ctx & w' & Hr)
    by (eexists _, _; vm_compute; reflexivity).
  exists ctx, w'. split; [exact Hr|]. intros p Hp.
  exact (proj1 (proj2 (proj2 (authorize_requires "198.51.100.7" [[CookieAuthScope]] forwarded ctx w w' tables_inv ltac:(done) Hr)) p Hp)).
Defined.

Definition locked : world := set_faults [Some true] w.

Example contention_is_503_witness :
  ∃ w', strict_handler (respond (withinTx (RevokeSession 1)) (λ _, mkResponse 204 (@None unit)) (λ _, 500)) false locked = (Ok (mkResponse 503 None), w').
Proof.
  assert (∃ w', withinTx (RevokeSession 1) false (set_contended false locked) = (Err ErrContended, w')) as [w' Hr]
    by (eexists; vm_compute; reflexivity).
  exists w'. exact (contention_is_503 (RevokeSession 1) (λ _, mkResponse 204 None) (λ _, 500) locked w' Hr).
Defined.
