(* ===== verification/WorldInv.v ===== *)
(** * WorldInv: invariants of the event queues

    A predicate on the world that looks only at the queues, the refresh
    signal and the clock is untouched by statements and transactions; what
    is left to check are the observers. *)

From S2P Require Import Prelude GoLib Schema Store Http.

(** [Q] does not look at the database, the faults, the random source or the
    contention flag. *)
Definition queue_pred (Q : world → Prop) : Prop :=
  ∀ d fs rs b w, Q (set_contended b (set_rand rs (set_faults fs (set_db d w)))) ↔ Q w.

Section world_inv.
Context (Q : world → Prop) (HQ : queue_pred Q).

Lemma queue_pred_db d w : Q (set_db d w) ↔ Q w.
Proof. rewrite <-(HQ d (w_faults w) (w_rand w) (w_contended w) w). by destruct w. Qed.

Lemma queue_pred_faults fs w : Q (set_faults fs w) ↔ Q w.
Proof. rewrite <-(HQ (w_db w) fs (w_rand w) (w_contended w) w). by destruct w. Qed.

Lemma queue_pred_rand rs w : Q (set_rand rs w) ↔ Q w.
Proof. rewrite <-(HQ (w_db w) (w_faults w) rs (w_contended w) w). by destruct w. Qed.

Lemma queue_pred_contended e w : Q (markContended e w) ↔ Q w.
Proof.
  unfold markContended. case_bool_decide; [|done]. rewrite <-(HQ (w_db w) (w_faults w) (w_rand w) true w). by destruct w.
Qed.

Lemma queue_pred_pop w o w' : pop_fault w = (o, w') → Q w ↔ Q w'.
Proof. unfold pop_fault. destruct (w_faults w); intros [= <- <-]; [done|]. by rewrite queue_pred_faults. Qed.

(** [holds m]: [m] keeps [Q]. *)
Definition holds {A} (m : M A) : Prop := ∀ tx w, Q w → Q (m tx w).2.

Lemma holds_ret {A} (a : A) : holds (mret a).
Proof. by intros tx w. Qed.

Lemma holds_throw {A} e : holds (@throw A e).
Proof. by intros tx w. Qed.

Lemma holds_now : holds now.
Proof. by intros tx w. Qed.

Lemma holds_rand : holds read_rand.
Proof. intros tx w H. unfold read_rand. destruct (w_rand w); [done|]. by apply queue_pred_rand. Qed.

Lemma holds_query {A} (f : time → db → A) : holds (query f).
Proof. intros tx w H. unfold query. destruct (pop_fault w) as [[b|] w'] eqn:E; by apply queue_pred_pop in E as <-. Qed.

Lemma holds_exec {A} (f : time → db → result (A * db)) : holds (exec f).
Proof.
  intros tx w H. unfold exec. destruct (pop_fault w) as [[b|] w'] eqn:E; apply queue_pred_pop in E; [by apply E|].
  destruct (f _ _) as [[a d]|e]; cbn; [apply queue_pred_db|]; by apply E.
Qed.

Lemma holds_bind {A B} (m : M A) (f : A → M B) : holds m → (∀ a, holds (f a)) → holds (m ≫= f).
Proof.
  intros Hm Hf tx w H. rewrite bind_run. specialize (Hm tx w H). destruct (m tx w) as [[a|e] w']; [by apply Hf|done].
Qed.

Lemma holds_catch {A} (m : M A) h : holds m → (∀ e, holds (h e)) → holds (catch m h).
Proof.
  intros Hm Hh tx w H. rewrite catch_run. specialize (Hm tx w H). destruct (m tx w) as [[a|e] w']; [done|by apply Hh].
Qed.

Lemma holds_try {A} (m : M A) : holds m → holds (try m).
Proof. intros Hm tx w H. unfold try. specialize (Hm tx w H). by destruct (m tx w). Qed.

Lemma holds_map_err {A} g (m : M A) : holds m → holds (map_err g m).
Proof. intros Hm. apply holds_catch; [done|]. intros e. apply holds_throw. Qed.

Lemma holds_fmap {A B} (f : A → B) (m : M A) : holds m → holds (f <$> m).
Proof. intros Hm. apply holds_bind; [done|]. intros a. apply holds_ret. Qed.

Lemma holds_get_row {A} (f : time → db → option A) : holds (get_row f).
Proof. apply holds_bind; [apply holds_query|]. intros []; [apply holds_ret|apply holds_throw]. Qed.

Lemma holds_of_result {A} (r : result A) : holds (of_result r).
Proof. destruct r; [apply holds_ret|apply holds_throw]. Qed.

Lemma holds_for_each {A} (l : list A) body : (∀ x, holds (body x)) → holds (for_each l body).
Proof. intros Hb. induction l; cbn; [apply holds_ret|]. by apply holds_bind. Qed.

Lemma holds_map_each {A B} (l : list A) (body : A → M B) : (∀ x, holds (body x)) → holds (map_each l body).
Proof.
  intros Hb. induction l; cbn; [apply holds_ret|]. apply holds_bind; [done|]. intros y. apply holds_bind; [done|].
  intros ys. apply holds_ret.
Qed.

Lemma holds_withinTx {A} (fn : M A) : holds fn → holds (withinTx fn).
Proof.
  intros Hf [] w H; [by apply Hf|]. unfold withinTx, execTx. destruct (pop_fault w) as [[b|] w0] eqn:E; apply (queue_pred_pop w _ w0) in E.
  { cbn. apply queue_pred_contended. by apply E. }
  apply E in H. specialize (Hf true w0 H). destruct (fn true w0) as [[a|e] w1]; cbn in *.
  - destruct (pop_fault w1) as [[b|] w2] eqn:E2; apply (queue_pred_pop w1 _ w2) in E2; cbn; [|by apply E2].
    apply queue_pred_contended, queue_pred_db. by apply E2.
  - by apply queue_pred_contended, queue_pred_db.
Qed.

Lemma holds_notify {E} (os : list (E → world → world)) e : Forall (λ o, ∀ e w, Q w → Q (o e w)) os → holds (notify os e).
Proof.
  intros Ho tx w H. rewrite notify_run. cbn. revert w H. induction Ho as [|o os Ho _ IH]; intros w H; [done|]. cbn. auto.
Qed.
End world_inv.

#[export] Hint Resolve holds_ret holds_throw holds_now holds_rand holds_query holds_exec holds_get_row holds_of_result : pw.

(** Solve [holds Q m] by the structure of [m], [H : queue_pred Q]. *)
Ltac world_step H :=
  lazymatch goal with
  | |- holds _ (mret _) => apply holds_ret
  | |- holds _ (throw _) => apply holds_throw
  | |- holds _ now => apply holds_now
  | |- holds _ read_rand => apply (holds_rand _ H)
  | |- holds _ (query _) => apply (holds_query _ H)
  | |- holds _ (exec _) => apply (holds_exec _ H)
  | |- holds _ (get_row _) => apply (holds_get_row _ H)
  | |- holds _ (of_result _) => apply holds_of_result
  | |- holds _ (withinTx _) => apply (holds_withinTx _ H)
  | |- holds _ (map_err _ _) => apply holds_map_err
  | |- holds _ (catch _ _) => apply holds_catch
  | |- holds _ (try _) => apply holds_try
  | |- holds _ (for_each _ _) => apply holds_for_each
  | |- holds _ (map_each _ _) => apply holds_map_each
  | |- holds _ (_ <$> _) => apply holds_fmap
  | |- holds _ (_ ≫= _) => apply holds_bind
  | |- holds _ (match ?x with _ => _ end) => destruct x
  | |- holds _ (notify _ _) => apply holds_notify; assumption
  | |- ∀ _, _ => intro
  end.

Ltac world_structural H := repeat first [assumption | solve [eauto 3 with pw] | world_step H].
