(* ===== verification/App.v ===== *)
(** * App: the wiring of the services ([internal/app])

    The observers each service is given, in registration order; the rule and
    device services behind the interfaces of lease and maxaddr; the
    providers of the policy cache. *)

From S2P Require Import Prelude GoLib Netip Schema Store Slicex HostNames Http PolicyCache Crypto PolicyService.
From S2P Require Import Device DeviceInv DeviceSpec Interfaces Rule Lease MaxAddr Hosts UserAccess NetworkPolicies WorldInv Auth.

Local Open Scope Z_scope.

(** ** Observers *)

Lemma refresh_inert {E} (e : E) : inert triggerRefresh.
Proof. by intros w. Qed.

Lemma lease_address_inert e : inert (lease_OnAddressEvent e).
Proof. intros w. unfold lease_OnAddressEvent. by destruct (w_cancelled w). Qed.

Lemma lease_rule_inert e : inert (lease_OnRuleEvent e).
Proof. intros w. unfold lease_OnRuleEvent. by destruct (w_cancelled w). Qed.

Lemma policy_address_inert e : inert (policy_OnAddressEvent e).
Proof. intros w. unfold policy_OnAddressEvent. by case_bool_decide. Qed.

Lemma maxaddr_address_inert e : inert (maxaddr_OnAddressEvent e).
Proof. intros w. unfold maxaddr_OnAddressEvent. by destruct (_ && _). Qed.

Lemma maxaddr_rule_inert e : inert (maxaddr_OnRuleEvent e).
Proof. intros w. unfold maxaddr_OnRuleEvent. by destruct (_ || _). Qed.

#[export] Instance app_address_observers : AddressObservers.
Proof.
  refine {| address_observers := [lease_OnAddressEvent; policy_OnAddressEvent; maxaddr_OnAddressEvent] |}.
  exact (Forall_cons_2 _ _ _ lease_address_inert (Forall_cons_2 _ _ _ policy_address_inert (Forall_cons_2 _ _ _ maxaddr_address_inert (Forall_nil_2 _)))).
Defined.

#[export] Instance app_device_observers : DeviceObservers.
Proof. refine {| device_observers := [OnDeviceEvent] |}. exact (Forall_cons_2 _ _ _ refresh_inert (Forall_nil_2 _)). Defined.

#[export] Instance app_host_access_observers : HostAccessObservers.
Proof. refine {| host_access_observers := [λ _, OnHostAccessChanged] |}. exact (Forall_cons_2 _ _ _ refresh_inert (Forall_nil_2 _)). Defined.

#[export] Instance app_policy_change_observers : PolicyChangeObservers.
Proof. refine {| policy_change_observers := [λ _, OnNetworkPolicyChanged] |}. exact (Forall_cons_2 _ _ _ refresh_inert (Forall_nil_2 _)). Defined.

#[export] Instance app_rule_observers : RuleObservers.
Proof.
  refine {| rule_observers := [lease_OnRuleEvent; maxaddr_OnRuleEvent] |}.
  exact (Forall_cons_2 _ _ _ lease_rule_inert (Forall_cons_2 _ _ _ maxaddr_rule_inert (Forall_nil_2 _))).
Defined.

(** A user's creation or deletion: the observers of the auth service. *)
Definition user_event (e : UserEvent) : M unit := _ ← useraccess_OnUserEvent e; device_OnUserEvent e.

(** What no observer of a user event touches. *)
Definition auth_tables (d : db) := (users d, sessions d).

(** [off_auth m]: [m] writes neither users nor sessions. *)
Definition off_auth {A} (m : M A) : Prop := ∀ X, keeps (λ d, auth_tables d = X) m.

Lemma now_queue t : queue_pred (λ w, w_now w = t).
Proof. by intros. Qed.

Lemma notify_now {E} (os : list (E → world → world)) e t : inert_observers os → holds (λ w, w_now w = t) (notify os e).
Proof. intros Ho tx w <-. rewrite notify_run. apply (foldl_inert os e Ho w). Qed.

(** Every write leaves the two tables alone. *)
Ltac off_auth :=
  intros X; structural; apply keeps_exec; intros ? ? ? ? <- Hw; write_cases Hw; done.

(** An observer of a user event that always succeeds. *)
Lemma observer_ok (o : UserEvent → M unit) :
  (∀ e tx w, (o e tx w).1 = Ok tt) → (∀ e, off_auth (o e)) → (∀ e t, holds (λ w, w_now w = t) (o e)) →
  ∀ e tx w, ∃ w', o e tx w = (Ok tt, w') ∧ users (w_db w') = users (w_db w) ∧ sessions (w_db w') = sessions (w_db w) ∧ w_now w' = w_now w.
Proof.
  intros Hok Hoff Hnow e tx w. exists (o e tx w).2. specialize (Hoff e _ tx w eq_refl). specialize (Hnow e _ tx w eq_refl).
  specialize (Hok e tx w). destruct (o e tx w) as [r w']. cbn in *. injection Hoff as -> ->. by subst.
Qed.

Lemma notify_ok {E} (os : list (E → world → world)) e tx w : (notify os e tx w).1 = Ok tt.
Proof. by rewrite notify_run. Qed.

Lemma swallow_run (m : M unit) tx w : ∃ w', catch m (λ _, mret tt) tx w = (Ok tt, w').
Proof. rewrite catch_run. destruct (m tx w) as [[[]|e] w']; eauto. Qed.

Lemma useraccess_observer_ok e tx w : ∃ w', useraccess_OnUserEvent e tx w = (Ok tt, w') ∧
  users (w_db w') = users (w_db w) ∧ sessions (w_db w') = sessions (w_db w) ∧ w_now w' = w_now w.
Proof.
  revert e tx w. apply observer_ok.
  - intros e tx w. unfold useraccess_OnUserEvent. case_match; rewrite bind_run;
      match goal with |- context [catch ?m _ tx w] => destruct (swallow_run m tx w) as [w1 ->] end; apply notify_ok.
  - intros e. unfold useraccess_OnUserEvent, EnsureUserSettings, DeleteUserData. off_auth.
  - intros e t. pose proof (now_queue t) as HQ. unfold useraccess_OnUserEvent, EnsureUserSettings, DeleteUserData. world_structural HQ.
Qed.

Ltac unfold_deletion :=
  unfold device_OnUserEvent, GetDeviceIDsByOwner, DeleteDevice, DeleteDevice_row, update_device, GetEnabledAddressesForDevice,
    DisableAddresses_rows, recordAddressEvent, insertAddressEvent, GetAddress, DeleteAPIKey_row, notifyAddress, notifyObservers.

Lemma device_observer_ok e tx w : ∃ w', device_OnUserEvent e tx w = (Ok tt, w') ∧
  users (w_db w') = users (w_db w) ∧ sessions (w_db w') = sessions (w_db w) ∧ w_now w' = w_now w.
Proof.
  revert e tx w. apply observer_ok.
  - intros e tx w. unfold device_OnUserEvent. case_match; [done|].
    match goal with |- context [catch ?m _ tx w] => destruct (swallow_run m tx w) as [w1 ->] end. done.
  - intros e. unfold_deletion. off_auth.
  - intros e t. pose proof (now_queue t) as HQ. unfold_deletion. world_structural HQ.
    apply notify_now, address_observers_inert.
Qed.

Lemma user_observer_quiet e : quiet (useraccess_OnUserEvent e) ∧ quiet (device_OnUserEvent e).
Proof.
  split; [unfold useraccess_OnUserEvent, EnsureUserSettings, DeleteUserData|
    unfold_deletion]; structural.
Qed.

#[export] Instance app_user_observers : UserObservers.
Proof.
  refine {| user_observers := [useraccess_OnUserEvent; device_OnUserEvent] |}.
  - exact (Forall_cons_2 _ _ _ useraccess_observer_ok (Forall_cons_2 _ _ _ device_observer_ok (Forall_nil_2 _))).
  - repeat constructor; apply user_observer_quiet.
Defined.

(** ** Interfaces *)

Definition rule_ttl (rs : gmap (DeviceID * RuleType) Rule) (dev : DeviceID) : result (option Z) :=
  match rs !! (dev, RuleTypeDeviceAddressLease) with
  | None => Ok None
  | Some r =>
      if negb (Rule_Enabled r) then Ok None
      else match ToDeviceAddressLeaseRule r with Err _ => Err ErrInvalidRuleConfig | Ok r => Ok (Some (TTLSeconds (dalr_Config r))) end
  end.

Definition rule_max (rs : gmap (DeviceID * RuleType) Rule) (dev : DeviceID) : result (option Z) :=
  match rs !! (dev, RuleTypeMaxActiveAddresses) with
  | None => Ok None
  | Some r =>
      if negb (Rule_Enabled r) then Ok None
      else match ToMaxActiveAddressesRule r with Err _ => Err ErrInvalidRuleConfig | Ok r => Ok (Some (MaxAddresses (maar_Config r))) end
  end.

Lemma keeps_find_rule I dev ty : keeps I (find_rule dev ty).
Proof. unfold find_rule, GetRuleByDeviceAndType. structural. Qed.

#[export] Hint Resolve keeps_find_rule : pw.

Lemma rule_ttl_run dev tx w : no_faults w → GetDeviceAddressLeaseTTLSeconds dev tx w = (rule_ttl (rules (w_db w)) dev, w).
Proof.
  intros Hnf. unfold GetDeviceAddressLeaseTTLSeconds, rule_ttl. rewrite bind_run, find_rule_run by done.
  destruct (rules (w_db w) !! _) as [r|]; [|done]. destruct (negb _); [done|]. by destruct (ToDeviceAddressLeaseRule r).
Qed.

Lemma rule_max_run dev tx w : no_faults w → GetMaxActiveAddresses dev tx w = (rule_max (rules (w_db w)) dev, w).
Proof.
  intros Hnf. unfold GetMaxActiveAddresses, rule_max. rewrite bind_run, find_rule_run by done.
  destruct (rules (w_db w) !! _) as [r|]; [|done]. destruct (negb _); [done|]. by destruct (ToMaxActiveAddressesRule r).
Qed.

Lemma rule_max_positive rs dev n : rule_max rs dev = Ok (Some n) → 1 ≤ n.
Proof.
  unfold rule_max, ToMaxActiveAddressesRule, parseMaxActiveAddressesConfig. repeat case_match; intros; simplify_eq. cbn.
  match goal with H : (_ <? 1) = false |- _ => apply Z.ltb_ge in H; exact H end.
Qed.

#[export] Instance rule_service_ttl : TTLConfigRetriever.
Proof.
  refine {| GetTTLSeconds := GetDeviceAddressLeaseTTLSeconds; ttl_of := rule_ttl; GetTTLSeconds_run := rule_ttl_run |}.
  intros. unfold GetDeviceAddressLeaseTTLSeconds. structural.
Defined.

#[export] Instance rule_service_max : MaxAddressesProvider.
Proof.
  refine {| GetMaxAddresses := GetMaxActiveAddresses; max_of := rule_max; GetMaxAddresses_run := rule_max_run;
            max_of_positive := rule_max_positive |}.
  intros. unfold GetMaxActiveAddresses. structural.
Defined.

Lemma enabled_addresses_run dev tx w :
  no_faults w → GetEnabledAddressesForDevice dev tx w = (Ok (enabled_addresses_of (w_db w) dev), w).
Proof. intros. unfold GetEnabledAddressesForDevice. by rewrite query_run. Qed.

#[export] Instance device_service_addresses : EnabledAddressFetcher.
Proof.
  refine {| FetchEnabled := GetEnabledAddressesForDevice; FetchEnabled_run := enabled_addresses_run |}.
  intros. unfold GetEnabledAddressesForDevice. structural.
Defined.

(** Disabling existing addresses never fails in a fault-free world. *)
Lemma map_each_record_run ids src trg w :
  no_faults w → addresses_keyed (w_db w) → Forall (λ i, is_Some (addresses (w_db w) !! i)) ids →
  ∃ l w', map_each ids (λ id, recordAddressEvent id false src trg) true w = (Ok l, w') ∧ no_faults w'.
Proof.
  revert w. induction ids as [|i ids IH]; intros w Hnf Hk Hids; [by eexists _, _|]. apply Forall_cons in Hids as [[a Ha] Hids].
  cbn [map_each]. rewrite bind_run, (recordAddressEvent_run _ _ _ _ _ a) by eauto. cbv zeta.
  set (w1 := set_db _ w). pose proof (Hk _ _ Ha) as Hid.
  assert (∀ j, addresses (w_db w1) !! j = (if decide (j = i) then Some (with_state false src (w_now w) a) else addresses (w_db w) !! j)) as Hl.
  { intros j. unfold w1, put_address. cbn. rewrite Hid. case_decide; [subst; apply lookup_insert_eq|by apply lookup_insert_ne]. }
  destruct (IH w1) as (l & w' & Hrun & Hnf'); [done| | |].
  - intros j x. rewrite Hl. case_decide; [intros [= <-]; by subst|apply Hk].
  - eapply Forall_impl; [exact Hids|]. intros j [x Hx]. rewrite Hl. case_decide; eauto.
  - rewrite bind_run, Hrun. by eexists _, _.
Qed.

Lemma DisableAddresses_run ids src trg w :
  no_faults w → addresses_keyed (w_db w) → Forall (λ i, is_Some (addresses (w_db w) !! i)) ids →
  ∃ w', DisableAddresses ids src trg false w = (Ok tt, w') ∧ no_faults w' ∧ disabled_in ids src (w_now w) (w_db w) (w_db w').
Proof.
  intros Hnf Hk Hids. assert (∃ l w', DisableAddresses_rows ids src trg false w = (Ok l, w') ∧ no_faults w' ∧
    disabled_in ids src (w_now w) (w_db w) (w_db w')) as (l & w1 & Hrun & Hnf1 & Hdis).
  { destruct ids as [|i ids]; [exists [], w; split; [done|]; split; [done|]; split; [apply address_write_refl|]; intros j; by rewrite decide_False by apply not_elem_of_nil|].
    unfold DisableAddresses_rows. destruct (map_each_record_run (i :: ids) src trg w Hnf Hk Hids) as (l & w' & Hrun & Hnf').
    rewrite withinTx_run; [|done|by rewrite Hrun]. rewrite Hrun. exists l, w'. split; [done|]. split; [done|].
    apply map_each_record in Hrun as (Hw & _ & Hl & _). by split. }
  unfold DisableAddresses. rewrite bind_run, Hrun. destruct (for_each_notify_Ok l EventTypeAddressDisabled false w1) as [w2 Hn].
  exists w2. split; [done|]. pose proof (for_each_notify_db l EventTypeAddressDisabled false w1) as Hd. rewrite Hn in Hd. cbn in Hd.
  split; [|by rewrite Hd]. assert (quiet (for_each l (λ a, notifyAddress a EventTypeAddressDisabled))) as Hq.
  { unfold notifyAddress, notifyObservers. structural. }
  specialize (Hq false w1 Hnf1). by rewrite Hn in Hq.
Qed.

#[export] Instance device_service_disabler : AddressDisabler.
Proof.
  refine {| Disable := DisableAddresses; Disable_run := DisableAddresses_run |}. intros. apply keeps_DisableAddresses.
Defined.

(** ** The policy cache's providers *)

Definition app_providers : Providers :=
  mkProviders GetEnabledIPEntries (Some GetAllUserHostAccess) (Some GetEnabledCacheEntries).
