(* ===== verification/AppOps.v ===== *)
(** * AppOps: the operations of the program, as one type

    A request handler's service call, a listener's iteration, a scheduled
    job: what runs between two states of the world. *)

From S2P Require Import Prelude GoLib Netip Schema Store Slicex HostNames Http Crypto Device DeviceInv DeviceSpec.
From S2P Require Import Interfaces Rule Lease MaxAddr Hosts UserAccess NetworkPolicies Pairing WorldInv App.

Local Open Scope Z_scope.

(** ** One step of the program *)

Inductive app_op :=
  | OpDevice (op : device_op)
  | OpUser (e : UserEvent)
  | OpReconcileHosts (hs : list DesiredHost)
  | OpReconcileHostGroups (gs : list DesiredHostGroup)
  | OpIgnoreSuggestion (fqdn : string)
  | OpUnignoreSuggestion (fqdn : string)
  | OpSetUserAccess (u : UserID) (bypass : bool) (gs : list HostGroupID)
  | OpUpdatePolicy (id : NetworkPolicyID) (fields : UpdateFields)
  | OpDeletePolicy (id : NetworkPolicyID)
  | OpSetHostAccess (id : NetworkPolicyID) (bypass : bool) (gs : list HostGroupID)
  | OpEnableLeaseRule (dev : DeviceID) (ttl : Z)
  | OpDisableLeaseRule (dev : DeviceID)
  | OpEnableMaxRule (dev : DeviceID) (n : Z)
  | OpDisableMaxRule (dev : DeviceID)
  | OpCreatePairing (req : CreatePairingRequest)
  | OpClaimPairing (code : string)
  | OpInvalidatePairing (dev : DeviceID) (id : DevicePairingID)
  | OpLeaseListener
  | OpLeaseRuleListener
  | OpMaxListener
  | OpMaxRuleListener
  | OpExpiryJob
  | OpCreatePolicy (name cidr : string) (description : option string).

Section app.
Context `{GoUnicode}.

Definition discard {A} (m : M A) : M unit := _ ← m; mret tt.

Definition run_app_op (op : app_op) : M unit :=
  match op with
  | OpDevice op => run_device_op op
  | OpUser e => user_event e
  | OpReconcileHosts hs => ReconcileHosts hs
  | OpReconcileHostGroups gs => ReconcileHostGroups gs
  | OpIgnoreSuggestion f => discard (AddIgnoredSuggestion f)
  | OpUnignoreSuggestion f => RemoveIgnoredSuggestionByFQDN f
  | OpSetUserAccess u b gs => SetUserAccess u b gs
  | OpUpdatePolicy id f => discard (UpdatePolicy id f)
  | OpDeletePolicy id => DeletePolicy id
  | OpSetHostAccess id b gs => SetHostAccess id b gs
  | OpEnableLeaseRule dev n => discard (EnableDeviceAddressLeaseRule dev n)
  | OpDisableLeaseRule dev => discard (DisableDeviceAddressLeaseRule dev)
  | OpEnableMaxRule dev n => discard (EnableMaxActiveAddressesRule dev n)
  | OpDisableMaxRule dev => discard (DisableMaxActiveAddressesRule dev)
  | OpCreatePairing req => discard (CreatePairing req)
  | OpClaimPairing code => discard (ClaimPairing code)
  | OpInvalidatePairing dev id => InvalidatePairing dev id
  | OpLeaseListener => lease_recv_address
  | OpLeaseRuleListener => lease_recv_rule
  | OpMaxListener => maxaddr_recv_address
  | OpMaxRuleListener => maxaddr_recv_rule
  | OpExpiryJob => ExpiryJob_Run
  | OpCreatePolicy name cidr description => discard (CreatePolicy name cidr description)
  end.
End app.

(** ** Queue invariants of every operation

    What the observers keep and what receiving keeps, every operation does. *)
Section app_holds.
Context `{GoUnicode} (Q : world → Prop) (HQ : queue_pred Q).
Context (Haddress : Forall (λ o : AddressEvent → world → world, ∀ e w, Q w → Q (o e w)) address_observers).
Context (Hdevice : Forall (λ o : DeviceEvent → world → world, ∀ e w, Q w → Q (o e w)) device_observers).
Context (Haccess : Forall (λ o : unit → world → world, ∀ e w, Q w → Q (o e w)) host_access_observers).
Context (Hpolicy : Forall (λ o : unit → world → world, ∀ e w, Q w → Q (o e w)) policy_change_observers).
Context (Hrule : Forall (λ o : RuleEvent → world → world, ∀ e w, Q w → Q (o e w)) rule_observers).
Context (Hlease : ∀ e q w, w_lease_events w = e :: q → Q w → Q (set_lease_events q w)).
Context (Hlease_rule : ∀ e q w, w_lease_rule_events w = e :: q → Q w → Q (set_lease_rule_events q w)).
Context (Hmax : ∀ e q w, w_maxaddr_events w = e :: q → Q w → Q (set_maxaddr_events q w)).
Context (Hmax_rule : ∀ e q w, w_maxaddr_rule_events w = e :: q → Q w → Q (set_maxaddr_rule_events q w)).

(** Every notification keeps [Q]. *)
Hint Extern 1 (holds _ (notify _ _)) => apply holds_notify; assumption : pw.

Lemma notifyAddress_holds a ty : holds Q (notifyAddress a ty).
Proof. unfold notifyAddress, notifyObservers. world_structural HQ. Qed.

Hint Resolve notifyAddress_holds : pw.

Lemma enforce_holds dev id : holds Q (enforce dev id).
Proof.
  unfold enforce. cbn [GetMaxAddresses FetchEnabled Disable rule_service_max device_service_addresses device_service_disabler].
  unfold GetMaxActiveAddresses, find_rule, GetRuleByDeviceAndType, GetEnabledAddressesForDevice, DisableAddresses, DisableAddresses_rows,
    recordAddressEvent, insertAddressEvent, GetAddress. world_structural HQ.
Qed.

Lemma lease_handle_holds e : holds Q (lease_handle_address e).
Proof.
  unfold lease_handle_address, AddAddressLease, ClearAddressLease, UpsertAddressLease, DeleteAddressLease.
  cbn [GetTTLSeconds rule_service_ttl]. unfold GetDeviceAddressLeaseTTLSeconds, find_rule, GetRuleByDeviceAndType. world_structural HQ.
Qed.

Lemma device_op_holds op : holds Q (run_device_op op).
Proof.
  destruct op; cbn [run_device_op];
    unfold CreateDeviceWithOptions, CreateDevice, DisableDevice, EnableDevice, SetDeviceDisabled, UpdateDevice,
      UpdateDevice_row, notifyDeviceObservers, RegenerateAPIKey, DeleteAPIKey, RegisterAddressActivity, IsDeviceDisabled, GetAddressForDeviceByIP,
      CreateAddress, RefreshAddress, EnableAddress, DisableAddress, CheckAddressOwnership, DisableAddress_row, DisableAddresses,
      DeleteAddressEventsOlderThan, device_OnUserEvent, GetDeviceIDsByOwner, DeleteDevice, DeleteDevice_row, update_device,
      GetEnabledAddressesForDevice, DisableAddresses_rows, recordAddressEvent, insertAddressEvent, GetAddress, DeleteAPIKey_row, GenerateAPIKey, UpsertAPIKey, GetDevice;
    world_structural HQ.
Qed.

Lemma app_op_holds op : holds Q (run_app_op op).
Proof.
  destruct op; cbn [run_app_op]; unfold discard.
  - apply device_op_holds.
  - unfold user_event, useraccess_OnUserEvent, EnsureUserSettings, DeleteUserData. pose proof (device_op_holds (OpUserEvent e)) as Hd. cbn in Hd. world_structural HQ.
  - unfold ReconcileHosts, ListHosts, DeleteHost, CreateHost, SetHostGroupMembership, insert_member, notifyHostAccess. world_structural HQ.
  - unfold ReconcileHostGroups, validateReferencedHosts, ListHostsByIDs, ListHostGroups, DeleteHostGroup, UpdateHostGroup, CreateHostGroup,
      replaceHostGroupMembers, insert_member, notifyHostAccess. world_structural HQ.
  - unfold AddIgnoredSuggestion, AddIgnoredSuggestion_row. world_structural HQ.
  - unfold RemoveIgnoredSuggestionByFQDN. world_structural HQ.
  - unfold SetUserAccess, SetUserAccess_row, insert_user_group. world_structural HQ.
  - unfold UpdatePolicy, GetPolicy, UpdatePolicy_row. world_structural HQ.
  - unfold DeletePolicy, DeletePolicy_row. world_structural HQ.
  - unfold SetHostAccess, SetHostAccess_row, insert_policy_group. world_structural HQ.
  - unfold EnableDeviceAddressLeaseRule, EnableDeviceAddressLeaseRuleConfig, upsert_rule, notifyRuleObservers. world_structural HQ.
  - unfold DisableDeviceAddressLeaseRule, DisableRule, notifyRuleObservers. world_structural HQ.
  - unfold EnableMaxActiveAddressesRule, EnableMaxActiveAddressesRuleConfig, upsert_rule, notifyRuleObservers, CountEnabledAddresses. world_structural HQ.
  - unfold DisableMaxActiveAddressesRule, DisableRule. world_structural HQ.
  - unfold CreatePairing, addPairingCode, generatePairingCode, ReplacePendingPairings, CreatePairing_row. world_structural HQ.
  - unfold ClaimPairing, GetPairingByCode, RegenerateAPIKey, GenerateAPIKey, GetDevice, UpsertAPIKey, ClaimPairing_row. world_structural HQ.
  - unfold InvalidatePairing, InvalidatePairing_row. world_structural HQ.
  - intros tx w Hw. unfold lease_recv_address. destruct (w_lease_events w) as [|e q] eqn:E; [done|]. by eapply lease_handle_holds, Hlease.
  - intros tx w Hw. unfold lease_recv_rule. destruct (w_lease_rule_events w) as [|e q] eqn:E; [done|].
    assert (holds Q (handleLeaseRuleEvent e)) as Hr by (unfold handleLeaseRuleEvent, SetDeviceAddressLeasesExpiry; world_structural HQ).
    by eapply Hr, Hlease_rule.
  - intros tx w Hw. unfold maxaddr_recv_address. destruct (w_maxaddr_events w) as [|e q] eqn:E; [done|]. by eapply enforce_holds, Hmax.
  - intros tx w Hw. unfold maxaddr_recv_rule. destruct (w_maxaddr_rule_events w) as [|e q] eqn:E; [done|]. by eapply enforce_holds, Hmax_rule.
  - unfold ExpiryJob_Run, GetExpiredAddressIDs. cbn [Disable device_service_disabler].
    unfold DisableAddresses, DisableAddresses_rows, recordAddressEvent, insertAddressEvent, GetAddress. world_structural HQ.
  - unfold CreatePolicy, CreatePolicy_row. world_structural HQ.
Qed.
End app_holds.

(** ** Table invariants of every operation *)

(** The handlers and statements behind the operations. *)
Ltac unfold_ops :=
  unfold discard, CreateDeviceWithOptions, CreateDevice, DisableDevice, EnableDevice, SetDeviceDisabled, UpdateDevice,
    UpdateDevice_row, notifyDeviceObservers, RegenerateAPIKey, DeleteAPIKey, RegisterAddressActivity, IsDeviceDisabled,
    GetAddressForDeviceByIP, CreateAddress, RefreshAddress, EnableAddress, DisableAddress, CheckAddressOwnership, DisableAddress_row,
    DisableAddresses, DeleteAddressEventsOlderThan, GenerateAPIKey, UpsertAPIKey, GetDevice, DeleteDevice, DeleteDevice_row, update_device,
    GetEnabledAddressesForDevice, DisableAddresses_rows, recordAddressEvent, insertAddressEvent, GetAddress, DeleteAPIKey_row, notifyAddress,
    notifyObservers, ReconcileHosts, ListHosts, DeleteHost, CreateHost, SetHostGroupMembership, insert_member, notifyHostAccess,
    ReconcileHostGroups, validateReferencedHosts, ListHostsByIDs, ListHostGroups, DeleteHostGroup, UpdateHostGroup, CreateHostGroup,
    replaceHostGroupMembers, AddIgnoredSuggestion, AddIgnoredSuggestion_row, RemoveIgnoredSuggestionByFQDN, SetUserAccess,
    SetUserAccess_row, insert_user_group, UpdatePolicy, GetPolicy, UpdatePolicy_row, DeletePolicy, DeletePolicy_row, SetHostAccess,
    SetHostAccess_row, insert_policy_group, EnableDeviceAddressLeaseRule, EnableDeviceAddressLeaseRuleConfig, upsert_rule,
    notifyRuleObservers, DisableDeviceAddressLeaseRule, DisableRule, EnableMaxActiveAddressesRule, EnableMaxActiveAddressesRuleConfig,
    CountEnabledAddresses, DisableMaxActiveAddressesRule, CreatePairing, addPairingCode, generatePairingCode, ReplacePendingPairings,
    CreatePairing_row, insert_pairing, ClaimPairing, GetPairingByCode, ClaimPairing_row, InvalidatePairing, InvalidatePairing_row,
    CreatePolicy, CreatePolicy_row.

Ltac unfold_listeners :=
  unfold enforce, lease_handle_address, AddAddressLease, ClearAddressLease, UpsertAddressLease, DeleteAddressLease, handleLeaseRuleEvent,
    SetDeviceAddressLeasesExpiry, ExpiryJob_Run, GetExpiredAddressIDs;
  cbn [GetTTLSeconds GetMaxAddresses FetchEnabled Disable rule_service_ttl rule_service_max device_service_addresses device_service_disabler];
  unfold GetDeviceAddressLeaseTTLSeconds, GetMaxActiveAddresses, find_rule, GetRuleByDeviceAndType, GetEnabledAddressesForDevice,
    DisableAddresses, DisableAddresses_rows, recordAddressEvent, insertAddressEvent, GetAddress, notifyAddress, notifyObservers.

(** A listener's iteration takes an event off its queue and handles it. *)
Lemma keeps_listener (I : db → Prop) {E} (queue : world → list E) (set : list E → world → world) (m : E → M unit) :
  (∀ q w, w_db (set q w) = w_db w) → (∀ e, keeps I (m e)) →
  keeps I (λ tx w, match queue w with [] => (Ok tt, w) | e :: q => m e tx (set q w) end).
Proof. intros Hs Hm tx w Hw. destruct (queue w) as [|e q]; [done|]. apply Hm. by rewrite Hs. Qed.
