(* ===== verification/Freshness.v ===== *)
(** * Freshness: the policy cache stays in step with the tables

    Every operation of the program keeps the device tables sound and either
    leaves what the cache is built from as it was or raises the refresh
    signal; so whenever no refresh is pending, the cache is that of the
    current tables. *)

From S2P Require Import Prelude GoLib Netip Schema Store Slicex HostNames Http PolicyCache Crypto PolicyService.
From S2P Require Import PolicySpec Device DeviceInv DeviceSpec Interfaces Rule Lease LeaseSpec MaxAddr Hosts.
From S2P Require Import HostsSpec UserAccess NetworkPolicies NetworkPoliciesSpec Pairing PairingSpec WorldInv App.
From S2P Require Import AppOps.
From stdpp Require Import relations.

Local Open Scope string_scope.
Local Open Scope Z_scope.

(** ** What the policy cache is fed *)

(** The tables the cache is built from, other than devices and addresses. *)
Definition rest (d : db) :=
  (user_settings d, user_groups d, group_members d, hosts d, policies d, policy_groups d).

(** The rows of the join of enabled addresses with live devices. *)
Definition entry (d : db) (e : IPEntry) : Prop :=
  ∃ i a v, addresses d !! i = Some a ∧ Address_IsEnabled a = true ∧ active_device d (Address_DeviceID a) = Some v ∧
    e = mkIPEntry (Address_IP a) (Address_DeviceID a) (Address_ID a) (Device_OwnerID v).

Lemma elem_of_entries d e : e ∈ enabled_ip_entries d ↔ entry d e.
Proof.
  unfold enabled_ip_entries, entry. rewrite list_elem_of_omap. setoid_rewrite elem_of_order_desc.
  setoid_rewrite elem_of_filter_rows. split.
  - intros (a & [He [i Ha]] & Hv). destruct (active_device d (Address_DeviceID a)) as [v|] eqn:Ev; [|done].
    injection Hv as <-. by exists i, a, v.
  - intros (i & a & v & Ha & He & Hv & ->). exists a. rewrite Hv. eauto.
Qed.

Lemma NoDup_entries d : device_inv d → NoDup (enabled_ip_entries d).
Proof.
  intros I. unfold enabled_ip_entries. set (l := order_desc _ _).
  assert (NoDup (Address_ID <$> l)) as Hnd.
  { unfold l. rewrite order_desc_Permutation. eapply sublist_NoDup; [|apply fmap_sublist, sublist_filter].
    apply NoDup_rows_on. intros k v. apply (di_addr_id _ I). }
  clearbody l. induction l as [|a l IH]; [constructor|]. cbn in Hnd. apply NoDup_cons in Hnd as [Ha Hnd]. cbn.
  destruct (active_device d _) as [v|]; cbn; [|by apply IH]. constructor; [|by apply IH].
  intros (b & Hb & E)%list_elem_of_omap. apply Ha. destruct (active_device d (Address_DeviceID b)) as [vb|]; [|done]. cbn in E.
  injection E as _ _ E _. rewrite <-E. by apply list_elem_of_fmap_2.
Qed.

(** The caches hold what the tables say; the order the addresses were read
    in is left open, as a refreshed address moves without the cache being
    rebuilt. *)
Definition fed (s : Service) (d : db) : Prop :=
  ∃ es, es ≡ₚ enabled_ip_entries d ∧ caches s es (host_access d) (collapse_cache_rows (cache_rows d)).

(** Two databases the cache cannot tell apart. *)
Definition same_feed (d d' : db) : Prop := device_inv d' ∧ rest d' = rest d ∧ ∀ e, entry d' e ↔ entry d e.

Lemma fed_same s d d' : device_inv d → same_feed d d' → fed s d → fed s d'.
Proof.
  intros I (I' & Hr & He) (es & Hes & Hc). exists es. split.
  - rewrite Hes. apply NoDup_Permutation; [by apply NoDup_entries..|]. intros e. by rewrite !elem_of_entries, He.
  - assert (host_access d' = host_access d ∧ cache_rows d' = cache_rows d) as [-> ->]; [|exact Hc].
    unfold rest in Hr. injection Hr as E1 E2 E3 E4 E5 E6. unfold host_access, user_host_grants, cache_rows, policy_fqdns, policy_has_null_row, members_of.
    by rewrite E1, E2, E3, E4, E5, E6.
Qed.

Lemma same_feed_refl d : device_inv d → same_feed d d.
Proof. intros I. split; [exact I|done]. Qed.

(** Owners of live devices, which is all a cache entry takes from them. *)
Definition owner_of (d : db) (i : DeviceID) : option UserID := Device_OwnerID <$> active_device d i.

Lemma same_feed_by d d' :
  device_inv d' → rest d' = rest d →
  (∀ i a, addresses d' !! i = Some a → Address_IsEnabled a = true → is_Some (owner_of d' (Address_DeviceID a)) →
     ∃ b, addresses d !! i = Some b ∧ Address_IsEnabled b = true ∧ Address_DeviceID b = Address_DeviceID a ∧ Address_IP b = Address_IP a ∧
       Address_ID b = Address_ID a ∧ owner_of d (Address_DeviceID a) = owner_of d' (Address_DeviceID a)) →
  (∀ i a, addresses d !! i = Some a → Address_IsEnabled a = true → is_Some (owner_of d (Address_DeviceID a)) →
     ∃ b, addresses d' !! i = Some b ∧ Address_IsEnabled b = true ∧ Address_DeviceID b = Address_DeviceID a ∧ Address_IP b = Address_IP a ∧
       Address_ID b = Address_ID a ∧ owner_of d' (Address_DeviceID a) = owner_of d (Address_DeviceID a)) →
  same_feed d d'.
Proof.
  assert (∀ d d', (∀ i a, addresses d' !! i = Some a → Address_IsEnabled a = true → is_Some (owner_of d' (Address_DeviceID a)) →
     ∃ b, addresses d !! i = Some b ∧ Address_IsEnabled b = true ∧ Address_DeviceID b = Address_DeviceID a ∧ Address_IP b = Address_IP a ∧
       Address_ID b = Address_ID a ∧ owner_of d (Address_DeviceID a) = owner_of d' (Address_DeviceID a)) → ∀ e, entry d' e → entry d e) as Hhalf.
  { clear. intros d d' Hsub e (i & a & v & Ha & He & Hv & ->).
    destruct (Hsub i a Ha He) as (b & Hb & Hbe & Hd & Hip & Hid & Ho); [unfold owner_of; rewrite Hv; by eexists|].
    unfold owner_of in Ho. rewrite Hv in Ho. destruct (active_device d (Address_DeviceID a)) as [v'|] eqn:Ev; [|done]. injection Ho as Ho.
    exists i, b, v'. rewrite Hd, Hip, Hid, Ho. done. }
  intros I Hr H1 H2. split; [done|]. split; [done|]. intros e. split; by apply Hhalf.
Qed.

(** Databases with the same addresses and the same owners of known devices. *)
Definition grown (d0 d : db) : Prop :=
  device_inv d ∧ rest d = rest d0 ∧ addresses d = addresses d0 ∧
  ∀ i, is_Some (devices d0 !! i) → is_Some (devices d !! i) ∧ owner_of d i = owner_of d0 i.

Lemma grown_refl d : device_inv d → grown d d.
Proof. intros I. split; [exact I|done]. Qed.

Lemma grown_same d0 d : device_inv d0 → grown d0 d → same_feed d0 d.
Proof.
  intros I0 (I & Hr & Ha & Ho). apply same_feed_by; [done|done| |]; intros i a Hi He _; rewrite Ha in *; exists a;
    (split; [done|]; split; [done|]; split; [done|]; split; [done|]; split; [done|]);
    destruct (Ho (Address_DeviceID a)) as [_ Hown]; (apply (di_addr_dev _ I0 i a Hi) || done).
Qed.

(** ** The refresh signal *)

Definition signalled (w : world) : Prop := w_refresh w = true.

Lemma signalled_queue : queue_pred signalled.
Proof. by intros d fs rs b w. Qed.

(** The caches are up to date, or a refresh is pending. *)
Definition fresh (s : Service) (w : world) : Prop := signalled w ∨ fed s (w_db w).

(** An operation, run outside of a transaction, that signals a refresh or
    changes nothing the caches depend on. *)
Definition told {A} (m : M A) : Prop :=
  ∀ w, device_inv (w_db w) → signalled (m false w).2 ∨ same_feed (w_db w) (w_db (m false w).2).

(** An operation after which the caches are as fresh as they were. *)
Definition tracks {A} (m : M A) : Prop :=
  ∀ s w, device_inv (w_db w) → fresh s w → device_inv (w_db (m false w).2) ∧ fresh s (m false w).2.

Lemma told_tracks {A} (m : M A) : holds signalled m → keeps_out device_inv m → told m → tracks m.
Proof.
  intros Hh Hk Ht s w I Hf. split; [by apply Hk|]. destruct Hf as [Hf|Hf]; [left; by apply Hh|].
  destruct (Ht w I) as [Ht'|Ht']; [by left|right]. by eapply fed_same.
Qed.

Lemma told_keeps {A} (m : M A) : (∀ d, device_inv d → keeps (same_feed d) m) → told m.
Proof. intros Hk w I. right. apply Hk; [done|]. by apply same_feed_refl. Qed.

(** Reading first, then an operation that tells. *)
Lemma told_read {A B} (m : M A) (f : A → M B) : (∀ d, keeps (λ d', d' = d) m) → (∀ a, told (f a)) → told (m ≫= f).
Proof.
  intros Hm Hf w I. rewrite bind_run. specialize (Hm (w_db w) false w eq_refl). cbn in Hm.
  destruct (m false w) as [[a|e] w1]; cbn in *; [|right; rewrite Hm; by apply same_feed_refl].
  rewrite <-Hm in I |- *. by apply Hf.
Qed.

(** Writing all or nothing, then telling. *)
Lemma told_write {A B} (m : M A) (f : A → M B) :
  (∀ w e w', m false w = (Err e, w') → w_db w' = w_db w) → (∀ a w, signalled (f a false w).2) → told (m ≫= f).
Proof.
  intros Hm Hf w I. rewrite bind_run. destruct (m false w) as [[a|e] w1] eqn:E; [left; apply Hf|right].
  cbn. rewrite (Hm _ _ _ E). by apply same_feed_refl.
Qed.

(** The observers raise the signal, and none lowers it. *)
Lemma address_observers_rise : Forall (λ o : AddressEvent → world → world, ∀ e w, signalled w → signalled (o e w)) address_observers.
Proof.
  cbn. repeat constructor; intros e w Hw.
  - unfold lease_OnAddressEvent. by destruct (w_cancelled w).
  - unfold policy_OnAddressEvent. by case_bool_decide.
  - unfold maxaddr_OnAddressEvent. by destruct (_ && _).
Qed.

Lemma rule_observers_rise : Forall (λ o : RuleEvent → world → world, ∀ e w, signalled w → signalled (o e w)) rule_observers.
Proof.
  cbn. repeat constructor; intros e w Hw.
  - unfold lease_OnRuleEvent. by destruct (w_cancelled w).
  - unfold maxaddr_OnRuleEvent. by destruct (_ || _).
Qed.

Lemma notify_rises {E} (os : list (E → world → world)) e : Forall (λ o, ∀ e w, signalled w → signalled (o e w)) os → holds signalled (notify os e).
Proof. apply holds_notify. Qed.

Lemma device_observers_rise : Forall (λ o : DeviceEvent → world → world, ∀ e w, signalled w → signalled (o e w)) device_observers.
Proof. apply Forall_cons_2; [by intros ? ? ?|constructor]. Qed.

Lemma host_access_observers_rise : Forall (λ o : unit → world → world, ∀ e w, signalled w → signalled (o e w)) host_access_observers.
Proof. apply Forall_cons_2; [by intros ? ? ?|constructor]. Qed.

Lemma policy_change_observers_rise : Forall (λ o : unit → world → world, ∀ e w, signalled w → signalled (o e w)) policy_change_observers.
Proof. apply Forall_cons_2; [by intros ? ? ?|constructor]. Qed.

#[export] Hint Resolve notify_rises address_observers_rise rule_observers_rise device_observers_rise host_access_observers_rise
  policy_change_observers_rise : pw.

Ltac rises := world_structural signalled_queue.

(** A change of the address's state, refreshes apart, is told. *)
Lemma notifyAddress_signals a ty tx w : ty ≠ EventTypeAddressRefreshed → signalled (notifyAddress a ty tx w).2.
Proof.
  intros Hty. unfold notifyAddress. rewrite bind_run, now_run. unfold notifyObservers. rewrite notify_run. cbn.
  unfold maxaddr_OnAddressEvent. destruct (_ && _); unfold policy_OnAddressEvent; by rewrite bool_decide_eq_false_2.
Qed.

Lemma notifyAddress_rises a ty : holds signalled (notifyAddress a ty).
Proof. unfold notifyAddress, notifyObservers. rises. Qed.

#[export] Hint Resolve notifyAddress_rises : pw.

Lemma for_each_signals l tx w : l ≠ [] → signalled (for_each l (λ a, notifyAddress a EventTypeAddressDisabled) tx w).2.
Proof.
  intros Hl. destruct l as [|a l]; [done|]. cbn [for_each]. rewrite bind_run.
  pose proof (notifyAddress_signals a EventTypeAddressDisabled tx w) as Hs.
  destruct (notifyAddress _ _ tx w) as [[u|e] w1]; [|by apply Hs].
  assert (holds signalled (for_each l (λ a, notifyAddress a EventTypeAddressDisabled))) as Hr by rises. by apply Hr, Hs.
Qed.

(** ** Device operations *)

Lemma address_write_rest d d' : address_write d d' → rest d' = rest d ∧ devices d' = devices d.
Proof. by intros (f & g & ->). Qed.

Lemma owner_of_devices d d' i : devices d' = devices d → owner_of d' i = owner_of d i.
Proof. unfold owner_of, active_device. by intros ->. Qed.

Section grown_steps.
Context (d0 : db).

Lemma grown_exec {A} (f : time → db → result (A * db)) :
  keeps device_inv (exec f) →
  (∀ t d a d', f t d = Ok (a, d') → rest d' = rest d ∧ addresses d' = addresses d ∧
     ∀ i, is_Some (devices d !! i) → is_Some (devices d' !! i) ∧ owner_of d' i = owner_of d i) →
  keeps (grown d0) (exec f).
Proof.
  intros Hk Hf. apply keeps_exec. intros t d a d' (I & Hr & Ha & Ho) Hrun.
  destruct (Hf t d a d' Hrun) as (Hr' & Ha' & Ho'). split; [|split; [congruence|split; [congruence|]]].
  - specialize (Hk false (world_of d t []) I). unfold exec in Hk. cbn in Hk. rewrite Hrun in Hk. exact Hk.
  - intros i Hi. destruct (Ho i Hi) as [Hi1 E1]. destruct (Ho' i Hi1) as [Hi2 E2]. split; [done|congruence].
Qed.

Lemma grown_CreateDevice p : keeps (grown d0) (CreateDevice p).
Proof.
  apply keeps_map_err, grown_exec.
  - pose proof (keeps_CreateDevice p) as Hk. intros tx w I. specialize (Hk tx w I). unfold CreateDevice in Hk. rewrite map_err_run in Hk.
    by destruct (exec _ tx w) as [[a|e] w'].
  - intros t d v d' Hf. write_cases Hf. split; [done|]. split; [done|]. intros i [x Hi].
    assert (fresh_id (devices d) ≠ i) as Hne by (intros <-; by apply fresh_id_ne in Hi).
    unfold owner_of, active_device. cbn. rewrite lookup_insert_ne by done. split; [by eexists|done].
Qed.

Lemma grown_UpsertAPIKey id h p : keeps (grown d0) (UpsertAPIKey id h p).
Proof.
  apply keeps_map_err, grown_exec.
  - pose proof (keeps_UpsertAPIKey id h p) as Hk. intros tx w I. specialize (Hk tx w I). unfold UpsertAPIKey in Hk. rewrite map_err_run in Hk.
    by destruct (exec _ tx w) as [[a|e] w'].
  - intros t d v d' Hf. write_cases Hf. done.
Qed.

Lemma grown_DeleteAPIKey_row id : keeps (grown d0) (DeleteAPIKey_row id).
Proof.
  apply keeps_bind; [|structural]. apply grown_exec.
  - pose proof (keeps_DeleteAPIKey_row id) as Hk. intros tx w I. specialize (Hk tx w I). unfold DeleteAPIKey_row in Hk. rewrite bind_run in Hk.
    destruct (exec _ tx w) as [[a|e] w']; [|done]. by destruct (a =? 0).
  - intros t d v d' Hf. write_cases Hf; done.
Qed.

Lemma grown_SetDeviceEnabled id : keeps (grown d0) (SetDeviceDisabled id false).
Proof.
  apply keeps_bind; [|structural]. unfold update_device. apply grown_exec.
  - pose proof (keeps_SetDeviceEnabled id) as Hk. intros tx w I. specialize (Hk tx w I). unfold SetDeviceDisabled in Hk. rewrite bind_run in Hk.
    unfold update_device in Hk. destruct (exec _ tx w) as [[a|e] w']; [|done]. by destruct (a =? 0).
  - intros t d v d' Hf. write_cases Hf; [|done]. split; [done|]. split; [done|]. intros i Hi.
    match goal with H : active_device d id = Some _ |- _ => apply active_device_Some in H as [Hx Hax] end.
    unfold owner_of, active_device, device_active in *. cbn. destruct (decide (id = i)) as [<-|Hne].
    + rewrite lookup_insert_eq, Hx. cbn. rewrite Hax. split; [by eexists|done].
    + by rewrite lookup_insert_ne.
Qed.

Lemma grown_GetDevice id : keeps (grown d0) (GetDevice id).
Proof. unfold GetDevice. structural. Qed.
End grown_steps.

#[export] Hint Resolve grown_CreateDevice grown_UpsertAPIKey grown_DeleteAPIKey_row grown_SetDeviceEnabled grown_GetDevice : pw.

Lemma told_grown {A} (m : M A) : (∀ d, keeps (grown d) m) → told m.
Proof. intros Hk w I. right. apply grown_same; [done|]. apply Hk. by apply grown_refl. Qed.

Lemma told_CreateDevice p i : told (CreateDeviceWithOptions p i).
Proof. apply told_grown. intros d. unfold CreateDeviceWithOptions, GenerateAPIKey. structural. Qed.

Lemma told_EnableDevice id : told (EnableDevice id).
Proof. apply told_grown. intros d. unfold EnableDevice. structural. Qed.

Lemma told_RegenerateAPIKey id : told (RegenerateAPIKey id).
Proof. apply told_grown. intros d. unfold RegenerateAPIKey, GenerateAPIKey. structural. Qed.

Lemma told_DeleteAPIKey id : told (DeleteAPIKey id).
Proof. apply told_grown. intros d. unfold DeleteAPIKey. structural. Qed.

Lemma told_PruneEvents before : told (DeleteAddressEventsOlderThan before).
Proof.
  apply told_grown. intros d. apply grown_exec; [|by intros t x n d' [= _ <-]].
  apply keeps_exec. intros t x n d' I [= _ <-]. by apply inv_events.
Qed.

(** Disabling a batch: nothing to disable, or every observer told. *)
Lemma told_DisableAddress id a : told (DisableAddress id a).
Proof.
  unfold DisableAddress. apply told_write; [intros w e w'; apply withinTx_rollback|]. intros x w.
  rewrite bind_run. pose proof (notifyAddress_signals x EventTypeAddressDisabled false w) as Hs.
  destruct (notifyAddress _ _ false w) as [[u|e] w1]; by apply Hs.
Qed.

Lemma told_DisableAddresses ids src trg : told (DisableAddresses ids src trg).
Proof.
  unfold DisableAddresses, DisableAddresses_rows. destruct ids as [|i ids].
  { intros w I. right. cbn. by apply same_feed_refl. }
  intros w I. rewrite bind_run. destruct (withinTx _ false w) as [[l|e] w1] eqn:E.
  - left. apply for_each_signals. intros ->. apply withinTx_Ok in E as (w0 & w2 & _ & _ & _ & E & _).
    apply map_each_record in E as (_ & _ & _ & Hf). by inversion Hf.
  - right. apply withinTx_rollback in E. cbn. rewrite E. by apply same_feed_refl.
Qed.

(** No address of the device was enabled: its row does not matter. *)
Lemma same_feed_idle d d' id :
  device_inv d' → rest d' = rest d → (∀ i, addresses d' !! i = addresses d !! i) → enabled_addresses_of d id = [] →
  (∀ i, i ≠ id → devices d' !! i = devices d !! i) → same_feed d d'.
Proof.
  intros I' Hr Ha Hn Hd.
  assert (∀ i a, addresses d !! i = Some a → Address_IsEnabled a = true → owner_of d' (Address_DeviceID a) = owner_of d (Address_DeviceID a)) as Ho.
  { intros i a Hi He. destruct (decide (Address_DeviceID a = id)) as [E|Hne].
    - exfalso. assert (a ∈ enabled_addresses_of d id) as Hin by (apply elem_of_enabled_addresses; eauto). rewrite Hn in Hin. by apply elem_of_nil in Hin.
    - unfold owner_of, active_device. by rewrite Hd. }
  apply same_feed_by; [done|done| |]; intros i a Hi He _; [rewrite Ha in Hi|rewrite Ha]; exists a; repeat (split; [done|]); [symmetry|]; by eapply Ho.
Qed.

Lemma told_DeleteDevice id : told (DeleteDevice id).
Proof.
  intros w I. pose proof (keeps_DeleteDevice id false w I) as I'. revert I'. unfold DeleteDevice. rewrite bind_run.
  destruct (withinTx _ false w) as [[l|e] w1] eqn:E; intros I'.
  2: { right. apply withinTx_rollback in E. cbn in *. rewrite E. by apply same_feed_refl. }
  destruct l as [|a l]; [right|left; by apply for_each_signals]. cbn in *.
  apply withinTx_Ok in E as (w0 & w3 & E0 & _ & _ & Hr & E1). rewrite E1 in I' |- *. rewrite <-E0.
  apply bind_Ok in Hr as ([] & wa & Hdel & Hr). apply bind_Ok in Hr as (la & wb & Hlist & Hr).
  apply bind_Ok in Hr as (lb & wc & Hdis & Hr). apply bind_Ok in Hr as ([] & wd & Hkey & Hr). injection Hr as -> <-.
  apply DeleteDevice_row_Ok in Hdel as (v & Hv & Ea). unfold GetEnabledAddressesForDevice in Hlist. apply query_Ok in Hlist as (Eb & _ & _ & ->).
  apply DisableAddresses_rows_Ok in Hdis as (Hw & _ & Hl & Hf). apply DeleteAPIKey_row_ignored in Hkey as Ed.
  apply Forall2_nil_inv_r, fmap_nil_inv in Hf. rewrite Hf in Hl. apply address_write_rest in Hw as [Hrest Hdev].
  rewrite Ed in I' |- *. apply (same_feed_idle _ _ id); [done| | | |].
  - etransitivity; [exact Hrest|]. by rewrite Eb, Ea.
  - intros i. cbn. rewrite Hl, decide_False by apply not_elem_of_nil. by rewrite Eb, Ea.
  - unfold enabled_addresses_of in *. by rewrite Ea in Hf.
  - intros i Hi. cbn. rewrite Hdev, Eb, Ea. cbn. by rewrite lookup_insert_ne.
Qed.

Lemma told_DisableDevice id : told (DisableDevice id).
Proof.
  intros w I. pose proof (DisableDevice_keeps id w I) as I'. revert I'. unfold DisableDevice. rewrite bind_run.
  destruct (withinTx _ false w) as [[[l v]|e] w1] eqn:E; intros I'.
  2: { right. apply withinTx_rollback in E. cbn in *. rewrite E. by apply same_feed_refl. }
  destruct l as [|a l].
  2: { left. rewrite bind_run. pose proof (for_each_signals (a :: l) false w1) as Hs.
       destruct (for_each _ _ false w1) as [[u|e] w2]; by apply Hs. }
  right. revert I'. rewrite !bind_run. cbn. intros I'. apply withinTx_Ok in E as (w0 & w3 & E0 & _ & _ & Hr & E1). rewrite E1 in I' |- *. rewrite <-E0.
  unfold GetEnabledAddressesForDevice, GetDevice in Hr.
  apply bind_Ok in Hr as (v0 & wa & Hget & Hr). apply bind_Ok in Hr as (l0 & wb & Hlist & Hr).
  apply bind_Ok in Hr as (l1 & wc & Hdis & Hr). apply bind_Ok in Hr as ([] & wd & Hset & Hr).
  apply bind_Ok in Hr as (v1 & we & Hget' & Hr). injection Hr as -> -> <-.
  apply map_err_Ok in Hget. apply get_row_Ok in Hget as (Ea & _ & _ & _). apply map_err_Ok in Hget'. apply get_row_Ok in Hget' as (Ee & _ & _ & _).
  apply query_Ok in Hlist as (Eb & _ & _ & ->). apply DisableAddresses_rows_Ok in Hdis as (Hw & _ & Hl & Hf).
  apply Forall2_nil_inv_r, fmap_nil_inv in Hf. rewrite Hf in Hl. apply address_write_rest in Hw as [Hrest Hdev].
  unfold SetDeviceDisabled, update_device in Hset. apply bind_Ok in Hset as (n & wf & Hset & Hn).
  assert (wf = wd) as -> by (case_match; by injection Hn).
  apply exec_Ok in Hset as (d' & Hset & Ed & _). rewrite Ee, Ed in I' |- *.
  destruct (active_device (w_db wc) id) as [x|]; injection Hset as <- <-; [|done].
  apply (same_feed_idle _ _ id); [done| | | |].
  - etransitivity; [exact Hrest|]. by rewrite Eb, Ea.
  - intros i. cbn. rewrite Hl, decide_False by apply not_elem_of_nil. by rewrite Eb, Ea.
  - by rewrite Ea in Hf.
  - intros i Hi. cbn. rewrite lookup_insert_ne by done. by rewrite Hdev, Eb, Ea.
Qed.

(** Refreshing an enabled address moves it in the order, nothing more. *)
Lemma same_feed_refresh d d' id old src t :
  device_inv d' → rest d' = rest d → devices d' = devices d → addresses d !! id = Some old → Address_IsEnabled old = true →
  addresses d' = alter (with_state true src t) id (addresses d) → same_feed d d'.
Proof.
  intros I' Hr Hd Ho He Ha. apply same_feed_by; [done|done| |]; intros i a Hi Hai _; rewrite Ha in *; destruct (decide (id = i)) as [<-|Hne].
  - rewrite lookup_alter_eq, Ho in Hi. injection Hi as <-. exists old. repeat (split; [done|]). symmetry. by apply owner_of_devices.
  - rewrite lookup_alter_ne in Hi by done. exists a. repeat (split; [done|]). symmetry. by apply owner_of_devices.
  - rewrite lookup_alter_eq, Hi. eexists. split; [done|]. repeat (split; [done|]). by apply owner_of_devices.
  - rewrite lookup_alter_ne by done. exists a. repeat (split; [done|]). by apply owner_of_devices.
Qed.

(** A report that ends in a refresh found the address enabled. *)
Lemma Register_refreshed p dev w a w' src trg :
  (disabled ← IsDeviceDisabled dev;
   if (disabled : bool) then throw ErrDeviceDisabled
   else
     existing ← catch (Some <$> GetAddressForDeviceByIP dev (cap_IP p)) (λ e, if decide (e = ErrAddressNotFound) then mret None else throw e);
     match existing with
     | None => a ← CreateAddress p src trg; mret (a, EventTypeAddressCreated)
     | Some x =>
         if negb (Address_IsEnabled x)
         then a ← EnableAddress (Address_ID x) src trg; mret (a, EventTypeAddressEnabled)
         else a ← RefreshAddress (Address_ID x) src trg; mret (a, EventTypeAddressRefreshed)
     end) true w = (Ok (a, EventTypeAddressRefreshed), w') →
  ∃ i x w1, addresses (w_db w) !! i = Some x ∧ Address_IsEnabled x = true ∧ w_db w1 = w_db w ∧
    recordAddressEvent (Address_ID x) true src trg true w1 = (Ok a, w').
Proof.
  intros Hr. apply bind_Ok in Hr as (b & w1 & (E1 & _ & v & _ & ->)%IsDeviceDisabled_Ok & Hr).
  destruct (negb _) in Hr; [discriminate Hr|]. apply bind_Ok in Hr as (ex & w2 & Hex & Hr).
  destruct ex as [x|]; [|apply bind_Ok in Hr as (? & ? & _ & [=])].
  destruct (Address_IsEnabled x) eqn:Een; cbn [negb] in Hr; [|apply bind_Ok in Hr as (? & ? & _ & [=])].
  apply bind_Ok in Hr as (a' & w3 & Hrec & [= -> ->]).
  apply catch_Ok in Hex as [Hex|(e & w4 & _ & Hh)]; [|by case_decide].
  apply fmap_Ok in Hex as (y & Hex & [= <-]). unfold GetAddressForDeviceByIP in Hex. apply map_err_Ok in Hex. apply get_row_Ok in Hex as (E2 & _ & _ & Hx).
  fold (address_of (w_db w1) dev (cap_IP p)) in Hx. apply address_of_Some in Hx as ((i & Hi) & _ & _).
  rewrite E1 in Hi. exists i, x, w2. split; [done|]. split; [done|]. split; [congruence|exact Hrec].
Qed.

Lemma told_Register proxy dev ip src trg : told (RegisterAddressActivity proxy dev ip src trg).
Proof.
  intros w I. pose proof (RegisterAddressActivity_keeps proxy dev ip src trg w I) as I'. revert I'. unfold RegisterAddressActivity.
  destruct (NewCreateAddressParams dev ip proxy) as [p|e]; [|intros _; right; by apply same_feed_refl]. rewrite bind_run.
  destruct (withinTx _ false w) as [[[a ty]|e] w1] eqn:E; intros I'.
  2: { right. apply withinTx_rollback in E. cbn in *. rewrite E. by apply same_feed_refl. }
  destruct (decide (ty = EventTypeAddressRefreshed)) as [->|Hty].
  2: { left. rewrite bind_run. pose proof (notifyAddress_signals a ty false w1 Hty) as Hs. by destruct (notifyAddress a ty false w1) as [[u|e] w2]. }
  right. assert (w_db ((notifyAddress a EventTypeAddressRefreshed ≫= λ _, mret (a, EventTypeAddressRefreshed)) false w1).2 = w_db w1) as Hdb.
  { rewrite bind_run. unfold notifyAddress. rewrite bind_run, now_run. unfold notifyObservers. rewrite notify_run. cbv beta iota.
    apply foldl_inert, address_observers_inert. }
  rewrite Hdb in I' |- *. apply withinTx_Ok in E as (w0 & w3 & E0 & _ & _ & Hr & E1). rewrite E1 in I' |- *.
  apply Register_refreshed in Hr as (i & x & w2 & Hx & He & E2 & Hrec). rewrite E0 in *.
  pose proof (di_addr_id _ I _ _ Hx) as Hid. apply recordAddressEvent_Ok in Hrec as (old & Ho & _ & Hw & _).
  rewrite E2, Hid, Hx in Ho. injection Ho as <-. rewrite Hw in I' |- *. apply (same_feed_refresh _ _ i x src (w_now w2)); cbn; try done; rewrite ?E2, ?Hid; done.
Qed.

(** A profile change: a changed owner is told, if no statement fails. *)
Lemma Device_Update_owner v name desc icon owner v' :
  Device_Update v name desc icon owner = Ok v' → Device_OwnerID v' = default (Device_OwnerID v) owner ∧ Device_ID v' = Device_ID v.
Proof. unfold Device_Update. repeat case_match; intros; simplify_eq; done. Qed.

(** A device's update and the read of the result are not one transaction: it
    can fail with its row written.  The only tables it writes are the
    devices. *)
Definition devices_aside (d : db) := (rest d, addresses d).

Lemma UpdateDevice_aside id input X : keeps (λ d, devices_aside d = X) (UpdateDevice id input).
Proof.
  unfold UpdateDevice, UpdateDevice_row, GetDevice, notifyDeviceObservers. structural.
  apply keeps_exec. intros ? d ? d' Hd Hw. rewrite <-Hd. write_cases Hw; done.
Qed.

Lemma same_feed_devices d d' : device_inv d' → devices_aside d' = devices_aside d → devices d' = devices d → same_feed d d'.
Proof.
  intros I E Ed. unfold devices_aside in E. injection E as E1 E2 E3 E4 E5 E6 Ea. split; [done|]. split.
  - unfold rest. congruence.
  - intros e. unfold entry, active_device. by rewrite Ed, Ea.
Qed.

Lemma UpdateDevice_Ok_tells id input w v w' :
  device_inv (w_db w) → UpdateDevice id input false w = (Ok v, w') → signalled w' ∨ grown (w_db w) (w_db w').
Proof.
  intros I E. pose proof (keeps_UpdateDevice id input false w I) as I'. pose proof (UpdateDevice_aside id input _ false w eq_refl) as Ha.
  rewrite E in I', Ha. cbn in I', Ha. unfold UpdateDevice in E. apply bind_Ok in E as (v0 & w1 & H1 & E). unfold GetDevice in H1.
  apply map_err_Ok in H1. apply get_row_Ok in H1 as (E1 & _ & _ & Hv0). destruct (active_device (w_db w) id) as [x|] eqn:Hx; [|done].
  pose proof (proj1 (active_device_Some _ _ _) Hx) as [Hxd Hact]. pose proof (di_dev_id _ I _ _ Hxd) as [Hid _].
  injection Hv0 as <-. cbv zeta in E. destruct (Device_Update _ _ _ _ _) as [v'|e] eqn:Hu; [|done].
  apply Device_Update_owner in Hu as [Howner Hid']. cbn in Howner, Hid'. apply bind_Ok in E as (u & w2 & H2 & E).
  unfold UpdateDevice_row in H2. apply bind_Ok in H2 as (n & w3 & H3 & H2). apply map_err_Ok in H3.
  apply exec_Ok in H3 as (d3 & H3 & E3 & _). rewrite Hid', Hid, E1, Hx in H3.
  destruct (device_name_taken _ _ _ _); [done|]. destruct (users (w_db w) !! Device_OwnerID v'); [|done]. injection H3 as <- <-.
  cbn [Z.eqb] in H2. unfold GetDevice in H2. apply map_err_Ok in H2. apply get_row_Ok in H2 as (E2 & _).
  apply bind_Ok in E as (t & w4 & H4 & E). injection E as _ <-.
  destruct (match udi_OwnerID input with Some o => _ | None => false end) eqn:Hch.
  - left. unfold notifyDeviceObservers in H4. rewrite bind_run, now_run, notify_run in H4. by injection H4 as _ <-.
  - right. injection H4 as _ <-. unfold devices_aside in Ha. injection Ha as A1 A2 A3 A4 A5 A6 Aa.
    split; [done|]. split; [unfold rest; congruence|]. split; [done|]. intros i Hi. rewrite E2, E3. unfold owner_of, active_device. cbn.
    destruct (decide (id = i)) as [<-|Hne]; [|by rewrite lookup_insert_ne].
    rewrite lookup_insert_eq, Hxd. cbn. unfold device_active in *. cbn. rewrite Hact. cbn. split; [by eexists|]. f_equal.
    rewrite Howner. destruct (udi_OwnerID input) as [o|]; [|done]. cbn in Hch |- *. by apply negb_false_iff, Z.eqb_eq in Hch.
Qed.

Lemma told_UpdateDevice id input w :
  device_inv (w_db w) →
  (∀ e, (UpdateDevice id input false w).1 = Err e → devices (w_db (UpdateDevice id input false w).2) = devices (w_db w)) →
  signalled (UpdateDevice id input false w).2 ∨ same_feed (w_db w) (w_db (UpdateDevice id input false w).2).
Proof.
  intros I Herr. pose proof (keeps_UpdateDevice id input false w I) as I'. pose proof (UpdateDevice_aside id input _ false w eq_refl) as Ha.
  destruct (UpdateDevice id input false w) as [[v|e] w'] eqn:E; cbn in *.
  - destruct (UpdateDevice_Ok_tells _ _ _ _ _ I E) as [?|?]; [by left|right; by apply grown_same].
  - right. apply same_feed_devices; eauto.
Qed.

(** ** The other operations *)

Create HintDb frames.

Definition dev_tables (d : db) := (users d, devices d, api_keys d, addresses d).

Lemma dev_tables_inv d d' : dev_tables d' = dev_tables d → device_inv d → device_inv d'.
Proof.
  intros E [I1 I2 I3 I4 I5 I6 I7 I8 I9]. unfold dev_tables in E. injection E as E1 E2 E3 E4.
  constructor; rewrite ?E1, ?E2, ?E3, ?E4; assumption.
Qed.

(** [framed m]: [m] writes none of the tables of devices. *)
Definition framed {A} (m : M A) : Prop := ∀ X, keeps (λ d, dev_tables d = X) m.

Lemma framed_keeps {A} (m : M A) : framed m → keeps device_inv m.
Proof. intros Hm tx w I. eapply dev_tables_inv; [|exact I]. by apply Hm. Qed.

(** [unfed m]: nor any other table the caches depend on. *)
Definition feed_tables (d : db) := (dev_tables d, rest d).

Definition unfed {A} (m : M A) : Prop := ∀ X, keeps (λ d, feed_tables d = X) m.

Lemma unfed_framed {A} (m : M A) : unfed m → framed m.
Proof. intros Hm X tx w E. specialize (Hm (X, rest (w_db w)) tx w). unfold feed_tables in Hm. rewrite E in Hm. by injection (Hm eq_refl). Qed.

Lemma unfed_told {A} (m : M A) : unfed m → told m.
Proof.
  intros Hm w I. right. specialize (Hm _ false w eq_refl). unfold feed_tables in Hm.
  assert (dev_tables (w_db (m false w).2) = dev_tables (w_db w)) as E by congruence.
  assert (rest (w_db (m false w).2) = rest (w_db w)) as Er by congruence.
  split; [by eapply dev_tables_inv|]. split; [done|]. intros e. unfold dev_tables in E. injection E as _ E2 _ E4.
  unfold entry, active_device. by rewrite E2, E4.
Qed.

Ltac frame := intros X; structural; apply keeps_exec; intros ? d ? d' Hd Hw; rewrite <-Hd; write_cases Hw; done.

Section framed_ops.
Context `{GoUnicode}.

Lemma framed_ReconcileHosts hs : framed (ReconcileHosts hs).
Proof. unfold ReconcileHosts, ListHosts, DeleteHost, CreateHost, SetHostGroupMembership, insert_member, notifyHostAccess. frame. Qed.

Lemma framed_ReconcileHostGroups gs : framed (ReconcileHostGroups gs).
Proof.
  unfold ReconcileHostGroups, validateReferencedHosts, ListHostsByIDs, ListHostGroups, DeleteHostGroup, UpdateHostGroup, CreateHostGroup,
    replaceHostGroupMembers, insert_member, notifyHostAccess. frame.
Qed.

Lemma unfed_AddIgnoredSuggestion f : unfed (AddIgnoredSuggestion f).
Proof. unfold AddIgnoredSuggestion, AddIgnoredSuggestion_row. frame. Qed.

Lemma unfed_RemoveIgnoredSuggestion f : unfed (RemoveIgnoredSuggestionByFQDN f).
Proof. unfold RemoveIgnoredSuggestionByFQDN. frame. Qed.
End framed_ops.

Lemma framed_SetUserAccess u b gs : framed (SetUserAccess u b gs).
Proof. unfold SetUserAccess, SetUserAccess_row, insert_user_group. frame. Qed.

Lemma framed_useraccess_OnUserEvent e : framed (useraccess_OnUserEvent e).
Proof. unfold useraccess_OnUserEvent, EnsureUserSettings, DeleteUserData. frame. Qed.

Lemma framed_UpdatePolicy id f : framed (UpdatePolicy id f).
Proof. unfold UpdatePolicy, GetPolicy, UpdatePolicy_row. frame. Qed.

Lemma framed_CreatePolicy name cidr description : framed (CreatePolicy name cidr description).
Proof. unfold CreatePolicy, CreatePolicy_row. frame. Qed.

Lemma framed_DeletePolicy id : framed (DeletePolicy id).
Proof. unfold DeletePolicy, DeletePolicy_row. frame. Qed.

Lemma framed_SetHostAccess id b gs : framed (SetHostAccess id b gs).
Proof. unfold SetHostAccess, SetHostAccess_row, insert_policy_group. frame. Qed.

Lemma unfed_EnableLease dev n : unfed (EnableDeviceAddressLeaseRule dev n).
Proof. unfold EnableDeviceAddressLeaseRule, EnableDeviceAddressLeaseRuleConfig, upsert_rule, notifyRuleObservers. frame. Qed.

Lemma unfed_DisableLease dev : unfed (DisableDeviceAddressLeaseRule dev).
Proof. unfold DisableDeviceAddressLeaseRule, DisableRule, notifyRuleObservers. frame. Qed.

Lemma unfed_EnableMax dev n : unfed (EnableMaxActiveAddressesRule dev n).
Proof. unfold EnableMaxActiveAddressesRule, EnableMaxActiveAddressesRuleConfig, upsert_rule, notifyRuleObservers, CountEnabledAddresses. frame. Qed.

Lemma unfed_DisableMax dev : unfed (DisableMaxActiveAddressesRule dev).
Proof. unfold DisableMaxActiveAddressesRule, DisableRule. frame. Qed.

Lemma unfed_lease_handle e : unfed (lease_handle_address e).
Proof. unfold lease_handle_address, AddAddressLease, ClearAddressLease, UpsertAddressLease, DeleteAddressLease. frame. Qed.

Lemma unfed_lease_rule_handle e : unfed (handleLeaseRuleEvent e).
Proof. unfold handleLeaseRuleEvent, SetDeviceAddressLeasesExpiry. frame. Qed.

Lemma unfed_CreatePairing req : unfed (CreatePairing req).
Proof. unfold CreatePairing, addPairingCode, generatePairingCode, ReplacePendingPairings, CreatePairing_row, insert_pairing. frame. Qed.

Lemma unfed_InvalidatePairing dev id : unfed (InvalidatePairing dev id).
Proof. unfold InvalidatePairing, InvalidatePairing_row. frame. Qed.

#[export] Hint Resolve unfed_framed framed_ReconcileHosts framed_ReconcileHostGroups unfed_AddIgnoredSuggestion unfed_RemoveIgnoredSuggestion
  framed_SetUserAccess framed_CreatePolicy framed_UpdatePolicy framed_DeletePolicy framed_SetHostAccess unfed_EnableLease unfed_DisableLease unfed_EnableMax
  unfed_DisableMax unfed_CreatePairing unfed_InvalidatePairing : frames.

(** What the services tell. *)
Lemma notify_host_access_signals tx w : signalled (notify host_access_observers tt tx w).2.
Proof. by rewrite notify_run. Qed.

Lemma notify_policy_change_signals tx w : signalled (notify policy_change_observers tt tx w).2.
Proof. by rewrite notify_run. Qed.

Lemma rollback_write {A} (fn : M A) : ∀ w e w', withinTx fn false w = (Err e, w') → w_db w' = w_db w.
Proof. intros w e w'. apply withinTx_rollback. Qed.

Lemma told_catch {A} (m : M A) a : told m → told (catch m (λ _, mret a)).
Proof. intros Hm w I. specialize (Hm w I). rewrite catch_run. by destruct (m false w) as [[x|e] w']. Qed.

Lemma unchanged_of_result {A} (r : result A) d : keeps (λ d', d' = d) (of_result r).
Proof. apply keeps_of_result. Qed.

Section told_ops.
Context `{GoUnicode}.

Lemma told_ReconcileHosts hs : told (ReconcileHosts hs).
Proof.
  unfold ReconcileHosts. apply told_read; [intros d; apply unchanged_of_result|]. intros desired.
  apply told_read; [intros d; unfold ListHosts; structural|]. intros current.
  apply told_read; [intros d; apply unchanged_of_result|]. intros plan.
  apply told_write; [apply rollback_write|]. intros []. apply notify_host_access_signals.
Qed.

Lemma told_ReconcileHostGroups gs : told (ReconcileHostGroups gs).
Proof.
  unfold ReconcileHostGroups. apply told_read; [intros d; apply unchanged_of_result|]. intros desired.
  apply told_read; [intros d; unfold validateReferencedHosts, ListHostsByIDs; structural|]. intros [].
  apply told_read; [intros d; unfold ListHostGroups; structural|]. intros current.
  apply told_read; [intros d; apply unchanged_of_result|]. intros plan.
  apply told_write; [apply rollback_write|]. intros []. apply notify_host_access_signals.
Qed.
End told_ops.

Lemma told_SetUserAccess u b gs : told (SetUserAccess u b gs).
Proof. unfold SetUserAccess, SetUserAccess_row. apply told_write; [apply rollback_write|]. intros []. apply notify_host_access_signals. Qed.

Lemma told_UpdatePolicy id f : told (UpdatePolicy id f).
Proof.
  unfold UpdatePolicy. apply told_write; [apply rollback_write|]. intros p w. rewrite bind_run.
  pose proof (notify_policy_change_signals false w) as Hs. by destruct (notify _ _ false w) as [[u|e] w1].
Qed.

Lemma told_DeletePolicy id : told (DeletePolicy id).
Proof.
  unfold DeletePolicy. apply told_write; [|intros [] w; apply notify_policy_change_signals]. intros w e w' E.
  unfold DeletePolicy_row in E. rewrite bind_run in E. unfold exec in E. destruct (pop_fault w) as [[b|] w0] eqn:Ef; apply pop_fault_db in Ef as (Ef & _).
  - by injection E as _ <-.
  - destruct (policies (w_db w0) !! id); [done|]. injection E as _ <-. cbn. done.
Qed.

Lemma told_SetHostAccess id b gs : told (SetHostAccess id b gs).
Proof. unfold SetHostAccess, SetHostAccess_row. apply told_write; [apply rollback_write|]. intros []. apply notify_policy_change_signals. Qed.

Lemma told_user_event e : told (user_event e).
Proof.
  intros w _. left. unfold user_event. rewrite bind_run. unfold useraccess_OnUserEvent.
  assert (holds signalled (device_OnUserEvent e)) as Hr.
  { unfold device_OnUserEvent, GetDeviceIDsByOwner, DeleteDevice, DeleteDevice_row, update_device, GetEnabledAddressesForDevice,
      DisableAddresses_rows, recordAddressEvent, insertAddressEvent, GetAddress, DeleteAPIKey_row. rises. }
  destruct (UserEvent_Type e); rewrite bind_run, catch_run;
    match goal with |- context [match ?m false w with _ => _ end] => destruct (m false w) as [[[]|err] w1] end;
    cbv beta iota; rewrite ?ret_run; cbv beta iota; rewrite notify_run; by apply Hr.
Qed.

Lemma grown_ClaimPairing_row d0 id : keeps (grown d0) (ClaimPairing_row id).
Proof.
  unfold ClaimPairing_row. apply keeps_bind; [|structural]. apply grown_exec.
  - apply framed_keeps. frame.
  - intros t d r d' Hw. write_cases Hw. done.
Qed.

#[export] Hint Resolve grown_ClaimPairing_row : pw.

Lemma keeps_ClaimPairing code : keeps device_inv (ClaimPairing code).
Proof.
  unfold ClaimPairing, GetPairingByCode, ClaimPairing_row. structural.
  apply keeps_exec. intros ? x ? x' I Hw. write_cases Hw. eapply dev_tables_inv; [|exact I]; done.
Qed.

Lemma told_ClaimPairing code : told (ClaimPairing code).
Proof. apply told_grown. intros d. unfold ClaimPairing, GetPairingByCode, RegenerateAPIKey, GenerateAPIKey. structural. Qed.

Lemma told_enforce dev id : told (enforce dev id).
Proof.
  unfold enforce. apply told_read; [intros d; structural|]. intros [[n|]|e]; try (apply told_keeps; intros d I; solve [structural]).
  apply told_read; [intros d; structural|]. intros [l|e]; [|apply told_keeps; intros d I; structural].
  cbv zeta. destruct (_ <=? 0); [apply told_keeps; intros d I; structural|]. destruct (collect_evicted _ _ _ _); [apply told_keeps; intros d I; structural|].
  apply told_catch, told_DisableAddresses.
Qed.

Lemma told_ExpiryJob : told ExpiryJob_Run.
Proof.
  unfold ExpiryJob_Run, GetExpiredAddressIDs. apply told_read; [intros d; structural|]. intros [|i ids]; [apply told_keeps; intros d I; structural|].
  apply told_DisableAddresses.
Qed.

(** ** The caches stay fresh *)

Lemma GetAllUserHostAccess_Ok w l w' :
  GetAllUserHostAccess false w = (Ok l, w') → w_db w' = w_db w ∧ l = host_access (w_db w).
Proof.
  intros Hr. unfold GetAllUserHostAccess in Hr. apply bind_Ok in Hr as ([st gr] & w1 & Htx & Hr). injection Hr as <- <-.
  apply withinTx_Ok in Htx as (w0 & w2 & E0 & _ & _ & Hr & E1). unfold GetAllUserHostSettings, GetAllUserHostGrants in Hr.
  apply bind_Ok in Hr as (a & wa & Ha & Hr). apply bind_Ok in Hr as (b & wb & Hb & Hr). injection Hr as <- <- <-.
  apply query_Ok in Ha as (Ea & _ & _ & ->). apply query_Ok in Hb as (Eb & _ & _ & ->). split; [congruence|].
  unfold host_access. by rewrite Ea, E0.
Qed.

Lemma refreshCache_Ok ms s w s' w' :
  refreshCache app_providers ms s false w = (Ok s', w') →
  w_db w' = w_db w ∧ fed s' (w_db w) ∧ apiSecretHash s' = apiSecretHash s ∧ trustedProxy s' = trustedProxy s.
Proof.
  intros Hr. unfold refreshCache, app_providers in Hr. cbn [ipProvider hostProvider networkPoliciesProvider optional] in Hr.
  apply bind_Ok in Hr as (es & w1 & H1 & Hr). apply bind_Ok in Hr as (ha & w2 & H2 & Hr). apply bind_Ok in Hr as (nps & w3 & H3 & Hr).
  apply bind_Ok in Hr as (t & w4 & Hnow & Hr). injection Hnow as <- <-. injection Hr as <- <-.
  unfold GetEnabledIPEntries in H1. apply query_Ok in H1 as (E1 & _ & _ & ->). apply GetAllUserHostAccess_Ok in H2 as [E2 ->].
  unfold GetEnabledCacheEntries in H3. apply bind_Ok in H3 as (rws & w4 & H3 & Hr). apply query_Ok in H3 as (E3 & _ & _ & ->). injection Hr as <- <-.
  split; [congruence|]. split; [|done]. exists (enabled_ip_entries (w_db w)). split; [done|]. split; cbn; by rewrite ?E1, ?E2, ?E1.
Qed.

Section fresh_caches.
Context `{GoUnicode}.

(** What the refresh signal does not cover: a policy that is created tells
    no observer, and a device's update that fails with its row written tells
    nobody either.  (The devices' part of a user event never runs alone: the
    grants' part, which always tells, comes first in [OpUser].) *)
Definition untold (op : app_op) (w : world) : bool :=
  match op with
  | OpCreatePolicy _ _ _ => match (run_app_op op false w).1 with Ok _ => true | Err _ => false end
  | OpDevice (OpUpdateDevice _ _) =>
      match run_app_op op false w with
      | (Ok _, _) => false
      | (Err _, w') => bool_decide (devices (w_db w') ≠ devices (w_db w))
      end
  | OpDevice (OpUserEvent _) => true
  | _ => false
  end.

Definition refresh_fails (ms : Z) (s : Service) (w : world) : bool :=
  match (refreshCache app_providers ms s false w).1 with Ok _ => false | Err _ => true end.

(** The running program: the world, the policy service, and whether a change
    may have been missed since the last rebuild of the caches. *)
Record config := mkConfig { cfg_world : world; cfg_service : Service; cfg_missed : bool }.

(** Work elsewhere: requests served, log-ins, the access log, the other
    jobs; the clock and the failures to come are the environment's. *)
Definition work_elsewhere (w w' : world) : Prop :=
  (device_inv (w_db w) → device_inv (w_db w')) ∧ devices (w_db w') = devices (w_db w) ∧ addresses (w_db w') = addresses (w_db w) ∧
  rest (w_db w') = rest (w_db w) ∧ w_refresh w' = w_refresh w.

(** A step of the program: an operation, whatever it is and whatever fails
    in it; a round of the refresh loop, on the signal or on the ticker,
    whether its rebuild succeeds or not; work elsewhere.  A rebuild that
    fails on the signal has consumed it. *)
Inductive app_step : option app_op → config → config → Prop :=
  | step_op op w s m : app_step (Some op) (mkConfig w s m) (mkConfig (run_app_op op false w).2 s (m || untold op w))
  | step_signal ms w s m s' w' :
      w_refresh w = true → onRefreshSignal app_providers ms s false w = (Ok s', w') →
      app_step None (mkConfig w s m) (mkConfig w' s' (refresh_fails ms s (set_refresh false w)))
  | step_ticker ms w s m s' w' :
      onTicker app_providers ms s false w = (Ok s', w') →
      app_step None (mkConfig w s m) (mkConfig w' s' (m && refresh_fails ms s w))
  | step_elsewhere w w' s m : work_elsewhere w w' → app_step None (mkConfig w s m) (mkConfig w' s m).

Definition app_run : config → config → Prop := rtc (λ c c', ∃ l, app_step l c c').

(** Nothing is pending and nothing was missed. *)
Definition up_to_date (c : config) : Prop := w_refresh (cfg_world c) = false ∧ cfg_missed c = false.

(** The caches are those of the tables, or a refresh is pending, or something was missed. *)
Definition tracked (c : config) : Prop := cfg_missed c = true ∨ fresh (cfg_service c) (cfg_world c).

Lemma app_op_rises op : holds signalled (run_app_op op).
Proof.
  apply app_op_holds; [apply signalled_queue|apply address_observers_rise|apply device_observers_rise|apply host_access_observers_rise|
    apply policy_change_observers_rise|apply rule_observers_rise|done..].
Qed.

Lemma device_op_rises op : holds signalled (run_device_op op).
Proof. apply (app_op_rises (OpDevice op)). Qed.

Lemma device_op_tracks op s w :
  untold (OpDevice op) w = false → device_inv (w_db w) → fresh s w →
  device_inv (w_db (run_device_op op false w).2) ∧ fresh s (run_device_op op false w).2.
Proof.
  intros Hadm I Hf. split; [by apply run_device_op_keeps|]. destruct Hf as [Hf|Hf]; [left; by apply device_op_rises|].
  cut (signalled (run_device_op op false w).2 ∨ same_feed (w_db w) (w_db (run_device_op op false w).2)).
  { intros [?|?]; [by left|right; by eapply fed_same]. }
  assert (∀ A (m : M A), signalled (m false w).2 ∨ same_feed (w_db w) (w_db (m false w).2) →
    signalled ((_ ← m; mret tt) false w).2 ∨ same_feed (w_db w) (w_db ((_ ← m; mret tt) false w).2)) as Hd.
  { intros A m Hm. rewrite bind_run. by destruct (m false w) as [[a|e] w1]. }
  destruct op as [p i|id|id|id|id i|id|id|pr id ip sr tr|id a|l sr tr|e|bf]; cbn [run_device_op] in *; try apply Hd.
  - by apply told_CreateDevice.
  - by apply told_DeleteDevice.
  - by apply told_DisableDevice.
  - by apply told_EnableDevice.
  - apply told_UpdateDevice; [done|]. intros e He. unfold untold in Hadm. cbn [run_app_op run_device_op] in Hadm. rewrite bind_run in Hadm.
    destruct (UpdateDevice id i false w) as [[v|e'] w'] eqn:E; cbn in *; [done|]. apply bool_decide_eq_false in Hadm. by apply dec_stable.
  - by apply told_RegenerateAPIKey.
  - by apply told_DeleteAPIKey.
  - by apply told_Register.
  - by apply told_DisableAddress.
  - by apply told_DisableAddresses.
  - done.
  - by apply told_PruneEvents.
Qed.

Lemma app_op_keeps op : keeps_out device_inv (run_app_op op).
Proof.
  assert (∀ A (m : M A), keeps device_inv m → keeps_out device_inv (discard m)) as Hd.
  { intros A m Hm. apply keeps_keeps_out, keeps_bind; [done|]. intros. apply keeps_ret. }
  destruct op; cbn [run_app_op]; [apply run_device_op_keeps|..]; try apply Hd; try apply keeps_keeps_out; try (apply framed_keeps; eauto with frames; fail).
  - unfold user_event. apply keeps_bind; [apply framed_keeps, framed_useraccess_OnUserEvent|]. intros []. apply keeps_device_OnUserEvent.
  - apply keeps_ClaimPairing.
  - intros tx w I. unfold lease_recv_address. destruct (w_lease_events w); [done|]. by apply (framed_keeps _ (unfed_framed _ (unfed_lease_handle _))).
  - intros tx w I. unfold lease_recv_rule. destruct (w_lease_rule_events w); [done|]. by apply (framed_keeps _ (unfed_framed _ (unfed_lease_rule_handle _))).
  - intros tx w I. unfold maxaddr_recv_address. destruct (w_maxaddr_events w); [done|]. by apply enforce_keeps.
  - intros tx w I. unfold maxaddr_recv_rule. destruct (w_maxaddr_rule_events w); [done|]. by apply enforce_keeps.
  - unfold ExpiryJob_Run, GetExpiredAddressIDs. structural.
Qed.

(** The listeners act as their handlers do on the rest of the queue. *)
Lemma told_elsewhere {A} (m : M A) w w1 : told m → w_db w1 = w_db w → device_inv (w_db w) →
  signalled (m false w1).2 ∨ same_feed (w_db w) (w_db (m false w1).2).
Proof. intros Hm E I. rewrite <-E in I |- *. by apply Hm. Qed.

(** A policy that is not created leaves no trace. *)
Lemma CreatePolicy_told name cidr description w :
  untold (OpCreatePolicy name cidr description) w = false → device_inv (w_db w) →
  same_feed (w_db w) (w_db (run_app_op (OpCreatePolicy name cidr description) false w).2).
Proof.
  unfold untold. cbn [run_app_op]. unfold discard, CreatePolicy, CreatePolicy_row. intros Hu I. revert Hu. rewrite !bind_run, of_result_run.
  destruct (normalizeCIDR cidr) as [n|e]; [|intros _; by apply same_feed_refl]. unfold map_err. rewrite catch_run. unfold exec.
  destruct (pop_fault w) as [[b|] w0] eqn:E; apply pop_fault_db in E as (E & _ & _); [intros _; cbn; rewrite E; by apply same_feed_refl|].
  destruct (cidr_taken _ _ _); intros Hu; [cbn; rewrite E; by apply same_feed_refl|done].
Qed.

Lemma app_op_told op : match op with OpDevice _ | OpCreatePolicy _ _ _ => True | _ => told (run_app_op op) end.
Proof.
  assert (∀ A (m : M A), told m → told (discard m)) as Hd.
  { intros A m Hm w I. specialize (Hm w I). unfold discard. rewrite bind_run. by destruct (m false w) as [[a|e] w1]. }
  destruct op; cbn [run_app_op]; try done; try apply Hd; try (apply unfed_told; eauto with frames; fail);
    auto using told_user_event, told_ReconcileHosts, told_ReconcileHostGroups, told_SetUserAccess, told_UpdatePolicy, told_DeletePolicy,
      told_SetHostAccess, told_ClaimPairing, told_ExpiryJob.
  all: intros w I; unfold lease_recv_address, lease_recv_rule, maxaddr_recv_address, maxaddr_recv_rule; case_match;
    try (right; by apply same_feed_refl); apply told_elsewhere; auto using unfed_told, unfed_lease_handle, unfed_lease_rule_handle, told_enforce.
Qed.

Lemma app_op_tracks op s w :
  untold op w = false → device_inv (w_db w) → fresh s w →
  device_inv (w_db (run_app_op op false w).2) ∧ fresh s (run_app_op op false w).2.
Proof.
  intros Hu I Hf. pose proof (app_op_told op) as Ht. pose proof (app_op_keeps op) as Hk.
  destruct op as [op|e|hs|gs|f|f|u b gs|id f|id|id b gs|dv n|dv|dv n|dv|req|code|dv id| | | | | |nm ci de];
    try (by apply told_tracks; [apply app_op_rises|..]); [by apply device_op_tracks|].
  split; [by apply Hk|]. destruct Hf as [Hf|Hf]; [left; by apply app_op_rises|right]. by eapply fed_same, Hf; [|apply CreatePolicy_told].
Qed.

Lemma refresh_fed ms s w r w' :
  refreshCache app_providers ms s false w = (Ok r, w') → w_db w' = w_db w ∧ fed r (w_db w').
Proof. intros Hr. apply refreshCache_Ok in Hr as (E & Hfed & _). by rewrite E. Qed.

Lemma refreshCache_db ms s w : w_db (refreshCache app_providers ms s false w).2 = w_db w.
Proof.
  assert (keeps (λ d, d = w_db w) (refreshCache app_providers ms s)) as Hk; [|by apply Hk].
  unfold refreshCache, app_providers. cbn [ipProvider hostProvider networkPoliciesProvider optional].
  unfold GetEnabledIPEntries, GetAllUserHostAccess, GetAllUserHostSettings, GetAllUserHostGrants, GetEnabledCacheEntries. structural.
Qed.

(** A round of the loop rebuilds the caches or leaves them as they are. *)
Lemma refresh_round ms s w s' w' :
  catch (refreshCache app_providers ms s) (λ _, mret s) false w = (Ok s', w') →
  w_db w' = w_db w ∧ (if refresh_fails ms s w then s' = s else fed s' (w_db w)).
Proof.
  rewrite catch_run. pose proof (refreshCache_db ms s w) as Hdb. unfold refresh_fails.
  destruct (refreshCache app_providers ms s false w) as [[r|e] w1] eqn:E; cbn in *; intros [= <- <-].
  - split; [done|]. by apply refreshCache_Ok in E as (_ & Hfed & _).
  - done.
Qed.

Lemma refresh_round_refresh ms s w s' w' :
  catch (refreshCache app_providers ms s) (λ _, mret s) false w = (Ok s', w') → w_refresh w' = w_refresh w.
Proof.
  assert (holds (λ x, w_refresh x = w_refresh w) (catch (refreshCache app_providers ms s) (λ _, mret s))) as Hh.
  { assert (queue_pred (λ x, w_refresh x = w_refresh w)) as HQ by (by intros d fs rs b x).
    unfold refreshCache, app_providers. cbn [ipProvider hostProvider networkPoliciesProvider optional].
    unfold GetEnabledIPEntries, GetAllUserHostAccess, GetAllUserHostSettings, GetAllUserHostGrants, GetEnabledCacheEntries. world_structural HQ. }
  intros E. specialize (Hh false w eq_refl). by rewrite E in Hh.
Qed.

Lemma elsewhere_feed w w' : work_elsewhere w w' → device_inv (w_db w) → same_feed (w_db w) (w_db w').
Proof.
  intros (Hi & Ed & Ea & Er & _) I. split; [by apply Hi|]. split; [done|]. intros e. unfold entry, active_device. by rewrite Ed, Ea.
Qed.

(** Every step keeps the tables sound and the caches tracked. *)
Lemma app_step_tracked l c c' :
  app_step l c c' → device_inv (w_db (cfg_world c)) → tracked c → device_inv (w_db (cfg_world c')) ∧ tracked c'.
Proof.
  unfold tracked. destruct 1 as [op w s m|ms w s m s' w' _ Hr|ms w s m s' w' Hr|w w' s m He]; cbn [cfg_world cfg_service cfg_missed]; intros I Ht.
  - split; [by apply app_op_keeps|]. destruct Ht as [->|Hf]; [by left|]. destruct (untold op w) eqn:Hu; [left; by rewrite orb_true_r|].
    right. by apply app_op_tracks.
  - unfold onRefreshSignal in Hr. rewrite bind_run in Hr. unfold effect in Hr. apply refresh_round in Hr as [E Hs]. rewrite E. split; [done|].
    destruct (refresh_fails _ _ _); [by left|right; right; by rewrite E].
  - unfold onTicker in Hr. pose proof (refresh_round_refresh _ _ _ _ _ Hr) as Er. apply refresh_round in Hr as [E Hs]. rewrite E. split; [done|].
    destruct (refresh_fails _ _ _); [subst s'|right; right; by rewrite E]. rewrite andb_true_r. destruct Ht as [->|Hf]; [by left|right].
    unfold fresh, signalled in *. by rewrite Er, E.
  - pose proof (elsewhere_feed _ _ He I) as Hsf. split; [by apply Hsf|]. destruct Ht as [->|Hf]; [by left|right].
    destruct He as (_ & _ & _ & _ & Er). destruct Hf as [Hf|Hf]; [left; unfold signalled in *; congruence|right]. by eapply fed_same.
Qed.

Lemma app_run_tracked c c' :
  app_run c c' → device_inv (w_db (cfg_world c)) → tracked c → device_inv (w_db (cfg_world c')) ∧ tracked c'.
Proof.
  induction 1 as [|c1 c2 c3 [l Hstep] _ IH]; [done|]. intros I Ht. by apply app_step_tracked in Hstep as [? ?]; auto.
Qed.

Lemma tracked_fed c : tracked c → up_to_date c → fed (cfg_service c) (w_db (cfg_world c)).
Proof. intros [Hm|[Hp|Hf]] [Hr Hn]; unfold signalled in *; [congruence..|done]. Qed.

(** C2: the policy cache is never silently stale.  Take each operation and
    each round of the refresh loop as one step, and let any of them run in
    any order, on any clock, with any failure in it, the rebuilds included:
    whenever no refresh is pending and nothing was missed since the caches
    were last rebuilt, they are those of the current tables.  Missed is
    said of three things only, a rebuild on the signal that failed (the
    signal is gone), a policy that was created (no observer is told), a
    device update that failed with its row written (or the devices' part of
    a user event run alone, which the program never does).  Whatever was
    missed, the next rebuild that succeeds, on the signal or on the
    ticker, brings the caches back to the tables. *)
Theorem caches_fresh c c' :
  device_inv (w_db (cfg_world c)) → tracked c → app_run c c' →
  device_inv (w_db (cfg_world c')) ∧
  (up_to_date c' → fed (cfg_service c') (w_db (cfg_world c'))) ∧
  (∀ ms r w, refreshCache app_providers ms (cfg_service c') false (cfg_world c') = (Ok r, w) →
     w_db w = w_db (cfg_world c') ∧ fed r (w_db w)).
Proof.
  intros I Ht Hrun. destruct (app_run_tracked _ _ Hrun I Ht) as [I' Ht']. split; [done|].
  split; [by apply tracked_fed|]. intros ms r w. apply refresh_fed.
Qed.
End fresh_caches.
