(* ===== verification/AuthSafety.v ===== *)
(** * AuthSafety: accounts and sessions in the running program

    The requests of users and superadmins, in any order, between any other
    operations of the program.  A principal is issued by a cookie's token and
    may be used later, when it is stale.  The bootstrapped superadmin cannot
    be removed or demoted, and what is revoked stays revoked. *)

From S2P Require Import Prelude GoLib Netip Schema Store Http Crypto Auth AuthInv AuthSpec Device DeviceInv.
From S2P Require Import DeviceSpec Interfaces Rule Lease MaxAddr Hosts UserAccess NetworkPolicies Pairing WorldInv App AppOps.

Local Open Scope Z_scope.

(** ** Requests *)

Inductive auth_op :=
  | AuthBootstrap (password : string)
  | AuthLogin (username password : string)
  | AuthLogout (p : Principal)
  | AuthCreateUser (p : Principal) (username displayName : string) (email : option string)
  | AuthUpdateMe (p : Principal) (updates : ProfileUpdates)
  | AuthChangePassword (p : Principal) (currentPassword password : string)
  | AuthPromoteUser (p : Principal) (userId : UserID) (password : string)
  | AuthDemoteUser (p : Principal) (userId : UserID)
  | AuthDeleteUser (p : Principal) (userId : UserID).

(** The principal a request is made with. *)
Definition principal_of (op : auth_op) : option Principal :=
  match op with
  | AuthBootstrap _ | AuthLogin _ _ => None
  | AuthLogout p | AuthCreateUser p _ _ _ | AuthUpdateMe p _ | AuthChangePassword p _ _ | AuthPromoteUser p _ _
  | AuthDemoteUser p _ | AuthDeleteUser p _ => Some p
  end.

Section requests.
Context `{GoUnicode} `{Bcrypt}.

Definition run_auth_op (op : auth_op) : M unit :=
  match op with
  | AuthBootstrap password => BootstrapAdmin password
  | AuthLogin username password => discard (handler_Login username password)
  | AuthLogout p => discard (handler_Logout (Some p))
  | AuthCreateUser p u d e => discard (handler_CreateUser (Some p) u d e)
  | AuthUpdateMe p ups => discard (handler_UpdateMe (Some p) ups)
  | AuthChangePassword p old new => discard (handler_ChangePassword (Some p) old new)
  | AuthPromoteUser p id pw => discard (handler_PromoteUser (Some p) id pw)
  | AuthDemoteUser p id => discard (handler_DemoteUser (Some p) id)
  | AuthDeleteUser p id => discard (handler_DeleteUser (Some p) id)
  end.

Lemma keeps_out_respond I {A B} (m : M A) (ok : A → Response B) status : keeps_out I m → keeps_out I (respond m ok status).
Proof. intros Hm w Hw. rewrite respond_run. specialize (Hm w Hw). by destruct (m false w). Qed.

(** A request keeps the invariant, and what no operation undoes. *)
Lemma auth_op_kept op d0 :
  (∀ p, principal_of op = Some p → principal_ok d0 p) → keeps_out (kept d0) (run_auth_op op).
Proof.
  intros Hp. destruct op; cbn [run_auth_op principal_of] in *; try apply keeps_out_discard; try apply keeps_out_respond.
  - apply keeps_BootstrapAdmin.
  - unfold handler_Login. apply keeps_out_bind; [apply keeps_keeps_out; structural|]. intros t. apply keeps_out_respond, keeps_keeps_out, keeps_Login.
  - apply keeps_keeps_out. unfold handler_Logout, RevokeSession. pose proof keeps_with_revoked. structural.
  - apply keeps_CreateUser.
  - apply keeps_UpdateOwnProfile.
  - apply keeps_ChangePassword.
  - apply keeps_PromoteUser; auto.
  - apply keeps_DemoteUser; auto.
  - apply keeps_DeleteUser; auto.
Qed.
End requests.

(** ** The other operations *)

Create HintDb off_auth.

Lemma off_auth_kept {A} (m : M A) d0 : off_auth m → keeps (kept d0) m.
Proof.
  intros Hm tx w Hw. specialize (Hm _ tx w eq_refl). unfold auth_tables in Hm.
  eapply kept_ext; [..|exact Hw]; congruence.
Qed.

Section others.
Context `{GoUnicode}.

Lemma device_op_off_auth op : off_auth (run_device_op op).
Proof.
  destruct op; cbn [run_device_op]; unfold_ops; try solve [off_auth].
  intros X tx w Hw. destruct (device_observer_ok e tx w) as (w' & E & Eu & Es & _). unfold auth_tables. rewrite E. cbn. by rewrite Eu, Es.
Qed.

(** A listener's iteration takes an event off its queue and handles it. *)
Lemma off_auth_recv {A} (m : M A) X tx w w1 : off_auth m → w_db w1 = w_db w → auth_tables (w_db w) = X → auth_tables (w_db (m tx w1).2) = X.
Proof. intros Hm E <-. apply Hm. by rewrite E. Qed.

Lemma lease_handle_off_auth e : off_auth (lease_handle_address e).
Proof. unfold_listeners. off_auth. Qed.

Lemma lease_rule_off_auth e : off_auth (handleLeaseRuleEvent e).
Proof. unfold_listeners. off_auth. Qed.

Lemma enforce_off_auth dev id : off_auth (enforce dev id).
Proof. unfold_listeners. off_auth. Qed.

Lemma app_op_off_auth op : off_auth (run_app_op op).
Proof.
  destruct op; cbn [run_app_op]; try solve [unfold_ops; off_auth].
  - apply device_op_off_auth.
  - intros X tx w Hw. unfold user_event, auth_tables. destruct (useraccess_observer_ok e tx w) as (w1 & E1 & Eu1 & Es1 & _).
    destruct (device_observer_ok e tx w1) as (w2 & E2 & Eu2 & Es2 & _). rewrite bind_run, E1, E2. cbn. by rewrite Eu2, Es2, Eu1, Es1.
  - intros X tx w Hw. unfold lease_recv_address. case_match; [done|]. by eapply off_auth_recv; [apply lease_handle_off_auth|..].
  - intros X tx w Hw. unfold lease_recv_rule. case_match; [done|]. by eapply off_auth_recv; [apply lease_rule_off_auth|..].
  - intros X tx w Hw. unfold maxaddr_recv_address. case_match; [done|]. by eapply off_auth_recv; [apply enforce_off_auth|..].
  - intros X tx w Hw. unfold maxaddr_recv_rule. case_match; [done|]. by eapply off_auth_recv; [apply enforce_off_auth|..].
Qed.
End others.

(** ** The running program *)

Section system.
Context `{GoUnicode} `{Bcrypt}.

(** The world and the principals issued so far. *)
Definition system : Type := world * list Principal.

(** A cookie is turned into a principal; a request is made with a principal
    issued before, however long ago; any other operation runs; the clock goes
    on and the environment (failures to come, randomness, cancellation,
    queues) changes. *)
Inductive auth_step : system → system → Prop :=
  | step_issue cookie w ps p w' :
      PrincipalUserContext cookie false w = (Ok (Some p), w') → auth_step (w, ps) (w', p :: ps)
  | step_request op w ps :
      (∀ p, principal_of op = Some p → p ∈ ps) → auth_step (w, ps) ((run_auth_op op false w).2, ps)
  | step_other op w ps : auth_step (w, ps) ((run_app_op op false w).2, ps)
  | step_env w w' ps : w_db w' = w_db w → w_now w ≤ w_now w' → auth_step (w, ps) (w', ps).

(** Each issued principal is one the tables know: a superadmin's is the
    root's. *)
Definition system_inv (c : system) : Prop :=
  auth_inv (w_db c.1) ∧ admins_only (w_now c.1) (w_db c.1) ∧ Forall (principal_ok (w_db c.1)) c.2.

Lemma issue_Ok cookie tx w p w' :
  auth_inv (w_db w) → PrincipalUserContext cookie tx w = (Ok (Some p), w') →
  w_db w' = w_db w ∧ ∃ tok, session_of (w_now w) (w_db w) p (hashRawToken tok).
Proof.
  intros I Hi. unfold PrincipalUserContext in Hi. destruct cookie as [[|c tok]|]; [done| |done].
  apply catch_Ok in Hi as [Hi|(e & w1 & _ & Hi)]; [|done]. apply fmap_Ok in Hi as (p' & Hi & [= <-]).
  apply Authenticate_Ok in Hi as [? ?]; eauto.
Qed.

Lemma session_of_ok t d p h : auth_inv d → session_of t d p h → principal_ok d p.
Proof.
  intros I (s & u & _ & _ & _ & _ & Hu & _ & Hr) Hs. exists u. split; [done|]. apply (au_root_role _ I _ _ Hu). congruence.
Qed.

Lemma principal_ok_later d d' p : later d d' → principal_ok d p → principal_ok d' p.
Proof. intros Hl Hp Hr. eapply root_later; [by apply Hp|done]. Qed.

(** Operations take no time. *)
Lemma observers_now e t : holds (λ w, w_now w = t) (notifyUserObservers e).
Proof.
  unfold notifyUserObservers. induction user_observers_ok as [|o os Ho _ IH]; cbn [for_each]; [apply holds_ret|].
  apply holds_bind; [|done]. intros tx w <-. destruct (Ho e tx w) as (w' & -> & _ & _ & En). done.
Qed.

Hint Resolve observers_now : pw.

Lemma auth_op_now op t : holds (λ w, w_now w = t) (run_auth_op op).
Proof.
  pose proof (now_queue t) as HQ. destruct op; cbn [run_auth_op];
    unfold discard, handler_Login, handler_Logout, handler_CreateUser, handler_UpdateMe, handler_ChangePassword, handler_PromoteUser,
      handler_DemoteUser, handler_DeleteUser, with_principal, respond, BootstrapAdmin, NewBootstrappedAdmin, Login, RevokeSession, CreateUser,
      createUser, UpdateOwnProfile, ChangePassword, PromoteUser, DemoteUser, DeleteUser;
    unfold FindBootstrappedAdmin, CreateUser_row, GetUserByUsername, generateToken, CreateSession, RevokeSessionByID, GetUserByID, UpdateUser,
      hashPassword, UpdatePasswordHash, NullifyPasswordHash, SoftDeleteUser, update_user, RevokeAllUserSessionsExcept, RevokeAllUserSessions;
    world_structural HQ.
Qed.

Lemma app_op_now op t : holds (λ w, w_now w = t) (run_app_op op).
Proof.
  assert (∀ E (os : list (E → world → world)), inert_observers os → Forall (λ o, ∀ e w, w_now w = t → w_now (o e w) = t) os) as Ho.
  { intros E os Hos. eapply Forall_impl; [exact Hos|]. intros o Hi e w <-. apply Hi. }
  apply app_op_holds; try done; apply Ho; [apply address_observers_inert|apply device_observers_inert|apply host_access_observers_inert|
    apply policy_change_observers_inert|apply rule_observers_inert].
Qed.

Lemma issue_now cookie w : w_now (PrincipalUserContext cookie false w).2 = w_now w.
Proof.
  assert (holds (λ x, w_now x = w_now w) (PrincipalUserContext cookie)) as Hh; [|by apply Hh].
  pose proof (now_queue (w_now w)) as HQ. unfold PrincipalUserContext, Auth.Authenticate, GetSessionWithRoleByTokenHash. world_structural HQ.
Qed.

(** Requests leave plain users without sessions. *)
Lemma auth_op_admins op w :
  auth_inv (w_db w) → admins_only (w_now w) (w_db w) → admins_only (w_now w) (w_db (run_auth_op op false w).2).
Proof.
  intros I Ha. assert (∀ A (m : M A), (discard m false w).2 = (m false w).2) as Hd.
  { intros A m. unfold discard. rewrite bind_run. by destruct (m false w) as [[a|e] w']. }
  assert (∀ A B (m : M A) (ok : A → Response B) status, (respond m ok status false w).2 = (m false w).2) as Hr.
  { intros A B m ok status. rewrite respond_run. by destruct (m false w). }
  destruct op; cbn [run_auth_op]; rewrite ?Hd; unfold handler_CreateUser, handler_UpdateMe, handler_ChangePassword, handler_PromoteUser,
    handler_DemoteUser, handler_DeleteUser, with_principal; rewrite ?Hr.
  - by apply admins_BootstrapAdmin.
  - unfold handler_Login. rewrite bind_run, now_run, Hr. by apply admins_Login.
  - assert (keeps (admins_only (w_now w)) (handler_Logout (Some p))) as Hk.
    { unfold handler_Logout. apply keeps_bind; [|intros; apply keeps_ret]. apply keeps_catch; [apply admins_RevokeSession|intros; apply keeps_ret]. }
    by apply Hk.
  - by apply admins_CreateUser.
  - by apply admins_UpdateOwnProfile.
  - by apply admins_ChangePassword.
  - by apply admins_PromoteUser.
  - by apply admins_DemoteUser.
  - by apply admins_DeleteUser.
Qed.

(** One step keeps the invariant and undoes nothing. *)
Lemma auth_step_kept c c' :
  auth_step c c' → system_inv c → kept (w_db c.1) (w_db c'.1) ∧ system_inv c'.
Proof.
  intros Hstep (I & Ha & Hps).
  cut (kept (w_db c.1) (w_db c'.1) ∧ admins_only (w_now c'.1) (w_db c'.1) ∧ ∀ p, p ∈ c'.2 → p ∈ c.2 ∨ principal_ok (w_db c'.1) p).
  { intros ([I' Hl] & Ha' & Hp). split; [done|]. split; [done|]. split; [done|]. rewrite Forall_forall in *. intros p [Hin|Hok]%Hp; [|done].
    eapply principal_ok_later; [done|]. by apply Hps. }
  assert (kept (w_db c.1) (w_db c.1)) as Hrefl by (split; [done|reflexivity]).
  destruct Hstep as [cookie w ps p w' Hi|op w ps Hp|op w ps|w w' ps Hd Ht]; cbn in *.
  - pose proof (issue_now cookie w) as En. rewrite Hi in En. cbn in En. apply issue_Ok in Hi as [-> [tok Hs]]; [|done]. rewrite En.
    split; [done|]. split; [done|]. intros q [->|Hq]%elem_of_cons; [right|by left]. by eapply session_of_ok.
  - split; [|split; [rewrite (auth_op_now op _ false w eq_refl); by apply auth_op_admins|by left]].
    apply (auth_op_kept op); [|done]. intros p Hop. rewrite Forall_forall in Hps. auto.
  - pose proof (app_op_off_auth op _ false w eq_refl) as E. unfold auth_tables in E.
    split; [by apply (off_auth_kept _ _ (app_op_off_auth op))|]. split; [|by left]. rewrite (app_op_now op _ false w eq_refl).
    eapply admins_ext; [..|exact Ha]; congruence.
  - rewrite Hd. split; [done|]. split; [by eapply admins_later|by left].
Qed.

Lemma auth_steps_kept c c' :
  rtc auth_step c c' → system_inv c → later (w_db c.1) (w_db c'.1) ∧ system_inv c'.
Proof.
  induction 1 as [c|c1 c2 c3 Hs _ IH]; intros I; [by split|]. apply auth_step_kept in Hs as [[_ Hl] I2]; [|done].
  destruct (IH I2) as [Hl' ?]. split; [by etrans|done].
Qed.

Lemma auth_steps_now c c' : rtc auth_step c c' → w_now c.1 ≤ w_now c'.1.
Proof.
  induction 1 as [c|c1 c2 c3 Hs _ IH]; [done|]. etrans; [|exact IH]. clear IH.
  destruct Hs as [cookie w ps p w' Hi|op w ps Hp|op w ps|w w' ps Hd Ht]; cbn; [|rewrite (auth_op_now op _ false w eq_refl); lia|rewrite (app_op_now op _ false w eq_refl); lia|done].
  pose proof (issue_now cookie w) as En. rewrite Hi in En. cbn in En. lia.
Qed.

(** C11: in every state that requests, other operations, failures and the
    passing of time lead to, with principals used however late, the
    bootstrapped superadmin is still there, a live superadmin; there is no
    other superadmin; every superadmin's principal ever issued is his; and
    plain users have no password. *)
Theorem root_survives c c' r :
  rtc auth_step c c' → system_inv c → root (w_db c.1) r →
  (∃ u, users (w_db c'.1) !! r = Some u ∧ User_Role u = SuperAdminRole ∧ User_DeletedAt u = None) ∧
  (∀ i u, users (w_db c'.1) !! i = Some u → User_Role u = SuperAdminRole → i = r) ∧
  (∀ p, p ∈ c'.2 → IsSuperAdmin p = true → Principal_UserID p = r) ∧
  (∀ i u, users (w_db c'.1) !! i = Some u → User_Role u = UserRole → User_PasswordHash u = None).
Proof.
  intros Hs I Hr. destruct (auth_steps_kept c c' Hs I) as (Hl & I' & _ & Hps). pose proof (root_later _ _ _ Hr Hl) as Hr'.
  split; [|split; [|split]].
  - destruct Hr' as (u & Hu & Cu). exists u. split; [done|]. split; [by apply (au_root_role _ I' _ _ Hu)|by eapply au_root_live].
  - intros i u Hu Hrole. eapply root_unique; [done| |done]. exists u. split; [done|]. by apply (au_root_role _ I' _ _ Hu).
  - intros p Hp Hsa. rewrite Forall_forall in Hps. eapply root_unique; [done| |done]. apply Hps; [done|]. by apply bool_decide_eq_true in Hsa.
  - apply (au_no_password _ I').
Qed.

(** In every such state, whoever a cookie authenticates is an
    administrator: the gate of the API never turns a session away, and a
    second look at the session that fails lets nobody through but an
    administrator. *)
Theorem sessions_are_admins c c' cookie p w' :
  rtc auth_step c c' → system_inv c → PrincipalUserContext cookie false c'.1 = (Ok (Some p), w') →
  IsAdmin p = true ∧ RequireAdmin (Some p) = true.
Proof.
  intros Hs I Hi. destruct (auth_steps_kept c c' Hs I) as (_ & I' & Ha & _).
  apply issue_Ok in Hi as (_ & tok & s & u & Hss & _ & Ho & Hsu & Hu & Hact & Hr); [|done].
  assert (User_Role u ≠ UserRole) as Hne by (eapply Ha; [exact Hss|exact Ho|by rewrite Hsu|done]).
  cut (IsAdmin p = true); [done|]. unfold IsAdmin, IsSuperAdmin. rewrite Hr in Hne. by destruct (Principal_Role p).
Qed.

Lemma dead_from c c' cookie p w' :

  rtc auth_step c c' → system_inv c → PrincipalUserContext cookie false c'.1 = (Ok (Some p), w') →
  (∀ s, sessions (w_db c.1) !! Principal_SessionID p = Some s → session_open (w_now c.1) s = true ∧ Session_UserID s = Principal_UserID p) ∧
  (∀ u, users (w_db c.1) !! Principal_UserID p = Some u → User_DeletedAt u = None).
Proof.
  intros Hs I Hi. destruct (auth_steps_kept c c' Hs I) as ([Hu Hse] & I' & _). pose proof (auth_steps_now c c' Hs) as Ht.
  apply issue_Ok in Hi as (_ & tok & s' & u' & Hs' & _ & Ho & Hsu & Hu' & Ha & _); [|done]. split.
  - intros s Hss. destruct (Hse _ _ Hss) as (x & Hx & Eu & _ & Ee & Er). rewrite Hs' in Hx. injection Hx as <-.
    unfold session_open, session_unexpired in *. apply andb_true_iff in Ho as [Hr He]. apply bool_decide_eq_true in Hr. rewrite Ee in He.
    split; [|congruence]. rewrite bool_decide_eq_true_2 by auto. apply Z.leb_le. apply Z.leb_le in He. etrans; [|exact He].
    by apply Z.div_le_mono.
  - intros u Huu. destruct (Hu _ _ Huu) as (x & Hx & _ & Hact). rewrite Hu' in Hx. injection Hx as <-.
    specialize (Hact Ha). unfold user_active in Hact. by apply bool_decide_eq_true in Hact.
Qed.

(** C19: whatever happens, a session that is revoked or expired at some
    time, and a user who is deleted, never authenticate from then on: what a
    cookie authenticates later was open then, if it existed. *)
Theorem dead_stays_dead c c' cookie p w' :
  rtc auth_step c c' → system_inv c → PrincipalUserContext cookie false c'.1 = (Ok (Some p), w') →
  (∀ s, sessions (w_db c.1) !! Principal_SessionID p = Some s → session_open (w_now c.1) s = true ∧ Session_UserID s = Principal_UserID p) ∧
  (∀ u, users (w_db c.1) !! Principal_UserID p = Some u → User_DeletedAt u = None).
Proof. apply dead_from. Qed.

(** A removal as a request. *)
Lemma removes_request p target w w1 :
  removes p target w w1 → ∃ op, principal_of op = Some p ∧ (run_auth_op op false w).2 = w1.
Proof.
  intros [[u Hr]|Hr]; [exists (AuthDemoteUser p target)|exists (AuthDeleteUser p target)]; (split; [done|]);
    cbn [run_auth_op]; unfold discard, handler_DemoteUser, handler_DeleteUser, with_principal; by rewrite bind_run, respond_run, Hr.
Qed.

(** C21: once a superadmin has demoted or deleted a user, that user
    cannot log in, and no session she had then ever authenticates again,
    whatever happens next: if she is authenticated later, it is by a session
    that did not exist. *)
Theorem removal_locks_out p target w w1 ps :
  system_inv (w, ps) → p ∈ ps → removes p target w w1 →
  (∀ name pw tok u w', Login name pw false w1 = (Ok (tok, u), w') → User_ID u ≠ target) ∧
  ∀ c' cookie q w2, rtc auth_step (w1, ps) c' → PrincipalUserContext cookie false c'.1 = (Ok (Some q), w2) →
    Principal_UserID q = target → sessions (w_db w1) !! Principal_SessionID q = None.
Proof.
  intros I Hp Hr. destruct (removes_request _ _ _ _ Hr) as (op & Hop & E). assert (auth_step (w, ps) (w1, ps)) as Hstep.
  { rewrite <-E. apply step_request. intros q. rewrite Hop. by intros [= <-]. }
  apply auth_step_kept in Hstep as [_ I1]; [|done]. assert (w_now w1 = w_now w) as En by (rewrite <-E; by apply auth_op_now).
  apply removes_closed in Hr as [Hcl Hpw]; [|apply I]. split.
  - intros name pw tok u w' Hl <-. apply Login_Ok in Hl as (Hu & Ha & _ & Hc & _); [|apply I1]. by rewrite (Hpw u Hu Ha) in Hc.
  - intros c' cookie q w2 Hs Hi Hq. destruct (sessions _ !! _) as [s|] eqn:Es; [|done]. exfalso.
    destruct (dead_from _ _ _ _ _ Hs I1 Hi) as [Hd _]. destruct (Hd s Es) as [Ho Hu]. cbn in Ho. rewrite En, (Hcl _ s Es) in Ho; [done|congruence].
Qed.
End system.

(** ** At a concrete run *)

Module AuthDemo.
(** A password's hash is the password with a prefix. *)
#[export] Program Instance prefix_bcrypt : Bcrypt := {|
  GenerateFromPassword salt pw := if Nat.leb (String.length pw) 72 then Ok ("$2a$" ++ pw)%string else Err ErrInvalidPassword;
  CompareHashAndPassword h pw := bool_decide (h = ("$2a$" ++ pw)%string);
|}.
Next Obligation. intros salt pw Hl. cbn. rewrite (proj2 (Nat.leb_le _ _)) by done. by eexists. Qed.
Next Obligation. intros salt pw h. cbn. destruct (Nat.leb _ _); [|done]. intros [= <-]. by apply bool_decide_eq_true. Qed.

Definition boss : Principal := mkPrincipal 1 1 SuperAdminRole.
Definition bob : Principal := mkPrincipal 2 2 AdminRole.

Definition token (r : string) : string := RawURLEncode r.

(** The bootstrap, the superadmin's login, a new user who becomes an admin
    and logs in, and her demotion. *)
Definition w0 : world := world_of empty_db (100 * Second) ["salt"; "boss"; "salt"; "bobs"; "salt"]%string.
Definition w1 : world := (run_auth_op (AuthBootstrap "correct horse") false w0).2.
Definition w2 : world := (run_auth_op (AuthLogin "Admin" "correct horse") false w1).2.
Definition w3 : world := (run_auth_op (AuthCreateUser boss "bob" "Bob" None) false w2).2.
Definition w4 : world := (run_auth_op (AuthPromoteUser boss 2 "battery staple") false w3).2.
Definition w5 : world := (run_auth_op (AuthLogin "bob" "battery staple") false w4).2.
Definition w6 : world := (run_auth_op (AuthDemoteUser boss 2) false w5).2.

Lemma w0_inv : system_inv (w0, []).
Proof. split; [constructor; cbn; intros *; by rewrite lookup_empty|]. split; [intros i s u; cbn; by rewrite lookup_empty|apply Forall_nil_2]. Qed.

Lemma to_w2 : rtc auth_step (w0, []) (w2, []).
Proof.
  eapply rtc_l; [by apply (step_request (AuthBootstrap "correct horse"))|].
  eapply rtc_l; [by apply (step_request (AuthLogin "Admin" "correct horse"))|]. reflexivity.
Qed.

Lemma to_w5 : rtc auth_step (w2, []) (w5, [bob; boss]).
Proof.
  eapply rtc_l; [apply (step_issue (Some (token "boss"))); vm_compute; reflexivity|].
  eapply rtc_l; [apply (step_request (AuthCreateUser boss "bob" "Bob" None)); intros p [= <-]; by left|].
  eapply rtc_l; [apply (step_request (AuthPromoteUser boss 2 "battery staple")); intros p [= <-]; by left|].
  eapply rtc_l; [by apply (step_request (AuthLogin "bob" "battery staple"))|].
  eapply rtc_l; [apply (step_issue (Some (token "bobs"))); vm_compute; reflexivity|]. reflexivity.
Qed.

Lemma to_w6 : rtc auth_step (w5, [bob; boss]) (w6, [bob; boss]).
Proof.
  eapply rtc_l; [apply (step_request (AuthDemoteUser boss 2)); intros p [= <-]; right; by left|]. reflexivity.
Qed.

Lemma w2_inv : system_inv (w2, []).
Proof. exact (proj2 (auth_steps_kept _ _ to_w2 w0_inv)). Qed.

Lemma w5_inv : system_inv (w5, [bob; boss]).
Proof. exact (proj2 (auth_steps_kept _ _ to_w5 w2_inv)). Qed.
End AuthDemo.

Import AuthDemo.

Example root_survives_witness :
  (∃ u, users (w_db w6) !! 1 = Some u ∧ User_Role u = SuperAdminRole ∧ User_DeletedAt u = None).
Proof.
  refine (proj1 (root_survives (w2, []) (w6, [bob; boss]) 1 _ w2_inv _)).
  - etrans; [exact to_w5|exact to_w6].
  - eexists. split; [vm_compute; reflexivity|reflexivity].
Defined.

Example sessions_are_admins_witness : IsAdmin boss = true.
Proof.
  assert (∃ w', PrincipalUserContext (Some (token "boss")) false w6 = (Ok (Some boss), w')) as [w' Hi] by (eexists; vm_compute; reflexivity).
  refine (proj1 (sessions_are_admins (w2, []) (w6, [bob; boss]) _ boss w' _ w2_inv Hi)). etrans; [exact to_w5|exact to_w6].
Defined.

(** A later day: the boss's cookie still works. *)
Example dead_stays_dead_witness :
  ∃ s, sessions (w_db w2) !! 1 = Some s ∧ session_open (w_now w2) s = true ∧ Session_UserID s = 1.
Proof.
  assert (∃ s, sessions (w_db w2) !! 1 = Some s) as [s Es] by (eexists; vm_compute; reflexivity). exists s. split; [exact Es|].
  assert (∃ w', PrincipalUserContext (Some (token "boss")) false w6 = (Ok (Some boss), w')) as [w' Hi]
    by (eexists; vm_compute; reflexivity).
  refine (proj1 (dead_stays_dead (w2, []) (w6, [bob; boss]) _ boss w' _ w2_inv Hi) s Es).
  etrans; [exact to_w5|exact to_w6].
Defined.

Example removal_locks_out_witness :
  removes boss 2 w5 w6 ∧ ∀ name pw tok u w', Login name pw false w6 = (Ok (tok, u), w') → User_ID u ≠ 2.
Proof.
  assert (removes boss 2 w5 w6) as Hr by (left; eexists; vm_compute; reflexivity). split; [exact Hr|].
  refine (proj1 (removal_locks_out boss 2 w5 w6 [bob; boss] w5_inv _ Hr)). right. by left.
Defined.

Example login_authenticates_witness :
  PrincipalUserContext (Some (token "boss")) false w2 = (Ok (Some boss), w2).
Proof.
  assert (∃ u w', Login "Admin" "correct horse" false w1 = (Ok (token "boss", u), w') ∧ w_db w2 = w_db w' ∧
    User_ID u = 1 ∧ User_Role u = SuperAdminRole) as (u & w' & Hl & Ed & E1 & E2).
  { eexists _, _. repeat split; vm_compute; reflexivity. }
  rewrite (proj2 (login_authenticates "Admin" "correct horse" w1 (token "boss") u w' false w2
    (proj1 (proj2 (auth_steps_kept _ _ (rtc_once _ _ (step_request (AuthBootstrap "correct horse") w0 [] ltac:(done))) w0_inv)))
    Hl ltac:(done) ltac:(intros i s; vm_compute; done) Ed ltac:(done))).
  rewrite E1, E2. vm_compute. reflexivity.
Defined.

Example ChangePassword_spec_witness :
  ∃ u h w', ChangePassword 2 2 "battery staple" "tr0ub4dor&3" false w5 = (Ok tt, w') ∧
    users (w_db w') = <[2 := with_password (Some h) false u]> (users (w_db w5)).
Proof.
  pose proof (ChangePassword_spec 2 2 "battery staple" "tr0ub4dor&3" w5 "salt" [] ltac:(done) ltac:(vm_compute; reflexivity) (proj1 w5_inv)) as Hc.
  assert (change_password_error (w_db w5) 2 "battery staple" "tr0ub4dor&3" = None) as E by (vm_compute; reflexivity).
  rewrite E in Hc. destruct Hc as (u & h & w' & Hrun & _ & Hu & _). exists u, h, w'. exact (conj Hrun Hu).
Defined.
