(* ===== verification/TablesInv.v ===== *)
(** * TablesInv: the tables stay sound

    The invariants of the devices, of the hosts, of the network policies and
    of the leases (DeviceInv, HostsSpec, NetworkPoliciesSpec, LeaseSpec) hold
    of the empty database and are kept by every operation of the program and
    every request of AuthSafety, whatever fails in them. *)

From S2P Require Import Prelude GoLib Netip Schema Store Slicex HostNames Http Crypto Device DeviceInv DeviceSpec.
From S2P Require Import Interfaces Rule Lease LeaseSpec MaxAddr Hosts HostsSpec UserAccess NetworkPolicies NetworkPoliciesSpec.
From S2P Require Import Pairing Auth WorldInv App AppOps Freshness AuthSafety.

Local Open Scope Z_scope.

(** ** Hosts, policies and leases *)

Record catalogue_inv (d : db) : Prop := mkCatalogueInv {
  ci_hosts : hosts_inv d;
  ci_policies : policies_inv d;
  ci_leases : lease_inv d;
}.

(** The tables it is about, devices and addresses apart. *)
Definition catalogue (d : db) := (hosts d, host_groups d, group_members d, policies d, policy_seq d, leases d).

(** Devices and addresses are never removed. *)
Definition ids_grow (d d' : db) : Prop :=
  (∀ i, is_Some (devices d !! i) → is_Some (devices d' !! i)) ∧ (∀ i, is_Some (addresses d !! i) → is_Some (addresses d' !! i)).

Lemma catalogue_same d d' : catalogue d' = catalogue d → ids_grow d d' → catalogue_inv d → catalogue_inv d'.
Proof.
  unfold catalogue. intros E [Hd Ha] [[H1 H2 H3 H4 H5] [P1 P2 P3 P4] L]. injection E as E1 E2 E3 E4 E5 E6. split.
  - split; rewrite ?E1, ?E2, ?E3; auto.
  - split; rewrite ?E1, ?E3, ?E4, ?E5; auto.
  - intros a l. rewrite E6. intros Hl. destruct (L a l Hl) as (? & ? & ?). auto.
Qed.

Lemma ids_refl d d' : devices d' = devices d → addresses d' = addresses d → ids_grow d d'.
Proof. intros E1 E2. split; intros i; by rewrite ?E1, ?E2. Qed.

Lemma catalogue_hosts d d' :
  hosts_inv d' → policies d' = policies d → policy_seq d' = policy_seq d → leases d' = leases d → ids_grow d d' →
  catalogue_inv d → catalogue_inv d'.
Proof.
  intros Hh E1 E2 E3 [Hd Ha] [_ [P1 P2 P3 P4] L]. split; [done| |].
  - split; rewrite ?E1, ?E2; auto. intros g h Hgh. by apply (hi_members _ Hh g h).
  - intros a l. rewrite E3. intros Hl. destruct (L a l Hl) as (? & ? & ?). auto.
Qed.

Lemma catalogue_policies d d' :
  (∀ i p, policies d' !! i = Some p → NetworkPolicy_ID p = i ∧ i ≤ policy_seq d') →
  (∀ i j p q, policies d' !! i = Some p → policies d' !! j = Some q → NetworkPolicy_CIDR p = NetworkPolicy_CIDR q → i = j) →
  hosts d' = hosts d → host_groups d' = host_groups d → group_members d' = group_members d → leases d' = leases d → ids_grow d d' →
  catalogue_inv d → catalogue_inv d'.
Proof.
  intros Hi Hc E1 E2 E3 E4 [Hd Ha] [[H1 H2 H3 H4 H5] [P1 P2 P3 P4] L]. split.
  - split; rewrite ?E1, ?E2, ?E3; auto.
  - split; [by apply Hi|done|rewrite E1, E3; auto|by apply Hi].
  - intros a l. rewrite E4. intros Hl. destruct (L a l Hl) as (? & ? & ?). auto.
Qed.

Lemma catalogue_leases d d' :
  lease_inv d' → (hosts d', host_groups d', group_members d', policies d', policy_seq d') = (hosts d, host_groups d, group_members d, policies d, policy_seq d) →
  catalogue_inv d → catalogue_inv d'.
Proof.
  intros L' E [[H1 H2 H3 H4 H5] [P1 P2 P3 P4] L]. injection E as E1 E2 E3 E4 E5. split; [| |done].
  - split; rewrite ?E1, ?E2, ?E3; auto.
  - split; rewrite ?E1, ?E3, ?E4, ?E5; auto.
Qed.

(** ** The statements that change them *)

Lemma name_free {V} (P : V → bool) (m : gmap Z V) i v : table_exists P m = false → m !! i = Some v → P v = false.
Proof. intros Hf. by apply table_exists_false. Qed.

Section statements.
Notation sound := (keeps catalogue_inv).

Local Ltac host_case := apply keeps_exec; intros t d ? d' I Hw; write_cases Hw;
  try done; (apply (catalogue_hosts d); [|done|done|done|by apply ids_refl|exact I]); destruct I as [[K1 K2 K3 K4 K5] _ _]; split; cbn; try done.

Lemma sound_DeleteHost id : sound (DeleteHost id).
Proof.
  apply keeps_bind; [|intros n; structural]. host_case.
  - intros i x [_ Hi]%lookup_delete_Some. eauto.
  - intros i j x y [_ Hi]%lookup_delete_Some [_ Hj]%lookup_delete_Some. eauto.
  - intros g' h' [Hne Hin]%elem_of_filter. cbn in Hne. destruct (K5 g' h' Hin) as [Hg Hh]. split; [done|]. by rewrite lookup_delete_ne.
Qed.

Lemma sound_CreateHost dr : sound (CreateHost dr).
Proof.
  apply keeps_map_err. host_case.
  - intros i h [[<- <-]|[_ Hi]]%lookup_insert_Some; [done|eauto].
  - intros i j h k [[<- <-]|[Hn Hi]]%lookup_insert_Some [[<- <-]|[Hn' Hj]]%lookup_insert_Some; cbn; intros E; [done| | |by eauto];
      match goal with H : table_exists _ _ = false |- _ => eapply name_free in H; [|eassumption] end; by apply bool_decide_eq_false in H.
  - intros g h Hin. destruct (K5 g h Hin) as [Hg Hh]. split; [done|]. apply lookup_insert_is_Some'. by right.
Qed.

Lemma sound_insert_member g h : sound (insert_member g h).
Proof.
  apply keeps_map_err. host_case. intros g' h' [[= -> ->]%elem_of_singleton|Hin]%elem_of_union; [|by auto]. split; by eexists.
Qed.

Lemma sound_drop_members (P : Z * Z → Prop) `{∀ p, Decision (P p)} : sound (exec (λ _ d, Ok (tt, on_group_members (filter P) d))).
Proof. host_case. intros g h [_ Hin]%elem_of_filter. auto. Qed.
Lemma sound_UpdateHostGroup g : sound (UpdateHostGroup g).
Proof.
  apply keeps_withinTx, keeps_bind.
  - apply keeps_map_err. host_case; match goal with H : host_groups _ !! _ = Some ?x |- _ => rename x into old, H into Hold end;
      match goal with H : group_name_taken _ _ _ = false |- _ => rename H into Hfree end.
    + intros i x [[<- <-]|[_ Hi]]%lookup_insert_Some; cbn; eauto.
    + assert (∀ i x, host_groups d !! i = Some x → HostGroup_ID g ≠ i → HostGroup_Name g ≠ HostGroup_Name x) as Hne.
      { intros i x Hi Hn E. unfold group_name_taken in Hfree. eapply name_free in Hfree; [|exact Hi]. cbn in Hfree.
        rewrite (K3 _ _ Hi) in Hfree. apply andb_false_iff in Hfree as [Hf|Hf].
        - apply negb_false_iff, bool_decide_eq_true_1 in Hf. congruence.
        - apply bool_decide_eq_false in Hf. congruence. }
      intros i j x y [[<- <-]|[Hn Hi]]%lookup_insert_Some [[<- <-]|[Hn' Hj]]%lookup_insert_Some; cbn; intros E; [done| | |by eauto].
      * by destruct (Hne j y Hj Hn').
      * by destruct (Hne i x Hi Hn).
    + intros g' h Hin. destruct (K5 g' h Hin) as [Hg Hh]. split; [|done]. apply lookup_insert_is_Some'. by right.
  - intros n. destruct (n =? 0); [structural|]. unfold replaceHostGroupMembers. pose proof sound_insert_member. pose proof sound_drop_members. structural.
Qed.

Lemma sound_CreateHostGroup dr : sound (CreateHostGroup dr).
Proof.
  apply keeps_withinTx, keeps_bind.
  - apply keeps_map_err. host_case; match goal with H : group_name_taken _ _ _ = false |- _ => rename H into Hfree end.
    + intros i x [[<- <-]|[_ Hi]]%lookup_insert_Some; cbn; eauto.
    + assert (∀ i x, host_groups d !! i = Some x → hgd_Name dr ≠ HostGroup_Name x) as Hne.
      { intros i x Hi E. eapply name_free in Hfree; [|exact Hi]. cbn in Hfree. by apply bool_decide_eq_false in Hfree. }
      intros i j x y [[<- <-]|[Hn Hi]]%lookup_insert_Some [[<- <-]|[Hn' Hj]]%lookup_insert_Some; cbn; intros E; [done| | |by eauto].
      * by destruct (Hne j y Hj).
      * by destruct (Hne i x Hi).
    + intros g' h Hin. destruct (K5 g' h Hin) as [Hg Hh]. split; [|done]. apply lookup_insert_is_Some'. by right.
  - intros id. unfold replaceHostGroupMembers. pose proof sound_insert_member. pose proof sound_drop_members. structural.
Qed.

Lemma sound_DeleteHostGroup id : sound (DeleteHostGroup id).
Proof.
  apply keeps_bind; [|intros n; structural]. host_case.
  - intros i x [_ Hi]%lookup_delete_Some. eauto.
  - intros i j x y [_ Hi]%lookup_delete_Some [_ Hj]%lookup_delete_Some. eauto.
  - intros g' h' [Hne Hin]%elem_of_filter. cbn in Hne. destruct (K5 g' h' Hin) as [Hg Hh]. split; [|done]. by rewrite lookup_delete_ne.
Qed.

Local Ltac policy_case := apply keeps_exec; intros t d ? d' I Hw; write_cases Hw;
  try done; (apply (catalogue_policies d); [| |done|done|done|done|by apply ids_refl|exact I]); destruct I as [_ [P1 P2 P3 P4] _]; cbn.

Lemma cidr_free d self c i p : policies_inv d → cidr_taken d self c = false → policies d !! i = Some p → self ≠ Some i → NetworkPolicy_CIDR p ≠ c.
Proof.
  intros I Hf Hi Hn E. eapply name_free in Hf; [|exact Hi]. cbn in Hf. rewrite (pi_id _ I _ _ Hi) in Hf.
  apply andb_false_iff in Hf as [Hf|Hf]; [by apply negb_false_iff, bool_decide_eq_true_1 in Hf|by apply bool_decide_eq_false in Hf].
Qed.

Lemma sound_CreatePolicy_row n c ds e b : sound (CreatePolicy_row n c ds e b).
Proof.
  apply keeps_map_err, keeps_exec. intros t d ? d' I Hw. write_cases Hw.
  pose proof (λ i p Hi, cidr_free d None c i p (ci_policies _ I) ltac:(assumption) Hi ltac:(discriminate)) as Hne.
  apply (catalogue_policies d); [| |done|done|done|done|by apply ids_refl|exact I]; destruct I as [_ [P1 P2 P3 P4] _]; cbn.
  - intros i p [[<- <-]|[_ Hi]]%lookup_insert_Some; cbn; [lia|]. specialize (P1 _ _ Hi). specialize (P4 _ _ Hi). lia.
  - intros i j p q [[<- <-]|[Hn Hi]]%lookup_insert_Some [[<- <-]|[Hn' Hj]]%lookup_insert_Some; cbn; intros E; [done| | |by eauto].
    + by destruct (Hne j q Hj).
    + by destruct (Hne i p Hi).
Qed.

Lemma sound_UpdatePolicy_row p0 : sound (UpdatePolicy_row p0).
Proof.
  apply keeps_map_err, keeps_exec. intros t d ? d' I Hw. write_cases Hw.
  pose proof (λ i p Hi Hn, cidr_free d (Some (NetworkPolicy_ID p0)) (NetworkPolicy_CIDR p0) i p (ci_policies _ I) ltac:(assumption) Hi Hn) as Hne.
  apply (catalogue_policies d); [| |done|done|done|done|by apply ids_refl|exact I]; destruct I as [_ [P1 P2 P3 P4] _]; cbn.
  - intros i p [[<- <-]|[_ Hi]]%lookup_insert_Some; cbn; eauto.
  - intros i j p q [[<- <-]|[Hn Hi]]%lookup_insert_Some [[<- <-]|[Hn' Hj]]%lookup_insert_Some; cbn; intros E; [done| | |by eauto].
    + destruct (Hne j q Hj); congruence.
    + destruct (Hne i p Hi); congruence.
Qed.

Lemma sound_DeletePolicy_row id : sound (DeletePolicy_row id).
Proof.
  apply keeps_bind; [|intros n; structural]. policy_case.
  - intros i p [_ Hi]%lookup_delete_Some. eauto.
  - intros i j p q [_ Hi]%lookup_delete_Some [_ Hj]%lookup_delete_Some. eauto.
Qed.

Lemma sound_SetHostAccess_row id b gs : sound (SetHostAccess_row id b gs).
Proof.
  unfold SetHostAccess_row, insert_policy_group. structural.
  1-2: apply keeps_exec; intros t d ? d' I Hw; write_cases Hw; by apply (catalogue_same d); [|apply ids_refl|].
  policy_case.
  - intros i p. rewrite lookup_alter_Some. intros [(<- & q & Hq & ->)|[_ Hi]]; cbn; eauto.
  - assert (∀ i p, alter (with_bypass b (strftime_now t)) id (policies d) !! i = Some p → ∃ q, policies d !! i = Some q ∧ NetworkPolicy_CIDR q = NetworkPolicy_CIDR p) as Hcidr.
    { intros i p. rewrite lookup_alter_Some. intros [(<- & q & Hq & ->)|[_ Hi]]; eauto. }
    intros i j p q (p' & Hi & <-)%Hcidr (q' & Hj & <-)%Hcidr. eauto.
Qed.

Local Ltac lease_case := apply keeps_exec; intros t d ? d' I Hw; write_cases Hw; (apply (catalogue_leases d); [|done|exact I]); destruct I as [_ _ L]; intros a x; cbn.

Lemma sound_UpsertAddressLease l : sound (UpsertAddressLease l).
Proof.
  lease_case; (intros [[<- <-]|[_ Hi]]%lookup_insert_Some; [cbn; split; [done|]; split; by eexists|by apply L]).
Qed.

Lemma sound_DeleteAddressLease id : sound (DeleteAddressLease id).
Proof. lease_case. intros [_ Hi]%lookup_delete_Some. by apply L. Qed.

Lemma sound_SetLeases dv e u : sound (SetDeviceAddressLeasesExpiry dv e u).
Proof.
  lease_case. rewrite lookup_update_where. intros (l0 & Hl & ->)%fmap_Some. destruct (L a l0 Hl) as (? & ? & ?).
  by case_match.
Qed.
End statements.

#[export] Hint Resolve sound_DeleteHost sound_CreateHost sound_insert_member sound_drop_members sound_UpdateHostGroup sound_CreateHostGroup
  sound_DeleteHostGroup sound_CreatePolicy_row sound_UpdatePolicy_row sound_DeletePolicy_row sound_SetHostAccess_row sound_UpsertAddressLease
  sound_DeleteAddressLease sound_SetLeases : pw.

(** ** The operations *)

Lemma catalogue_empty : catalogue_inv empty_db.
Proof. split; [split|split|]; by intros. Qed.

Lemma is_Some_insert {V} (m : gmap Z V) i v k : is_Some (m !! k) → is_Some (<[i := v]> m !! k).
Proof. intros Hk. apply lookup_insert_is_Some'. by right. Qed.

Lemma is_Some_alter {V} (m : gmap Z V) f i k : is_Some (m !! k) → is_Some (alter f i m !! k).
Proof. intros [v Hv]. destruct (decide (i = k)) as [<-|Hne]; [rewrite lookup_alter_eq, Hv|rewrite lookup_alter_ne by done]; by eexists. Qed.

(** A statement on other tables, or on the rows of devices and addresses. *)
Ltac other_tables :=
  apply keeps_exec; intros ? ? ? ? Hi Hw; write_cases Hw;
  (refine (catalogue_same _ _ _ _ Hi); [reflexivity|split; intros ? ?; cbn; try done; eauto using is_Some_insert, is_Some_alter]).

Section operations.
Context `{GoUnicode}.
Notation sound := (keeps catalogue_inv).

Lemma sound_device_op op : sound (run_device_op op).
Proof. destruct op; cbn [run_device_op]; unfold_ops; unfold device_OnUserEvent, GetDeviceIDsByOwner; unfold_ops; structural; other_tables. Qed.

Lemma sound_enforce dev id : sound (enforce dev id).
Proof. unfold_listeners. structural; other_tables. Qed.

Lemma sound_lease_handle e : sound (lease_handle_address e).
Proof.
  unfold lease_handle_address, AddAddressLease, ClearAddressLease. cbn [GetTTLSeconds rule_service_ttl].
  unfold GetDeviceAddressLeaseTTLSeconds, find_rule, GetRuleByDeviceAndType. structural.
Qed.

Lemma sound_lease_rule e : sound (handleLeaseRuleEvent e).
Proof. unfold handleLeaseRuleEvent. structural. Qed.

Lemma sound_ReconcileHosts hs : sound (ReconcileHosts hs).
Proof. pose proof sound_drop_members. unfold ReconcileHosts, ListHosts, SetHostGroupMembership, notifyHostAccess. structural. Qed.

Lemma sound_ReconcileHostGroups gs : sound (ReconcileHostGroups gs).
Proof.
  unfold ReconcileHostGroups, validateReferencedHosts, ListHostsByIDs, ListHostGroups, notifyHostAccess. structural.
Qed.

Lemma sound_user_event e : sound (user_event e).
Proof.
  pose proof (sound_device_op (OpUserEvent e)) as Hd. cbn [run_device_op] in Hd. unfold user_event, useraccess_OnUserEvent, EnsureUserSettings, DeleteUserData.
  structural; other_tables.
Qed.

(** Every operation keeps them, whatever fails in it. *)
Lemma sound_app_op op : sound (run_app_op op).
Proof.
  pose proof sound_enforce. pose proof sound_lease_handle. pose proof sound_lease_rule.
  destruct op; cbn [run_app_op]; try (apply sound_device_op || apply sound_user_event || apply sound_ReconcileHosts || apply sound_ReconcileHostGroups).
  - unfold discard, AddIgnoredSuggestion, AddIgnoredSuggestion_row. structural; other_tables.
  - unfold RemoveIgnoredSuggestionByFQDN. structural; other_tables.
  - unfold SetUserAccess, SetUserAccess_row, insert_user_group. structural; other_tables.
  - unfold discard, UpdatePolicy, GetPolicy. structural.
  - unfold DeletePolicy. structural.
  - unfold SetHostAccess. structural.
  - unfold discard, EnableDeviceAddressLeaseRule, EnableDeviceAddressLeaseRuleConfig, upsert_rule, notifyRuleObservers. structural; other_tables.
  - unfold discard, DisableDeviceAddressLeaseRule, DisableRule, notifyRuleObservers. structural; other_tables.
  - unfold discard, EnableMaxActiveAddressesRule, EnableMaxActiveAddressesRuleConfig, upsert_rule, notifyRuleObservers, CountEnabledAddresses.
    structural; other_tables.
  - unfold discard, DisableMaxActiveAddressesRule, DisableRule. structural; other_tables.
  - unfold discard, CreatePairing, addPairingCode, generatePairingCode, ReplacePendingPairings, CreatePairing_row, insert_pairing. structural; other_tables.
  - unfold discard, ClaimPairing, GetPairingByCode, RegenerateAPIKey, GenerateAPIKey, GetDevice, UpsertAPIKey, ClaimPairing_row. structural; other_tables.
  - unfold InvalidatePairing, InvalidatePairing_row. structural; other_tables.
  - by apply (keeps_listener _ w_lease_events set_lease_events).
  - by apply (keeps_listener _ w_lease_rule_events set_lease_rule_events).
  - by apply (keeps_listener _ w_maxaddr_events set_maxaddr_events (λ e, enforce (AddressEvent_DeviceID e) (AddressEvent_AddressID e))).
  - by apply (keeps_listener _ w_maxaddr_rule_events set_maxaddr_rule_events (λ e, enforce (RuleEvent_DeviceID e) 0)).
  - unfold ExpiryJob_Run, GetExpiredAddressIDs. cbn [Disable device_service_disabler].
    pose proof (λ ids src trg, sound_device_op (OpDisableAddresses ids src trg) : sound (DisableAddresses ids src trg)). structural.
  - unfold discard, CreatePolicy. structural.
Qed.
End operations.

(** ** All the tables *)

Record tables_inv (d : db) : Prop := mkTablesInv {
  ti_devices : device_inv d;
  ti_catalogue : catalogue_inv d;
}.

Lemma tables_empty : tables_inv empty_db.
Proof. split; [split; by intros|apply catalogue_empty]. Qed.

Lemma ti_policies d : tables_inv d → policies_inv d.
Proof. intros [_ I]. apply I. Qed.

Lemma ti_leases d : tables_inv d → lease_inv d.
Proof. intros [_ I]. apply I. Qed.

(** Accounts and sessions: no user's row is ever removed. *)
Lemma tables_users d d' :
  (devices d', api_keys d', addresses d') = (devices d, api_keys d, addresses d) → catalogue d' = catalogue d →
  (∀ i, is_Some (users d !! i) → is_Some (users d' !! i)) → tables_inv d → tables_inv d'.
Proof.
  intros [= E1 E2 E3] Ec Hu [[I1 I2 I3 I4 I5 I6 I7 I8 I9] C]. split; [|eapply catalogue_same; [done|by apply ids_refl|done]].
  split; rewrite ?E1, ?E2, ?E3; eauto.
Qed.

Ltac account_tables :=
  apply keeps_exec; intros ? ? ? ? Hi Hw; write_cases Hw;
  (refine (tables_users _ _ _ _ _ Hi); [reflexivity|reflexivity|intros ? ?; cbn; try done; eauto using is_Some_insert, is_Some_alter]).

Section program.
Context `{GoUnicode} `{Bcrypt}.

Lemma keeps_tables {A} (m : M A) : keeps device_inv m → keeps catalogue_inv m → keeps tables_inv m.
Proof. intros H1 H2 tx w [I C]. split; [by apply H1|by apply H2]. Qed.

Lemma tables_observers e : keeps tables_inv (notifyUserObservers e).
Proof.
  unfold notifyUserObservers. cbn [user_observers app_user_observers for_each].
  apply keeps_bind; [|intros []; apply keeps_bind; [|intros []; apply keeps_ret]]; apply keeps_tables.
  - apply framed_keeps, framed_useraccess_OnUserEvent.
  - unfold useraccess_OnUserEvent, EnsureUserSettings, DeleteUserData. structural; other_tables.
  - apply keeps_device_OnUserEvent.
  - exact (sound_device_op (OpUserEvent e)).
Qed.

Lemma tables_app_op op : keeps_out tables_inv (run_app_op op).
Proof. intros w [I C]. split; [by apply app_op_keeps|by apply sound_app_op]. Qed.

Lemma tables_auth_op op : keeps tables_inv (run_auth_op op).
Proof.
  pose proof tables_observers. destruct op; cbn [run_auth_op];
    unfold discard, handler_Login, handler_Logout, handler_CreateUser, handler_UpdateMe, handler_ChangePassword, handler_PromoteUser,
      handler_DemoteUser, handler_DeleteUser, with_principal, respond, BootstrapAdmin, NewBootstrappedAdmin, Login, RevokeSession, CreateUser,
      createUser, UpdateOwnProfile, ChangePassword, PromoteUser, DemoteUser, DeleteUser;
    unfold FindBootstrappedAdmin, CreateUser_row, GetUserByUsername, generateToken, CreateSession, RevokeSessionByID, GetUserByID, UpdateUser,
      hashPassword, UpdatePasswordHash, NullifyPasswordHash, SoftDeleteUser, update_user, RevokeAllUserSessionsExcept, RevokeAllUserSessions;
    structural; account_tables.
Qed.

Definition run_step (step : app_op + auth_op) : M unit :=
  match step with inl op => run_app_op op | inr op => run_auth_op op end.

(** C40: the tables stay sound.  From the empty database, or
    from any sound one, whatever operations and account requests run, in
    whatever order, on whatever clock and with whatever statement failures:
    ids are keys, host names, group names and policy ranges as stored are
    unique, group members are existing groups and hosts, leases belong to
    existing addresses and devices, no disabled device has an enabled
    address, a device has each IP once, and no two live devices of an owner
    share a name.  These are the sound tables the other theorems start from. *)
Theorem tables_stay_sound :
  tables_inv empty_db ∧
  ∀ (steps : list ((app_op + auth_op) * (world → world))) w,
    Forall (λ s, ∀ w, w_db (s.2 w) = w_db w) steps → tables_inv (w_db w) →
    tables_inv (w_db (foldl (λ w s, (run_step s.1 false (s.2 w)).2) w steps)).
Proof.
  split; [apply tables_empty|]. intros steps w Henv. revert w. induction Henv as [|[op env] steps Hop _ IH]; intros w I; [done|].
  cbn. apply IH. cbn in Hop. rewrite <-(Hop w) in I. destruct op as [op|op]; cbn; [by apply tables_app_op|by apply tables_auth_op].
Qed.
End program.
