(* ===== verification/AppSpec.v ===== *)
(** * AppSpec: the program as a whole

    What an access decision means in terms of the tables, from the device
    registration and the grants to the verdict; the bounds of the event
    queues; the event-driven theorems at concrete worlds. *)

From S2P Require Import Prelude GoLib Netip Schema Store Slicex HostNames Http PolicyCache Crypto PolicyService.
From S2P Require Import PolicySpec Device DeviceInv DeviceSpec Interfaces Rule Lease LeaseSpec MaxAddr Hosts.
From S2P Require Import HostsSpec UserAccess NetworkPolicies NetworkPoliciesSpec Pairing PairingSpec WorldInv App.
From S2P Require Import AppOps Freshness TablesInv.
From stdpp Require Import relations.

Local Open Scope string_scope.
Local Open Scope Z_scope.

(** ** The meaning of a decision *)

(** Address row [x] of device [v] is in force at the client address [a]: it
    is enabled, the device is neither deleted nor disabled, and its text is
    a spelling of [a]. *)
Definition registered (d : db) (a : Addr) (x : Address) (v : Device) : Prop :=
  (∃ i, addresses d !! i = Some x) ∧ Address_IsEnabled x = true ∧ active_device d (Address_DeviceID x) = Some v ∧
  Device_DisabledAt v = None ∧ Unmap <$> ParseAddr (Address_IP x) = Some a.

(** An enabled policy and its range. *)
Definition in_force (d : db) (p : NetworkPolicy) (r : Prefix) : Prop :=
  (∃ i, policies d !! i = Some p) ∧ NetworkPolicy_Enabled p = true ∧ canonical_prefix <$> ParsePrefix (NetworkPolicy_CIDR p) = Some r.

(** A policy whose range is the longest that contains the address. *)
Definition governs (d : db) (a : Addr) (p : NetworkPolicy) : Prop :=
  ∃ r, in_force d p r ∧ Contains r a = true ∧ ∀ q r', in_force d q r' → Contains r' a = true → Prefix_bits r' ≤ Prefix_bits r.

(** The policy lets the host through. *)
Definition lets_through (d : db) (p : NetworkPolicy) (h : string) : Prop :=
  NetworkPolicy_BypassHostCheck p = true ∨ policy_reaches d (NetworkPolicy_ID p) h.

(** What the tables say, [by_policy] deciding where no device is registered. *)
Definition tables_say (by_policy : Prop) (d : db) (proxy a : Addr) (h : string) : Prop :=
  IsValid a = true ∧ ¬ (IsValid proxy = true ∧ proxy = a) ∧
  (((∃ x v, registered d a x v) ∧ ∀ x v, registered d a x v → user_may_reach d (Device_OwnerID v) h) ∨
   ((¬ ∃ x v, registered d a x v) ∧ by_policy)).

(** Two policies can have the same longest range (an IPv4 one and its
    IPv4-mapped spelling): either may be the one that decides. *)
Definition tables_allow (d : db) (proxy a : Addr) (h : string) : Prop :=
  tables_say (∃ p, governs d a p ∧ lets_through d p h) d proxy a h.

Definition tables_agree (d : db) (proxy a : Addr) (h : string) : Prop :=
  tables_say ((∃ p, governs d a p) ∧ ∀ p, governs d a p → lets_through d p h) d proxy a h.

(** The entries filed under an address are the registrations in force. *)
Lemma elem_of_entries_at d es a e :
  device_inv d → es ≡ₚ enabled_ip_entries d →
  e ∈ entries_at es a ↔ ∃ x v, registered d a x v ∧ e = mkIPEntry (Address_IP x) (Address_DeviceID x) (Address_ID x) (Device_OwnerID v).
Proof.
  intros I Hes. unfold entries_at. rewrite list_elem_of_filter, Hes, elem_of_entries. unfold entry, registered, entry_key. split.
  - intros (Hk & i & x & v & Hx & He & Hv & ->). exists x, v. split; [|done]. split; [by exists i|]. split; [done|]. split; [done|].
    split; [|exact Hk]. destruct (Device_DisabledAt v) eqn:Ed; [|done]. exfalso. apply active_device_Some in Hv as [Hv _].
    assert (Address_IsEnabled x = false) by (eapply di_frozen; [done|exact Hx|exact Hv|congruence]). congruence.
  - intros (x & v & ([i Hi] & He & Hv & _ & Hk) & ->). split; [exact Hk|]. by exists i, x, v.
Qed.

(** The cached form of a policy in force. *)
Definition np_entry (d : db) (p : NetworkPolicy) (r : Prefix) : networkPolicyCacheEntry :=
  mkNPEntry (NetworkPolicy_ID p) (NetworkPolicy_Name p) r (NetworkPolicy_BypassHostCheck p)
    (list_to_set (sortedKeys (policy_fqdns d (NetworkPolicy_ID p)))).

Lemma np_entry_allows d p r h :
  np_allows (np_entry d p r) h = true ↔ lets_through d p h.
Proof.
  unfold np_allows, lets_through. cbn. by rewrite orb_true_iff, bool_decide_eq_true, elem_of_list_to_set, elem_of_sortedKeys, elem_of_policy_fqdns.
Qed.

Lemma elem_of_policy_cache d np : np ∈ omap toNPEntry (cache_entries d) ↔ ∃ p r, in_force d p r ∧ np = np_entry d p r.
Proof.
  rewrite list_elem_of_omap. unfold cache_entries, in_force. setoid_rewrite list_elem_of_fmap. setoid_rewrite list_elem_of_filter.
  setoid_rewrite elem_of_rows. unfold toNPEntry, policy_entry. split.
  - intros (e & (p & -> & Hen & Hp) & He). cbn in He. destruct (ParsePrefix _) as [q|] eqn:Eq; [|done]. injection He as <-.
    exists p, (canonical_prefix q). rewrite Eq. done.
  - intros (p & r & (Hp & Hen & Hr) & ->). eexists. split; [exists p; done|]. cbn. destruct (ParsePrefix _); [|done]. by injection Hr as ->.
Qed.

Section decision.
Context `{GoUnicode}.

(** The policy cache's most specific entries are those of the policies that govern. *)
Lemma governs_entry d a np :
  most_specific (cache_entries d) a np ↔ ∃ p r, in_force d p r ∧ governs d a p ∧ np = np_entry d p r ∧ Contains r a = true.
Proof.
  unfold most_specific. split.
  - intros (Hnp & Hcon & Hmax). apply elem_of_policy_cache in Hnp as (p & r & Hf & ->). exists p, r. split; [done|]. split; [|done].
    exists r. split; [done|]. split; [exact Hcon|]. intros q r' Hq Hcq. apply (Hmax (np_entry d q r')); [|exact Hcq].
    apply elem_of_policy_cache. by exists q, r'.
  - intros (p & r & Hf & (r0 & Hf0 & Hcon & Hmax) & -> & _). assert (r0 = r) as ->.
    { destruct Hf as (_ & _ & E1), Hf0 as (_ & _ & E2). rewrite E1 in E2. by injection E2. }
    split; [apply elem_of_policy_cache; by exists p, r|]. split; [exact Hcon|].
    intros np' Hnp' Hc'. apply elem_of_policy_cache in Hnp' as (q & r' & Hq & ->). cbn in *. by eapply Hmax.
Qed.

Lemma governs_in_force d a p : governs d a p → ∃ r, in_force d p r ∧ Contains r a = true.
Proof. intros (r & Hf & Hc & _). eauto. Qed.

(** Where no device is registered, a policy that governs decides, or none does. *)
Lemma scan_governs d a h :
  (scanPolicies (buildNetworkPolicyCache (cache_entries d)) a h = deny DenyReasonIPNotRegistered ∧ ¬ ∃ p, governs d a p) ∨
  ∃ p, governs d a p ∧ (Allowed (scanPolicies (buildNetworkPolicyCache (cache_entries d)) a h) = true ↔ lets_through d p h).
Proof.
  destruct (scan_most_specific (cache_entries d) a h) as [(-> & Hn)|(np & Hms & ->)].
  - left. split; [done|]. intros (p & Hp). destruct (governs_in_force _ _ _ Hp) as (r & Hf & Hc). apply Hn.
    exists (np_entry d p r). apply governs_entry. eauto 10.
  - right. apply governs_entry in Hms as (p & r & _ & Hg & -> & _). exists p. split; [done|]. rewrite <-(np_entry_allows d p r h).
    unfold np_result. by destruct (np_allows _ _).
Qed.

Lemma Decide_governed s d ip host :
  device_inv d → policies_inv d → fed s d →
  ∃ by_policy : Prop,
    (Allowed (Decide s ip host) = true ↔ tables_say by_policy d (trustedProxy s) (Unmap ip) (NormaliseHost host)) ∧
    ((by_policy ∧ ∃ p, governs d (Unmap ip) p ∧ lets_through d p (NormaliseHost host)) ∨
     (¬ by_policy ∧ ((¬ ∃ p, governs d (Unmap ip) p) ∨ ∃ p, governs d (Unmap ip) p ∧ ¬ lets_through d p (NormaliseHost host)))).
Proof.
  intros I Ip (es & Hes & [Hip Hnp]). rewrite collapse_cache_rows_entries in Hnp by done.
  pose proof (λ e, elem_of_entries_at d es (Unmap ip) e I Hes) as Hin.
  exists (Allowed (scanPolicies (networkPolicies s) (Unmap ip) (NormaliseHost host)) = true). split.
  - unfold tables_say. rewrite IsValid_Unmap, <-is_trusted_proxy_true.
    destruct (IsValid ip) eqn:Hv; [|unfold Decide; rewrite Hv; cbn; split; [done|by intros [? _]]].
    destruct (is_trusted_proxy s (Unmap ip)) eqn:Hp.
    { rewrite Decide_proxy by done. split; [done|]. intros (_ & Hn & _). by contradict Hn. }
    destruct (buildIPSet es (host_access d) !! Unmap ip) as [entry|] eqn:He.
    + rewrite (Decide_entry _ _ _ entry) by (by rewrite ?Hip). cbn [Allowed]. rewrite (entry_allows_granted _ _ _ _ _ He).
      assert (entries_at es (Unmap ip) ≠ []) as Hne by (intros E; apply (buildIPSet_None_iff es (host_access d)) in E; congruence).
      assert (∃ x v, registered d (Unmap ip) x v) as Hex.
      { destruct (entries_at es (Unmap ip)) as [|e0 l]; [done|]. destruct (proj1 (Hin e0) (list_elem_of_here _ _)) as (x & v & Hr & _). eauto. }
      split.
      * intros Hall. split; [done|]. split; [done|]. left. split; [done|]. intros x v Hr. apply granted_reach.
        apply (Hall (mkIPEntry (Address_IP x) (Address_DeviceID x) (Address_ID x) (Device_OwnerID v))). apply Hin. eauto.
      * intros (_ & _ & [[_ Hall]|[Hn _]]); [|by destruct Hn]. intros e He'. apply Hin in He' as (x & v & Hr & ->). apply granted_reach. eauto.
    + rewrite Decide_no_entry by (by rewrite ?Hip). apply buildIPSet_None_iff in He.
      assert (¬ ∃ x v, registered d (Unmap ip) x v) as Hn.
      { intros (x & v & Hr). rewrite He in Hin. eapply not_elem_of_nil, Hin. eauto. }
      split; [intros Ha; split; [done|]; split; [done|by right]|]. by intros (_ & _ & [[Hr _]|[_ Ha]]).
  - rewrite Hnp. destruct (scan_governs d (Unmap ip) (NormaliseHost host)) as [(-> & Hn)|(p & Hg & Hiff)]; [right; split; [done|by left]|].
    destruct (Allowed _); [left; split; [done|]; exists p; split; [done|]; by apply Hiff|].
    right. split; [done|]. right. exists p. split; [done|]. intros Hl. by apply Hiff in Hl.
Qed.

Lemma Decide_sound s d ip host :
  device_inv d → policies_inv d → fed s d → Allowed (Decide s ip host) = true → tables_allow d (trustedProxy s) (Unmap ip) (NormaliseHost host).
Proof.
  intros I Ip Hf Ha. pose proof (Decide_governed s d ip host I Ip Hf) as (P & Hiff & Hp). apply (proj1 Hiff) in Ha. destruct Ha as (Hv & Hpr & Hor).
  split; [done|]. split; [done|]. destruct Hor as [?|[? HP]]; [by left|]. right. destruct Hp as [[_ ?]|[? _]]; done.
Qed.

Lemma Decide_complete s d ip host :
  device_inv d → policies_inv d → fed s d → tables_agree d (trustedProxy s) (Unmap ip) (NormaliseHost host) → Allowed (Decide s ip host) = true.
Proof.
  intros I Ip Hf (Hv & Hpr & Hor). pose proof (Decide_governed s d ip host I Ip Hf) as (P & Hiff & Hp). apply (proj2 Hiff).
  split; [done|]. split; [done|]. destruct Hor as [?|[? [Hex Hall]]]; [by left|]. right. split; [done|].
  destruct Hp as [[? _]|[_ [Hn|(p & Hg & Hn)]]]; [done|by destruct Hn|by destruct Hn; apply Hall].
Qed.

(** C1: when the tables are sound ([tables_inv]: every operation keeps them
    so) and the caches are those of the tables, requests are let through as
    the tables say.  The client address must be valid and not the proxy's.
    If devices are registered there (an enabled address of a device neither
    deleted nor disabled), every one of their owners must be able to reach
    the host, by the bypass flag or a group with the host in it.  Otherwise
    an enabled network policy decides whose range around the address is the
    longest: it must bypass the host check or have a group with the host in
    it.  Ranges are unique as stored, yet an IPv4 range and its IPv4-mapped
    spelling are one range: so a request that is let through is let through
    by some such policy, one that every such policy lets through is let
    through, and if at most one policy has the longest range the tables
    decide exactly. *)
Theorem decision_follows_tables s d ip host :
  tables_inv d → fed s d →
  (Allowed (Decide s ip host) = true → tables_allow d (trustedProxy s) (Unmap ip) (NormaliseHost host)) ∧
  (tables_agree d (trustedProxy s) (Unmap ip) (NormaliseHost host) → Allowed (Decide s ip host) = true) ∧
  ((∀ p q, governs d (Unmap ip) p → governs d (Unmap ip) q → p = q) →
     Allowed (Decide s ip host) = true ↔ tables_allow d (trustedProxy s) (Unmap ip) (NormaliseHost host)).
Proof.
  intros It Hf. pose proof (ti_devices _ It) as I. pose proof (ti_policies _ It) as Ip.
  split; [by apply Decide_sound|]. split; [by apply Decide_complete|]. intros Huniq. split; [by apply Decide_sound|].
  intros (Hv & Hpr & Hor). apply (Decide_complete s d); [done..|]. split; [done|]. split; [done|].
  destruct Hor as [?|[Hn (p & Hg & Hl)]]; [by left|right]. split; [done|]. split; [by exists p|]. intros q Hq. by rewrite (Huniq q p).
Qed.
End decision.

(** ** The queues *)

(** The capacities of the channels. *)
Definition bounded (w : world) : Prop :=
  (length (w_lease_events w) ≤ 500)%nat ∧ (length (w_lease_rule_events w) ≤ 500)%nat ∧
  (length (w_maxaddr_events w) ≤ 500)%nat ∧ (length (w_maxaddr_rule_events w) ≤ 100)%nat.

Lemma try_send_bounded {E} cap (e : E) q : (length q ≤ cap)%nat → (length (try_send cap e q) ≤ cap)%nat.
Proof. unfold try_send. destruct (Nat.ltb_spec (length q) cap); [|done]. rewrite length_app. cbn. lia. Qed.

Lemma bounded_queue : queue_pred bounded.
Proof. by intros d fs rs b w. Qed.

Lemma address_observers_bounded : Forall (λ o : AddressEvent → world → world, ∀ e w, bounded w → bounded (o e w)) address_observers.
Proof.
  apply Forall_cons_2; [|apply Forall_cons_2; [|apply Forall_cons_2; [|apply Forall_nil_2]]]; intros e w (B1 & B2 & B3 & B4).
  - unfold lease_OnAddressEvent. destruct (w_cancelled w); [done|]. unfold bounded; cbn -[try_send]. auto using try_send_bounded.
  - unfold policy_OnAddressEvent. by case_bool_decide.
  - unfold maxaddr_OnAddressEvent. destruct (_ && _); [done|]. unfold bounded; cbn -[try_send]. auto using try_send_bounded.
Qed.

Lemma rule_observers_bounded : Forall (λ o : RuleEvent → world → world, ∀ e w, bounded w → bounded (o e w)) rule_observers.
Proof.
  apply Forall_cons_2; [|apply Forall_cons_2; [|apply Forall_nil_2]]; intros e w (B1 & B2 & B3 & B4).
  - unfold lease_OnRuleEvent. destruct (w_cancelled w); [done|]. unfold bounded; cbn -[try_send]. auto using try_send_bounded.
  - unfold maxaddr_OnRuleEvent. destruct (_ || _); [done|]. unfold bounded; cbn -[try_send]. auto using try_send_bounded.
Qed.

Section queues.
Context `{GoUnicode}.

(** The event queues never hold more than the channels' capacities,
    500 events for each of the address and lease rule listeners and 100
    for the limit rule listener, whatever operations run and whatever
    fails; an event that does not fit is dropped, not waited for. *)
Theorem queues_bounded ops w :
  bounded w → bounded (foldl (λ w op, (run_app_op op false w).2) w ops).
Proof.
  assert (∀ op w, bounded w → bounded (run_app_op op false w).2) as Hop.
  { intros op w0. apply app_op_holds; [apply bounded_queue|apply address_observers_bounded| | | |apply rule_observers_bounded|..].
    1-3: apply Forall_cons_2; [by intros ? ? ?|constructor].
    all: intros e q w1 Hq (B1 & B2 & B3 & B4); rewrite Hq in *; unfold bounded; cbn in *; lia. }
  revert w. induction ops as [|op ops IH]; intros w Hw; [done|]. cbn. auto.
Qed.
End queues.
