(* ===== verification/EndToEnd.v ===== *)
(** * EndToEnd: from a report to a verdict

    The cascade of events a change sets off comes to rest, with the caches
    up to date; a device that reports its address is let through to the
    hosts of its owner; and a device that is disabled is not. *)

From S2P Require Import Prelude GoLib Netip Schema Store Slicex HostNames Http PolicyCache NetipText Crypto PolicyService.
From S2P Require Import PolicySpec PolicyVerify Device DeviceInv DeviceSpec Interfaces Rule Lease LeaseSpec MaxAddr Hosts.
From S2P Require Import HostsSpec UserAccess NetworkPolicies NetworkPoliciesSpec Pairing PairingSpec WorldInv App.
From S2P Require Import AppOps Freshness AppSpec.
From stdpp Require Import relations.
From Stdlib Require Import Relation_Operators Lexicographic_Product.

Local Open Scope string_scope.
Local Open Scope Z_scope.

(** ** The background work *)

(** One iteration of a background loop that has something to do: a listener
    with an event in its queue, or the refresh loop with its signal up. *)
Inductive background : world * Service → world * Service → Prop :=
  | bg_lease w s : w_lease_events w ≠ [] → background (w, s) ((lease_recv_address false w).2, s)
  | bg_lease_rule w s : w_lease_rule_events w ≠ [] → background (w, s) ((lease_recv_rule false w).2, s)
  | bg_max w s : w_maxaddr_events w ≠ [] → background (w, s) ((maxaddr_recv_address false w).2, s)
  | bg_max_rule w s : w_maxaddr_rule_events w ≠ [] → background (w, s) ((maxaddr_recv_rule false w).2, s)
  | bg_refresh ms w s r w' : w_refresh w = true → onRefreshSignal app_providers ms s false w = (Ok r, w') → background (w, s) (w', r).

(** Nothing is queued and no refresh is pending. *)
Definition at_rest (w : world) : Prop :=
  w_lease_events w = [] ∧ w_lease_rule_events w = [] ∧ w_maxaddr_events w = [] ∧ w_maxaddr_rule_events w = [] ∧ w_refresh w = false.

(** The queues the limit listener reads, and those of the leases. *)
Definition max_queues (w : world) := (w_maxaddr_events w, w_maxaddr_rule_events w).
Definition lease_queues (w : world) := (w_lease_events w, w_lease_rule_events w).

(** Evicting an address tells the lease listener and the cache, but not the
    limit listener, which ignores disabled addresses. *)
Lemma notify_disabled_max q a : holds (λ w, max_queues w = q) (notifyAddress a EventTypeAddressDisabled).
Proof.
  intros tx w Hw. unfold notifyAddress. rewrite bind_run, now_run. unfold notifyObservers. rewrite notify_run. cbn.
  unfold lease_OnAddressEvent. by destruct (w_cancelled w).
Qed.

Lemma max_queue q : queue_pred (λ w, max_queues w = q).
Proof. by intros d fs rs b w. Qed.

Lemma lease_queue q : queue_pred (λ w, (lease_queues w, max_queues w, w_refresh w) = q).
Proof. by intros d fs rs b w. Qed.

#[local] Hint Resolve notify_disabled_max : pw.

Lemma enforce_max q dev id : holds (λ w, max_queues w = q) (enforce dev id).
Proof.
  pose proof (max_queue q) as HQ. unfold enforce.
  cbn [GetMaxAddresses FetchEnabled Disable rule_service_max device_service_addresses device_service_disabler].
  unfold GetMaxActiveAddresses, find_rule, GetRuleByDeviceAndType, GetEnabledAddressesForDevice, DisableAddresses, DisableAddresses_rows,
    recordAddressEvent, insertAddressEvent, GetAddress. world_structural HQ.
Qed.

Lemma lease_handle_still q e : holds (λ w, (lease_queues w, max_queues w, w_refresh w) = q) (lease_handle_address e).
Proof. apply lease_handle_holds, lease_queue. Qed.

Lemma lease_rule_still q e : holds (λ w, (lease_queues w, max_queues w, w_refresh w) = q) (handleLeaseRuleEvent e).
Proof. pose proof (lease_queue q) as HQ. unfold handleLeaseRuleEvent, SetDeviceAddressLeasesExpiry. world_structural HQ. Qed.

Lemma refreshCache_still q ms s : holds (λ w, (lease_queues w, max_queues w, w_refresh w) = q) (refreshCache app_providers ms s).
Proof.
  pose proof (lease_queue q) as HQ. unfold refreshCache, app_providers. cbn [ipProvider hostProvider networkPoliciesProvider optional].
  unfold GetEnabledIPEntries, GetAllUserHostAccess, GetAllUserHostSettings, GetAllUserHostGrants, GetEnabledCacheEntries. world_structural HQ.
Qed.

(** ** The cascade comes to rest *)

(** What is left to do, most influential first. *)
Definition backlog (c : world * Service) : nat * (nat * nat) :=
  let w := c.1 in
  ((length (w_maxaddr_events w) + length (w_maxaddr_rule_events w))%nat,
   ((length (w_lease_events w) + length (w_lease_rule_events w))%nat, if w_refresh w then 1%nat else 0%nat)).

Definition backlog_lt : relation (nat * (nat * nat)) := slexprod _ _ lt (slexprod _ _ lt lt).

Lemma backlog_lt_wf : well_founded backlog_lt.
Proof. apply wf_slexprod; [apply lt_wf|apply wf_slexprod; apply lt_wf]. Qed.

Lemma background_backlog c c' : background c c' → backlog_lt (backlog c') (backlog c).
Proof.
  destruct 1 as [w s Hne|w s Hne|w s Hne|w s Hne|ms w s r w' Hr Hrun']; unfold backlog; cbn [fst].
  - unfold lease_recv_address. destruct (w_lease_events w) as [|e q] eqn:E; [done|].
    pose proof (lease_handle_still _ e false (set_lease_events q w) eq_refl) as Hq. cbn beta in Hq.
    destruct (lease_handle_address e false _) as [? w1]. cbn in *. injection Hq as -> -> -> -> ->. right. left. cbn. lia.
  - unfold lease_recv_rule. destruct (w_lease_rule_events w) as [|e q] eqn:E; [done|].
    pose proof (lease_rule_still _ e false (set_lease_rule_events q w) eq_refl) as Hq. cbn beta in Hq.
    destruct (handleLeaseRuleEvent e false _) as [? w1]. cbn in *. injection Hq as -> -> -> -> ->. right. left. cbn. lia.
  - unfold maxaddr_recv_address. destruct (w_maxaddr_events w) as [|e q] eqn:E; [done|].
    pose proof (enforce_max _ (AddressEvent_DeviceID e) (AddressEvent_AddressID e) false (set_maxaddr_events q w) eq_refl) as Hq. cbn beta in Hq.
    destruct (enforce _ _ false _) as [? w1]. cbn in *. injection Hq as -> ->. left. cbn. lia.
  - unfold maxaddr_recv_rule. destruct (w_maxaddr_rule_events w) as [|e q] eqn:E; [done|].
    pose proof (enforce_max _ (RuleEvent_DeviceID e) 0 false (set_maxaddr_rule_events q w) eq_refl) as Hq. cbn beta in Hq.
    destruct (enforce _ _ false _) as [? w1]. cbn in *. injection Hq as -> ->. left. cbn. lia.
  - unfold onRefreshSignal in Hrun'. rewrite bind_run in Hrun'. cbn [effect] in Hrun'.
    assert (holds (λ w0, (lease_queues w0, max_queues w0, w_refresh w0) = (lease_queues w, max_queues w, false))
      (catch (refreshCache app_providers ms s) (λ _, mret s))) as Hk.
    { apply holds_catch; [apply refreshCache_still|intros; apply holds_ret]. }
    specialize (Hk false (set_refresh false w) eq_refl). unfold effect in Hrun'. rewrite Hrun' in Hk. cbn in Hk.
    injection Hk as -> -> -> -> ->. rewrite Hr. right. right. cbn. lia.
Qed.

Lemma background_ends c : Acc (flip background) c.
Proof.
  remember (backlog c) as b eqn:E. revert c E. induction (backlog_lt_wf b) as [b _ IH]. intros c ->.
  constructor. intros c' Hc. by eapply IH; [apply background_backlog|].
Qed.

Lemma refreshCache_run ms s w : no_faults w → ∃ r, refreshCache app_providers ms s false w = (Ok r, w).
Proof.
  intros Hnf. unfold refreshCache, app_providers. cbn [ipProvider hostProvider networkPoliciesProvider optional].
  unfold GetEnabledIPEntries, GetEnabledCacheEntries. run. rewrite GetAllUserHostAccess_run by done. run. by eexists.
Qed.

Lemma quiet_listener {E} (queue : world → list E) (set : list E → world → world) (m : E → M unit) :
  (∀ q w, w_faults (set q w) = w_faults w) → (∀ e, quiet (m e)) →
  quiet (λ tx w, match queue w with [] => (Ok tt, w) | e :: q => m e tx (set q w) end).
Proof. intros Hs Hm tx w Hnf. destruct (queue w) as [|e q]; [done|]. apply Hm. unfold no_faults. by rewrite Hs. Qed.

Lemma enforce_quiet dev id : quiet (enforce dev id).
Proof.
  unfold enforce. cbn [GetMaxAddresses FetchEnabled Disable rule_service_max device_service_addresses device_service_disabler].
  unfold GetMaxActiveAddresses, find_rule, GetRuleByDeviceAndType, GetEnabledAddressesForDevice. structural.
Qed.

Lemma lease_handle_quiet e : quiet (lease_handle_address e).
Proof.
  unfold lease_handle_address, AddAddressLease, ClearAddressLease, UpsertAddressLease, DeleteAddressLease.
  cbn [GetTTLSeconds rule_service_ttl]. unfold GetDeviceAddressLeaseTTLSeconds, find_rule, GetRuleByDeviceAndType. structural.
Qed.

Lemma lease_rule_quiet e : quiet (handleLeaseRuleEvent e).
Proof. unfold handleLeaseRuleEvent, SetDeviceAddressLeasesExpiry. structural. Qed.

Section settles.
Context `{GoUnicode}.

(** What the background work preserves while no statement fails. *)
Definition settling (c : world * Service) : Prop := no_faults c.1 ∧ device_inv (w_db c.1) ∧ Freshness.fresh c.2 c.1.

Lemma background_settling c c' : background c c' → settling c → settling c'.
Proof.
  intros Hb (Hnf & Hi & Hf).
  assert (∀ op, untold op c.1 = false → quiet (run_app_op op) → settling ((run_app_op op false c.1).2, c.2)) as Hop.
  { intros op Ha Hq. split; [by apply Hq|]. by apply app_op_tracks. }
  destruct Hb as [w s _|w s _|w s _|w s _|ms w s r w' Hr Hrun]; cbn [fst snd] in *.
  - apply (Hop OpLeaseListener eq_refl). exact (quiet_listener w_lease_events set_lease_events _ (λ _ _, eq_refl) lease_handle_quiet).
  - apply (Hop OpLeaseRuleListener eq_refl). exact (quiet_listener w_lease_rule_events set_lease_rule_events _ (λ _ _, eq_refl) lease_rule_quiet).
  - apply (Hop OpMaxListener eq_refl).
    exact (quiet_listener w_maxaddr_events set_maxaddr_events _ (λ _ _, eq_refl) (λ e, enforce_quiet (AddressEvent_DeviceID e) (AddressEvent_AddressID e))).
  - apply (Hop OpMaxRuleListener eq_refl).
    exact (quiet_listener w_maxaddr_rule_events set_maxaddr_rule_events _ (λ _ _, eq_refl) (λ e, enforce_quiet (RuleEvent_DeviceID e) 0)).
  - unfold onRefreshSignal in Hrun. rewrite bind_run in Hrun. cbn [effect] in Hrun. unfold effect in Hrun.
    rewrite catch_run in Hrun. destruct (refreshCache_run ms s (set_refresh false w) Hnf) as [s1 E]. rewrite E in Hrun.
    injection Hrun as <- <-. apply refreshCache_Ok in E as (_ & Hfed & _). split; [exact Hnf|]. split; [exact Hi|]. by right.
Qed.

(** C3: however the event loops interleave, the cascade a change sets
    off ends, and it ends well: while no statement fails, every sequence of
    iterations of the listeners and of the refresh loop is finite; as long
    as an event is queued or a refresh is pending some loop can take it; and
    when none is left the caches decide on what the tables say. *)
Theorem background_settles w s :
  no_faults w → device_inv (w_db w) → signalled w ∨ fed s (w_db w) →
  Acc (flip background) (w, s) ∧
  ∀ w' s', rtc background (w, s) (w', s') →
    (at_rest w' ∨ ∃ c, background (w', s') c) ∧ (at_rest w' → device_inv (w_db w') ∧ fed s' (w_db w')).
Proof.
  intros Hnf I Hf. split.
  { apply background_ends. }
  intros w' s' Hsteps. assert (settling (w', s')) as (Hnf' & I' & Hf').
  { assert (settling (w, s)) as Hs by done. revert Hs. generalize dependent (w', s'). generalize (w, s). intros c c' Hsteps.
    induction Hsteps as [|c1 c2 c3 Hb _ IH]; [done|]. intros Hs. by eapply IH, background_settling. }
  cbn in *. split.
  - unfold at_rest. destruct (decide (w_lease_events w' = [])); [|right; eexists; by constructor].
    destruct (decide (w_lease_rule_events w' = [])); [|right; eexists; by constructor].
    destruct (decide (w_maxaddr_events w' = [])); [|right; eexists; by constructor].
    destruct (decide (w_maxaddr_rule_events w' = [])); [|right; eexists; by constructor].
    destruct (w_refresh w') eqn:E; [right|by left].
    destruct (refreshCache_run 0 s' (set_refresh false w') Hnf') as [s1 E1]. eexists. apply (bg_refresh 0); [done|].
    unfold onRefreshSignal. rewrite bind_run. unfold effect. rewrite catch_run, E1. done.
  - intros (_ & _ & _ & _ & Hr). split; [done|]. destruct Hf' as [Hp|Hp]; [unfold signalled in Hp; congruence|done].
Qed.
End settles.

(** ** What a report leaves behind *)

(** An accepted report leaves an enabled address of the device, in its
    canonical spelling, and the devices and grants as they were. *)
Lemma Register_Ok proxy dev ip src trg w x ty w1 :
  device_inv (w_db w) → RegisterAddressActivity proxy dev ip src trg false w = (Ok (x, ty), w1) →
  ∃ p v, NewCreateAddressParams dev ip proxy = Ok p ∧ active_device (w_db w) dev = Some v ∧ Device_DisabledAt v = None ∧
    address_write (w_db w) (w_db w1) ∧
    ∃ i y, addresses (w_db w1) !! i = Some y ∧ Address_IsEnabled y = true ∧ Address_DeviceID y = dev ∧ Address_IP y = Addr_String (cap_IP p).
Proof.
  intros I Hr. unfold RegisterAddressActivity in Hr. destruct (NewCreateAddressParams dev ip proxy) as [p|e] eqn:Ep; [|done].
  pose proof (NewCreateAddressParams_device _ _ _ _ Ep) as Hdev. exists p.
  apply bind_Ok in Hr as ([a t] & w2 & Htx & Hr). apply bind_Ok in Hr as ([] & w3 & Hn & [= -> -> ->]).
  assert (w_db w1 = w_db w2) as ->.
  { unfold notifyAddress in Hn. apply bind_Ok in Hn as (t & w4 & [= _ <-] & Hn). unfold notifyObservers in Hn.
    pose proof (notify_db address_observers (NewAddressEvent x ty t) false w2 address_observers_inert) as Hdb. by rewrite Hn in Hdb. }
  apply withinTx_Ok in Htx as (w0 & w4 & E0 & _ & _ & Htx & ->). rewrite <-E0 in *. clear E0.
  apply bind_Ok in Htx as (b & w5 & (E1 & _ & v & Hv & ->)%IsDeviceDisabled_Ok & Htx).
  destruct (bool_decide (Device_DisabledAt v = None)) eqn:Hd; cbn [negb] in Htx; [|discriminate Htx]. apply bool_decide_eq_true_1 in Hd.
  exists v. split; [done|]. split; [done|]. split; [done|].
  apply bind_Ok in Htx as (ex & w6 & Hex & Htx).
  assert (w_db w6 = w_db w5 ∧ (∀ y, ex = Some y → address_of (w_db w5) dev (cap_IP p) = Some y)) as [E2 Hx].
  { apply catch_Ok in Hex as [Hex|(e & w7 & Hex & Hh)].
    - unfold GetAddressForDeviceByIP in Hex. apply fmap_Ok in Hex as (y & Hex & ->). inv_run. split; [done|]. by intros z [= <-].
    - case_decide; [|done]. injection Hh as <- <-. split; [|done].
      pose proof (keeps_map_err (λ d, d = w_db w5) (no_rows ErrAddressNotFound) (get_row (λ _ d, address_of d dev (cap_IP p)))
        (keeps_get_row _ _) true w5 eq_refl) as Hk.
      rewrite fmap_run in Hex. unfold GetAddressForDeviceByIP in Hex. unfold address_of in Hk. destruct (map_err _ _ _ _) as [[?|?] ?]; [done|].
      injection Hex as _ <-. done. }
  destruct ex as [y|].
  - specialize (Hx y eq_refl). apply address_of_Some in Hx as ([i Hi] & Hdy & Hip). rewrite E1 in Hi.
    pose proof (di_addr_id _ I _ _ Hi) as Hid. subst i.
    assert (∃ a0 w7, recordAddressEvent (Address_ID y) true src trg true w6 = (Ok a0, w7) ∧ w_db w4 = w_db w7) as (a0 & w7 & Hrec & ->).
    { destruct (negb (Address_IsEnabled y)); unfold RefreshAddress, EnableAddress in Htx;
        apply bind_Ok in Htx as (a0 & w7 & Hrec & [= _ _ <-]); eauto. }
    apply recordAddressEvent_Ok in Hrec as (old & Ho & _ & -> & _). rewrite E2, E1 in *. rewrite Ho in Hi. injection Hi as ->.
    split; [by eexists _, _|]. exists (Address_ID y), (with_state true src (w_now w6) y). cbn. by rewrite lookup_alter_eq, Ho.
  - apply bind_Ok in Htx as (a0 & w7 & Hc & [= _ _ <-]). apply CreateAddress_Ok in Hc as (_ & _ & n & -> & _). rewrite E2, E1.
    split; [by eexists _, _|]. eexists n, _. cbn. rewrite lookup_insert_eq. split; [done|]. by cbn.
Qed.

(** ** Let through *)

Section verdicts.
Context `{GoUnicode}.

(** Where devices are registered, their owners decide. *)
Lemma Decide_registered s d ip host :
  device_inv d → fed s d → IsValid ip = true → is_trusted_proxy s (Unmap ip) = false →
  (∃ x v, registered d (Unmap ip) x v) →
  Allowed (Decide s ip host) = true ↔ ∀ x v, registered d (Unmap ip) x v → user_may_reach d (Device_OwnerID v) (NormaliseHost host).
Proof.
  intros I (es & Hes & [Hip _]) Hv Hp (x0 & v0 & Hr0). pose proof (λ e, elem_of_entries_at d es (Unmap ip) e I Hes) as Hin.
  destruct (buildIPSet es (host_access d) !! Unmap ip) as [entry|] eqn:He.
  2:{ apply buildIPSet_None_iff in He. exfalso. eapply not_elem_of_nil. rewrite <-He. apply Hin. eauto. }
  rewrite (Decide_entry _ _ _ entry) by (by rewrite ?Hip). cbn [Allowed]. rewrite (entry_allows_granted _ _ _ _ _ He).
  setoid_rewrite granted_reach. split.
  - intros Hall x v Hr. apply (Hall (mkIPEntry (Address_IP x) (Address_DeviceID x) (Address_ID x) (Device_OwnerID v))). apply Hin. eauto.
  - intros Hall e He'. apply Hin in He' as (x & v & Hr & ->). eauto.
Qed.

(** A forward-auth request with the proxy's token, not replayed early. *)
Definition asks (s : Service) (h : headers) (token : string) : Prop :=
  header_get h "Early-Data" ≠ "1" ∧ cut_prefix "Bearer " (header_get h "Authorization") = Some token ∧ token ≠ "" ∧ sha256 token = apiSecretHash s.

Lemma asks_answer s geo t us h token clientIP a :
  asks s h token → ParseAddr clientIP = Some a →
  (HandleForwardAuthIP s geo t us h (Some clientIP)).1 =
    if Allowed (Decide s (Unmap a) (header_get h "X-Forwarded-Host")) then 200 else 403.
Proof.
  intros (Hearly & Hauth & Htok & Hsha) Ha. unfold HandleForwardAuthIP. rewrite (bool_decide_eq_false_2 _ Hearly).
  rewrite Hauth, Ha. destruct token as [|c token]; [destruct (Htok eq_refl)|]. unfold VerifyAccess. cbn [Token NewVerifyRequest ClientIP TargetHost].
  rewrite (bool_decide_eq_true_2 _ Hsha). cbn [negb]. cbv zeta.
  assert (default "" (nilIfEmpty (header_get h "X-Forwarded-Host")) = header_get h "X-Forwarded-Host") as ->.
  { unfold nilIfEmpty. by case_bool_decide as E; [rewrite E|]. }
  destruct (Allowed _); cbn [negb]; [reflexivity|]. case_bool_decide; reflexivity.
Qed.

Lemma registered_write d d' dev p v i y :
  address_write d d' → active_device d dev = Some v → Device_DisabledAt v = None →
  addresses d' !! i = Some y → Address_IsEnabled y = true → Address_DeviceID y = dev → Address_IP y = Addr_String (Unmap p) →
  Addr_wf p = true → IsValid p = true → registered d' (Unmap p) y v.
Proof.
  intros [_ Hdev]%address_write_rest Hv Hd Hy He <- Hip Hwf Hval. unfold registered. split; [by exists i|]. split; [done|].
  split; [unfold active_device in *; by rewrite Hdev|]. split; [done|]. rewrite Hip, ParseAddr_String; [|by apply Unmap_wf|by rewrite Unmap_valid].
  cbn. by rewrite Unmap_idemp.
Qed.

(** A device that reports its address gets in: once a report has
    been accepted and the policy cache has been rebuilt, a forward-auth
    request with the proxy's token that comes from the reported address, in
    any spelling, is answered 200 exactly when every owner of a device
    registered at that address may reach the host, and the reporting
    device's owner is among them. *)
Theorem report_lets_through proxy dev ip src trg w x ty w1 s ms s' w2 a clientIP b geo t us h token :
  device_inv (w_db w) → trustedProxy s = proxy →
  RegisterAddressActivity proxy dev ip src trg false w = (Ok (x, ty), w1) → ParseAddr ip = Some a →
  refreshCache app_providers ms s false w1 = (Ok s', w2) →
  ParseAddr clientIP = Some b → Unmap b = Unmap a → asks s h token →
  let host := NormaliseHost (header_get h "X-Forwarded-Host") in
  ((HandleForwardAuthIP s' geo t us h (Some clientIP)).1 = 200 ↔
     ∀ y v, registered (w_db w1) (Unmap a) y v → user_may_reach (w_db w) (Device_OwnerID v) host) ∧
  ∃ y v, registered (w_db w1) (Unmap a) y v ∧ Address_DeviceID y = dev ∧ active_device (w_db w) dev = Some v.
Proof.
  intros I Hproxy Hreg Ha Href Hb Hba Hasks. cbv zeta.
  pose proof (RegisterAddressActivity_keeps proxy dev ip src trg w I) as I1. rewrite Hreg in I1. cbn in I1.
  apply Register_Ok in Hreg as (p & v & Hp & Hv & Hd & Hw & i & y & Hy & Hye & Hyd & Hyip); [|done].
  pose proof Ha as [Hwf Hval]%ParseAddr_wf. unfold NewCreateAddressParams, ParseAndValidateIP in Hp. rewrite Ha in Hp.
  destruct (_ || _) in Hp; [done|]. destruct (IsValid proxy && Compare_eq0 proxy (Unmap a)) eqn:Epr; [done|]. injection Hp as <-. cbn in Hyip.
  pose proof (registered_write _ _ _ _ _ _ _ Hw Hv Hd Hy Hye Hyd Hyip Hwf Hval) as Hr.
  split; [|by exists y, v]. apply refreshCache_Ok in Href as (_ & Hfed & Hsec & Hpr).
  assert (asks s' h token) as Hasks'. { destruct Hasks as (H1 & H2 & H3 & E). rewrite <-Hsec in E. exact (conj H1 (conj H2 (conj H3 E))). }
  rewrite (asks_answer _ _ _ _ _ _ _ _ Hasks' Hb).
  assert (∀ u, user_may_reach (w_db w1) u (NormaliseHost (header_get h "X-Forwarded-Host")) ↔
    user_may_reach (w_db w) u (NormaliseHost (header_get h "X-Forwarded-Host"))) as Hreach.
  { intros u. apply address_write_rest in Hw as [E _]. unfold rest in E. injection E as E1 E2 E3 E4 _ _.
    unfold user_may_reach, reaches. by rewrite E1, E2, E3, E4. }
  setoid_rewrite <-Hreach. rewrite <-(Unmap_idemp a), <-Hba. rewrite <-Decide_registered; try done.
  - by destruct (Allowed _).
  - by rewrite Unmap_valid, <-(Unmap_valid b), Hba, Unmap_valid.
  - unfold is_trusted_proxy. by rewrite Hpr, Hproxy, Unmap_idemp, Hba.
  - rewrite Unmap_idemp, Hba. eauto.
Qed.
End verdicts.

(** ** Locked out *)

(** A device that has been disabled or deleted. *)
Definition frozen (dev : DeviceID) (d : db) : Prop :=
  ∃ v, devices d !! dev = Some v ∧ (Device_DisabledAt v ≠ None ∨ Device_DeletedAt v ≠ None).

Section frozen.
Context (dev : DeviceID).

(** What enables it again is the one operation for it. *)
Definition spares (op : app_op) : Prop := match op with OpDevice (OpEnableDevice id) => id ≠ dev | _ => True end.

Lemma frozen_devices d d' : devices d' = devices d → frozen dev d → frozen dev d'.
Proof. unfold frozen. by intros ->. Qed.

Lemma frozen_insert d id v v0 :
  devices d !! id = Some v0 → (Device_DisabledAt v0 ≠ None → Device_DisabledAt v ≠ None) → (Device_DeletedAt v0 ≠ None → Device_DeletedAt v ≠ None) →
  frozen dev d → frozen dev (on_devices (<[id := v]>) d).
Proof.
  intros Hv0 H1 H2 (x & Hx & Hfr). unfold frozen. cbn. destruct (decide (id = dev)) as [<-|Hne].
  - rewrite lookup_insert_eq. exists v. split; [done|]. replace v0 with x in * by congruence. tauto.
  - rewrite lookup_insert_ne by done. by exists x.
Qed.

Lemma framed_frozen {A} (m : M A) : framed m → keeps (frozen dev) m.
Proof.
  intros Hm tx w Hf. specialize (Hm _ tx w eq_refl). eapply frozen_devices; [|exact Hf]. unfold dev_tables in Hm. by injection Hm.
Qed.

Lemma frozen_update (f : time → Device → Device) id :
  (∀ t v, (Device_DisabledAt v ≠ None → Device_DisabledAt (f t v) ≠ None) ∧ (Device_DeletedAt v ≠ None → Device_DeletedAt (f t v) ≠ None)) →
  keeps (frozen dev) (update_device f id).
Proof.
  intros Hf. apply keeps_exec. intros t d n d' Hd Hw. write_cases Hw; [|done].
  match goal with H : active_device d id = Some _ |- _ => apply active_device_Some in H as [Hv _] end.
  eapply frozen_insert; [exact Hv|apply Hf..|done].
Qed.

Lemma frozen_DeleteDevice_row id : keeps (frozen dev) (DeleteDevice_row id).
Proof. unfold DeleteDevice_row. apply keeps_bind; [by apply frozen_update|]. structural. Qed.

Lemma frozen_Disable id : keeps (frozen dev) (SetDeviceDisabled id true).
Proof. unfold SetDeviceDisabled. apply keeps_bind; [by apply frozen_update|]. structural. Qed.

Lemma frozen_Enable id : id ≠ dev → keeps (frozen dev) (SetDeviceDisabled id false).
Proof.
  intros Hne. unfold SetDeviceDisabled. apply keeps_bind; [|structural]. apply keeps_exec. intros t d n d' (x & Hx & Hf) Hw.
  write_cases Hw; [|by exists x]. exists x. cbn. by rewrite lookup_insert_ne.
Qed.

Lemma frozen_UpdateDevice_row v : keeps (frozen dev) (UpdateDevice_row v).
Proof.
  unfold UpdateDevice_row, GetDevice. apply keeps_bind; [|structural]. apply keeps_map_err, keeps_exec. intros t d n d' Hd Hw. write_cases Hw; [|done].
  match goal with H : active_device d _ = Some _ |- _ => apply active_device_Some in H as [Hv _] end. by eapply frozen_insert.
Qed.

Lemma frozen_CreateDevice p : keeps (frozen dev) (CreateDevice p).
Proof.
  apply keeps_map_err, keeps_exec. intros t d v d' (x & Hx & Hf) Hw. write_cases Hw. exists x. cbn.
  rewrite lookup_insert_ne; [done|]. intros <-. by apply fresh_id_ne in Hx.
Qed.

#[local] Hint Resolve frozen_DeleteDevice_row frozen_Disable frozen_UpdateDevice_row frozen_CreateDevice : pw.

(** Writes to other tables. *)
Ltac elsewhere := structural; apply keeps_exec; intros ? ? ? ? Hd Hw; (eapply frozen_devices; [|exact Hd]); write_cases Hw; done.

Lemma frozen_DisableAddresses ids src trg : keeps (frozen dev) (DisableAddresses ids src trg).
Proof. unfold DisableAddresses, DisableAddresses_rows, recordAddressEvent, insertAddressEvent, GetAddress. elsewhere. Qed.

Lemma frozen_enforce id a : keeps (frozen dev) (enforce id a).
Proof.
  pose proof frozen_DisableAddresses. unfold enforce.
  cbn [GetMaxAddresses FetchEnabled Disable rule_service_max device_service_addresses device_service_disabler].
  unfold GetMaxActiveAddresses, find_rule, GetRuleByDeviceAndType, GetEnabledAddressesForDevice. structural.
Qed.

Lemma frozen_DeleteDevice id : keeps (frozen dev) (DeleteDevice id).
Proof.
  unfold DeleteDevice, GetEnabledAddressesForDevice, DisableAddresses_rows, recordAddressEvent, insertAddressEvent, GetAddress, DeleteAPIKey_row, GetDevice.
  elsewhere.
Qed.

Lemma frozen_device_OnUserEvent e : keeps (frozen dev) (device_OnUserEvent e).
Proof. pose proof frozen_DeleteDevice. unfold device_OnUserEvent, GetDeviceIDsByOwner. structural. Qed.

Lemma frozen_device_op op : spares (OpDevice op) → keeps (frozen dev) (run_device_op op).
Proof.
  pose proof frozen_DeleteDevice. pose proof frozen_device_OnUserEvent. pose proof frozen_DisableAddresses. pose proof frozen_Enable.
  destruct op; cbn [run_device_op spares]; intros Hsp; auto;
    unfold CreateDeviceWithOptions, DisableDevice, EnableDevice, UpdateDevice, RegenerateAPIKey, DeleteAPIKey, RegisterAddressActivity, DisableAddress,
      GetEnabledAddressesForDevice, DisableAddresses_rows, notifyDeviceObservers, IsDeviceDisabled, GetAddressForDeviceByIP, CreateAddress,
      RefreshAddress, EnableAddress, CheckAddressOwnership, DisableAddress_row, DeleteAddressEventsOlderThan,
      recordAddressEvent, insertAddressEvent, GetAddress, DeleteAPIKey_row, GenerateAPIKey, UpsertAPIKey, GetDevice;
    elsewhere.
Qed.

Lemma frozen_ClaimPairing code : keeps (frozen dev) (ClaimPairing code).
Proof.
  unfold ClaimPairing, GetPairingByCode, RegenerateAPIKey, GenerateAPIKey, GetDevice, UpsertAPIKey, ClaimPairing_row. elsewhere.
Qed.

Lemma frozen_app_op `{GoUnicode} op : spares op → keeps (frozen dev) (run_app_op op).
Proof.
  assert (∀ A (m : M A), keeps (frozen dev) m → keeps (frozen dev) (discard m)) as Hd.
  { intros A m Hm. apply keeps_bind; [done|]. intros. apply keeps_ret. }
  destruct op; cbn [run_app_op]; intros Hsp; try apply Hd; try (apply framed_frozen; eauto using unfed_framed with frames; fail).
  - by apply frozen_device_op.
  - unfold user_event. apply keeps_bind; [apply framed_frozen, framed_useraccess_OnUserEvent|]. intros []. apply frozen_device_OnUserEvent.
  - apply frozen_ClaimPairing.
  - exact (keeps_listener _ w_lease_events set_lease_events _ (λ _ _, eq_refl) (λ e, framed_frozen _ (unfed_framed _ (unfed_lease_handle e)))).
  - exact (keeps_listener _ w_lease_rule_events set_lease_rule_events _ (λ _ _, eq_refl) (λ e, framed_frozen _ (unfed_framed _ (unfed_lease_rule_handle e)))).
  - exact (keeps_listener _ w_maxaddr_events set_maxaddr_events _ (λ _ _, eq_refl) (λ e, frozen_enforce (AddressEvent_DeviceID e) (AddressEvent_AddressID e))).
  - exact (keeps_listener _ w_maxaddr_rule_events set_maxaddr_rule_events _ (λ _ _, eq_refl) (λ e, frozen_enforce (RuleEvent_DeviceID e) 0)).
  - pose proof frozen_DisableAddresses. unfold ExpiryJob_Run, GetExpiredAddressIDs. cbn [Disable device_service_disabler]. structural.
Qed.
End frozen.

Section locked_out.
Context `{GoUnicode} (dev : DeviceID).

(** A step of the program in which nobody enables the device, and a run. *)
Definition spared_step (c c' : config) : Prop := ∃ l, app_step l c c' ∧ default True (spares dev <$> l).

Definition spared_run : config → config → Prop := rtc spared_step.

Lemma spared_app_run c c' : spared_run c c' → app_run c c'.
Proof. unfold app_run, spared_run. induction 1 as [|c1 c2 c3 (l & Hs & _) _ IH]; [done|]. eapply rtc_l; eauto. Qed.

Lemma spared_frozen c c' : spared_run c c' → frozen dev (w_db (cfg_world c)) → frozen dev (w_db (cfg_world c')).
Proof.
  induction 1 as [|c1 c2 c3 (l & Hs & Hsp) _ IH]; [done|]. intros Hf. apply IH. clear IH.
  destruct Hs as [op w s m|ms w s m s' w' _ Hr|ms w s m s' w' Hr|w w' s m (_ & Ed & _)]; cbn in *.
  - by apply frozen_app_op.
  - unfold onRefreshSignal in Hr. rewrite bind_run in Hr. by apply refresh_round in Hr as [-> _].
  - by apply refresh_round in Hr as [-> _].
  - by eapply frozen_devices.
Qed.

(** No decision names the device. *)
Definition unnamed (s : Service) : Prop :=
  ∀ ip host co, co ∈ Contributors (Decide s ip host) → IPContributor_DeviceID co ≠ dev.

Lemma frozen_unregistered d a x v : frozen dev d → registered d a x v → Address_DeviceID x ≠ dev.
Proof.
  intros (y & Hy & Hf) (_ & _ & Hact & Hdis & _) E. rewrite E in Hact. apply active_device_Some in Hact as [Hx Hdel].
  unfold device_active in Hdel. rewrite bool_decide_eq_true in Hdel. replace y with v in * by congruence. tauto.
Qed.

(** What the caches of tables in which the device is frozen decide. *)
Lemma fed_frozen s d ip host :
  device_inv d → fed s d → frozen dev d →
  (∀ c, c ∈ Contributors (Decide s ip host) → IPContributor_DeviceID c ≠ dev) ∧
  (Allowed (Decide s ip host) = true →
     result_MatchSource (Decide s ip host) = Some MatchSourceNetworkPolicy ∨
     ∃ x v, registered d (Unmap ip) x v ∧ Address_DeviceID x ≠ dev).
Proof.
  intros I (es & Hes & [Hip _]) Hfr. pose proof (λ e, elem_of_entries_at _ es (Unmap ip) e I Hes) as Hin.
  destruct (IsValid ip) eqn:Hv; [|unfold Decide; rewrite Hv; cbn; split; [by intros c ?%elem_of_nil|done]].
  destruct (is_trusted_proxy s (Unmap ip)) eqn:Hpr.
  { rewrite Decide_proxy by done. split; [by intros c ?%elem_of_nil|done]. }
  destruct (buildIPSet es (host_access d) !! Unmap ip) as [entry|] eqn:He.
  - rewrite (Decide_entry _ _ _ entry) by (by rewrite ?Hip). cbn. apply buildIPSet_Some in He as (Hne & acc & (Hc & _) & ->).
    split.
    + intros c Hin'. cbn in Hin'. rewrite Hc in Hin'. unfold toIPContributors in Hin'. rewrite <-list_fmap_compose in Hin'.
      apply list_elem_of_fmap in Hin' as (e & -> & He'). apply Hin in He' as (x & v & Hr & ->). cbn. by eapply frozen_unregistered.
    + intros _. right. destruct (entries_at es (Unmap ip)) as [|e l]; [done|].
      destruct (proj1 (Hin e) (list_elem_of_here _ _)) as (x & v & Hr & _). exists x, v. split; [done|]. by eapply frozen_unregistered.
  - rewrite Decide_no_entry by (by rewrite ?Hip).
    destruct (scanPolicies_first (networkPolicies s) (Unmap ip) (NormaliseHost host)) as [(-> & _)|(l1 & np & l2 & _ & _ & _ & ->)];
      [split; [by intros c ?%elem_of_nil|done]|].
    unfold np_result. destruct (np_allows np _); (split; [by intros c ?%elem_of_nil|]); [by left|done].
Qed.

Lemma fed_unnamed s d : device_inv d → fed s d → frozen dev d → unnamed s.
Proof. intros I Hf Hfr ip host. by apply (fed_frozen s d ip host). Qed.

(** Once out of the caches, out of them. *)
Lemma spared_unnamed c c' :
  spared_run c c' → device_inv (w_db (cfg_world c)) → frozen dev (w_db (cfg_world c)) → unnamed (cfg_service c) → unnamed (cfg_service c').
Proof.
  induction 1 as [|c1 c2 c3 Hs _ IH]; [done|]. intros I Hfr Hun.
  assert (spared_run c1 c2) as Hrun by (by apply rtc_once). pose proof (spared_frozen _ _ Hrun Hfr) as Hfr2.
  destruct Hs as (l & Hs & Hsp). assert (device_inv (w_db (cfg_world c2)) ∧ unnamed (cfg_service c2)) as [I2 Hun2]; [|by auto].
  clear Hrun IH Hsp. destruct Hs as [op w s m|ms w s m s' w' _ Hr|ms w s m s' w' Hr|w w' s m (Hi & _)]; cbn in *.
  - split; [by apply app_op_keeps|done].
  - unfold onRefreshSignal in Hr. rewrite bind_run in Hr. apply refresh_round in Hr as [E Hs]. cbn in Hs. rewrite E in *. split; [done|].
    destruct (refresh_fails _ _ _); [by subst s'|by eapply fed_unnamed].
  - apply refresh_round in Hr as [E Hs]. rewrite E in *. split; [done|]. destruct (refresh_fails _ _ _); [by subst s'|by eapply fed_unnamed].
  - by auto.
Qed.

(** C5: a device that has been disabled or deleted stays out.  Whatever
    operations run afterwards, in any order and with any failures, the
    rebuilds of the caches included, as long as nobody enables it: (1) a
    rebuild of the caches that succeeds, whenever it comes, leaves no decision
    that names the device among those behind a request; (2) once no
    decision names it, none does again; (3) whenever no refresh is pending
    and nothing was missed (as in [caches_fresh]), none names it, and a
    request is let through only by a network policy or by another device
    that is registered at its address. *)
Theorem frozen_stays_out c c' :
  device_inv (w_db (cfg_world c)) → tracked c → frozen dev (w_db (cfg_world c)) → spared_run c c' →
  (∀ ms r w, refreshCache app_providers ms (cfg_service c') false (cfg_world c') = (Ok r, w) → unnamed r) ∧
  (unnamed (cfg_service c) → unnamed (cfg_service c')) ∧
  (up_to_date c' → unnamed (cfg_service c') ∧
     ∀ ip host, Allowed (Decide (cfg_service c') ip host) = true →
       result_MatchSource (Decide (cfg_service c') ip host) = Some MatchSourceNetworkPolicy ∨
       ∃ x v, registered (w_db (cfg_world c')) (Unmap ip) x v ∧ Address_DeviceID x ≠ dev).
Proof.
  intros I Ht Hfr Hrun. pose proof (spared_frozen _ _ Hrun Hfr) as Hfr'.
  destruct (app_run_tracked _ _ (spared_app_run _ _ Hrun) I Ht) as [I' Ht'].
  split; [|split; [by apply (spared_unnamed c c')|]].
  - intros ms r w Hr. apply refresh_fed in Hr as [E Hfed]. rewrite E in Hfed. by eapply fed_unnamed.
  - intros Hup. pose proof (tracked_fed _ Ht' Hup) as Hfed. split; [by eapply fed_unnamed|].
    intros ip host. by apply (fed_frozen (cfg_service c')).
Qed.
End locked_out.
