(* ===== verification/Heartbeat.v ===== *)
(** * Heartbeat: from a heartbeat to an open door, over HTTP

    The heartbeat endpoint behind the chain of the API, and the forward-auth
    endpoint behind the same client address: a device with a key gets the
    address it comes from registered, and requests from that address are
    answered by what the owners of the devices there may reach. *)

From S2P Require Import Prelude GoLib Netip NetipText Schema Store Slicex HostNames Http PolicyCache Crypto PolicyService.
From S2P Require Import Device DeviceInv DeviceSpec DeviceHttp Interfaces Hosts UserAccess NetworkPolicies Auth HttpServer HttpServerSpec.
From S2P Require Import WorldInv App AppOps Freshness AppSpec EndToEnd.

Local Open Scope string_scope.
Local Open Scope Z_scope.

Section heartbeat.
Context `{GoUnicode} `{RequestValidator}.

(** The operation as the generated server runs it: the API key scheme, and
    the handler with the request's context; [raw] is the trigger header. *)
Definition heartbeat (proxy : Addr) (limited : string → string → bool) (raw : option string) (r : Request) : M (Response AddressResponse) :=
  api proxy limited [[APIKeyAuthScope]] (λ ctx, handler_DeviceHeartbeatByAPIKey proxy (ctx_Device ctx) (ctx_ClientIP ctx) raw) r.

(** The forward-auth endpoint, which is outside the API's chain. *)
Definition forward_auth (s : Service) (geo : option (string → GeoResult)) (t us : Z) (proxy : Addr) (r : Request) (h : headers) : Z * list DecisionEvent :=
  HandleForwardAuthIP s geo t us h (ClientIPFromContext (clientIPMiddleware proxy r)).

(** ** The chain *)

(** A limiter answers without a body. *)
Lemma ipRateLimit_body {A} path method limited ip r (next : M (Response A)) tx w st b w' :
  ipRateLimitMiddleware path method limited ip r next tx w = (Ok (mkResponse st (Some b)), w') → next tx w = (Ok (mkResponse st (Some b)), w').
Proof. unfold ipRateLimitMiddleware. by destruct (_ && _). Qed.

Lemma contention_body {A} (f : M (Response A)) w st b w' :
  strict_handler f false w = (Ok (mkResponse st (Some b)), w') → f false (set_contended false w) = (Ok (mkResponse st (Some b)), w').
Proof.
  unfold strict_handler. intros [E|(e & w1 & _ & E)]%catch_Ok; [|by injection E]. unfold contentionMiddleware in E.
  destruct (f false _) as [[x|e] w1]; [|done]. by destruct (w_contended w1).
Qed.

Lemma PrincipalDeviceContext_Some key tx w id w' :
  device_inv (w_db w) → PrincipalDeviceContext key tx w = (Ok (Some id), w') → w_db w' = w_db w ∧ device_key (w_db w) key id.
Proof.
  intros I. unfold PrincipalDeviceContext. case_bool_decide; [done|]. intros [E|(e & w1 & _ & E)]%catch_Ok; [|done].
  apply fmap_Ok in E as (i & E & [= <-]). unfold Device.Authenticate in E. destruct (cut_prefix _ _); [|done].
  apply fmap_Ok in E as (v & E & ->). apply map_err_Ok, get_row_Ok in E as (-> & _ & _ & E). split; [done|].
  apply bind_Some in E as ([i k] & Hh & E). apply head_Some_elem_of, list_elem_of_filter in Hh as [[Hk _] Hin]. apply elem_of_map_to_list in Hin.
  cbn [fst snd] in *. apply fmap_Some in E as (v0 & E & ->).
  apply active_device_Some in E as Hv. assert (Device_ID (join_key (w_db w) v0) = i) as -> by exact (proj1 (di_dev_id _ I _ _ (proj1 Hv))). by exists k, v0.
Qed.

(** An answer with a body is the handler's, for a device whose key the
    request carries, at an unchanged database. *)
Lemma heartbeat_Ok proxy limited raw r w st b w' :
  device_inv (w_db w) → heartbeat proxy limited raw r false w = (Ok (mkResponse st (Some b)), w') →
  ∃ dev w1 x ty, w_db w1 = w_db w ∧ device_key (w_db w) (Req_APIKey r) dev ∧ clientIPMiddleware proxy r ≠ "" ∧
    RegisterAddressActivity proxy dev (clientIPMiddleware proxy r) EventSourceHeartbeat (heartbeat_trigger raw) false w1 = (Ok (x, ty), w') ∧
    b = toAddressResponse x ∧ (st = 200 ∨ st = 201).
Proof.
  intros I Hr. unfold heartbeat, api in Hr. cbv zeta in Hr. do 3 apply ipRateLimit_body in Hr.
  apply bind_Ok in Hr as (c & w1 & Ha & Hr). destruct c as [z|ctx]; [by injection Hr|].
  apply bind_Ok in Ha as (rej & w2 & Hv & Ha). destruct rej as [?|]; [by injection Ha|].
  apply validate_sound in Hv as (Ed & _ & _); [|intros s; exact (reads_AuthenticationFunc s r)].
  apply bind_Ok in Ha as (user & w3 & Hu & Ha). pose proof (reads_user_context (Req_SessionCookie r) false w2) as [E3 _]. rewrite Hu in E3. cbn in E3.
  apply bind_Ok in Ha as (dev & w4 & Hd & Ha). destruct (RequireAdmin user); [|by injection Ha]. injection Ha as <- <-.
  apply contention_body in Hr. cbn [ctx_Device ctx_ClientIP] in Hr. unfold handler_DeviceHeartbeatByAPIKey in Hr.
  destruct dev as [dev|]; [|by injection Hr]. apply PrincipalDeviceContext_Some in Hd as [E4 Hkey]; [|by rewrite E3, Ed].
  unfold ClientIPFromContext in Hr. case_bool_decide as Hip; [by injection Hr|]. rewrite respond_run in Hr.
  destruct (RegisterAddressActivity _ _ _ _ _ false _) as [[[x ty]|e] w5] eqn:E; [|by injection Hr]. injection Hr as <- <- <-.
  exists dev, (set_contended false w4), x, ty. rewrite E3, Ed in Hkey. split; [cbn; congruence|]. repeat split; try done. destruct ty; auto.
Qed.

(** C4: a heartbeat that is answered with an address
    was sent with the key of a live device; and once the policy cache has
    been rebuilt, a forward-auth request with the proxy's token that comes
    from the same client address, in any spelling and by whatever way the
    address is known, is answered 200 exactly when every owner of a device
    registered there may reach the host, and the owner of the device that
    sent the heartbeat is one of them. *)
Theorem heartbeat_opens_access proxy limited raw hb w st b w1 s ms s' w2 fa a geo t us h token :
  device_inv (w_db w) → trustedProxy s = proxy →
  heartbeat proxy limited raw hb false w = (Ok (mkResponse st (Some b)), w1) →
  refreshCache app_providers ms s false w1 = (Ok s', w2) →
  address_of (clientIPMiddleware proxy hb) = Some a → address_of (clientIPMiddleware proxy fa) = Some a → asks s h token →
  let host := NormaliseHost (header_get h "X-Forwarded-Host") in
  ∃ dev, device_key (w_db w) (Req_APIKey hb) dev ∧
    ((forward_auth s' geo t us proxy fa h).1 = 200 ↔
       ∀ y v, registered (w_db w1) a y v → user_may_reach (w_db w) (Device_OwnerID v) host) ∧
    ∃ y v, registered (w_db w1) a y v ∧ Address_DeviceID y = dev ∧ active_device (w_db w) dev = Some v.
Proof.
  intros I Hproxy Hhb Href Ha Hb Hasks. apply heartbeat_Ok in Hhb as (dev & w0 & x & ty & E0 & Hkey & _ & Hreg & _); [|done].
  exists dev. split; [done|]. rewrite <-E0 in I |- *.
  apply fmap_Some in Ha as (p & Hp & ->). apply fmap_Some in Hb as (q & Hq & Epq). unfold forward_auth.
  assert (ClientIPFromContext (clientIPMiddleware proxy fa) = Some (clientIPMiddleware proxy fa)) as ->.
  { unfold ClientIPFromContext. case_bool_decide as En; [|done]. rewrite En in Hq. discriminate Hq. }
  exact (report_lets_through _ _ _ _ _ _ _ _ _ _ _ _ _ _ _ _ geo t us h token I Hproxy Hreg Hp Href Hq (eq_sym Epq) Hasks).
Qed.
End heartbeat.
