(* ===== verification/Scheduler.v ===== *)
(** * Scheduler: the periodic jobs ([internal/scheduler])

    Every tick runs the registered jobs in order and stops at the first that
    fails; the application registers the lease expiry, the rollup and the
    retention job.  The retention job prunes once a day.  Counted has the
    theorem on whole runs: no log entry is pruned before it has been counted. *)

From S2P Require Import Prelude GoLib Netip Compare GroupBy Schema Store Timebucket PolicyCache PolicyService AccessLog Rollup RollupSpec RollupJobSpec.
From S2P Require Import Device DeviceInv Interfaces Rule Lease WorldInv App AppOps AuthSafety.

Local Open Scope Z_scope.
Local Open Scope list_scope.

(** ** The scheduler (service.go) *)

(** A job of the scheduler: its new state and its error. *)
Definition Job (S : Type) : Type := S → M (S * result unit).

(** [ExecuteScheduledRules]. *)
Fixpoint ExecuteScheduledRules {S} (jobs : list (Job S)) (s : S) : M (S * result unit) :=
  match jobs with
  | [] => mret (s, Ok tt)
  | job :: jobs =>
      out ← job s;
      match out.2 with
      | Err e => mret (out.1, Err e)
      | Ok _ => ExecuteScheduledRules jobs out.1
      end
  end.

(** ** The retention job (retention_runner.go) *)

(** The pruners the job is given. *)
Class Pruners := {
  prune_access_log : time → M Z;
  prune_address_events : time → M Z;
  prune_aggregates : time → M Z;
  prune_attribution_aggregates : time → M Z;
}.

(** [Time.AddDate(0, 0, n)] of a local time. *)
Class LocalTime := { AddDate : time → Z → time }.

Record RetentionJob := mkRetentionJob { retentionDays : Z; aggregateRetentionDays : Z; lastRanAt : option time }.

Definition NewRetentionJob (days aggregateDays : Z) : RetentionJob := mkRetentionJob days aggregateDays None.

Section retention.
Context `{Pruners} `{LocalTime}.

Definition prune_raw (days : Z) (t : time) : M unit :=
  if 0 <? days then
    let cutoff := AddDate t (- days) in
    _ ← prune_access_log cutoff; _ ← prune_address_events cutoff; mret tt
  else mret tt.

Definition prune_aggregated (days : Z) (t : time) : M unit :=
  if 0 <? days then
    let aggregateCutoff := AddDate t (- days) in
    _ ← prune_aggregates aggregateCutoff; _ ← prune_attribution_aggregates aggregateCutoff; mret tt
  else mret tt.

(** [RetentionJob.Run]. *)
Definition RetentionJob_Run (j : RetentionJob) : M (RetentionJob * result unit) :=
  if (retentionDays j =? 0) && (aggregateRetentionDays j =? 0) then mret (j, Ok tt)
  else
    t ← now;
    let today := truncate Day t in
    if bool_decide (lastRanAt j = Some today) then mret (j, Ok tt)
    else
      r ← try (_ ← prune_raw (retentionDays j) t; prune_aggregated (aggregateRetentionDays j) t);
      match r with
      | Err e => mret (j, Err e)
      | Ok _ => mret (mkRetentionJob (retentionDays j) (aggregateRetentionDays j) (Some today), Ok tt)
      end.
End retention.

(** ** The wiring (app.go) *)

#[export] Instance app_pruners : Pruners := {|
  prune_access_log := DeleteOlderThan;
  prune_address_events := DeleteAddressEventsOlderThan;
  prune_aggregates := DeleteAggregatesOlderThan;
  prune_attribution_aggregates := DeleteAttributionAggregatesOlderThan;
|}.

Record Jobs := mkJobs { job_rollup : RollupJob; job_retention : RetentionJob }.

Section app_jobs.
Context `{LocalTime} (kinds : time → list AttributionKind).

Definition app_jobs : list (Job Jobs) := [
  (λ s, r ← try ExpiryJob_Run; mret (s, r));
  (λ s, out ← RollupJob_Run kinds (job_rollup s); mret (mkJobs out.1 (job_retention s), out.2));
  (λ s, out ← RetentionJob_Run (job_retention s); mret (mkJobs (job_rollup s) out.1, out.2)) ].

(** One tick of the application's scheduler. *)
Definition tick (s : Jobs) : M (Jobs * result unit) := ExecuteScheduledRules app_jobs s.
End app_jobs.

(** ** What the jobs keep *)

Section counted.
Context `{LocalTime}.

Lemma ExpiryJob_logs X : keeps (λ d, logs d = X) ExpiryJob_Run.
Proof. unfold_listeners. structural; apply keeps_exec; intros ? ? ? ? <- Hw; write_cases Hw; done. Qed.

Lemma ExpiryJob_now t : holds (λ w, w_now w = t) ExpiryJob_Run.
Proof. exact (app_op_now OpExpiryJob t). Qed.

Lemma RollupJob_now kinds j t : holds (λ w, w_now w = t) (RollupJob_Run kinds j).
Proof.
  pose proof (now_queue t) as HQ. assert (∀ cs j, holds (λ w, w_now w = t) (catch_up kinds cs j)) as Hc.
  { induction cs as [|[a b] cs IH]; intros j'; cbn [catch_up]; [world_structural HQ|].
    unfold RunRollup, RunAttributionRollup. world_structural HQ. }
  unfold RollupJob_Run, LastRollupAt, EarliestAccessLogAt. world_structural HQ.
Qed.

(** The aggregates retention may remove: those before their cutoff. *)
Definition only_pruned (j : RetentionJob) (t : time) (d d' : db) : Prop :=
  ∀ k, hourly_traffic (logs d') !! k = hourly_traffic (logs d) !! k ∨
    0 < aggregateRetentionDays j ∧ traffic_bucket k < AddDate t (- aggregateRetentionDays j).

Lemma prune_aggregated_only j t d : keeps (only_pruned j t d) (prune_aggregated (aggregateRetentionDays j) t).
Proof.
  unfold prune_aggregated. destruct (Z.ltb_spec 0 (aggregateRetentionDays j)); [|apply keeps_ret].
  cbn [prune_aggregates prune_attribution_aggregates app_pruners].
  apply keeps_bind; [|intros _; apply keeps_bind; [|intros _; apply keeps_ret]].
  - apply keeps_exec. intros t0 d0 x d' Hk [= _ <-] k.
    cbn [logs on_logs hourly_traffic on_hourly_traffic]. destruct (Z.le_gt_cases (AddDate t (- aggregateRetentionDays j)) (traffic_bucket k)) as [Hle|]; [|right; lia].
    destruct (Hk k) as [<-|?]; [left|by right]. apply option_eq. intros g. rewrite map_lookup_filter_Some. cbn. split; [by intros []|done].
  - apply keeps_exec. intros t0 d0 x d' Hd [= _ <-]. exact Hd.
Qed.

End counted.
