(* ===== verification/Counted.v ===== *)
(** * Counted: no log entry is pruned before it has been counted

    Whole runs of the scheduler, from an empty log: ticks in which anything
    may fail, batches stored by the sink, restarts, and work elsewhere, in
    any order and on any clock.  The state carries, beside the program's, two
    things the program does not keep: every entry ever stored, and the latest
    cut of the aggregates. *)

From S2P Require Import Prelude GoLib Netip Compare GroupBy Schema Store Timebucket PolicyCache PolicyService AccessLog Rollup RollupSpec RollupJobSpec.
From S2P Require Import Device DeviceInv Interfaces Rule Lease WorldInv App AppOps AuthSafety Scheduler.
From stdpp Require Import relations.

Local Open Scope Z_scope.
Local Open Scope list_scope.

(** ** What pruning leaves of the log *)

Lemma elem_of_sublist {A} (l l' : list A) x : l `sublist_of` l' → x ∈ l → x ∈ l'.
Proof. induction 1 as [|y l l' _ IH|y l l' _ IH]; [done|..]; rewrite ?elem_of_cons; tauto. Qed.

Lemma filter_sublist {A} (P : A → Prop) `{∀ x, Decision (P x)} l l' : l `sublist_of` l' → filter P l `sublist_of` filter P l'.
Proof.
  induction 1 as [|x l l' _ IH|x l l' _ IH]; [done|..]; rewrite ?filter_cons; repeat case_decide; (done || by constructor).
Qed.

Lemma scan_filter {V} (P : Z * V → Prop) `{∀ x, Decision (P x)} (m : gmap Z V) : scan (filter P m) = filter P (scan m).
Proof.
  apply (sorted_unique fst Z.compare); [apply scan_sorted|apply StronglySorted_filter, scan_sorted|].
  apply NoDup_Permutation.
  - eapply NoDup_fmap_1, NoDup_scan_fst.
  - apply NoDup_filter. eapply NoDup_fmap_1, NoDup_scan_fst.
  - intros [i x]. rewrite elem_of_scan, list_elem_of_filter, elem_of_scan, map_lookup_filter_Some. tauto.
Qed.

Lemma prune_log_entries t d :
  log_entries (on_logs (prune_logs t) d) = filter (λ r, t ≤ log_CreatedAt r.1) (log_entries d).
Proof.
  unfold log_entries. rewrite filter_fmap. cbn [logs on_logs access_log prune_logs]. rewrite scan_filter.
  apply list_fmap_ext. intros i [id r] Hi%list_elem_of_lookup_2. apply list_elem_of_filter in Hi as [Hle Hi%elem_of_scan].
  unfold with_geo. cbn [logs on_logs access_log_geoip prune_logs fst snd]. f_equal. cbn in Hle.
  apply option_eq. intros g. rewrite map_lookup_filter_Some. cbn. split; [by intros []|]. intros Hg. split; [done|]. exists r.
  by apply map_lookup_filter_Some.
Qed.

(** Some entries made before [cut], and some aggregates before [acut], are gone. *)
Record pruned (cut acut : option time) (d d' : db) : Prop := mkPruned {
  pr_sub : log_entries d' `sublist_of` log_entries d;
  pr_group : ∀ k, ¬ before cut (traffic_bucket k) → log_group k d' = log_group k d;
  pr_traffic : ∀ k, ¬ before acut (traffic_bucket k) → hourly_traffic (logs d') !! k = hourly_traffic (logs d) !! k;
  pr_less : hourly_traffic (logs d') ⊆ hourly_traffic (logs d);
}.

Lemma pruned_refl cut acut d : pruned cut acut d d.
Proof. by split. Qed.

Lemma pruned_same cut acut d d1 d2 :
  log_entries d2 = log_entries d1 → hourly_traffic (logs d2) = hourly_traffic (logs d1) → pruned cut acut d d1 → pruned cut acut d d2.
Proof. intros E1 E2 [H1 H2 H3 H4]. split; unfold log_group in *; [by rewrite E1|intros k; rewrite E1; auto|intros k; rewrite E2; auto|by rewrite E2]. Qed.

Section counted.
Context `{LocalTime} (kinds : time → list AttributionKind).

Definition raw_cut (j : RetentionJob) (t : time) : option time :=
  if 0 <? retentionDays j then Some (AddDate t (- retentionDays j)) else None.
Definition aggregate_cut (j : RetentionJob) (t : time) : option time :=
  if 0 <? aggregateRetentionDays j then Some (AddDate t (- aggregateRetentionDays j)) else None.

Lemma prune_raw_pruned j t acut d : keeps (pruned (raw_cut j t) acut d) (prune_raw (retentionDays j) t).
Proof.
  unfold prune_raw, raw_cut. destruct (Z.ltb_spec 0 (retentionDays j)); [|apply keeps_ret]. cbn [prune_access_log prune_address_events app_pruners].
  apply keeps_bind; [|intros _; apply keeps_bind; [|intros _; apply keeps_ret]].
  - apply keeps_exec. intros t0 d0 x d' [H1 H2 H3 H4] [= _ <-]. split; [| |exact H3|exact H4].
    + rewrite prune_log_entries. etrans; [apply sublist_filter|done].
    + intros k Hk. rewrite <-H2 by done. unfold log_group. rewrite prune_log_entries. unfold group. rewrite list_filter_filter.
      apply Compare.filter_ext_in. intros r _. split; [by intros []|]. intros <-. split; [done|]. cbn [before] in Hk. rewrite bucket_entry_key in Hk.
      pose proof (bucket_at_bounds (log_CreatedAt r.1)). lia.
  - apply keeps_exec. intros t0 d0 x d' Hd [= _ <-]. by apply (pruned_same _ _ _ d0).
Qed.

Lemma prune_aggregated_pruned j t cut d : keeps (pruned cut (aggregate_cut j t) d) (prune_aggregated (aggregateRetentionDays j) t).
Proof.
  unfold prune_aggregated, aggregate_cut. destruct (Z.ltb_spec 0 (aggregateRetentionDays j)); [|apply keeps_ret].
  cbn [prune_aggregates prune_attribution_aggregates app_pruners].
  apply keeps_bind; [|intros _; apply keeps_bind; [|intros _; apply keeps_ret]].
  - apply keeps_exec. intros t0 d0 x d' [H1 H2 H3 H4] [= _ <-]. split; [exact H1|exact H2| |].
    + intros k Hk. rewrite <-H3 by done. cbn [logs on_logs hourly_traffic on_hourly_traffic]. apply option_eq. intros g.
      rewrite map_lookup_filter_Some. cbn in *. split; [by intros []|]. intros Hg. split; [done|lia].
    + etrans; [|exact H4]. cbn [logs on_logs hourly_traffic on_hourly_traffic]. apply map_filter_subseteq.
  - apply keeps_exec. intros t0 d0 x d' Hd [= _ <-]. by apply (pruned_same _ _ _ d0).
Qed.

Lemma RetentionJob_Run_pruned j tx w :
  ∃ j' res w', RetentionJob_Run j tx w = (Ok (j', res), w') ∧ pruned (raw_cut j (w_now w)) (aggregate_cut j (w_now w)) (w_db w) (w_db w').
Proof.
  pose proof (pruned_refl (raw_cut j (w_now w)) (aggregate_cut j (w_now w)) (w_db w)) as H0.
  unfold RetentionJob_Run. destruct (_ && _); [by eexists j, _, w|]. rewrite bind_run, now_run. cbv zeta.
  destruct (bool_decide _); [by eexists j, _, w|].
  assert (keeps (pruned (raw_cut j (w_now w)) (aggregate_cut j (w_now w)) (w_db w))
    (_ ← prune_raw (retentionDays j) (w_now w); prune_aggregated (aggregateRetentionDays j) (w_now w))) as Hk.
  { apply keeps_bind; [apply prune_raw_pruned|intros _; apply prune_aggregated_pruned]. }
  specialize (Hk tx w H0). rewrite bind_run. unfold try. destruct ((prune_raw (retentionDays j) (w_now w) ≫= _ : M unit) tx w) as [[[]|e] w'];
    cbn in Hk; by eexists _, _, w'.
Qed.
(** ** Whole runs *)

(** Hour [t] has been rolled up: the job is past it, or an aggregate of it or
    of a later hour is stored (a chunk whose attribution failed). *)
Definition rolled_hour (o : option time) (d : db) (t : time) : Prop :=
  ¬ open_hour o t ∨ ∃ k g, hourly_traffic (logs d) !! k = Some g ∧ t ≤ traffic_bucket k.

(** The scheduler's jobs and the world; every entry ever stored; the latest
    cut of the aggregates. *)
Record counting := mkCounting { cn_jobs : Jobs; cn_world : world; cn_stored : list log_entry; cn_cut : option time }.

Definition cn_db (c : counting) : db := w_db (cn_world c).
Definition cn_last (c : counting) : option time := job_last (job_rollup (cn_jobs c)) (cn_db c).

Definition later_cut (o o' : option time) : option time :=
  match o, o' with Some a, Some b => Some (Z.max a b) | None, o | o, None => o end.

(** An event stored before its hour is rolled up, without empty texts. *)
Definition in_time (c : counting) (e : DecisionEvent) : Prop :=
  normalised (log_row e) ∧ ¬ rolled_hour (cn_last c) (cn_db c) (bucket_at (log_CreatedAt (log_row e))).

Inductive counting_step : counting → counting → Prop :=
  | ct_tick s w h c s' res w' :
      tick kinds s false w = (Ok (s', res), w') →
      counting_step (mkCounting s w h c) (mkCounting s' w' h (later_cut c (aggregate_cut (job_retention s) (w_now w))))
  | ct_store es s w h c :
      let w' := (BatchInsert es false w).2 in
      Forall (in_time (mkCounting s w h c)) es →
      counting_step (mkCounting s w h c) (mkCounting s w' (h ++ drop (length (log_entries (w_db w))) (log_entries (w_db w'))) c)
  | ct_restart days aggregateDays s w h c :
      counting_step (mkCounting s w h c) (mkCounting (mkJobs NewRollupJob (NewRetentionJob days aggregateDays)) w h c)
  | ct_elsewhere s w w' h c :
      log_entries (w_db w') = log_entries (w_db w) → hourly_traffic (logs (w_db w')) = hourly_traffic (logs (w_db w)) →
      counting_step (mkCounting s w h c) (mkCounting s w' h c).

(** The entries ever stored under a key. *)
Definition stored_group (k : TrafficKey) (c : counting) : list log_entry := group entry_key k (cn_stored c).

(** What every run keeps. *)
Record counted (c : counting) : Prop := mkCounted {
  co_norm : Forall (λ r, normalised r.1) (cn_stored c);
  co_sub : log_entries (cn_db c) `sublist_of` cn_stored c;
  co_hour : on_the_hour (cn_last c);
  co_aligned : ∀ k g, hourly_traffic (logs (cn_db c)) !! k = Some g → hour_aligned (traffic_bucket k);
  co_open : ∀ k, ¬ before (cn_cut c) (traffic_bucket k) → open_hour (cn_last c) (traffic_bucket k) → log_group k (cn_db c) = stored_group k c;
  co_exact : ∀ k, ¬ before (cn_cut c) (traffic_bucket k) → stored_group k c ≠ [] → rolled_hour (cn_last c) (cn_db c) (traffic_bucket k) →
    hourly_traffic (logs (cn_db c)) !! k = Some (aggregate (stored_group k c));
}.

Lemma before_later o o' t : before o t → before (later_cut o o') t.
Proof. destruct o, o'; cbn; lia. Qed.

Lemma before_later' o o' t : before o' t → before (later_cut o o') t.
Proof. destruct o, o'; cbn; lia. Qed.

Lemma counted_normalised c : counted c → normalised_log (cn_db c).
Proof.
  intros I id r Hr. pose proof (co_norm _ I) as Hn. rewrite Forall_forall in Hn. apply (Hn (with_geo (cn_db c) (id, r))).
  eapply elem_of_sublist; [exact (co_sub _ I)|]. unfold log_entries. by apply list_elem_of_fmap_2, elem_of_scan.
Qed.

(** Where the job stands depends on its own state and on the aggregates. *)
Lemma job_last_traffic j d d' : hourly_traffic (logs d') = hourly_traffic (logs d) → job_last j d' = job_last j d.
Proof. unfold job_last, last_bucket. by intros ->. Qed.

Lemma counted_elsewhere s w w' h c :
  log_entries (w_db w') = log_entries (w_db w) → hourly_traffic (logs (w_db w')) = hourly_traffic (logs (w_db w)) →
  counted (mkCounting s w h c) → counted (mkCounting s w' h c).
Proof.
  intros El Et [I1 I2 I3 I4 I5 I6]. pose proof (job_last_traffic (job_rollup s) _ _ Et) as Ej.
  unfold cn_last, cn_db, log_group, stored_group, rolled_hour in *. cbn in *. split; unfold cn_last, cn_db, log_group, stored_group, rolled_hour; cbn;
    rewrite ?Ej, ?El, ?Et; done.
Qed.

(** Only an hour of an aggregate, or one the job has passed, is behind a job
    that starts afresh. *)
Lemma last_bucket_Some d b :
  last_bucket d = Some b → (∃ k g, hourly_traffic (logs d) !! k = Some g ∧ traffic_bucket k = b) ∧
    ∀ k g, hourly_traffic (logs d) !! k = Some g → traffic_bucket k ≤ b.
Proof.
  intros [([k g] & -> & Hk%elem_of_map_to_list)%list_elem_of_fmap Hmax]%max_time_Some. split; [by exists k, g|].
  intros k' g' Hk'. apply Hmax. apply list_elem_of_fmap. exists (k', g'). split; [done|]. by apply elem_of_map_to_list.
Qed.

Lemma last_bucket_None d k g : last_bucket d = None → hourly_traffic (logs d) !! k = Some g → False.
Proof.
  unfold last_bucket, max_time. intros Hn Hk. apply elem_of_map_to_list in Hk. destruct (map_to_list _); [by apply elem_of_nil in Hk|done].
Qed.

Lemma aligned_next a b : hour_aligned a → hour_aligned b → a < b + Hour → a ≤ b.
Proof. intros [n ->] [m ->] Hlt. pose proof Hour_pos. assert (n < m + 1) by (apply (Z.mul_lt_mono_pos_r Hour); lia). nia. Qed.

Lemma aligned_after b : hour_aligned b → hour_aligned (b + Hour).
Proof. intros [n ->]. exists (n + 1). lia. Qed.

Lemma stored_group_aligned k c : stored_group k c ≠ [] → hour_aligned (traffic_bucket k).
Proof.
  destruct (stored_group k c) as [|r l] eqn:E; [done|]. intros _. assert (r ∈ stored_group k c) as Hr by (rewrite E; by left).
  apply elem_of_group in Hr as [<- _]. apply bucket_at_aligned.
Qed.

Lemma log_group_sub c k : counted c → log_group k (cn_db c) `sublist_of` stored_group k c.
Proof. intros I. apply filter_sublist, I. Qed.

Lemma counted_restart s days adays w h c :
  counted (mkCounting s w h c) → counted (mkCounting (mkJobs NewRollupJob (NewRetentionJob days adays)) w h c).
Proof.
  set (c0 := mkCounting s w h c). intros I. set (c1 := mkCounting _ w h c).
  assert (cn_last c1 = match last_bucket (w_db w) with Some b => Some (b + Hour) | None => None end) as Hl by done.
  assert (∀ k, ¬ before c (traffic_bucket k) → stored_group k c0 ≠ [] → ¬ open_hour (cn_last c1) (traffic_bucket k) →
    ∃ k' g, hourly_traffic (logs (w_db w)) !! k' = Some g ∧ traffic_bucket k ≤ traffic_bucket k') as Hbehind.
  { intros k _ Hg Ho. rewrite Hl in Ho. destruct (last_bucket (w_db w)) as [b|] eqn:Eb; [|by destruct Ho].
    apply last_bucket_Some in Eb as [(k' & g & Hk' & <-) _]. exists k', g. split; [done|]. cbn in Ho.
    apply aligned_next; [by eapply stored_group_aligned|by eapply (co_aligned _ I)|lia]. }
  split; [apply I|apply I| |apply I| |].
  - rewrite Hl. destruct (last_bucket (w_db w)) as [b|] eqn:Eb; [|done]. apply last_bucket_Some in Eb as [(k' & g & Hk' & <-) _].
    by eapply aligned_after, (co_aligned _ I).
  - intros k Hc Ho. change (log_group k (cn_db c0) = stored_group k c0).
    destruct (decide (open_hour (cn_last c0) (traffic_bucket k))) as [Ho'|Ho']; [by apply (co_open _ I)|].
    destruct (decide (stored_group k c0 = [])) as [Hg|Hg]; [pose proof (log_group_sub c0 k I) as Hs; rewrite Hg in Hs |- *; by apply sublist_nil_r in Hs|].
    exfalso. pose proof (co_exact _ I k Hc Hg (or_introl Ho')) as Hk. rewrite Hl in Ho. destruct (last_bucket (w_db w)) as [b|] eqn:Eb.
    + apply last_bucket_Some in Eb as [_ Hmax]. specialize (Hmax _ _ Hk). cbn in Ho. pose proof Hour_pos. lia.
    + by eapply last_bucket_None.
  - intros k Hc Hg [Ho|Hr]; apply (co_exact _ I k Hc Hg); right; [by apply Hbehind|done].
Qed.

Lemma counted_rolls s j' w w' h c u :
  let c0 := mkCounting s w h c in
  counted c0 → rolls (λ t, open_hour (cn_last c0) t ∧ before u t) (w_db w) (w_db w') →
  on_the_hour (job_last j' (w_db w')) → (∀ t, open_hour (job_last j' (w_db w')) t → open_hour (cn_last c0) t) →
  (∀ t, open_hour (cn_last c0) t → ¬ open_hour (job_last j' (w_db w')) t → before u t) →
  counted (mkCounting (mkJobs j' (job_retention s)) w' h c).
Proof.
  intros c0 I [Hs He Hr] Hh Hmono Hpass. set (c1 := mkCounting _ w' h c).
  assert (∀ k, log_group k (w_db w') = log_group k (w_db w)) as Hg by (intros k; unfold log_group; by rewrite (same_log_entries _ _ Hs)).
  assert (∀ k g, hourly_traffic (logs (w_db w')) !! k = Some g →
    (before u (traffic_bucket k) ∧ hour_aligned (traffic_bucket k)) ∨ hourly_traffic (logs (w_db w)) !! k = Some g) as Hnew.
  { intros k g Hk. destruct (decide ((open_hour (cn_last c0) (traffic_bucket k) ∧ before u (traffic_bucket k)) ∧ log_group k (w_db w) ≠ [])) as [[[_ ?] Hne]|Hn].
    - left. split; [done|]. by eapply log_group_aligned.
    - right. by rewrite <-Hr. }
  split; [apply I| |exact Hh| | |].
  - change (log_entries (w_db w') `sublist_of` h). rewrite (same_log_entries _ _ Hs). apply I.
  - intros k g Hk. destruct (Hnew k g Hk) as [[_ ?]|Hk']; [done|]. by eapply (co_aligned _ I).
  - intros k Hc Ho. change (log_group k (w_db w') = stored_group k c0). rewrite Hg. apply (co_open _ I); [done|]. by apply Hmono.
  - intros k Hc Hne Hro. change (hourly_traffic (logs (w_db w')) !! k = Some (aggregate (stored_group k c0))).
    destruct (decide (open_hour (cn_last c0) (traffic_bucket k))) as [Ho|Ho].
    + pose proof (co_open _ I k Hc Ho) as Eg. change (cn_db c0) with (w_db w) in Eg. destruct (decide (before u (traffic_bucket k))) as [Hb|Hb].
      { rewrite <-Eg. apply He; [done|]. by rewrite Eg. }
      rewrite Hr by tauto. apply (co_exact _ I k Hc Hne). right. destruct Hro as [Ho'|(k2 & g & Hk2 & Hle)]; [by destruct Hb; apply Hpass|].
      destruct (Hnew k2 g Hk2) as [[Hb2 _]|Hk2']; [|by exists k2, g]. destruct Hb. destruct u; cbn in *; [lia|done].
    + rewrite Hr by tauto. apply (co_exact _ I k Hc Hne). by left.
Qed.

(** Pruning after a run of the rollup that succeeded. *)
Lemma counted_pruned s w w' h c j' cut acut :
  let c0 := mkCounting s w h c in
  counted c0 → initialized (job_rollup s) = true → (∀ t, before cut t → ¬ open_hour (cn_last c0) t) →
  pruned cut acut (w_db w) (w_db w') →
  counted (mkCounting (mkJobs (job_rollup s) j') w' h (later_cut c acut)).
Proof.
  intros c0 I Hi Hcut [H1 H2 H3 H4]. set (c1 := mkCounting _ w' h _).
  assert (cn_last c1 = cn_last c0) as El by (unfold cn_last, job_last; cbn; by rewrite Hi).
  assert (∀ k, ¬ before (later_cut c acut) (traffic_bucket k) → ¬ before c (traffic_bucket k) ∧ ¬ before acut (traffic_bucket k)) as Hb.
  { intros k Hn. split; intros Hb; apply Hn; [by apply before_later|by apply before_later']. }
  split; [apply I| |rewrite El; apply I| | |].
  - change (log_entries (w_db w') `sublist_of` h). etrans; [exact H1|apply I].
  - intros k g Hk. eapply (co_aligned _ I), lookup_weaken; [exact Hk|exact H4].
  - intros k [Hc _]%Hb Ho. rewrite El in Ho. change (log_group k (w_db w') = stored_group k c0). rewrite H2; [by apply (co_open _ I)|].
    intros Hcu. by apply (Hcut (traffic_bucket k)).
  - intros k [Hc Ha]%Hb Hne Hr. change (hourly_traffic (logs (w_db w')) !! k = Some (aggregate (stored_group k c0))).
    rewrite H3 by done. apply (co_exact _ I k Hc Hne). destruct Hr as [Ho|(k2 & g & Hk2 & Hle)]; [left; by rewrite <-El|right].
    exists k2, g. split; [|done]. eapply lookup_weaken; [exact Hk2|exact H4].
Qed.

(** A time some days back is not in the hour of the clock. *)
Definition past_days : Prop := ∀ t n, 0 < n → AddDate t (- n) ≤ truncate Hour t.

(** A tick, whatever fails in it. *)
Lemma counted_tick s w h c :
  past_days → counted (mkCounting s w h c) →
  ∃ s' res w', tick kinds s false w = (Ok (s', res), w') ∧
    counted (mkCounting s' w' h (later_cut c (aggregate_cut (job_retention s) (w_now w)))).
Proof.
  intros Hpast I. unfold tick, app_jobs. cbn [ExecuteScheduledRules]. rewrite bind_run, bind_run. unfold try at 1.
  pose proof (ExpiryJob_logs _ false w eq_refl) as Hl1. pose proof (ExpiryJob_now _ false w eq_refl) as Hn1.
  destruct (ExpiryJob_Run false w) as [r1 w1]. rewrite ret_run. cbn [fst snd] in *.
  assert (∀ s' w', counted (mkCounting s' w' h c) → counted (mkCounting s' w' h (later_cut c (aggregate_cut (job_retention s) (w_now w))))) as Hlater.
  { intros s' w' [J1 J2 J3 J4 J5 J6]. split; [done..| |]; intros k Hb; [apply J5|apply J6]; intros Hc; by apply Hb, before_later. }
  assert (counted (mkCounting s w1 h c)) as I1.
  { apply (counted_elsewhere s w); [|by rewrite Hl1|done]. unfold log_entries, with_geo. by rewrite Hl1. }
  destruct r1 as [[]|e]; [|eexists _, _, w1; split; [reflexivity|by apply Hlater]].
  rewrite bind_run, bind_run.
  destruct (RollupJob_Run_ok kinds (job_rollup s) false w1 (counted_normalised _ I1) (co_hour _ I1))
    as (j' & res & u & w2 & E2 & Hr & _ & (Hh & Hmono & Hpass & Hres) & _).
  pose proof (RollupJob_now kinds (job_rollup s) _ false w1 eq_refl) as Hn2. rewrite E2 in *. rewrite ret_run. cbn [fst snd] in *.
  pose proof (counted_rolls s j' w1 w2 h c u I1 Hr Hh Hmono Hpass) as I2.
  destruct res as [[]|e]; [|eexists _, _, w2; split; [reflexivity|by apply Hlater]].
  rewrite bind_run, bind_run. destruct (RetentionJob_Run_pruned (job_retention s) false w2) as (j3 & res3 & w3 & E3 & Hp).
  cbn [job_retention]. rewrite E3, ret_run. cbn [fst snd]. exists (mkJobs j' j3), res3, w3. split; [by destruct res3 as [[]|]|].
  destruct (Hres eq_refl) as [Hi Hall]. rewrite Hn2, Hn1 in Hp.
  refine (counted_pruned (mkJobs j' (job_retention s)) w2 w3 h c j3 _ _ I2 Hi _ Hp).
  intros t Hb. apply Hall. rewrite Hn1. unfold raw_cut in Hb. destruct (Z.ltb_spec 0 (retentionDays (job_retention s))) as [Hd|]; [|done].
  cbn in Hb. pose proof (Hpast (w_now w) _ Hd). lia.
Qed.

Lemma counted_store es s w h c :
  let w' := (BatchInsert es false w).2 in
  counted (mkCounting s w h c) → Forall (in_time (mkCounting s w h c)) es →
  counted (mkCounting s w' (h ++ drop (length (log_entries (w_db w))) (log_entries (w_db w'))) c).
Proof.
  intros w' I Hes. destruct (BatchInsert_appends es w) as (rs & El & Hrs & Et). fold w' in El, Et. rewrite El, drop_app_length.
  set (c0 := mkCounting s w h c). set (c1 := mkCounting s w' (h ++ rs) c).
  assert (cn_last c1 = cn_last c0) as Ej by (by apply job_last_traffic).
  assert (∀ r, r ∈ rs → normalised r.1 ∧ ¬ rolled_hour (cn_last c0) (w_db w) (traffic_bucket (entry_key r))) as Hr.
  { intros r Hin. destruct (proj1 (Forall_forall _ _) Hrs r Hin) as (e & He & Er). rewrite bucket_entry_key, Er. exact (proj1 (Forall_forall _ _) Hes e He). }
  assert (∀ k, stored_group k c1 = stored_group k c0 ++ group entry_key k rs) as Hg by (intros k; apply filter_app).
  split; [| |rewrite Ej; apply I|intros k g; change (cn_db c1) with (w_db w'); rewrite Et; apply (co_aligned _ I)| |].
  - apply Forall_app. split; [apply I|]. apply Forall_forall. intros r Hin. by apply Hr.
  - change (log_entries (w_db w') `sublist_of` h ++ rs). rewrite El. apply sublist_app; [apply I|done].
  - intros k Hc Ho. rewrite Ej in Ho. rewrite Hg. unfold log_group. change (cn_db c1) with (w_db w'). rewrite El. unfold group at 1. rewrite filter_app.
    f_equal. by apply (co_open _ I).
  - intros k Hc Hne Hro. change (cn_db c1) with (w_db w') in *. rewrite Et. rewrite Ej in Hro.
    assert (rolled_hour (cn_last c0) (w_db w) (traffic_bucket k)) as Hro' by (unfold rolled_hour in *; by rewrite Et in Hro).
    assert (group entry_key k rs = []) as En.
    { destruct (group entry_key k rs) as [|r l] eqn:E; [done|]. exfalso. assert (r ∈ group entry_key k rs) as Hin by (rewrite E; by left).
      apply elem_of_group in Hin as [<- Hin]. by apply (Hr r Hin). }
    rewrite Hg, En, app_nil_r in *. by apply (co_exact _ I).
Qed.

Lemma counting_counted c c' : past_days → counted c → rtc counting_step c c' → counted c'.
Proof.
  intros Hpast I. induction 1 as [|c1 c2 c3 Hs _ IH]; [done|]. apply IH. clear IH. destruct Hs as [s w h c s' res w' E|es s w h c w' Hes|d a s w h c|s w w' h c El Et].
  - destruct (counted_tick s w h c Hpast I) as (s1 & res1 & w1 & E1 & I1). rewrite E in E1. by injection E1 as <- _ <-.
  - by apply counted_store.
  - by apply (counted_restart s).
  - by apply (counted_elsewhere s w).
Qed.

(** A new installation: nothing logged, nothing aggregated. *)
Definition installed (c : counting) : Prop :=
  log_entries (cn_db c) = [] ∧ hourly_traffic (logs (cn_db c)) = ∅ ∧ job_rollup (cn_jobs c) = NewRollupJob ∧ cn_stored c = [].

Lemma installed_counted c : installed c → counted c.
Proof.
  intros (E1 & E2 & E3 & E4). split.
  - by rewrite E4.
  - by rewrite E1, E4.
  - unfold cn_last. rewrite E3. unfold job_last, last_bucket. by rewrite E2.
  - intros k g. rewrite E2. by rewrite lookup_empty.
  - intros k _ _. unfold log_group, stored_group. by rewrite E1, E4.
  - intros k _ Hne. unfold stored_group in Hne. by rewrite E4 in Hne.
Qed.

(** C14: no entry that was stored in time is pruned before it has been
    counted.  From an empty log, let the scheduler tick, the sink store
    batches, the program restart (with any retention settings) and do other
    work, in any order, on any clock, with any statement failing in them;
    stored in time means before the hour of the event is rolled up, and
    without empty texts (the handler's events have none); a time some days
    back is taken not to lie in the clock's hour.  Then every tick ends; and
    as far as the aggregates have not themselves been pruned, an entry that
    was ever stored and is not in the log any more is counted: the aggregate
    of its key is that of all the entries ever stored under it, each once;
    and so it is for every key of an hour that has been rolled up, whatever
    was pruned since. *)
Theorem pruned_after_counted c0 c :
  past_days → installed c0 → rtc counting_step c0 c →
  (∃ s' res w', tick kinds (cn_jobs c) false (cn_world c) = (Ok (s', res), w')) ∧
  (∀ r, r ∈ cn_stored c → r ∉ log_entries (cn_db c) → ¬ before (cn_cut c) (traffic_bucket (entry_key r)) →
     hourly_traffic (logs (cn_db c)) !! entry_key r = Some (aggregate (stored_group (entry_key r) c))) ∧
  (∀ k, stored_group k c ≠ [] → rolled_hour (cn_last c) (cn_db c) (traffic_bucket k) → ¬ before (cn_cut c) (traffic_bucket k) →
     hourly_traffic (logs (cn_db c)) !! k = Some (aggregate (stored_group k c))).
Proof.
  intros Hpast H0 Hrun. pose proof (counting_counted c0 c Hpast (installed_counted _ H0) Hrun) as I. split; [|split].
  - destruct c as [s w h cut]. destruct (counted_tick s w h cut Hpast I) as (s' & res & w' & E & _). eauto.
  - intros r Hr Hgone Hcut. assert (r ∈ stored_group (entry_key r) c) as Hin by (by apply elem_of_group).
    apply (co_exact _ I); [done|by intros E; rewrite E in Hin; apply elem_of_nil in Hin|]. left. intros Ho. apply Hgone.
    pose proof (co_open _ I _ Hcut Ho) as Eg. rewrite <-Eg in Hin. by apply elem_of_group in Hin as [_ ?].
  - intros k Hne Hro Hcut. by apply (co_exact _ I).
Qed.
End counted.

(** ** Two events, ten days later *)
Module CountedDemo.
Import RollupDemo.

(** A clock in UTC. *)
#[local] Instance utc : LocalTime := {| AddDate t n := t + n * Day |}.

Lemma utc_past : past_days.
Proof.
  intros t n Hn. cbn. unfold truncate. pose proof (Z.mod_pos_bound t Hour ltac:(done)). pose proof (Z.div_mod t Hour ltac:(done)).
  assert (Hour ≤ Day) by done. assert (1 * Day ≤ n * Day) by (apply Z.mul_le_mono_nonneg_r; [done|lia]). lia.
Qed.

Definition events : list DecisionEvent := [event (Hour + 5 * Minute); event (Hour + 50 * Minute)].
Definition jobs0 : Jobs := mkJobs NewRollupJob (NewRetentionJob 1 0).
Definition w_new : world := world_of empty_db (Hour + 51 * Minute) [].
Definition w_stored : world := (BatchInsert events false w_new).2.
Definition w_later : world := world_of (w_db w_stored) (10 * Day) [].
Definition ticked : result (Jobs * result unit) * world := tick kinds jobs0 false w_later.
Definition h : list (AccessLogRow * option GeoRow) := drop 0 (log_entries (w_db w_stored)).
Definition c_new : counting := mkCounting jobs0 w_new [] None.
Definition c_ticked : counting := mkCounting (match ticked.1 with Ok (s, _) => s | Err _ => jobs0 end) ticked.2 h None.

Lemma run : rtc (counting_step kinds) c_new c_ticked.
Proof.
  eapply rtc_l; [apply (ct_store kinds events jobs0 w_new [] None)|].
  { assert (∀ t, in_time c_new (event t)) as Ht; [|by repeat apply Forall_cons_2; [apply Ht..|apply Forall_nil_2]].
    intros t. split; [split; discriminate|]. intros [Ho|(k & g & Hk & _)]; [by apply Ho|]. discriminate Hk. }
  eapply rtc_l; [apply (ct_elsewhere kinds jobs0 w_stored w_later); reflexivity|].
  eapply rtc_l; [|apply rtc_refl]. apply (ct_tick kinds jobs0 w_later h None _ (Ok tt)). fold ticked.
  assert (ticked.1 = Ok (match ticked.1 with Ok (s, _) => s | Err _ => jobs0 end, Ok tt)) as E by (vm_compute; reflexivity).
  destruct ticked as [r w']. cbn [fst] in E |- *. by rewrite E at 1.
Qed.

(** The tick has rolled both up and pruned them. *)
Example pruned_after_counted_witness :
  rows (access_log (logs (w_db ticked.2))) = [] ∧
  agg_RequestCount <$> hourly_traffic (logs (w_db ticked.2)) !! entry_key (log_row (event (Hour + 5 * Minute)), None) = Some 2.
Proof.
  split; [vm_compute; reflexivity|].
  destruct (pruned_after_counted kinds c_new c_ticked utc_past) as (_ & Hc & _); [done|exact run|].
  change (w_db ticked.2) with (cn_db c_ticked). rewrite (Hc (log_row (event (Hour + 5 * Minute)), None)).
  - vm_compute. reflexivity.
  - vm_compute. left.
  - intros Hin. assert (log_entries (cn_db c_ticked) = []) as E by (vm_compute; reflexivity). rewrite E in Hin. by apply elem_of_nil in Hin.
  - intros [].
Defined.
End CountedDemo.
