(* ===== verification/Config.v ===== *)
(** * Config: the configuration ([internal/config])

    [Load] reads the environment, checks the values and that the data
    directories can be written to.  The library that fills the record from
    the environment ([caarlos0/env]) and the operating system's files are
    parameters. *)

From S2P Require Import Prelude GoLib Netip NetipText.

Local Open Scope string_scope.
Local Open Scope Z_scope.

(** ** Data *)

Record ConfServer := mkConfServer { AdminPassword : string; Port : Z; TrustedProxy : Addr; TZ : string }.
Record ConfDB := mkConfDB { DB_DataDir : string; Dsn : string }.
Record ConfPolicy := mkConfPolicy { APISecret : string }.
Record ConfRules := mkConfRules { CheckInterval : Z; DataRetentionDays : Z; AggregateRetentionDays : Z }.
Record ConfGeoIP := mkConfGeoIP { GeoIP_Enabled : bool; GeoIP_DataDir : string }.

Record Conf := mkConf {
  Conf_Server : ConfServer;
  Conf_DB : ConfDB;
  Conf_Rules : ConfRules;
  Conf_Policy : ConfPolicy;
  Conf_GeoIP : ConfGeoIP;
  LogLevel : string;
  LogFormat : string;
  LogColor : bool;
}.

(** The ways [Load] fails, in the order of its checks. *)
Inductive DirError := DirStat | DirCreate | DirNotADirectory | DirNotWritable.
Inductive ConfError :=
  | ConfParse
  | ConfInvalidPort (port : Z)
  | ConfCheckInterval (interval : Z)
  | ConfRetention (aggregateDays days : Z)
  | ConfSecretTooShort (length : Z)
  | ConfDBDir (e : DirError)
  | ConfGeoIPDir (e : DirError).

(** ** Addresses *)

(** [parseIPAddressFunc]: no proxy, or its address unmapped. *)
Definition parseIPAddressFunc (rawIP : string) : option Addr :=
  if bool_decide (rawIP = "") then Some AddrZero else Unmap <$> ParseAddr rawIP.

(** ** Directories *)

Inductive FileInfo := StatDir | StatOther | StatNotExist | StatError.

(** The operating system's files: [None] and [false] stand for an error. *)
Class FileSystem := {
  FS : Type;
  Stat : FS → string → FileInfo;
  MkdirAll : FS → string → bool * FS;
  CreateTemp : FS → string → option string * FS;
  Remove : FS → string → FS;
}.

(** What the program relies on of them: nothing it does loses a directory. *)
Class FileSystemLaws `{FileSystem} : Prop := {
  MkdirAll_dir fs dir fs' : MkdirAll fs dir = (true, fs') → Stat fs' dir = StatDir;
  MkdirAll_keeps fs dir p : Stat fs p = StatDir → Stat (MkdirAll fs dir).2 p = StatDir;
  CreateTemp_file fs dir f fs' : CreateTemp fs dir = (Some f, fs') → Stat fs' f = StatOther;
  CreateTemp_keeps fs dir p : Stat fs p = StatDir → Stat (CreateTemp fs dir).2 p = StatDir;
  Remove_keeps fs f p : Stat fs f = StatOther → Stat fs p = StatDir → Stat (Remove fs f) p = StatDir;
}.

Section load.
Context `{FileSystem}.

(** The temporary file is removed again. *)
Definition check_writable (dir : string) (fs : FS) : option DirError * FS :=
  match CreateTemp fs dir with
  | (None, fs) => (Some DirNotWritable, fs)
  | (Some f, fs) => (None, Remove fs f)
  end.

(** [ensureWritableDir]: [None] for [nil]. *)
Definition ensureWritableDir (dir : string) (fs : FS) : option DirError * FS :=
  match Stat fs dir with
  | StatError => (Some DirStat, fs)
  | StatOther => (Some DirNotADirectory, fs)
  | StatDir => check_writable dir fs
  | StatNotExist =>
      match MkdirAll fs dir with
      | (false, fs) => (Some DirCreate, fs)
      | (true, fs) => check_writable dir fs
      end
  end.

(** The checks of the values: what is wrong with the first that fails. *)
Definition check_values (c : Conf) : option ConfError :=
  let port := Port (Conf_Server c) in
  let rules := Conf_Rules c in
  let secret := Z.of_nat (String.length (APISecret (Conf_Policy c))) in
  if (port <? 1) || (65535 <? port) then Some (ConfInvalidPort port)
  else if CheckInterval rules <=? 0 then Some (ConfCheckInterval (CheckInterval rules))
  else if negb (AggregateRetentionDays rules =? 0) &&
          ((DataRetentionDays rules =? 0) || (AggregateRetentionDays rules <? DataRetentionDays rules))
  then Some (ConfRetention (AggregateRetentionDays rules) (DataRetentionDays rules))
  else if secret <? 16 then Some (ConfSecretTooShort secret)
  else None.

(** The checks of the directories; the one of the GeoIP files is only looked
    at when the lookups are enabled. *)
Definition check_dirs (c : Conf) (fs : FS) : option ConfError * FS :=
  match ensureWritableDir (DB_DataDir (Conf_DB c)) fs with
  | (Some e, fs) => (Some (ConfDBDir e), fs)
  | (None, fs) =>
      if GeoIP_Enabled (Conf_GeoIP c) then
        match ensureWritableDir (GeoIP_DataDir (Conf_GeoIP c)) fs with
        | (Some e, fs) => (Some (ConfGeoIPDir e), fs)
        | (None, fs) => (None, fs)
        end
      else (None, fs)
  end.

(** [Load]: [parse] is the environment parser, given the function for
    addresses. *)
Definition Load (parse : (string → option Addr) → option Conf) (fs : FS) : (ConfError + Conf) * FS :=
  match parse parseIPAddressFunc with
  | None => (inl ConfParse, fs)
  | Some c =>
      match check_values c with
      | Some e => (inl e, fs)
      | None =>
          match check_dirs c fs with
          | (Some e, fs) => (inl e, fs)
          | (None, fs) => (inr c, fs)
          end
      end
  end.
End load.

(** ** What an accepted configuration promises *)

(** The address of the proxy comes from the function for addresses, or is
    left at its zero value. *)
Definition parses_proxy (parse : (string → option Addr) → option Conf) : Prop :=
  ∀ f c, parse f = Some c → TrustedProxy (Conf_Server c) = AddrZero ∨ ∃ raw, f raw = Some (TrustedProxy (Conf_Server c)).

Record accepted (c : Conf) : Prop := mkAccepted {
  ac_port : 1 ≤ Port (Conf_Server c) ≤ 65535;
  ac_interval : 0 < CheckInterval (Conf_Rules c);
  ac_retention : AggregateRetentionDays (Conf_Rules c) = 0 ∨
    DataRetentionDays (Conf_Rules c) ≠ 0 ∧ DataRetentionDays (Conf_Rules c) ≤ AggregateRetentionDays (Conf_Rules c);
  ac_secret : 16 ≤ Z.of_nat (String.length (APISecret (Conf_Policy c)));
}.

Lemma check_values_None c : check_values c = None ↔ accepted c.
Proof.
  unfold check_values. set (p := Port _). set (i := CheckInterval _). set (s := Z.of_nat _). set (a := AggregateRetentionDays _). set (d := DataRetentionDays _).
  destruct (Z.ltb_spec p 1), (Z.ltb_spec 65535 p), (Z.leb_spec i 0), (Z.eqb_spec a 0), (Z.eqb_spec d 0), (Z.ltb_spec a d), (Z.ltb_spec s 16); cbn;
    (split; [intros [=]|intros [? ? ? ?]]; try done; try (exfalso; lia); constructor; lia).
Qed.

Lemma parseIPAddressFunc_canonical raw a : parseIPAddressFunc raw = Some a → Unmap a = a ∧ Addr_wf a = true.
Proof.
  unfold parseIPAddressFunc. case_bool_decide; [by intros [= <-]|]. destruct (ParseAddr raw) as [b|] eqn:E; [|done].
  intros [= <-]. apply ParseAddr_wf in E as [Hw _]. split; [apply Unmap_idemp|by apply Unmap_wf].
Qed.

Section laws.
Context `{FileSystemLaws}.

Lemma check_writable_keeps dir fs r fs' p : check_writable dir fs = (r, fs') → Stat fs p = StatDir → Stat fs' p = StatDir.
Proof.
  unfold check_writable. intros E Hp. pose proof (CreateTemp_keeps fs dir p Hp) as Hk. destruct (CreateTemp fs dir) as [[f|] fs1] eqn:Ec; cbn in Hk.
  - injection E as _ <-. apply Remove_keeps; [by eapply CreateTemp_file|done].
  - by injection E as _ <-.
Qed.

Lemma ensureWritableDir_keeps dir fs r fs' p : ensureWritableDir dir fs = (r, fs') → Stat fs p = StatDir → Stat fs' p = StatDir.
Proof.
  unfold ensureWritableDir. intros E Hp. destruct (Stat fs dir); try (by injection E as _ <-); [by eapply check_writable_keeps|].
  pose proof (MkdirAll_keeps fs dir p Hp) as Hk. destruct (MkdirAll fs dir) as [[] fs1]; cbn in Hk; [by eapply check_writable_keeps|by injection E as _ <-].
Qed.

Lemma ensureWritableDir_None dir fs fs' : ensureWritableDir dir fs = (None, fs') → Stat fs' dir = StatDir.
Proof.
  unfold ensureWritableDir. destruct (Stat fs dir) eqn:Ed; try done; [intros E; by eapply check_writable_keeps|].
  destruct (MkdirAll fs dir) as [[] fs1] eqn:Em; [|done]. intros E. eapply check_writable_keeps; [done|by eapply MkdirAll_dir].
Qed.

Lemma check_dirs_None c fs fs' : check_dirs c fs = (None, fs') →
  Stat fs' (DB_DataDir (Conf_DB c)) = StatDir ∧ (GeoIP_Enabled (Conf_GeoIP c) = true → Stat fs' (GeoIP_DataDir (Conf_GeoIP c)) = StatDir).
Proof.
  unfold check_dirs. destruct (ensureWritableDir (DB_DataDir _) fs) as [[e|] fs1] eqn:E1; [done|]. apply ensureWritableDir_None in E1.
  destruct (GeoIP_Enabled _); [|by intros [= <-]]. destruct (ensureWritableDir (GeoIP_DataDir _) fs1) as [[e|] fs2] eqn:E2; [done|].
  intros [= <-]. split; [by eapply ensureWritableDir_keeps|intros _; by eapply ensureWritableDir_None].
Qed.

(** A configuration that [Load] returns has a port, an interval and
    retention periods in range and a secret of at least 16 bytes; its data
    directories exist; the proxy is in the one spelling the rest of the
    program compares. *)
Lemma Load_accepted parse fs c fs' :
  parses_proxy parse → Load parse fs = (inr c, fs') →
  accepted c ∧ Unmap (TrustedProxy (Conf_Server c)) = TrustedProxy (Conf_Server c) ∧ Stat fs' (DB_DataDir (Conf_DB c)) = StatDir ∧
  (GeoIP_Enabled (Conf_GeoIP c) = true → Stat fs' (GeoIP_DataDir (Conf_GeoIP c)) = StatDir).
Proof.
  intros Hp. unfold Load. destruct (parse _) as [c0|] eqn:Ep; [|done]. destruct (check_values c0) as [e|] eqn:Ev; [done|].
  destruct (check_dirs c0 fs) as [[e|] fs1] eqn:Ed; [done|]. intros [= <- <-]. split; [by apply check_values_None|].
  split; [|by eapply check_dirs_None]. destruct (Hp _ _ Ep) as [->|(raw & Hraw)]; [done|]. by apply parseIPAddressFunc_canonical in Hraw as [? _].
Qed.

(** Nothing is looked at on disk before the values have been accepted. *)
Lemma Load_rejects parse fs c e : parse parseIPAddressFunc = Some c → check_values c = Some e → Load parse fs = (inl e, fs).
Proof. unfold Load. by intros -> ->. Qed.
End laws.
