(* ===== verification/Startup.v ===== *)
(** * Startup: from the configuration to a running program ([internal/app])

    [New] loads the configuration and builds the services; before the first
    request is served it runs the scheduled jobs once, makes sure there is an
    administrator and fills the policy cache.  A program that has started
    lets no one in on a lease that had run out. *)

From S2P Require Import Prelude GoLib Netip NetipText Schema Store Slicex HostNames Http PolicyCache Crypto PolicyService PolicySpec.
From S2P Require Import Timebucket AccessLog Rollup RollupSpec RollupJobSpec Device DeviceInv Interfaces Lease LeaseSpec Hosts NetworkPolicies.
From S2P Require Import NetworkPoliciesSpec UserAccess Auth AuthInv WorldInv App AppOps Freshness TablesInv AppSpec AuthSafety Scheduler Config.

Local Open Scope string_scope.
Local Open Scope Z_scope.

(** ** Construction (app.go) *)

Record App := mkApp {
  App_Config : Conf;
  App_PolicyService : Service;
  App_Jobs : Jobs;
  App_Geoip : Lookup;
}.

Section startup.
Context `{GoUnicode} `{Bcrypt} `{LocalTime} (kinds : time → list AttributionKind).
(** Opening the GeoIP databases by their paths. *)
Context (openCountry : string → option (Addr → option CountryRecord)) (openASN : string → option (Addr → option ASNRecord)).

(** The retention job is given the configured days. *)
Definition initial_jobs (c : Conf) : Jobs :=
  mkJobs NewRollupJob (NewRetentionJob (DataRetentionDays (Conf_Rules c)) (AggregateRetentionDays (Conf_Rules c))).

(** The lookup service: it is no error when its files cannot be fetched
    ([synced]), but it is one when they cannot be opened. *)
Definition new_geoip (synced : bool) (c : ConfGeoIP) : result Lookup :=
  match Geoip.New openCountry openASN (GeoIP_Enabled c) synced (GeoIP_DataDir c) with Some l => Ok l | None => Err ErrGeoIPOpen end.

(** [NewWithConfigAndLogger], on a database that is open and migrated.  A
    cache that cannot be filled is left empty. *)
Definition NewWithConfig (ms : Z) (synced : bool) (c : Conf) : M App :=
  geoipLookup ← of_result (new_geoip synced (Conf_GeoIP c));
  policyService ← of_result (NewService (APISecret (Conf_Policy c)) (TrustedProxy (Conf_Server c)));
  out ← tick kinds (initial_jobs c);
  _ ← of_result out.2;
  _ ← BootstrapAdmin (AdminPassword (Conf_Server c));
  policyService ← catch (refreshCache app_providers ms policyService) (λ _, mret policyService);
  mret (mkApp c policyService out.1 geoipLookup).

(** [New]. *)
Definition New `{FileSystem} (parse : (string → option Addr) → option Conf) (ms : Z) (synced : bool) (fs : FS) : M (ConfError + App) * FS :=
  match Load parse fs with
  | (inl e, fs) => (mret (inl e), fs)
  | (inr c, fs) => (inr <$> NewWithConfig ms synced c, fs)
  end.

(** One tick of [RunSchedule]: the error is dropped. *)
Definition RunSchedule_tick (a : App) : M App :=
  out ← tick kinds (App_Jobs a); mret (mkApp (App_Config a) (App_PolicyService a) out.1 (App_Geoip a)).

(** ** What the start leaves alone *)

(** Everything an access decision is made from but the users' own rows. *)
Definition core (d : db) :=
  (devices d, addresses d, leases d, api_keys d, (policies d, policy_seq d, policy_groups d, group_members d, hosts d)).

Lemma RollupJob_core X j : keeps (λ d, (core d, users d) = X) (RollupJob_Run kinds j).
Proof.
  assert (∀ cs j, keeps (λ d, (core d, users d) = X) (catch_up kinds cs j)) as Hc.
  { induction cs as [|[a b] cs IH]; intros j'; cbn [catch_up]; [structural|]. unfold RunRollup, RunAttributionRollup.
    structural; apply keeps_exec; intros ? ? ? ? <- Hw; write_cases Hw; done. }
  unfold RollupJob_Run, LastRollupAt, EarliestAccessLogAt. structural.
Qed.

Lemma RetentionJob_core X j : keeps (λ d, (core d, users d) = X) (RetentionJob_Run j).
Proof.
  unfold RetentionJob_Run, prune_raw, prune_aggregated.
  cbn [prune_access_log prune_address_events prune_aggregates prune_attribution_aggregates app_pruners].
  unfold DeleteOlderThan, DeleteAddressEventsOlderThan, DeleteAggregatesOlderThan, DeleteAttributionAggregatesOlderThan.
  structural; apply keeps_exec; intros ? ? ? ? <- Hw; write_cases Hw; done.
Qed.

Lemma user_created_core X e : UserEvent_Type e = EventTypeUserCreated → keeps (λ d, core d = X) (notifyUserObservers e).
Proof.
  intros He. unfold notifyUserObservers, useraccess_OnUserEvent, device_OnUserEvent. cbn [user_observers app_user_observers for_each].
  unfold useraccess_OnUserEvent, device_OnUserEvent, EnsureUserSettings. rewrite He.
  structural; apply keeps_exec; intros ? ? ? ? <- Hw; write_cases Hw; done.
Qed.

Lemma BootstrapAdmin_core X pw : keeps (λ d, core d = X) (BootstrapAdmin pw).
Proof.
  pose proof user_created_core X as Hu.
  unfold BootstrapAdmin, FindBootstrappedAdmin, NewBootstrappedAdmin, hashPassword, createUser, CreateUser_row.
  structural; try (by apply Hu); apply keeps_exec; intros ? ? ? ? <- Hw; write_cases Hw; done.
Qed.

Lemma keeps_refresh_db ms s d : keeps (λ d', d' = d) (refreshCache app_providers ms s).
Proof.
  unfold refreshCache, app_providers. cbn [ipProvider hostProvider networkPoliciesProvider optional].
  unfold GetEnabledIPEntries, GetAllUserHostAccess, GetAllUserHostSettings, GetAllUserHostGrants, GetEnabledCacheEntries. structural.
Qed.

(** ** The jobs *)

(** No address that is let in has a lease that has run out by [t]. *)
Definition none_expired (t : time) (d : db) : Prop :=
  ∀ i a, addresses d !! i = Some a → Address_IsEnabled a = true → has_expired t d i = false.

(** Whatever statement may fail: a run of the expiry job that returns no
    error has disabled every expired address. *)
Lemma ExpiryJob_Ok w w' :
  lease_inv (w_db w) → ExpiryJob_Run false w = (Ok tt, w') →
  address_write (w_db w) (w_db w') ∧ none_expired (w_now w) (w_db w').
Proof.
  intros I Hr. unfold ExpiryJob_Run, GetExpiredAddressIDs in Hr. apply bind_Ok in Hr as (ids & w1 & Hq & Hr).
  apply query_Ok in Hq as (E1 & En & _ & ->). pose proof (λ i, expired_ids_has (w_now w) (w_db w) i I) as Hin.
  assert (∃ w2, address_write (w_db w) (w_db w2) ∧ w_db w' = w_db w2 ∧ ∀ i, addresses (w_db w2) !! i =
    if decide (i ∈ expired_ids (w_now w) (w_db w)) then with_state false EventSourceExpiry (w_now w) <$> addresses (w_db w) !! i else addresses (w_db w) !! i)
    as (w2 & Hw & -> & Hl).
  { destruct (expired_ids _ _) as [|x ids].
    - injection Hr as <-. exists w1. rewrite E1. split; [apply address_write_refl|]. split; [done|]. intros i. by rewrite decide_False by apply not_elem_of_nil.
    - cbn [Disable device_service_disabler] in Hr. unfold DisableAddresses in Hr. apply bind_Ok in Hr as (l & w2 & Hd & Hr).
      cbn [DisableAddresses_rows] in Hd. apply tx_Ok in Hd as (w3 & w4 & E3 & En3 & Hd & E4).
      pose proof (DisableAddresses_rows_Ok (x :: ids) EventSourceExpiry EventTriggerSystem w3 l w4 Hd) as (Hw & _ & Hl & _).
      rewrite E3, E1, En3, En in *. exists w2. rewrite E4. split; [done|]. split; [|done].
      assert (keeps (λ d, d = w_db w2) (for_each l (λ a, notifyAddress a EventTypeAddressDisabled))) as Hk.
      { unfold notifyAddress, notifyObservers. structural. }
      specialize (Hk false w2 eq_refl). rewrite Hr in Hk. rewrite <-E4. exact Hk. }
  split; [exact Hw|]. intros i a Ha He. rewrite Hl in Ha. destruct (has_expired (w_now w) (w_db w2) i) eqn:Hx; [|done]. exfalso.
  assert (leases (w_db w2) = leases (w_db w)) as El by (by destruct Hw as (f & g & ->)).
  unfold has_expired in Hx. rewrite El in Hx. rewrite decide_True in Ha by (by apply Hin).
  apply fmap_Some in Ha as (b & _ & ->). done.
Qed.

Lemma ExpiryJob_device_inv : keeps device_inv ExpiryJob_Run.
Proof. unfold ExpiryJob_Run, GetExpiredAddressIDs. cbn [Disable device_service_disabler]. pose proof keeps_DisableAddresses. structural. Qed.

Lemma tick_Ok j w out w' :
  lease_inv (w_db w) → tick kinds j false w = (Ok out, w') → out.2 = Ok tt →
  ∃ d1, address_write (w_db w) d1 ∧ none_expired (w_now w) d1 ∧ (device_inv (w_db w) → device_inv d1) ∧
    core (w_db w') = core d1 ∧ users (w_db w') = users d1.
Proof.
  intros I Ht Hok. unfold tick, app_jobs in Ht. cbn [ExecuteScheduledRules] in Ht.
  apply bind_Ok in Ht as ([j1 r1] & w1 & Hx1 & Ht). cbn [fst snd] in Ht.
  assert (∃ r, ExpiryJob_Run false w = (r, w1) ∧ r1 = r ∧ j1 = j) as (r & He & -> & ->).
  { unfold try in Hx1. rewrite bind_run in Hx1. destruct (ExpiryJob_Run false w) as [r w0]. injection Hx1 as <- <- <-. eauto. }
  destruct r as [[]|e]; [|injection Ht as <- _; discriminate Hok].
  pose proof (ExpiryJob_device_inv false w) as Hdev. rewrite He in Hdev. apply (ExpiryJob_Ok _ _ I) in He as [Hw Hx].
  exists (w_db w1). split; [exact Hw|]. split; [exact Hx|]. split; [exact Hdev|].
  assert (keeps (λ d, (core d, users d) = (core (w_db w1), users (w_db w1)))
    (ExecuteScheduledRules [(λ s, out ← RollupJob_Run kinds (job_rollup s); mret (mkJobs out.1 (job_retention s), out.2));
       (λ s, out ← RetentionJob_Run (job_retention s); mret (mkJobs (job_rollup s) out.1, out.2))] j)) as Hk.
  { cbn [ExecuteScheduledRules]. pose proof (RollupJob_core (core (w_db w1), users (w_db w1))). pose proof (RetentionJob_core (core (w_db w1), users (w_db w1))). structural. }
  specialize (Hk false w1 eq_refl). cbn [ExecuteScheduledRules] in Hk. rewrite Ht in Hk. by apply pair_equal_spec in Hk.
Qed.

(** ** The administrator *)

Lemma BootstrapAdmin_root pw w w' :
  BootstrapAdmin pw false w = (Ok tt, w') → (∃ r, root (w_db w') r) ∧ users (w_db w) ⊆ users (w_db w').
Proof.
  intros Hb. apply BootstrapAdmin_Ok in Hb as Hn. split.
  2:{ destruct Hn as [_ [->|(u & -> & _)]]; [done|]. apply insert_subseteq, fresh_id_None. }
  apply tx_Ok in Hb as (w0 & w1 & E0 & _ & Hb & E1). destruct Hn as (_ & [Hu|(u & Hu & _ & _ & _ & Hc & _)]).
  2:{ exists (fresh_id (users (w_db w))), u. rewrite Hu, lookup_insert_eq. done. }
  apply bind_Ok in Hb as (admin & w2 & Ha & Hb). destruct admin as [u|].
  - injection Hb as <-. apply catch_Ok in Ha as [Ha|(e & w3 & _ & Ha)]; [|by destruct (decide _)].
    apply fmap_Ok in Ha as (u' & Ha & _). apply map_err_Ok, get_row_Ok in Ha as (E2 & _ & _ & Hf).
    apply head_Some_elem_of, elem_of_filter_rows in Hf as [Hc [r Hr]]. exists r, u'. by rewrite E1, E2.
  - exfalso. apply bind_Ok in Hb as (u & w3 & Hw3 & Hb). apply NewBootstrappedAdmin_Ok in Hw3 as (E3 & _).
    apply bind_Ok in Hb as (x & w4 & Hcr & [= <-]). apply bind_Ok in Hcr as (v & w5 & Hrow & Hcr).
    apply bind_Ok in Hcr as ([] & w6 & Hn & [= <- <-]). apply observers_Ok in Hn as (_ & E6 & _).
    apply CreateUser_row_Ok in Hrow as (_ & -> & E5).
    assert (w_db w2 = w_db w0) as E2.
    { apply catch_Ok in Ha as [Ha|(e & w7 & Hf & Ha)]; [by apply fmap_Ok in Ha as (? & _ & ?)|].
      destruct (decide (e = ErrUserNotFound)) as [->|]; [|done]. injection Ha as <-. rewrite fmap_run in Hf.
      destruct (FindBootstrappedAdmin true w0) as [[z|e'] w8] eqn:E; [done|]. injection Hf as -> ->. by apply FindBootstrappedAdmin_none in E as [? _]. }
    assert (users (w_db w') !! fresh_id (users (w_db w)) = None) as Hno by (rewrite Hu; apply fresh_id_None).
    rewrite E1, E6, E5 in Hno. cbn [users on_users] in Hno. rewrite E3, E2, E0, lookup_insert_eq in Hno. done.
Qed.

(** ** What a program that has started lets in *)

Lemma core_device_inv d d' : core d' = core d → users d ⊆ users d' → device_inv d → device_inv d'.
Proof.
  unfold core. intros [= E1 E2 E3 E4 _ _ _ _ _] Hu I. destruct I. split; rewrite ?E1, ?E2, ?E4; auto.
  intros i v Hv. destruct (di_owner i v Hv) as [u Ho]. exists u. by eapply lookup_weaken.
Qed.

Lemma core_policies d d' : core d' = core d → policies_inv d → policies_inv d' ∧ cache_entries d' = cache_entries d.
Proof.
  unfold core. intros [= _ _ _ _ E5 E6 E7 E8 E9] I. split; [destruct I; split; rewrite ?E5, ?E6, ?E7, ?E8, ?E9; auto|].
  unfold cache_entries, policy_entry, policy_fqdns. by rewrite E5, E7, E8, E9.
Qed.

(** An empty cache lets no one in. *)
Lemma Decide_empty s ip host : ipSet s = ∅ → networkPolicies s = [] → Allowed (Decide s ip host) = false.
Proof.
  intros Hi Hn. destruct (IsValid ip) eqn:Hv; [|unfold Decide; by rewrite Hv].
  destruct (is_trusted_proxy s (Unmap ip)) eqn:Hp; [by rewrite Decide_proxy|]. rewrite Decide_no_entry by (by rewrite ?Hi). by rewrite Hn.
Qed.

(** C20: a program that starts over sound tables ([tables_inv]: they hold of
    the empty database, and every operation keeps them), whatever fails on
    the way, has an administrator nobody created; and whoever it lets in
    before the tables change is let in by the tables (as [tables_allow] has
    it: a network policy that lets it in is one with the longest range), with
    no address at the client's whose lease had run out when it started. *)
Theorem startup_is_safe ms synced c w app w' :
  tables_inv (w_db w) →
  NewWithConfig ms synced c false w = (Ok app, w') →
  (∃ r, root (w_db w') r) ∧ device_inv (w_db w') ∧
  ∀ ip host, Allowed (Decide (App_PolicyService app) ip host) = true →
    tables_allow (w_db w') (TrustedProxy (Conf_Server c)) (Unmap ip) (NormaliseHost host) ∧
    ∀ x v, registered (w_db w') (Unmap ip) x v → has_expired (w_now w) (w_db w') (Address_ID x) = false.
Proof.
  intros It Hr. pose proof (ti_devices _ It) as I. pose proof (ti_leases _ It) as Il. pose proof (ti_policies _ It) as Ip. unfold NewWithConfig in Hr.
  apply bind_Ok in Hr as (l & w1 & Hgeo & Hr). apply of_result_Ok in Hgeo as [_ ->].
  apply bind_Ok in Hr as (s0 & w1 & Hs & Hr). apply of_result_Ok in Hs as [Hs ->].
  unfold NewService in Hs. case_bool_decide; [done|]. injection Hs as <-.
  apply bind_Ok in Hr as (out & w1 & Ht & Hr). apply bind_Ok in Hr as ([] & w2 & Hout & Hr). apply of_result_Ok in Hout as [Hout ->].
  destruct (tick_Ok _ _ _ _ Il Ht Hout) as (d1 & Hw & Hx & Hdi & Ec & Eu).
  apply bind_Ok in Hr as ([] & w2 & Hb & Hr). pose proof (BootstrapAdmin_core (core (w_db w1)) (AdminPassword (Conf_Server c)) false w1 eq_refl) as Eb.
  rewrite Hb in Eb. cbn [snd] in Eb. apply BootstrapAdmin_root in Hb as [Hroot Hsub].
  apply bind_Ok in Hr as (s & w3 & Href & [= <- <-]). cbn [App_PolicyService].
  assert (core (w_db w2) = core d1) as E2 by congruence. assert (users d1 ⊆ users (w_db w2)) as Hsub2 by (by rewrite <-Eu).
  assert (device_inv (w_db w2)) as I2 by (eapply core_device_inv; eauto).
  assert (policies_inv d1 ∧ cache_entries d1 = cache_entries (w_db w)) as [Ip1 Ed1] by (destruct Hw as (f & g & ->); split; [destruct Ip; by split|done]).
  destruct (core_policies _ _ E2 Ip1) as [Ip2 Ed2].
  assert (w_db w3 = w_db w2 ∧ trustedProxy s = TrustedProxy (Conf_Server c) ∧
    (fed s (w_db w2) ∨ ipSet s = ∅ ∧ networkPolicies s = [])) as (E3 & Hproxy & Hfed).
  { pose proof (keeps_refresh_db ms (mkService (sha256 (APISecret (Conf_Policy c))) (TrustedProxy (Conf_Server c)) ∅ [] None 0) (w_db w2) false w2 eq_refl) as Hk.
    apply catch_Ok in Href as [Href|(e & w4 & Hf & [= <- <-])].
    - apply refreshCache_Ok in Href as (E & Hf & _ & Hp). eauto.
    - rewrite Hf in Hk. eauto. }
  rewrite E3. split; [done|]. split; [done|]. intros ip host Hall. destruct Hfed as [Hfed|[Hi Hn]].
  2:{ by rewrite Decide_empty in Hall. }
  split; [rewrite <-Hproxy; by apply Decide_sound|].
  intros x v ([i Hi] & He & _). rewrite (di_addr_id _ I2 _ _ Hi). unfold core in E2. injection E2 as _ E2 El _ _ _ _ _ _.
  rewrite E2 in Hi. specialize (Hx i x Hi He). unfold has_expired in *. by rewrite El.
Qed.

(** ** Retention *)

Lemma prune_raw_traffic X days t : keeps (λ d, hourly_traffic (logs d) = X) (prune_raw days t).
Proof.
  unfold prune_raw. cbn [prune_access_log prune_address_events app_pruners]. unfold DeleteOlderThan, DeleteAddressEventsOlderThan.
  structural; apply keeps_exec; intros ? ? ? ? <- Hw; write_cases Hw; done.
Qed.

Lemma prune_aggregated_log X days t : keeps (λ d, access_log (logs d) = X) (prune_aggregated days t).
Proof.
  unfold prune_aggregated. cbn [prune_aggregates prune_attribution_aggregates app_pruners]. unfold DeleteAggregatesOlderThan, DeleteAttributionAggregatesOlderThan.
  structural; apply keeps_exec; intros ? ? ? ? <- Hw; write_cases Hw; done.
Qed.

(** Entries too old are gone once the raw tables have been pruned. *)
Lemma prune_raw_cut days t tx w w' :
  prune_raw days t tx w = (Ok tt, w') → 0 < days →
  ∀ id r, access_log (logs (w_db w')) !! id = Some r → AddDate t (- days) ≤ log_CreatedAt r.
Proof.
  intros Hr Hd id r Hl. unfold prune_raw in Hr. rewrite (proj2 (Z.ltb_lt 0 days) Hd) in Hr. cbv zeta in Hr.
  cbn [prune_access_log prune_address_events app_pruners] in Hr. unfold DeleteOlderThan, DeleteAddressEventsOlderThan in Hr.
  apply bind_Ok in Hr as (n & w1 & Hn & Hr). apply (exec_Ok _ tx) in Hn as (d1 & [= _ <-] & E1 & _).
  apply bind_Ok in Hr as (m & w2 & Hm & [= <-]). apply (exec_Ok _ tx) in Hm as (d2 & [= _ <-] & E2 & _).
  rewrite E2 in Hl. cbn [logs on_address_events] in Hl. rewrite E1 in Hl. cbn [logs on_logs access_log prune_logs] in Hl.
  by apply map_lookup_filter_Some in Hl as [_ ?].
Qed.

(** [AddDate] as the calendar has it: a day later is an hour later at least. *)
Definition calendar : Prop := ∀ t m n, m < n → AddDate t m + Hour ≤ AddDate t n.

(** C15: under a configuration that [Load] accepts with a number of
    days that is not negative, the aggregates outlive the log: a run of the
    retention job ends, and whatever fails in it, the aggregates of the hour
    of an entry still in the log and of later hours are those of before,
    but for the entry's own hour when both periods are the same. *)
Theorem aggregates_outlive_log `{FileSystem} parse fs c fs' last tx w :
  Load parse fs = (inr c, fs') → calendar →
  let days := DataRetentionDays (Conf_Rules c) in
  let aggregateDays := AggregateRetentionDays (Conf_Rules c) in
  0 ≤ days →
  ∃ j res w', RetentionJob_Run (mkRetentionJob days aggregateDays last) tx w = (Ok (j, res), w') ∧
  ∀ id r k, access_log (logs (w_db w')) !! id = Some r →
    (if bool_decide (aggregateDays = days) then log_CreatedAt r else bucket_at (log_CreatedAt r)) ≤ traffic_bucket k →
    hourly_traffic (logs (w_db w')) !! k = hourly_traffic (logs (w_db w)) !! k.
Proof.
  intros Hload Hcal days A Hd.
  assert (A = 0 ∨ days ≠ 0 ∧ days ≤ A) as Hacc.
  { unfold Load in Hload. destruct (parse _) as [c0|]; [|done]. destruct (check_values c0) eqn:Ev; [done|].
    destruct (check_dirs c0 fs) as [[]]; [done|]. injection Hload as -> _. by apply check_values_None in Ev as []. }
  clearbody days A. unfold RetentionJob_Run. cbn [retentionDays aggregateRetentionDays lastRanAt].
  destruct (_ && _); [by eexists _, _, w|]. rewrite bind_run, now_run. cbv zeta. destruct (bool_decide (last = _)); [by eexists _, _, w|].
  rewrite bind_run. unfold try. rewrite bind_run. pose proof (prune_raw_traffic _ days (w_now w) tx w eq_refl) as Ht.
  destruct (prune_raw days (w_now w) tx w) as [[[]|e] w1] eqn:E1; cbn [snd] in Ht; [|eexists _, _, w1; split; [done|]; by intros; rewrite Ht].
  pose proof (prune_aggregated_log _ A (w_now w) tx w1 eq_refl) as Hl. pose proof (prune_raw_cut _ _ _ _ _ E1) as Hcut.
  assert (only_pruned (mkRetentionJob days A last) (w_now w) (w_db w1) (w_db (prune_aggregated A (w_now w) tx w1).2)) as Hk
    by (apply (prune_aggregated_only (mkRetentionJob days A last)); intros k; by left).
  destruct (prune_aggregated A (w_now w) tx w1) as [r2 w2]; cbn [snd] in *.
  assert (∀ id r k, access_log (logs (w_db w2)) !! id = Some r →
    (if bool_decide (A = days) then log_CreatedAt r else bucket_at (log_CreatedAt r)) ≤ traffic_bucket k →
    hourly_traffic (logs (w_db w2)) !! k = hourly_traffic (logs (w_db w)) !! k); [|destruct r2 as [[]|e]; by eexists _, _, w2].
  intros id r k Hid Hle. rewrite Hl in Hid. rewrite <-Ht. destruct (Hk k) as [?|[HA Hlt]]; [done|exfalso].
  cbn [aggregateRetentionDays] in *. assert (0 < days) as Hpos by lia. specialize (Hcut Hpos id r Hid). pose proof (bucket_at_bounds (log_CreatedAt r)).
  case_bool_decide as HE; [subst; lia|]. pose proof (Hcal (w_now w) (- A) (- days)) as Hc. lia.
Qed.
End startup.

(** ** Periods that are the same, and a negative one *)
Module RetentionDemo.
Import RollupDemo.

#[local] Instance utc : LocalTime := {| AddDate t n := t + n * Day |}.

Lemma utc_calendar : calendar.
Proof. intros t m n Hmn. cbn. unfold Day, Hour, Minute, Second. lia. Qed.

(** A machine on which every path that is no temporary file is a directory. *)
#[local] Instance disk : FileSystem := {|
  FS := gset string;
  Stat fs p := if bool_decide (p ∈ fs) then StatOther else StatDir;
  MkdirAll fs _ := (true, fs);
  CreateTemp fs dir := (Some (dir +:+ "/test-dir-write-check-1"), {[dir +:+ "/test-dir-write-check-1"]} ∪ fs);
  Remove fs f := fs ∖ {[f]};
|}.

Definition conf (days aggregateDays : Z) : Conf :=
  mkConf (mkConfServer "correct horse" 8080 AddrZero "UTC") (mkConfDB "./data" "") (mkConfRules Minute days aggregateDays)
    (mkConfPolicy "0123456789abcdef") (mkConfGeoIP false "./data/geoip") "info" "text" true.

Definition env (days aggregateDays : Z) (_ : string → option Addr) : option Conf := Some (conf days aggregateDays).

(** Three rolled up entries, a day after the last of them. *)
Definition w_rolled : world := world_of (w_db (RollupJob_Run kinds NewRollupJob false w0).2) (2 * Day + 2 * Hour + 1) [].

Definition after (days aggregateDays : Z) : world :=
  (RetentionJob_Run (mkRetentionJob days aggregateDays None) false w_rolled).2.

(** With one day and two, what is left of the log keeps its aggregate. *)
Example aggregates_outlive_log_witness :
  access_log (logs (w_db (after 1 2))) !! 3 = Some r3 ∧
  is_Some (hourly_traffic (logs (w_db (after 1 2))) !! entry_key (r3, None)).
Proof.
  destruct (aggregates_outlive_log (env 1 2) (∅ : FS (FileSystem := disk)) (conf 1 2) ∅ None false w_rolled)
    as (j & res & w' & E & Hk); [vm_compute; reflexivity|exact utc_calendar|vm_compute; discriminate|].
  assert (after 1 2 = w') as Ew by (unfold after; cbn [conf Conf_Rules DataRetentionDays AggregateRetentionDays] in E; by rewrite E).
  rewrite <-Ew in Hk. assert (access_log (logs (w_db (after 1 2))) !! 3 = Some r3) as H3 by (vm_compute; reflexivity).
  split; [exact H3|]. rewrite (Hk 3 r3 (entry_key (r3, None)) H3); [vm_compute; by eexists|vm_compute; discriminate].
Defined.

(** Accepted all the same: with one day for both, an entry
    created at the cut has lost the aggregate of its hour. *)
Example equal_periods_lose_an_hour :
  Load (env 1 1) (∅ : FS (FileSystem := disk)) = (inr (conf 1 1), ∅) ∧
  access_log (logs (w_db (after 1 1))) !! 3 = Some r3 ∧ hourly_traffic (logs (w_db (after 1 1))) !! entry_key (r3, None) = None.
Proof. split; [|split]; vm_compute; reflexivity. Qed.

(** A negative number of days keeps the log for ever, and not the
    aggregates. *)
Example negative_days_lose_aggregates :
  Load (env (-1) 1) (∅ : FS (FileSystem := disk)) = (inr (conf (-1) 1), ∅) ∧
  access_log (logs (w_db (after (-1) 1))) !! 1 = Some r1 ∧ hourly_traffic (logs (w_db (after (-1) 1))) !! entry_key (r1, None) = None.
Proof. split; [|split]; vm_compute; reflexivity. Qed.
End RetentionDemo.
