(* ===== verification/Examples.v ===== *)
(** * Examples: the theorems at a concrete state of the program

    A small database that satisfies every component's invariant, with the
    services wired as the program wires them, and the event-driven and
    end-to-end theorems applied to it. *)

From S2P Require Import Prelude GoLib Netip Schema Store Slicex HostNames Http PolicyCache Crypto PolicyService.
From S2P Require Import PolicySpec Device DeviceInv DeviceSpec Interfaces Rule Lease LeaseSpec MaxAddr Hosts.
From S2P Require Import HostsSpec UserAccess NetworkPolicies NetworkPoliciesSpec Pairing PairingSpec WorldInv App.
From S2P Require Import AppOps Freshness TablesInv AppSpec EndToEnd Auth PolicyView Queries QueriesSpec HostSuggestions Posture PostureSpec.
From S2P Require Import AuthInv AuthSafety DeviceHttp HttpServer HttpServerSpec Heartbeat Scheduler Config Startup.
From stdpp Require Import relations.

Local Open Scope string_scope.
Local Open Scope Z_scope.

Module Sample.
Definition anna : User := mkUser 10 "anna" "Anna" None None UserRole false None 0 None.
Definition laptop : Device := mkDevice 1 "laptop" None None 0 0 None None None 10.
Definition home : Address := mkAddress 1 1 "198.51.100.7" true EventSourceHeartbeat 0 (10 * Second).
Definition train : Address := mkAddress 2 1 "203.0.113.9" true EventSourceHeartbeat 0 (20 * Second).
Definition home_lease : AddressLease := mkAddressLease 1 1 1 (Some (50 * Second)) 0 0.
Definition train_lease : AddressLease := mkAddressLease 2 1 2 None 0 0.
Definition lease_rule : Rule := mkRule 1 1 RuleTypeDeviceAddressLease true (Some (marshal_int "ttl_seconds" 3600)) 0 0.
Definition max_rule : Rule := mkRule 2 1 RuleTypeMaxActiveAddresses true (Some (marshal_int "max_addresses" 1)) 0 0.
Definition wiki : Host := mkHost 1 "wiki.example.org" 0 0.
Definition staff : HostGroup := mkHostGroup 1 "staff" "#336699" "" None 0 0 [].
Definition office : NetworkPolicy := mkNetworkPolicy 1 "office" "10.0.0.0/16" None true false 0 0.

Definition tables : db :=
  mkDb {[10 := anna]} ∅ {[1 := laptop]} ∅ (<[1 := home]> {[2 := train]}) ∅ (<[1 := home_lease]> {[2 := train_lease]})
    (<[(1, RuleTypeDeviceAddressLease) := lease_rule]> {[(1, RuleTypeMaxActiveAddresses) := max_rule]})
    {[1 := wiki]} {[1 := staff]} {[(1, 1)]} {[10 := false]} {[(10, 1)]} ∅ {[1 := office]} 1 {[(1, 1)]} ∅ (logs empty_db).

Definition w : world := world_of tables (100 * Second) [].

Local Ltac rows_of_tables :=
  cbn; intros;
  repeat match goal with
  | H : <[_ := _]> _ !! _ = Some _ |- _ => apply lookup_insert_Some in H as [[? ?]|[? H]]; simplify_eq/=
  | H : {[_ := _]} !! _ = Some _ |- _ => apply lookup_singleton_Some in H as [? ?]; simplify_eq/=
  | H : ∅ !! _ = Some _ |- _ => by rewrite lookup_empty in H
  | H : _ ∈ {[_]} |- _ => apply elem_of_singleton in H; simplify_eq
  end; simplify_eq/=; try done; try (by eexists); try (split_and!; (done || by eexists)).

Lemma device_ok : device_inv tables.
Proof. constructor; rows_of_tables. Qed.

Lemma hosts_ok : hosts_inv tables.
Proof. constructor; rows_of_tables. Qed.

Lemma policies_ok : policies_inv tables.
Proof. constructor; rows_of_tables. Qed.

Lemma leases_ok : lease_inv tables.
Proof. unfold lease_inv. rows_of_tables. Qed.

Lemma tables_ok : tables_inv tables.
Proof. split; [exact device_ok|]. split; [exact hosts_ok|exact policies_ok|exact leases_ok]. Qed.

Lemma keyed_ok : addresses_keyed tables.
Proof. unfold addresses_keyed. rows_of_tables. Qed.

Lemma users_ok : ∀ i u, users tables !! i = Some u → User_ID u = i.
Proof. rows_of_tables. Qed.
End Sample.

Import Sample.

(** ** lease *)

(** The lease of the home address expired at 50 s; at 100 s the job disables
    it and leaves the other one. *)
Example ExpiryJob_disables_exactly_expired_witness :
  ∃ w', ExpiryJob_Run false w = (Ok tt, w') ∧
    Address_IsEnabled <$> addresses (w_db w') !! 1 = Some false ∧ addresses (w_db w') !! 2 = Some train.
Proof.
  destruct (ExpiryJob_disables_exactly_expired w eq_refl keyed_ok leases_ok) as (w' & Hrun & _ & Hl).
  exists w'. split; [exact Hrun|]. split; [rewrite (Hl 1)|rewrite (Hl 2)]; vm_compute; reflexivity.
Defined.

Definition disabled_home : AddressEvent := mkAddressEvent EventTypeAddressDisabled 1 1 0.
Definition enabled_train : AddressEvent := mkAddressEvent EventTypeAddressEnabled 2 1 0.

Example lease_drain_last_event_wins_witness :
  ∃ w', lease_drain 3 false (set_lease_events [enabled_train; disabled_home; enabled_train] w) = (Ok tt, w') ∧
    leases (w_db w') !! 1 = None ∧ AddressLease_ExpiresAt <$> leases (w_db w') !! 2 = Some (Some (3700 * Second)).
Proof.
  destruct (lease_drain_last_event_wins (set_lease_events [enabled_train; disabled_home; enabled_train] w) eq_refl) as (w' & Hrun & _ & _ & _ & Hl).
  { repeat constructor; try (by eexists); cbn; eexists; vm_compute; reflexivity. }
  exists w'. split; [exact Hrun|]. split; [exact (Hl 1)|]. destruct (Hl 2) as (l & ttl & -> & Httl & _ & _ & E). cbn [fmap option_fmap option_map]. rewrite E.
  vm_compute in Httl. injection Httl as <-. vm_compute. reflexivity.
Defined.

Example lease_rule_event_rearms_witness :
  ∃ w', handleLeaseRuleEvent (mkRuleEvent RuleEventTypeEnabled 1 RuleTypeDeviceAddressLease (Some 60) (100 * Second)) false w = (Ok tt, w') ∧
    AddressLease_ExpiresAt <$> leases (w_db w') !! 2 = Some (Some (160 * Second)).
Proof.
  destruct (lease_rule_event_rearms (mkRuleEvent RuleEventTypeEnabled 1 RuleTypeDeviceAddressLease (Some 60) (100 * Second)) false w eq_refl)
    as (w' & Hrun & _ & Hl).
  exists w'. split; [exact Hrun|]. rewrite (Hl 2). vm_compute. reflexivity.
Defined.

(** ** maxaddr *)

(** Two enabled addresses, a limit of one: the just registered home address
    survives although it is the older one. *)
Example enforce_limit_witness :
  ∃ w', enforce 1 1 false w = (Ok tt, w') ∧ length (enabled_addresses_of (w_db w') 1) = 1%nat ∧ home ∈ enabled_addresses_of (w_db w') 1.
Proof.
  assert (max_of (rules (w_db w)) 1 = Ok (Some 1)) as Hmax by (vm_compute; reflexivity).
  destruct (enforce_limit 1 1 1 w eq_refl keyed_ok Hmax) as (w' & Hrun & Hlen & Hkept & _).
  exists w'. split; [exact Hrun|]. split.
  - apply Nat2Z.inj. rewrite Hlen. vm_compute. reflexivity.
  - apply Hkept; [|reflexivity]. apply elem_of_enabled_addresses. split; [reflexivity|]. split; [reflexivity|]. exists 1. vm_compute. reflexivity.
Defined.

(** ** hosts *)

Definition two_hosts : list DesiredHost := [mkDesiredHost (Some 1) "wiki.example.org" [1]; mkDesiredHost None "git.example.org" []].

Lemma two_recreate : ∀ desired, prepare_hosts two_hosts = Ok desired → recreates_none tables desired.
Proof.
  intros desired Hp. assert (prepare_hosts two_hosts = Ok two_hosts) as E by (vm_compute; reflexivity). rewrite E in Hp. injection Hp as <-.
  intros h i row [->|[->|[]%elem_of_nil]%elem_of_cons]%elem_of_cons; [done|]. intros _ Hi Hf. change (({[1 := wiki]} : gmap Z Host) !! i = Some row) in Hi.
  apply lookup_singleton_Some in Hi as [<- <-]. by vm_compute in Hf.
Qed.

Definition renamed : list DesiredHost := [mkDesiredHost (Some 1) "renamed.example.org" []].

Lemma renamed_recreate : ∀ desired, prepare_hosts renamed = Ok desired → recreates_none tables desired.
Proof.
  intros desired Hp. assert (prepare_hosts renamed = Ok renamed) as E by (vm_compute; reflexivity). rewrite E in Hp. injection Hp as <-.
  by intros h i row ->%list_elem_of_singleton.
Qed.

Example ReconcileHosts_converges_witness :
  (∃ d', host_image tables d' two_hosts) ∧ ReconcileHosts renamed false w = (Err ErrHostFQDNImmutable, w).
Proof.
  split.
  - pose proof (ReconcileHosts_converges two_hosts w eq_refl hosts_ok two_recreate) as H.
    assert (reconcile_check (w_db w) two_hosts = Ok two_hosts) as E by (vm_compute; reflexivity).
    rewrite E in H. destruct H as (d' & Hd & _). exists d'. exact Hd.
  - pose proof (ReconcileHosts_converges renamed w eq_refl hosts_ok renamed_recreate) as H.
    assert (reconcile_check (w_db w) renamed = Err ErrHostFQDNImmutable) as E by (vm_compute; reflexivity).
    rewrite E in H. exact (proj1 H).
Defined.

(** The commit fails: the created host is gone. *)
Definition failing_commit : world := set_faults (replicate 6 None ++ [Some false]) w.

Example reconcile_all_or_nothing_witness :
  ∃ e w', ReconcileHosts two_hosts false failing_commit = (Err e, w') ∧ w_db w' = tables.
Proof.
  assert (∃ e w', ReconcileHosts two_hosts false failing_commit = (Err e, w')) as (e & w' & E) by (eexists _, _; vm_compute; reflexivity).
  exists e, w'. split; [exact E|]. exact (reconcile_all_or_nothing two_hosts [] failing_commit e w' (or_introl E)).
Defined.

Example recreate_same_name_rejected_witness :
  buildHostReconcilePlan (rows (hosts tables)) [mkDesiredHost None "wiki.example.org" []] = Err ErrHostConflict.
Proof. exact (recreate_same_name_rejected tables 1 wiki [] ltac:(vm_compute; reflexivity)). Defined.

(** ** useraccess *)

(** Repeated group ids are stored once; an unknown group is rejected. *)
Example SetUserAccess_spec_witness :
  (∃ d', user_may_reach d' 10 "wiki.example.org") ∧
  ∃ w', SetUserAccess 10 true [1; 9] false w = (Err ErrReferenceNotFound, w') ∧ w_db w' = tables.
Proof.
  split.
  - pose proof (SetUserAccess_spec 10 false [1; 1] w eq_refl) as H.
    assert (set_access_error (w_db w) 10 (Dedup [1; 1]) = None) as E by (vm_compute; reflexivity). rewrite E in H.
    destruct H as (f & _ & Hr & _). eexists. apply Hr. right. exists 1, 1, wiki. split; [by left|]. split; [|by split].
    change ((1, 1) ∈ ({[(1, 1)]} : gset (Z * Z))). by apply elem_of_singleton.
  - pose proof (SetUserAccess_spec 10 true [1; 9] w eq_refl) as H.
    assert (set_access_error (w_db w) 10 (Dedup [1; 9]) = Some ErrReferenceNotFound) as E by (vm_compute; reflexivity). rewrite E in H. exact H.
Defined.

(** ** networkpolicies *)

Example GetEnabledCacheEntries_feed_witness :
  ∃ es, GetEnabledCacheEntries false w = (Ok es, w) ∧ length es = 1%nat.
Proof.
  destruct (GetEnabledCacheEntries_feed false w eq_refl policies_ok) as (es & Hrun & Hf). exists es. split; [exact Hrun|].
  apply Forall2_length in Hf. rewrite <-Hf. vm_compute. reflexivity.
Defined.

Example SetHostAccess_spec_witness :
  (handler_UpdateNetworkPolicyAccess 7 true [1] false w).1 = Ok (mkResponse 404 None) ∧
  (handler_UpdateNetworkPolicyAccess 1 true [1; 1] false w).1 = Ok (mkResponse 500 None).
Proof.
  split.
  - pose proof (SetHostAccess_spec 7 true [1] w eq_refl) as H. cbv zeta in H.
    destruct (handler_UpdateNetworkPolicyAccess 7 true [1] false w) as [r w']. exact (proj1 H).
  - pose proof (SetHostAccess_spec 1 true [1; 1] w eq_refl) as H. cbv zeta in H.
    destruct (handler_UpdateNetworkPolicyAccess 1 true [1; 1] false w) as [r w'].
    change (policies (w_db w) !! 1) with (Some office) in H. destruct H as [(Hv & _)|(_ & H & _)]; [exfalso|exact H].
    destruct Hv as [Hv _]. apply NoDup_cons in Hv as [Hv _]. apply Hv. by left.
Defined.

Example CreatePolicy_silent_witness :
  ∃ p w', CreatePolicy "lab" "10.7.0.0/16" None false w = (Ok p, w') ∧ w_refresh w' = false ∧ policies (w_db w) !! NetworkPolicy_ID p = None.
Proof.
  eexists _, _. split; [vm_compute; reflexivity|]. split; [reflexivity|].
  exact (proj1 (proj2 (CreatePolicy_silent "lab" "10.7.0.0/16" None (mkUpdateFields "" "" None false) 1 w _ _ eq_refl ltac:(vm_compute; reflexivity)))).
Defined.

(** ** The program *)

#[local] Existing Instance AuthSafety.AuthDemo.prefix_bcrypt.

(** The laptop is disabled and the first administrator is made, in sound tables. *)
Example tables_stay_sound_witness :
  tables_inv (w_db (foldl (λ w s, (run_step s.1 false (s.2 w)).2) w [(inl (OpDevice (OpDisableDevice 1)), id); (inr (AuthBootstrap "boss"), id)])).
Proof.
  apply (proj2 tables_stay_sound); [repeat constructor|exact tables_ok].
Defined.

Definition service : Service := mkService (sha256 "secret") (Addr4 167772161) ∅ [] None 0.

(** The laptop is disabled, then a refresh runs. *)
Definition after_disable : world := (run_app_op (OpDevice (OpDisableDevice 1)) false (set_refresh true w)).2.

(** The caches are rebuilt once. *)
Definition rebuilt : result Service * world := onRefreshSignal app_providers 0 service false after_disable.
Definition rebuilt_service : Service := match rebuilt.1 with Ok s => s | Err _ => service end.
Definition c_before : config := mkConfig (set_refresh true w) service false.
Definition c_disabled : config := mkConfig after_disable service false.
Definition c_rebuilt : config := mkConfig rebuilt.2 rebuilt_service false.

Lemma disable_step : app_step (Some (OpDevice (OpDisableDevice 1))) c_before c_disabled.
Proof. exact (step_op (OpDevice (OpDisableDevice 1)) (set_refresh true w) service false). Qed.

Lemma rebuild_step : app_step None c_disabled c_rebuilt.
Proof.
  assert (refresh_fails 0 service (set_refresh false after_disable) = false) as Hm by (vm_compute; reflexivity).
  unfold c_rebuilt. rewrite <-Hm. apply step_signal; [vm_compute; reflexivity|]. fold rebuilt.
  assert (rebuilt.1 = Ok rebuilt_service) as <- by (vm_compute; reflexivity). by destruct rebuilt.
Qed.

Example caches_fresh_witness :
  w_refresh (cfg_world c_rebuilt) = false ∧ fed rebuilt_service (w_db (cfg_world c_rebuilt)).
Proof.
  assert (w_refresh (cfg_world c_rebuilt) = false) as Hq by (vm_compute; reflexivity). split; [exact Hq|].
  refine (proj1 (proj2 (caches_fresh c_before c_rebuilt device_ok (or_intror (or_introl eq_refl)) _)) (conj Hq eq_refl)).
  eapply rtc_l; [eexists; exact disable_step|]. eapply rtc_l; [eexists; exact rebuild_step|apply rtc_refl].
Defined.

Definition fed_service : Service := default service
  (match refreshCache app_providers 0 service false w with (Ok s, _) => Some s | _ => None end).

Lemma fed_service_fed : fed fed_service tables.
Proof.
  unfold fed_service. destruct (refreshCache app_providers 0 service false w) as [[s|e] w'] eqn:E.
  - apply refreshCache_Ok in E as (_ & Hf & _). exact Hf.
  - exfalso. vm_compute in E. discriminate E.
Qed.

Lemma one_policy p q : governs tables (Unmap (Addr4 3405803785)) p → governs tables (Unmap (Addr4 3405803785)) q → p = q.
Proof.
  intros (r & ([i Hi] & _) & _) (r' & ([j Hj] & _) & _). change (({[1 := office]} : gmap Z NetworkPolicy) !! i = Some p) in Hi. change (({[1 := office]} : gmap Z NetworkPolicy) !! j = Some q) in Hj.
  apply lookup_singleton_Some in Hi as [_ <-], Hj as [_ <-]. reflexivity.
Qed.

(** Anna's laptop reaches the wiki from the train, and nothing else. *)
Example decision_follows_tables_witness :
  tables_allow tables (trustedProxy fed_service) (Addr4 3405803785) "wiki.example.org" ∧
  ¬ tables_allow tables (trustedProxy fed_service) (Addr4 3405803785) "git.example.org".
Proof.
  split.
  - apply (proj1 (decision_follows_tables fed_service tables (Addr4 3405803785) "wiki.example.org" tables_ok fed_service_fed)).
    vm_compute. reflexivity.
  - intros H. apply (proj2 (proj2 (proj2 (decision_follows_tables fed_service tables (Addr4 3405803785) "git.example.org" tables_ok fed_service_fed)) one_policy)) in H.
    vm_compute in H. discriminate H.
Defined.

Example queues_bounded_witness :
  bounded (foldl (λ w op, (run_app_op op false w).2) w [OpDevice (OpDisableDevice 1); OpLeaseListener; OpExpiryJob]).
Proof. apply queues_bounded. vm_compute. repeat split; lia. Defined.

(** The reaction to a user's deletion is not all or nothing: a device
    whose deletion fails half-way, inside the transaction around all of the
    user's devices, has its error swallowed and what was done so far is
    committed; the device is then deleted while its addresses are still
    enabled, which [DeleteDevice] on its own never leaves behind. *)
Theorem user_deletion_can_half_delete :
  ∃ w0 w', device_inv (w_db w0) ∧
    device_OnUserEvent (mkUserEvent EventTypeUserDeleted 10) false w0 = (Ok tt, w') ∧
    (∃ v, active_device (w_db w0) 1 = Some v ∧ Device_OwnerID v = 10) ∧
    active_device (w_db w') 1 = None ∧
    ∃ a, addresses (w_db w') !! 1 = Some a ∧ Address_DeviceID a = 1 ∧ Address_IsEnabled a = true.
Proof.
  exists (set_faults [None; None; None; Some false] w). eexists. split; [exact device_ok|]. split; [vm_compute; reflexivity|].
  split; [exists laptop; split; vm_compute; reflexivity|]. split; [vm_compute; reflexivity|]. exists home. split; vm_compute; repeat split.
Qed.

(** ** From a report to a verdict *)

Definition report : M (Address * AddressEventType) :=
  RegisterAddressActivity (Addr4 167772161) 1 "198.51.100.9" EventSourceHeartbeat EventTriggerUser.

Definition ask : headers := <["Authorization" := ["Bearer secret"]]> {["X-Forwarded-Host" := ["wiki.example.org"]]}.

Lemma ask_asks : asks service ask "secret".
Proof. split; [intros E; vm_compute in E; discriminate E|]. split; [vm_compute; reflexivity|]. split; [done|vm_compute; reflexivity]. Qed.

(** The laptop reports a new address; the proxy asks for a request from it,
    spelled as an IPv4-mapped IPv6 address. *)
Definition story : bool :=
  match report false w with
  | (Ok _, w1) =>
      match refreshCache app_providers 0 service false w1 with
      | (Ok s', _) => (HandleForwardAuthIP s' None 0 0 ask (Some "::ffff:198.51.100.9")).1 =? 200
      | _ => false
      end
  | _ => false
  end.

Lemma story_true : story = true.
Proof. vm_compute. reflexivity. Qed.

Lemma mapped_spelling : ParseAddr "::ffff:198.51.100.9" = Some (Addr6 281474007000073 "") ∧ ParseAddr "198.51.100.9" = Some (Addr4 3325256713).
Proof. split; vm_compute; reflexivity. Qed.

Example report_lets_through_witness :
  ∃ x ty w1 s' w2, report false w = (Ok (x, ty), w1) ∧ refreshCache app_providers 0 service false w1 = (Ok s', w2) ∧
    (HandleForwardAuthIP s' None 0 0 ask (Some "::ffff:198.51.100.9")).1 = 200 ∧
    ∀ y v, registered (w_db w1) (Unmap (Addr4 3325256713)) y v →
      user_may_reach tables (Device_OwnerID v) (NormaliseHost (header_get ask "X-Forwarded-Host")).
Proof.
  pose proof story_true as Hok. unfold story in Hok.
  destruct (report false w) as [[[x ty]|e] w1] eqn:Hr; [|discriminate Hok].
  destruct (refreshCache app_providers 0 service false w1) as [[s'|e] w2] eqn:Href; [|discriminate Hok]. apply Z.eqb_eq in Hok.
  exists x, ty, w1, s', w2. split; [reflexivity|]. split; [exact Href|]. split; [exact Hok|].
  exact (proj1 (proj1 (report_lets_through (Addr4 167772161) 1 "198.51.100.9" EventSourceHeartbeat EventTriggerUser w x ty w1 service 0 s' w2
    (Addr4 3325256713) "::ffff:198.51.100.9" (Addr6 281474007000073 "") None 0 0 ask "secret" device_ok eq_refl Hr (proj2 mapped_spelling) Href
    (proj1 mapped_spelling) eq_refl ask_asks)) Hok).
Defined.

(** The laptop, disabled: nothing names it any more. *)
Example frozen_stays_out_witness :
  unnamed 1 rebuilt_service ∧ Allowed (Decide rebuilt_service (Addr4 3405803785) "wiki.example.org") = false.
Proof.
  split; [|vm_compute; reflexivity].
  assert (device_inv (w_db after_disable)) as Hi by exact (app_op_keeps (OpDevice (OpDisableDevice 1)) (set_refresh true w) device_ok).
  assert (w_refresh (cfg_world c_rebuilt) = false) as Hq by (vm_compute; reflexivity).
  refine (proj1 (proj2 (proj2 (frozen_stays_out 1 c_disabled c_rebuilt Hi (or_intror (or_introl _)) _ _)) (conj Hq eq_refl))).
  - vm_compute. reflexivity.
  - eexists. split; [vm_compute; reflexivity|]. left. discriminate.
  - eapply rtc_l; [|apply rtc_refl]. exists None. split; [exact rebuild_step|exact I].
Defined.

(** A report of a new address, with the laptop's limit of one: the events
    reach the listeners, older addresses are evicted, and all is quiet. *)
Definition report_op : device_op := OpRegister (Addr4 167772161) 1 "198.51.100.9" EventSourceHeartbeat EventTriggerUser.
Definition reported : world := (run_device_op report_op false w).2.

Lemma reported_signalled : no_faults reported ∧ signalled reported.
Proof. split; vm_compute; reflexivity. Qed.

Example background_settles_witness :
  Acc (flip background) (reported, service) ∧ ∃ c, background (reported, service) c.
Proof.
  destruct reported_signalled as [Hnf Hsig].
  destruct (background_settles reported service Hnf (run_device_op_keeps report_op w device_ok) (or_introl Hsig)) as [Hacc Hsteps].
  split; [exact Hacc|]. destruct (Hsteps reported service (rtc_refl _ _)) as [[(_ & _ & _ & _ & Hr)|Hc] _]; [exfalso|exact Hc].
  unfold signalled in Hsig. rewrite Hsig in Hr. discriminate Hr.
Defined.

(** Two reports that are queued together: the listener protects the address
    of the event it handles, so that the first one's evicts the second's,
    which is the newer. *)
Example limit_keeps_the_older :
  ∃ w', maxaddr_recv_address false (set_maxaddr_events [mkAddressEvent EventTypeAddressCreated 1 1 0; mkAddressEvent EventTypeAddressCreated 2 1 0] w) = (Ok tt, w') ∧
    enabled_addresses_of (w_db (maxaddr_recv_address false w').2) 1 = [home] ∧ Address_UpdatedAt home < Address_UpdatedAt train.
Proof. eexists. split; [vm_compute; reflexivity|]. split; vm_compute; reflexivity. Qed.

(** ** queries *)

(** Anna's laptop with its two addresses, on both pages. *)
Example users_page_agrees_with_fleet_witness :
  ∃ gs xs, Fleet None false w = (Ok gs, w) ∧ ListUserAccessRows false w = (Ok xs, w) ∧
    (og_DeviceCount <$> gs) = [1] ∧ (og_LiveAddressCount <$> gs) = [2] ∧ (uli_LiveAddressCount <$> xs) = [2].
Proof.
  destruct (users_page_agrees_with_fleet false w eq_refl device_ok users_ok) as (gs & HF & _ & HL).
  rewrite decide_True in HL by (repeat constructor; by eexists).
  destruct HL as (xs & HL & _). exists gs, xs. split; [exact HF|]. split; [exact HL|].
  assert (fst (Fleet None false w) = Ok gs) as Hg by (by rewrite HF). assert (fst (ListUserAccessRows false w) = Ok xs) as Hx by (by rewrite HL).
  vm_compute in Hg. vm_compute in Hx. injection Hg as <-. injection Hx as <-. repeat split.
Defined.

Definition answered {A} (r : result (Response A)) : option Z := match r with Ok x => Some (Status x) | Err _ => None end.

(** A new user whose settings row could not be written: the error is only
    logged, and from then on the users' page fails for everyone, while the
    page of the user itself and the fleet answer. *)
Example user_without_settings_fails_the_list :
  let bob := mkUser 11 "bob" "Bob" None None UserRole false (Some 10) 0 None in
  let w' := (useraccess_OnUserEvent (mkUserEvent EventTypeUserCreated 11) true (set_faults [Some true] (set_db (on_users <[11 := bob]> tables) w))).2 in
  answered (handler_ListUsersWithAccess false w').1 = Some 500 ∧
  answered (handler_GetUserAccessDetail 11 false w').1 = Some 200 ∧
  answered (handler_GetDeviceFleet None false w').1 = Some 200.
Proof. vm_compute. repeat split. Qed.

(** Anna is live with access, in the posture and in the audit. *)
Definition posture_service : Service :=
  mkService "" AddrZero (buildIPSet (enabled_ip_entries tables) (host_access tables)) (buildNetworkPolicyCache []) None 0.

Example posture_agrees_with_audit_witness :
  ∃ p a, BuildDashboardPosture GetEnabledIPEntries false w = (Ok p, w) ∧
    BuildPolicyUserMap posture_service (Some GetEnabledCacheEntries) None false w = (Ok a, w) ∧
    posture_Users p = mkPostureUsers 0 1 0 0 0 ∧ posture_Users p = tally (ue_Status <$> audit_Users a).
Proof.
  destruct (posture_agrees_with_audit posture_service [] None false w eq_refl device_ok policies_ok users_ok) as (p & a & Hp & Ha & Hu & _).
  - intros u g Hug. change ((u, g) ∈ ({[(10, 1)]} : gset (Z * Z))) in Hug. apply elem_of_singleton in Hug as [= -> ->]. by eexists.
  - split; reflexivity.
  - exists p, a. split; [exact Hp|]. split; [exact Ha|]. split; [|exact Hu].
    assert (fst (BuildDashboardPosture GetEnabledIPEntries false w) = Ok p) as E by (by rewrite Hp). vm_compute in E. injection E as <-. reflexivity.
Defined.

(** ** The start of the program *)

Module StartupExample.
Import AuthDemo RetentionDemo.
#[local] Existing Instance utc.

Definition kinds (_ : time) : list AttributionKind := [AttributionKindPolicy; AttributionKindUser; AttributionKindDevice].

(** The sample database, found by a program that starts at 100 s. *)
Definition w_start : world := world_of tables (100 * Second) ["salt"].
Definition start : result App * world := NewWithConfig kinds (λ _, None) (λ _, None) 0 false (conf 30 365) false w_start.

Definition lets_in (ip : Addr) (host : string) : bool :=
  match start.1 with Ok app => Allowed (Decide (App_PolicyService app) ip host) | Err _ => false end.

(** It lets in the laptop on the train, and not from the home address whose
    lease ran out at 50 s. *)
Example startup_is_safe_witness :
  ∃ app w', start = (Ok app, w') ∧ (∃ r, root (w_db w') r) ∧
    tables_allow (w_db w') AddrZero (Addr4 3405803785) "wiki.example.org" ∧ lets_in (Addr4 3325256711) "wiki.example.org" = false.
Proof.
  assert (lets_in (Addr4 3405803785) "wiki.example.org" = true) as Hin by (vm_compute; reflexivity).
  assert (lets_in (Addr4 3325256711) "wiki.example.org" = false) as Hout by (vm_compute; reflexivity).
  unfold lets_in in Hin. destruct start as [[app|e] w'] eqn:E; [|discriminate Hin].
  destruct (startup_is_safe kinds (λ _, None) (λ _, None) 0 false (conf 30 365) w_start app w' tables_ok E)
    as (Hroot & _ & Hall).
  exists app, w'. split; [reflexivity|]. split; [exact Hroot|]. split; [|exact Hout].
  exact (proj1 (Hall (Addr4 3405803785) "wiki.example.org" Hin)).
Defined.
End StartupExample.

(** ** A heartbeat over HTTP *)

Module HeartbeatExample.
#[local] Existing Instance HttpDemo.in_order_validator.

Definition key : string := APIKeyPrefix +:+ "laptop-key".
Definition keyed : db := on_api_keys (<[1 := mkApiKey "wdk_lapt" (HashAPIKey key) 0]>) Sample.tables.

Lemma keyed_inv : device_inv keyed.
Proof.
  destruct device_ok as [H1 H2 H3 H4 H5 H6 _ _ H9]. constructor; cbn [devices addresses users keyed on_api_keys]; auto.
  - intros i k Hk. change ((<[1 := mkApiKey "wdk_lapt" (HashAPIKey key) 0]> ∅ : gmap Z ApiKey) !! i = Some k) in Hk.
    apply lookup_insert_Some in Hk as [[<- _]|[_ Hk]]; [by eexists|by rewrite lookup_empty in Hk].
  - intros i j k l Hk Hl. change ((<[1 := mkApiKey "wdk_lapt" (HashAPIKey key) 0]> ∅ : gmap Z ApiKey) !! i = Some k) in Hk.
    change ((<[1 := mkApiKey "wdk_lapt" (HashAPIKey key) 0]> ∅ : gmap Z ApiKey) !! j = Some l) in Hl.
    apply lookup_insert_Some in Hk as [[<- _]|[_ Hk]]; [|by rewrite lookup_empty in Hk].
    by apply lookup_insert_Some in Hl as [[<- _]|[_ Hl]]; [|rewrite lookup_empty in Hl].
Qed.

(** Both come through the proxy 10.0.0.1, which says who sent them. *)
Definition hb : Request := mkRequest "POST" HeartbeatEndpoint "10.0.0.1:4000" "198.51.100.9" None key.
Definition fa : Request := mkRequest "GET" "/api/verify-ip" "10.0.0.1:4001" "::ffff:198.51.100.9" None "".
Definition gate : Addr := Addr4 167772161.
Definition beat : result (Response AddressResponse) * world := heartbeat gate (λ _ _, false) None hb false (set_db keyed w).

Definition opened : bool :=
  match beat with
  | (Ok (mkResponse _ (Some _)), w1) =>
      match refreshCache app_providers 0 service false w1 with
      | (Ok s', _) => (forward_auth s' None 0 0 gate fa ask).1 =? 200
      | _ => false
      end
  | _ => false
  end.

Lemma opened_true : opened = true.
Proof. vm_compute. reflexivity. Qed.

Example heartbeat_opens_access_witness :
  ∃ st b w1 s' w2, beat = (Ok (mkResponse st (Some b)), w1) ∧ refreshCache app_providers 0 service false w1 = (Ok s', w2) ∧
    (forward_auth s' None 0 0 gate fa ask).1 = 200 ∧
    ∃ dev, device_key keyed key dev ∧ ∃ y v, registered (w_db w1) (Addr4 3325256713) y v ∧ Address_DeviceID y = dev ∧
      user_may_reach keyed (Device_OwnerID v) (NormaliseHost "wiki.example.org").
Proof.
  pose proof opened_true as Hok. unfold opened in Hok.
  destruct beat as [[[st [b|]]|e] w1] eqn:Hb; [|discriminate Hok|discriminate Hok].
  destruct (refreshCache app_providers 0 service false w1) as [[s'|e] w2] eqn:Href; [|discriminate Hok]. apply Z.eqb_eq in Hok.
  assert (address_of (clientIPMiddleware gate hb) = Some (Addr4 3325256713)) as H1 by (vm_compute; reflexivity).
  assert (address_of (clientIPMiddleware gate fa) = Some (Addr4 3325256713)) as H2 by (vm_compute; reflexivity).
  destruct (heartbeat_opens_access gate (λ _ _, false) None hb (set_db keyed w) st b w1 service 0 s' w2 fa (Addr4 3325256713) None 0 0 ask "secret"
    keyed_inv eq_refl Hb Href H1 H2 ask_asks) as (dev & Hkey & Hiff & y & v & Hr & Hy & _).
  exists st, b, w1, s', w2. split; [reflexivity|]. split; [exact Href|]. split; [exact Hok|]. exists dev. split; [exact Hkey|].
  exists y, v. split; [exact Hr|]. split; [exact Hy|]. exact (proj1 Hiff Hok y v Hr).
Defined.
End HeartbeatExample.
